(* ===== verification/_CoqProject ===== *)
-Q . S2P
Prelude.v
GoLib.v
GoText.v
Aead.v
Encapsulation.v
FtpProtocol.v
FtpReorder.v
FtpChannel.v
FtpConn.v
FtpDial.v
FtpControl.v
FtpControlThms.v
FtpLogin.v
FtpServer.v
FtpLink.v
FtpServerFacts.v
FtpServerThms.v
FtpClient.v
FtpClientThms.v
DpiWire.v
DpiServer.v
DpiSession.v
DpiTransport.v
DpiSessionThms.v
DpiThms.v
DpiTransportThms.v
GoHeap.v
ClientMap.v
QueuePacketConn.v
Snowflake.v
Redial.v
MuxPipe.v
Startup.v
DpiTunnel.v
GoNet.v
Socks5.v
Obfs.v
DpiResolver.v
DpiForward.v
DpiReverse.v
Proxies.v
Reconnect.v
Termon.v
DpiBoot.v
SfStreams.v
FtpSocks.v
FtpRun.v
Upstream.v
FtpPool.v
DpiOpen.v
Relays.v
DpiHttp.v
Listeners.v
Support.v
HttpDialer.v
