(* ===== verification/Prelude.v ===== *)
(** PT-Proxy, a verification library.

    PT-Proxy (src/) is one program that runs censorship-circumvention tunnels from a JSON file.
    Each tunnel hides virtual connections inside another protocol: FTP data transfers
    (src/ftp), HTTP requests (src/dpi), or WebSockets (src/snowflake).  The library models the
    tunnels' own protocol code as Rocq functions and transition systems that follow the Go code
    definition by definition, and proves what makes them correct, or shows where they are not.

    * How Go is modelled

    Prelude.v (this file): bytes, machine integers written out with their truncation, errors and
    [result] (a value, an error, a panic, or no answer within the fuel), the [conn] with its
    input, output and failures, and three monads: [IO] (a call on a connection), [ST] (a handler
    on the state of its component) and [RS] (the two together).  GoLib.v and GoText.v model what
    the program uses of strings, strconv, net, fmt, bufio and net/textproto, GoHeap.v
    container/heap; Aead.v is the interface of AES-GCM (class [AEAD], laws [AEADLaws]).
    A goroutine is the sequence of its atomic steps: what runs under one mutex, or up to the next
    blocking operation, is one step, and the steps of all goroutines interleave freely.  What Go
    holds by pointer (channels of Go, sockets, upstreams) is a number in a store, so that
    aliasing is visible.  The network, random numbers, clocks and the libraries that are not
    under src/ (smux, KCP, gorilla/websocket, obfs4, uTLS) are arguments.

    * FTP tunnel (src/ftp)

    FtpProtocol.v: frames and encrypted batches (common/protocol.go).  FtpReorder.v: the reorder
    buffer (common/reorder.go).  FtpChannel.v: data channels and port ranges
    (common/channel.go).  FtpConn.v: the FTP client connection (common/ftpclient.go).
    FtpControl.v, FtpControlThms.v: the server's FTP façade (server/server.go, its control
    side).  FtpLogin.v: the façade and the client connection talking to each other.  FtpServer.v,
    FtpServerFacts.v, FtpServerThms.v: the server's tunnel, written against the class
    [ChannelOps]; FtpLink.v gives its instance for the channels of FtpChannel.v.  FtpDial.v,
    FtpClient.v, FtpClientThms.v: the client (client/client.go), and client and server together.
    Theorems: wire round trips and their exact failures; in-order delivery; the server's
    invariant, the isolation of its sessions; login and passive mode end to end; data from one
    socket to the other in both directions, and the schedules in which it is lost.  FtpRun.v: the
    life of Run, its listener and its shutdown.  FtpSocks.v: the SOCKS5 front end of the client,
    its login and its requests.  FtpPool.v: the session pool of common/ftpclient.go, which
    nothing uses, and the decoy traffic.

    * DPI tunnel (src/dpi)

    DpiWire.v: the wire format (common/).  DpiServer.v: server/handler.go and the state of
    server/server.go.  DpiSession.v: client/session.go and the stream reader.  DpiTransport.v:
    client/transport.go and tunnel_conn.go.  DpiSessionThms.v, DpiThms.v, DpiTransportThms.v: the
    exact decoders; the stream reader against a reference; sessions as byte streams; streams end
    to end; what crosses between clients, connections and requests.  DpiTunnel.v: the net.Conn of
    client/proxy.go over one virtual connection, its two pumps, its batches and their timer:
    writes and reads in order over all interleavings, the writes that return and the calls that
    hang.  DpiForward.v: the goroutines that join it to a local socket.  DpiReverse.v: the
    listeners of reverse clients (server/handler.go, common/dualbind), over all interleavings of
    their requests.  DpiOpen.v: how a stream session comes up and ends, over the
    interleavings of startSession with its goroutines.  DpiBoot.v: how server and client come up: the listeners, the sources of
    certificates, the protocols they agree on.  DpiHttp.v: the client's requests with their
    headers, and the handlers of the server that they reach.

    * Snowflake (src/snowflake/common)

    Encapsulation.v: chunks of data and padding (encapsulation/).  ClientMap.v: the heap of live
    clients (turbotunnel/clientmap.go), an instance of the class of GoHeap.v, equivalent to one
    map.  QueuePacketConn.v: the queues between the server's handlers and KCP, with their
    invariant over all interleavings.  Redial.v: the client's redialing connection.  Snowflake.v:
    WebSockets as byte streams, the client's introduction, the server's handlers, end to end.
    SfStreams.v: the SOCKS mode (common/socks5 and the streams of common/standalone): the
    handshake, the codec of targets, a SOCKS request end to end.  Upstream.v: connecting through
    a proxy (standalone/proxy.go).

    * Multiplexed streams and start-up

    MuxPipe.v: common/muxpipe, the streams that DPI and snowflake carry in smux sessions:
    detection of the protocol, the datagram and string codecs, Copy, the UDP relays, and the
    listeners a server opens for reverse clients.  Startup.v: common/configuration,
    common/service and src/main: the registry of services, the tags, and what each entry of a
    configuration is launched with.  Reconnect.v: the loops of the obfs and snowflake clients
    (obfs/client, main/snowflake.go, RunForwardClient): what is lost when sessions end.
    Relays.v: the other two copying loops (copyLoop of obfs/server, CopyLoop of standalone).
    Termon.v: shutting down (common/termon), and the certificates made at start-up.

    * Local services

    GoNet.v: the IP addresses of package net.  Socks5.v: the SOCKS5 service and its UDP relay
    (proxy/socks5/server.go), its headers and its table of remote sockets.  Obfs.v: obfs
    (addresses, the identity of a server and the certificate it prints, its set-up and its
    handler).  DpiResolver.v: the DNS resolver of the DPI client (dpi/client/dns_resolver.go):
    its cache, the lifetime it reads from an answer, the framing over TCP, its time-out.
    Proxies.v: the HTTP proxy (proxy/httpproxy and the front end of dpi/client/proxy.go), the
    connections of the HTTP dialer, and the SOCKS4 dialer.  HttpDialer.v: the dialing of the
    former.

    * All over the program

    Listeners.v: the loops that accept connections, in all the tunnels and services, and what
    each does with errors.  Support.v: the format of sizes in the FTP metrics, ini files, ports,
    the TLS dialer and the certificates of DPI, and what a snowflake session opens and closes.

    * Fuel

    Loops that are structural in their input are Fixpoints on it.  The others take fuel and start
    with a bound on their turns: one unit per byte still to be read for readers ([ReadData],
    the stream readers and download loops, whose theorems start with more fuel than there are
    messages), one per index for the heap ([S j] for [up], [S n] for [down]), one per record
    for [removeExpired]; [doPost] has no bound of its own because the code follows redirects
    without one (DpiTransportThms.doPost_redirects).  Where totality is not immediate it is
    proved ([Encapsulation.ReadData_total], [ClientMap.run_spec]).

    * Not modelled

    KCP, smux, TLS, x509, DNS messages and the HTTP library, which are not under src/; deadlines
    and time-outs, except where the code computes with times; the delivery of signals, logging,
    and the counters of the FTP server (LogTag is left out of FtpControl.Config); the JSON of the
    configuration files (common/configuration).  Of the local services: the TCP side of SOCKS5,
    which is the library go-socks5. *)

From Stdlib Require Import ZArith Lia Strings.Byte Strings.String.
From stdpp Require Import gmap strings list fin_maps.

#[local] Open Scope Z_scope.

Declare Scope go_scope.
Delimit Scope go_scope with go.

(** ** Bytes and machine integers *)

(** The value of a byte, and the conversion [byte(z)] of Go, which truncates. *)
Definition byte_to_Z (b : byte) : Z := Z.of_N (Byte.to_N b).
Definition byte_of_Z (z : Z) : byte :=
  default Byte.x00 (Byte.of_N (Z.to_N (z mod 256))).

(** The conversions [uint16(z)] and [uint32(z)]. *)
Definition u16 (z : Z) : Z := z mod 65536.
Definition u32 (z : Z) : Z := z mod 4294967296.

#[export] Instance byte_eq_dec : EqDecision byte := Byte.byte_eq_dec.

#[export] Program Instance byte_countable : Countable byte :=
  inj_countable Byte.to_N Byte.of_N Byte.of_to_N.

(** [len(x)] of a slice. *)
Definition len {A} (l : list A) : Z := Z.of_nat (length l).

(** [l[i:j]] of a slice, for bounds known to be in range. *)
Definition sub {A} (l : list A) (i j : nat) : list A := take (j - i) (drop i l).

(** binary.BigEndian: [be_put n v] is the [n] low bytes of [v], most significant first;
    [be_get] is the value of a big-endian byte string. *)
Fixpoint be_put (n : nat) (v : Z) : list byte :=
  match n with
  | O => []
  | S m => byte_of_Z (Z.shiftr v (8 * Z.of_nat m)) :: be_put m v
  end.

Definition be_get (bs : list byte) : Z :=
  fold_left (fun acc b => Z.lor (Z.shiftl acc 8) (byte_to_Z b)) bs 0.

Abbreviation PutUint16 := (be_put 2).
Abbreviation PutUint32 := (be_put 4).

(** Go conversions between string and []byte. *)
Abbreviation bytes_of := list_byte_of_string (only parsing).
Abbreviation string_of := string_of_list_byte (only parsing).

(** ** Errors, results *)

(** An error value.  [Errorf fmt] is an error made by errors.New or fmt.Errorf with the
    format string [fmt]; the arguments of the format are not kept. *)
Inductive goerr : Type :=
  | EOF
  | ErrUnexpectedEOF
  | ErrClosedPipe
  | Errorf (fmt : string).

#[export] Instance goerr_eq_dec : EqDecision goerr.
Proof. solve_decision. Defined.

(** The outcome of a Go call: a value, a non-nil error, a run-time panic, or (for a loop
    modelled with fuel) no answer within the fuel. *)
Inductive result (A : Type) : Type :=
  | Ok (a : A)
  | Err (e : goerr)
  | Panic (msg : string)
  | OutOfFuel.
Arguments Ok {A} a.
Arguments Err {A} e.
Arguments Panic {A} msg.
Arguments OutOfFuel {A}.

#[export] Instance result_eq_dec {A} `{EqDecision A} : EqDecision (result A).
Proof. solve_decision. Defined.

#[export] Instance result_ret : MRet result := fun A a => Ok a.
#[export] Instance result_bind : MBind result := fun A B f m =>
  match m with
  | Ok a => f a
  | Err e => Err e
  | Panic s => Panic s
  | OutOfFuel => OutOfFuel
  end.

(** ** Connections and the I/O monad *)

(** One end of a byte stream.  [rx] holds the bytes still to be read and [rx_end] the error
    a read returns once they are used up.  [tx] holds the bytes written; when [tx_room] is
    [Some k] the writer accepts [k] more bytes and then fails with [tx_err]. *)
Record conn : Type := Conn {
  rx : list byte;
  rx_end : goerr;
  tx : list byte;
  tx_room : option nat;
  tx_err : goerr
}.

Definition set_rx (l : list byte) (c : conn) : conn :=
  Conn l (rx_end c) (tx c) (tx_room c) (tx_err c).
Definition set_tx (l : list byte) (r : option nat) (c : conn) : conn :=
  Conn (rx c) (rx_end c) l r (tx_err c).

(** A connection that holds [i] for its reader and whose writer never fails. *)
Definition conn_of (i : list byte) : conn := Conn i EOF [] None EOF.

(** A call that works on a connection. *)
Definition IO (A : Type) : Type := conn -> result A * conn.

#[export] Instance IO_ret : MRet IO := fun A a c => (Ok a, c).
#[export] Instance IO_bind : MBind IO := fun A B f m c =>
  match m c with
  | (Ok a, c') => f a c'
  | (Err e, c') => (Err e, c')
  | (Panic s, c') => (Panic s, c')
  | (OutOfFuel, c') => (OutOfFuel, c')
  end.

(** [return err] and the lifting of a pure result. *)
Definition throw {A} (e : goerr) : IO A := fun c => (Err e, c).
Definition lift {A} (r : result A) : IO A := fun c => (r, c).

(** An io.EOF becomes io.ErrUnexpectedEOF; other errors pass. *)
Definition eof_unexpected (e : goerr) : goerr :=
  match e with EOF => ErrUnexpectedEOF | _ => e end.

(** io.ReadFull on a buffer of [n] bytes. *)
Definition ReadFull (n : nat) : IO (list byte) := fun c =>
  if decide (n <= length (rx c))%nat
  then (Ok (take n (rx c)), set_rx (drop n (rx c)) c)
  else (Err (match rx c with
             | [] => rx_end c
             | _ => eof_unexpected (rx_end c)
             end), set_rx [] c).

(** r.Read on a one-byte buffer. *)
Definition ReadByte : IO byte := fun c =>
  match rx c with
  | [] => (Err (rx_end c), c)
  | b :: l => (Ok b, set_rx l c)
  end.

Definition unexpected {A} (m : IO A) : IO A := fun c =>
  match m c with
  | (Err e, c') => (Err (eof_unexpected e), c')
  | r => r
  end.

(** w.Write: the number of bytes written and the error, if any. *)
Definition Write (p : list byte) : IO (Z * option goerr) := fun c =>
  match tx_room c with
  | None => (Ok (len p, None), set_tx (tx c ++ p) None c)
  | Some k =>
      if decide (length p <= k)%nat
      then (Ok (len p, None), set_tx (tx c ++ p) (Some (k - length p)%nat) c)
      else (Ok (Z.of_nat k, Some (tx_err c)), set_tx (tx c ++ take k p) (Some O) c)
  end.

(** [if _, err := w.Write(p); err != nil { return err }]. *)
Definition Write_ (p : list byte) : IO unit :=
  r ← Write p;
  match r.2 with None => mret tt | Some e => throw e end.

(** [m] run for its effect, its error ignored: [_, _ = m]. *)
Definition ignore {A} (m : IO A) : IO unit := fun c =>
  match m c with
  | (Panic s, c') => (Panic s, c')
  | (OutOfFuel, c') => (OutOfFuel, c')
  | (_, c') => (Ok tt, c')
  end.

(** ** The state monad *)

(** A handler that works on the state [W] of its component. *)
Definition ST (W A : Type) : Type := W -> A * W.

#[export] Instance ST_ret {W} : MRet (ST W) := fun A a w => (a, w).
#[export] Instance ST_bind {W} : MBind (ST W) := fun A B f m w => let '(a, w) := m w in f a w.

Definition gets {W A} (f : W -> A) : ST W A := fun w => (f w, w).
Definition modify {W} (f : W -> W) : ST W unit := fun w => (tt, f w).

Fixpoint for_each {W A} (l : list A) (f : A -> ST W unit) : ST W unit :=
  match l with
  | [] => mret tt
  | x :: l => _ ← f x; for_each l f
  end.

(** A fallible handler that works on the state [W]: it keeps the state it has reached. *)
Definition RS (W A : Type) : Type := W -> result A * W.

#[export] Instance RS_ret {W} : MRet (RS W) := fun A a w => (Ok a, w).
#[export] Instance RS_bind {W} : MBind (RS W) := fun A B f m w =>
  match m w with
  | (Ok a, w') => f a w'
  | (Err e, w') => (Err e, w')
  | (Panic s, w') => (Panic s, w')
  | (OutOfFuel, w') => (OutOfFuel, w')
  end.

Definition fails {W A} (e : goerr) : RS W A := fun w => (Err e, w).

(** A key that a store does not use. *)
Definition fresh_id {A} (m : gmap nat A) : nat :=
  S (foldr Nat.max O (map fst (map_to_list m))).

Lemma fresh_id_gt {A} (m : gmap nat A) i x : m !! i = Some x -> (i < fresh_id m)%nat.
Proof.
  intros H%elem_of_map_to_list. unfold fresh_id.
  apply list_elem_of_In, (in_map fst) in H. simpl in H. revert H.
  induction (map fst (map_to_list m)) as [|j l IH]; simpl; [done|].
  intros [->|H]; [lia|]. specialize (IH H). lia.
Qed.

Lemma fresh_id_None {A} (m : gmap nat A) : m !! fresh_id m = None.
Proof.
  destruct (m !! fresh_id m) eqn:E; [|done]. apply fresh_id_gt in E. lia.
Qed.

(** ** Lemmas on bytes and integers *)

Lemma byte_to_Z_range b : 0 <= byte_to_Z b < 256.
Proof. unfold byte_to_Z. pose proof (Byte.to_N_bounded b). lia. Qed.

Lemma byte_of_to_Z b : byte_of_Z (byte_to_Z b) = b.
Proof.
  unfold byte_of_Z. rewrite Z.mod_small by apply byte_to_Z_range.
  unfold byte_to_Z. by rewrite N2Z.id, Byte.of_to_N.
Qed.

Lemma byte_to_of_Z z : byte_to_Z (byte_of_Z z) = z mod 256.
Proof.
  unfold byte_of_Z, byte_to_Z.
  pose proof (Z.mod_pos_bound z 256 ltac:(lia)).
  destruct (Byte.of_N (Z.to_N (z mod 256))) as [b|] eqn:E; simpl.
  - apply Byte.to_of_N in E. rewrite E. lia.
  - apply Byte.of_N_None_iff in E. lia.
Qed.

Lemma byte_to_of_Z_small z : 0 <= z < 256 -> byte_to_Z (byte_of_Z z) = z.
Proof. intros. rewrite byte_to_of_Z. by apply Z.mod_small. Qed.

Lemma byte_to_Z_inj a b : byte_to_Z a = byte_to_Z b -> a = b.
Proof. intros H. by rewrite <- (byte_of_to_Z a), H, byte_of_to_Z. Qed.

Lemma byte_of_Z_mod z : byte_of_Z (z mod 256) = byte_of_Z z.
Proof. unfold byte_of_Z. by rewrite Z.mod_mod by lia. Qed.

Lemma u16_range z : 0 <= u16 z < 65536.
Proof. apply Z.mod_pos_bound; lia. Qed.
Lemma u32_range z : 0 <= u32 z < 4294967296.
Proof. apply Z.mod_pos_bound; lia. Qed.
Lemma u16_small z : 0 <= z < 65536 -> u16 z = z.
Proof. apply Z.mod_small. Qed.
Lemma u32_small z : 0 <= z < 4294967296 -> u32 z = z.
Proof. apply Z.mod_small. Qed.

(** A masked value is its residue; a disjoint [lor] is a sum. *)
Lemma land_ones_mod z n m : m = Z.ones n -> 0 <= n -> Z.land z m = z mod 2 ^ n.
Proof. intros -> ?. by apply Z.land_ones. Qed.

Lemma lor_shiftl_add a b n :
  0 <= n -> 0 <= b < 2 ^ n -> Z.lor (Z.shiftl a n) b = a * 2 ^ n + b.
Proof.
  intros Hn Hb. rewrite <- Z.shiftl_mul_pow2 by done.
  rewrite <- Z.add_lor_land. enough (Z.land (Z.shiftl a n) b = 0) as -> by lia.
  apply Z.bits_inj'; intros i Hi. rewrite Z.land_spec, Z.bits_0.
  destruct (decide (i < n)); [by rewrite Z.shiftl_spec_low|].
  rewrite <- (Z.mod_small b (2 ^ n)), Z.mod_pow2_bits_high by lia.
  apply andb_false_r.
Qed.

Lemma lor_byte_add a b n :
  0 <= n -> 0 <= b < 2 ^ n -> a mod 2 ^ n = 0 -> Z.lor a b = a + b.
Proof.
  intros Hn Hb Ha.
  pose proof (Z.div_mod a (2 ^ n) ltac:(pose proof (Z.pow_pos_nonneg 2 n); lia)).
  replace a with (Z.shiftl (a / 2 ^ n) n) at 1
    by (rewrite Z.shiftl_mul_pow2 by done; lia).
  rewrite lor_shiftl_add by done. lia.
Qed.

(** ** Big-endian codecs *)

Lemma length_be_put n v : length (be_put n v) = n.
Proof. induction n; simpl; auto. Qed.

Lemma be_get_app l b : be_get (l ++ [b]) = be_get l * 256 + byte_to_Z b.
Proof.
  unfold be_get. rewrite fold_left_app. simpl.
  rewrite lor_shiftl_add by (try apply byte_to_Z_range; lia). done.
Qed.

Lemma be_put_snoc n v : be_put (S n) v = be_put n (Z.shiftr v 8) ++ [byte_of_Z v].
Proof.
  induction n as [|n IH].
  - simpl. by rewrite Z.shiftr_0_r.
  - change (be_put (S (S n)) v) with
      (byte_of_Z (Z.shiftr v (8 * Z.of_nat (S n))) :: be_put (S n) v).
    rewrite IH. simpl (be_put (S n) (Z.shiftr v 8)). rewrite Z.shiftr_shiftr by lia.
    simpl. do 3 f_equal; lia.
Qed.

Lemma be_get_put n v : be_get (be_put n v) = v mod 2 ^ (8 * Z.of_nat n).
Proof.
  revert v. induction n as [|n IH]; intros v.
  - by rewrite Z.mod_1_r.
  - rewrite be_put_snoc, be_get_app, IH, byte_to_of_Z, Z.shiftr_div_pow2 by lia.
    replace (8 * Z.of_nat (S n)) with (8 + 8 * Z.of_nat n) by lia.
    rewrite Z.pow_add_r by lia. change (2 ^ 8) with 256.
    rewrite Z.rem_mul_r by lia. lia.
Qed.

Lemma be_get_range l : 0 <= be_get l < 2 ^ (8 * len l).
Proof.
  unfold len. induction l as [|b l IH] using rev_ind; [done|].
  rewrite be_get_app, length_app. simpl (length [b]).
  replace (8 * Z.of_nat (length l + 1)) with (8 * Z.of_nat (length l) + 8) by lia.
  rewrite Z.pow_add_r by lia. change (2 ^ 8) with 256.
  pose proof (byte_to_Z_range b). nia.
Qed.

Lemma be_put_get l : be_put (length l) (be_get l) = l.
Proof.
  induction l as [|b l IH] using rev_ind; [done|].
  rewrite length_app. simpl (length [b]). rewrite Nat.add_1_r, be_put_snoc, be_get_app.
  pose proof (byte_to_Z_range b).
  rewrite Z.shiftr_div_pow2 by lia. change (2 ^ 8) with 256.
  rewrite Z.div_add_l, Z.div_small, Z.add_0_r, IH by lia.
  rewrite <- (byte_of_Z_mod (_ + _)), Z.add_comm, Z.mod_add, byte_of_Z_mod by lia.
  by rewrite byte_of_to_Z.
Qed.

Lemma be_put_get_n n l : length l = n -> be_put n (be_get l) = l.
Proof. intros <-. apply be_put_get. Qed.

Lemma be_get_put16 v : be_get (PutUint16 v) = u16 v.
Proof. apply (be_get_put 2). Qed.
Lemma be_get_put32 v : be_get (PutUint32 v) = u32 v.
Proof. apply (be_get_put 4). Qed.

Lemma be_get_1 b : be_get [b] = byte_to_Z b.
Proof. unfold be_get. simpl. by rewrite Z.shiftl_0_l, Z.lor_0_l. Qed.

(** ** Lengths and strings *)

Lemma len_nonneg {A} (l : list A) : 0 <= len l.
Proof. unfold len; lia. Qed.
Lemma len_app {A} (l k : list A) : len (l ++ k) = len l + len k.
Proof. unfold len. rewrite length_app. lia. Qed.
Lemma len_cons {A} (x : A) l : len (x :: l) = 1 + len l.
Proof. unfold len. simpl. lia. Qed.
Lemma len_nil {A} : len (@nil A) = 0.
Proof. done. Qed.
Lemma len_be_put n v : len (be_put n v) = Z.of_nat n.
Proof. unfold len. by rewrite length_be_put. Qed.
Lemma to_nat_len {A} (l : list A) : Z.to_nat (len l) = length l.
Proof. apply Nat2Z.id. Qed.
Lemma len_take {A} n (l : list A) : len (take n l) = Z.min (Z.of_nat n) (len l).
Proof. unfold len. rewrite length_take. lia. Qed.
Lemma len_drop {A} n (l : list A) : len (drop n l) = Z.max 0 (len l - Z.of_nat n).
Proof. unfold len. rewrite length_drop. lia. Qed.

Lemma length_sub {A} (l : list A) i j : (j <= length l)%nat -> length (sub l i j) = (j - i)%nat.
Proof. intros. unfold sub. rewrite length_take, length_drop. lia. Qed.
Lemma sub_app {A} (a b c : list A) i j :
  i = length a -> j = (i + length b)%nat -> sub (a ++ b ++ c) i j = b.
Proof.
  intros -> ->. unfold sub. rewrite drop_app_length, take_app_le by lia.
  by rewrite firstn_all2 by lia.
Qed.

Lemma string_of_bytes_of s : string_of (bytes_of s) = s.
Proof. apply string_of_list_byte_of_string. Qed.
Lemma bytes_of_string_of l : bytes_of (string_of l) = l.
Proof. apply list_byte_of_string_of_list_byte. Qed.
Lemma length_bytes_of s : length (bytes_of s) = String.length s.
Proof. induction s; simpl; auto. Qed.

(** ** Lemmas on the I/O monad *)

Lemma IO_bind_eq {A B} (m : IO A) (f : A -> IO B) c :
  (m ≫= f) c = match m c with
               | (Ok a, c') => f a c'
               | (Err e, c') => (Err e, c')
               | (Panic s, c') => (Panic s, c')
               | (OutOfFuel, c') => (OutOfFuel, c')
               end.
Proof. done. Qed.

Lemma bind_Ok {A B} (m : IO A) (f : A -> IO B) a c c' :
  m c = (Ok a, c') -> (m ≫= f) c = f a c'.
Proof. intros H. by rewrite IO_bind_eq, H. Qed.

Lemma bind_Err {A B} (m : IO A) (f : A -> IO B) e c c' :
  m c = (Err e, c') -> (m ≫= f) c = (Err e, c').
Proof. intros H. by rewrite IO_bind_eq, H. Qed.

Lemma ReadFull_app p q e t r w :
  ReadFull (length p) (Conn (p ++ q) e t r w) = (Ok p, Conn q e t r w).
Proof.
  unfold ReadFull, set_rx; simpl. rewrite length_app.
  rewrite decide_True by lia. by rewrite take_app_length, drop_app_length.
Qed.

Lemma ReadFull_exact n p q e t r w :
  length p = n -> ReadFull n (Conn (p ++ q) e t r w) = (Ok p, Conn q e t r w).
Proof. intros <-. apply ReadFull_app. Qed.

Lemma ReadFull_1 b q e t r w :
  ReadFull 1 (Conn (b :: q) e t r w) = (Ok [b], Conn q e t r w).
Proof. apply (ReadFull_app [b]). Qed.

Lemma ReadFull_short n l e t r w :
  (length l < n)%nat ->
  ReadFull n (Conn l e t r w) =
    (Err (match l with [] => e | _ => eof_unexpected e end), Conn [] e t r w).
Proof. intros. unfold ReadFull; simpl. by rewrite decide_False by lia. Qed.

(** A successful ReadFull returns the [n] bytes it removes from the stream. *)
Lemma ReadFull_Ok_inv n c p c' :
  ReadFull n c = (Ok p, c') ->
  length p = n /\ rx c = p ++ rx c' /\ c' = set_rx (rx c') c.
Proof.
  unfold ReadFull. case_decide; [|done]. intros [= <- <-]. simpl.
  rewrite length_take, take_drop. split_and!; [lia|done|]. by destruct c.
Qed.

Lemma Write_room_None p c :
  tx_room c = None -> Write p c = (Ok (len p, None), set_tx (tx c ++ p) None c).
Proof. intros H. unfold Write. by rewrite H. Qed.

Lemma Write__room_None p c :
  tx_room c = None -> Write_ p c = (Ok tt, set_tx (tx c ++ p) None c).
Proof.
  intros H. unfold Write_. rewrite IO_bind_eq, Write_room_None by done. done.
Qed.

Lemma Write__Conn p l e t w :
  Write_ p (Conn l e t None w) = (Ok tt, Conn l e (t ++ p) None w).
Proof. by rewrite Write__room_None. Qed.

(** ** Automation *)

(** [go_io]: the equations that run a call on a connection whose input is known.
    [go_len]: lengths. *)
Create HintDb go_io.
#[export] Hint Rewrite @ReadFull_app ReadFull_1 Write__Conn : go_io.

Create HintDb go_len.
#[export] Hint Rewrite @len_app @len_cons @len_nil len_be_put @length_app length_be_put
  @length_take @length_drop length_bytes_of : go_len.

Create HintDb go discriminated.
#[export] Hint Resolve byte_to_Z_range u16_range u32_range be_get_range len_nonneg : go.

(** Run the next call of an [IO] computation with a known equation for it. *)
Ltac io_step lem := rewrite (bind_Ok _ _ _ _ _ lem); cbn beta.
Ltac io_fail lem := rewrite (bind_Err _ _ _ _ _ lem).

(** Run [ReadFull] and [Write_] calls on a connection in constructor form. *)
Ltac io_run :=
  repeat first
    [ erewrite bind_Ok by first [apply ReadFull_1 | apply ReadFull_app | apply Write__Conn
                                | apply ReadFull_exact; by autorewrite with go_len ];
      cbn beta ].

(** Run a handler of the state monad. *)
Ltac st_run := unfold gets, modify, mbind, mret, ST_bind, ST_ret; simpl.

(** Split the outcome of a call in a hypothesis [m c = ...]. *)
Ltac io_case H m :=
  let r := fresh "r" in let c := fresh "c" in let E := fresh "E" in
  destruct m as [r c] eqn:E; destruct r; simplify_eq/=.

(** Linear arithmetic after the [go_len] equations. *)
Ltac len_lia := simpl in *; autorewrite with go_len in *; unfold len in *; simpl in *; lia.

(** Linear arithmetic with division and remainder by constants. *)
Ltac zdiv := Z.to_euclidean_division_equations; lia.
