(* ===== verification/GoLib.v ===== *)
(** What the program uses of Go's strings, strconv and net: functions on Go strings.

    A Go string is a Rocq [string], a sequence of bytes.  An index is a [Z], with -1 for "not
    found" as in Go.  The functions of the standard library are modelled here as they behave;
    nothing in this file models a file of src/. *)

From S2P Require Import Prelude.
From Stdlib Require Import ZArith Lia Strings.Byte Strings.Ascii Strings.String.
From stdpp Require Import gmap strings list fin_maps pretty.

#[local] Open Scope Z_scope.

(** ** Slices of strings *)

#[global] Arguments String.append !_ _ / : simpl nomatch.

Definition slen (s : string) : Z := Z.of_nat (String.length s).

(** [s[:n]] and [s[n:]] for [n] within the string. *)
Fixpoint take_s (n : nat) (s : string) : string :=
  match n, s with
  | S n, String c s => String c (take_s n s)
  | _, _ => EmptyString
  end.
Fixpoint drop_s (n : nat) (s : string) : string :=
  match n, s with
  | S n, String _ s => drop_s n s
  | O, s => s
  | _, EmptyString => EmptyString
  end.

(** [s[i:j]], which panics out of bounds. *)
Definition slice (s : string) (i j : Z) : result string :=
  if decide (0 <= i <= j /\ j <= slen s)
  then Ok (take_s (Z.to_nat (j - i)) (drop_s (Z.to_nat i) s))
  else Panic "slice bounds out of range".

(** ** strings *)

Definition HasPrefix (s p : string) : bool := String.prefix p s.

Definition TrimPrefix (s p : string) : string :=
  if HasPrefix s p then drop_s (String.length p) s else s.

(** strings.TrimSuffix. *)
Definition TrimSuffix (s p : string) : string :=
  let n := (String.length s - String.length p)%nat in
  if (String.length p <=? String.length s)%nat && String.eqb (drop_s n s) p then take_s n s else s.

Fixpoint Index (s sub : string) : Z :=
  if HasPrefix s sub then 0
  else match s with
       | EmptyString => -1
       | String _ s => let i := Index s sub in if i <? 0 then -1 else i + 1
       end.

Definition Contains (s sub : string) : bool := negb (Index s sub <? 0).

Fixpoint IndexByte (s : string) (c : ascii) : Z :=
  match s with
  | EmptyString => -1
  | String d s =>
      if Ascii.eqb d c then 0
      else let i := IndexByte s c in if i <? 0 then -1 else i + 1
  end.

Fixpoint LastIndexByte (s : string) (c : ascii) : Z :=
  match s with
  | EmptyString => -1
  | String d s =>
      let i := LastIndexByte s c in
      if i <? 0 then (if Ascii.eqb d c then 0 else -1) else i + 1
  end.

Definition ContainsByte (s : string) (c : ascii) : bool := negb (IndexByte s c <? 0).

(** strings.Split(s, sep) and strings.SplitN(s, sep, 2) for a separator of one byte. *)
Fixpoint Split (s : string) (sep : ascii) : list string :=
  match s with
  | EmptyString => [EmptyString]
  | String c s =>
      if Ascii.eqb c sep then EmptyString :: Split s sep
      else match Split s sep with
           | h :: t => String c h :: t
           | [] => []
           end
  end.

Definition SplitN2 (s : string) (sep : ascii) : list string :=
  let i := IndexByte s sep in
  if i <? 0 then [s]
  else [take_s (Z.to_nat i) s; drop_s (S (Z.to_nat i)) s].

(** strings.Join(elems, sep). *)
Abbreviation strings_Join elems sep := (String.concat sep elems).

Definition in_cutset (cutset : string) (c : ascii) : bool := ContainsByte cutset c.

Fixpoint TrimLeft (s cutset : string) : string :=
  match s with
  | String c r => if in_cutset cutset c then TrimLeft r cutset else s
  | EmptyString => s
  end.
Fixpoint TrimRight (s cutset : string) : string :=
  match s with
  | String c r =>
      match TrimRight r cutset with
      | EmptyString => if in_cutset cutset c then EmptyString else String c EmptyString
      | r => String c r
      end
  | EmptyString => s
  end.
Definition Trim (s cutset : string) : string := TrimRight (TrimLeft s cutset) cutset.

(** strings.ReplaceAll(s, old, new) for an [old] of one byte. *)
Fixpoint ReplaceAllByte (s : string) (old : ascii) (new : string) : string :=
  match s with
  | EmptyString => EmptyString
  | String c s =>
      if Ascii.eqb c old then new +:+ ReplaceAllByte s old new
      else String c (ReplaceAllByte s old new)
  end.

(** The white space of strings.TrimSpace: the six ASCII characters and the UTF-8 forms of
    U+0085, U+00A0, U+1680, U+2000 to U+200A, U+2028, U+2029, U+202F, U+205F and U+3000. *)
Definition spaces : list (list byte) :=
  [ [x09]; [x0a]; [x0b]; [x0c]; [x0d]; [x20]; [xc2; x85]; [xc2; xa0]; [xe1; x9a; x80];
    [xe2; x80; x80]; [xe2; x80; x81]; [xe2; x80; x82]; [xe2; x80; x83]; [xe2; x80; x84];
    [xe2; x80; x85]; [xe2; x80; x86]; [xe2; x80; x87]; [xe2; x80; x88]; [xe2; x80; x89];
    [xe2; x80; x8a]; [xe2; x80; xa8]; [xe2; x80; xa9]; [xe2; x80; xaf]; [xe2; x81; x9f];
    [xe3; x80; x80] ]%byte.

(** Removes from [l] leading elements of [ps], at most [fuel] of them. *)
Fixpoint strip (ps : list (list byte)) (fuel : nat) (l : list byte) : list byte :=
  match fuel with
  | O => l
  | S fuel =>
      match list_find (fun p => take (length p) l = p) ps with
      | Some (_, p) => strip ps fuel (drop (length p) l)
      | None => l
      end
  end.

Definition TrimSpace (s : string) : string :=
  let l := bytes_of s in
  let l := strip spaces (length l) l in
  string_of (rev (strip (map (@rev byte) spaces) (length l) (rev l))).

(** strings.ToUpper and strings.ToLower, to compare with an ASCII word: ASCII letters change
    case, and so do the characters outside ASCII whose other case is in ASCII (U+017F and
    U+0131; U+212A and U+0130).  Other characters outside ASCII are left as they are. *)
Definition upper_ascii (b : byte) : byte :=
  let z := byte_to_Z b in if (97 <=? z) && (z <=? 122) then byte_of_Z (z - 32) else b.
Definition lower_ascii (b : byte) : byte :=
  let z := byte_to_Z b in if (65 <=? z) && (z <=? 90) then byte_of_Z (z + 32) else b.

Fixpoint upper_bytes (l : list byte) : list byte :=
  match l with
  | xc5%byte :: xbf%byte :: l => x53%byte :: upper_bytes l
  | xc4%byte :: xb1%byte :: l => x49%byte :: upper_bytes l
  | b :: l => upper_ascii b :: upper_bytes l
  | [] => []
  end.
Fixpoint lower_bytes (l : list byte) : list byte :=
  match l with
  | xe2%byte :: x84%byte :: xaa%byte :: l => x6b%byte :: lower_bytes l
  | xc4%byte :: xb0%byte :: l => x69%byte :: lower_bytes l
  | b :: l => lower_ascii b :: lower_bytes l
  | [] => []
  end.
Definition ToUpper (s : string) : string := string_of (upper_bytes (bytes_of s)).
Definition ToLower (s : string) : string := string_of (lower_bytes (bytes_of s)).

(** ** strconv *)

(** Decimal of a machine integer: strconv.Itoa, and the verb %d. *)
Definition Itoa (z : Z) : string := pretty z.

Definition digit (c : ascii) : option Z :=
  let n := Z.of_N (N_of_ascii c) in
  if (48 <=? n) && (n <=? 57) then Some (n - 48) else None.

Fixpoint atoi_digits (s : string) (acc : Z) : option Z :=
  match s with
  | EmptyString => Some acc
  | String c s => match digit c with Some d => atoi_digits s (acc * 10 + d) | None => None end
  end.

Definition int64_ok (z : Z) : bool := (- 2 ^ 63 <=? z) && (z <=? 2 ^ 63 - 1).

Definition atoi_abs (neg : bool) (s : string) : option Z :=
  match s with
  | EmptyString => None
  | _ => z ← atoi_digits s 0;
         let z := if neg : bool then - z else z in
         if int64_ok z then Some z else None
  end.

(** strconv.Atoi: [None] for its error. *)
Definition Atoi (s : string) : option Z :=
  match s with
  | String "-" r => atoi_abs true r
  | String "+" r => atoi_abs false r
  | _ => atoi_abs false s
  end.

(** ** net *)

Definition missingPort : goerr := Errorf "missing port in address".
Definition tooManyColons : goerr := Errorf "too many colons in address".

(** net.SplitHostPort. *)
Definition SplitHostPort (hostport : string) : result (string * string) :=
  let i := LastIndexByte hostport ":" in
  if i <? 0 then Err missingPort
  else
    let finish host (j k : nat) :=
      if ContainsByte (drop_s j hostport) "[" then Err (Errorf "unexpected '[' in address")
      else if ContainsByte (drop_s k hostport) "]"
      then Err (Errorf "unexpected ']' in address")
      else Ok (host, drop_s (S (Z.to_nat i)) hostport) in
    match hostport with
    | String "[" _ =>
        let e := IndexByte hostport "]" in
        if e <? 0 then Err (Errorf "missing ']' in address")
        else if e + 1 =? slen hostport then Err missingPort
        else if e + 1 =? i
        then finish (take_s (Z.to_nat e - 1) (drop_s 1 hostport)) 1%nat (S (Z.to_nat e))
        else match drop_s (S (Z.to_nat e)) hostport with
             | String ":" _ => Err tooManyColons
             | _ => Err missingPort
             end
    | _ =>
        let host := take_s (Z.to_nat i) hostport in
        if ContainsByte host ":" then Err tooManyColons else finish host 0%nat 0%nat
    end.

(** net.JoinHostPort. *)
Definition JoinHostPort (host port : string) : string :=
  if ContainsByte host ":" then "[" +:+ host +:+ "]:" +:+ port
  else host +:+ ":" +:+ port.

(** fmt's %x of a byte string. *)
Definition hex_digit (z : Z) : ascii :=
  ascii_of_N (Z.to_N (if z <? 10 then z + 48 else z + 87)).
Fixpoint hex (l : list byte) : string :=
  match l with
  | [] => EmptyString
  | b :: l => String (hex_digit (byte_to_Z b / 16)) (String (hex_digit (byte_to_Z b mod 16)) (hex l))
  end.

(** ** Lemmas: slices *)

Lemma slen_nonneg s : 0 <= slen s.
Proof. unfold slen; lia. Qed.
Lemma slen_cons c s : slen (String c s) = 1 + slen s.
Proof. unfold slen; simpl; lia. Qed.
Lemma length_sapp a b : String.length (a +:+ b) = (String.length a + String.length b)%nat.
Proof. induction a; simpl; auto. Qed.
Lemma slen_app a b : slen (a +:+ b) = slen a + slen b.
Proof. unfold slen. rewrite length_sapp. lia. Qed.
Lemma sapp_assoc a b c : a +:+ (b +:+ c) = (a +:+ b) +:+ c.
Proof. induction a; simpl; congruence. Qed.
Lemma sapp_nil_r a : a +:+ EmptyString = a.
Proof. induction a; simpl; congruence. Qed.

Lemma take_s_app n a b : n = String.length a -> take_s n (a +:+ b) = a.
Proof. intros ->. induction a; simpl; congruence || by destruct b. Qed.
Lemma drop_s_app n a b : n = String.length a -> drop_s n (a +:+ b) = b.
Proof. intros ->. induction a; simpl; congruence || by destruct b. Qed.
Lemma take_drop_s n s : take_s n s +:+ drop_s n s = s.
Proof. revert s. induction n as [|n IH]; intros [|c s]; simpl; [done..|]. by rewrite IH. Qed.

Lemma length_take_s n s : (String.length (take_s n s) <= n)%nat.
Proof. revert s. induction n as [|n IH]; intros [|c s]; simpl; [lia..|]. specialize (IH s). lia. Qed.
Lemma take_bytes_of n s : take n (bytes_of s) = bytes_of (take_s n s).
Proof.
  revert s. induction n as [|n IH]; intros [|c s]; [done..|].
  change (byte_of_ascii c :: take n (bytes_of s) = byte_of_ascii c :: bytes_of (take_s n s)).
  by rewrite IH.
Qed.
Lemma drop_bytes_of n s : drop n (bytes_of s) = bytes_of (drop_s n s).
Proof. revert s. induction n as [|n IH]; intros [|c s]; [done..|]. apply IH. Qed.
Lemma bytes_of_app a b : bytes_of (a +:+ b) = bytes_of a ++ bytes_of b.
Proof.
  induction a as [|c a IH]; [done|].
  change (byte_of_ascii c :: bytes_of (a +:+ b) = byte_of_ascii c :: bytes_of a ++ bytes_of b).
  by rewrite IH.
Qed.
Lemma bytes_of_inj a b : bytes_of a = bytes_of b -> a = b.
Proof. intros H. by rewrite <- (string_of_bytes_of a), H, string_of_bytes_of. Qed.
Lemma len_bytes_of s : len (bytes_of s) = slen s.
Proof. unfold len, slen. by rewrite length_bytes_of. Qed.

Lemma HasPrefix_app p s : HasPrefix (p +:+ s) p = true.
Proof.
  unfold HasPrefix. induction p as [|c p IH]; simpl; [by destruct s|].
  by destruct (ascii_dec c c).
Qed.

Lemma HasPrefix_spec s p : HasPrefix s p = true <-> exists r, s = p +:+ r.
Proof.
  split; [|intros [r ->]; apply HasPrefix_app]. unfold HasPrefix.
  revert s. induction p as [|c p IH]; intros s H; [by exists s|].
  destruct s as [|d s]; simpl in H; [done|].
  destruct (ascii_dec c d); [|done]. subst. destruct (IH s H) as [r ->]. by exists r.
Qed.

Lemma TrimPrefix_app p s : TrimPrefix (p +:+ s) p = s.
Proof. unfold TrimPrefix. rewrite HasPrefix_app. by apply drop_s_app. Qed.

(** ** Lemmas: searching *)

(** [c] does not occur in [s]. *)
Fixpoint free (c : ascii) (s : string) : Prop :=
  match s with EmptyString => True | String d s => d <> c /\ free c s end.

#[export] Instance free_dec c s : Decision (free c s).
Proof. induction s; simpl; apply _. Defined.

Lemma free_app c a b : free c (a +:+ b) <-> free c a /\ free c b.
Proof. induction a; simpl; tauto. Qed.

Lemma IndexByte_range s c : -1 <= IndexByte s c < slen s.
Proof.
  induction s as [|d s IH]; simpl; [unfold slen; simpl; lia|]. rewrite slen_cons.
  repeat case_match; lia.
Qed.
Lemma IndexByte_free s c : free c s <-> IndexByte s c < 0.
Proof.
  induction s as [|d s IH]; simpl; [lia|].
  destruct (Ascii.eqb_spec d c); [intuition lia|]. rewrite IH.
  destruct (Z.ltb_spec (IndexByte s c) 0); intuition lia.
Qed.
Lemma IndexByte_app a c s : free c a -> IndexByte (a +:+ String c s) c = slen a.
Proof.
  induction a as [|d a IH]; simpl; intros H.
  - by rewrite Ascii.eqb_refl.
  - destruct H as [Hd H]. rewrite (proj2 (Ascii.eqb_neq _ _)) by done.
    rewrite IH by done. pose proof (slen_nonneg a). rewrite slen_cons.
    destruct (Z.ltb_spec (slen a) 0); lia.
Qed.
Lemma LastIndexByte_free s c : free c s -> LastIndexByte s c = -1.
Proof.
  induction s as [|d s IH]; simpl; [done|]. intros [Hd H]. rewrite IH by done. simpl.
  by rewrite (proj2 (Ascii.eqb_neq _ _)).
Qed.
Lemma LastIndexByte_app a c s : free c s -> LastIndexByte (a +:+ String c s) c = slen a.
Proof.
  intros H. induction a as [|d a IH]; simpl.
  - rewrite LastIndexByte_free by done. by rewrite Ascii.eqb_refl.
  - rewrite IH. pose proof (slen_nonneg a). rewrite slen_cons.
    destruct (Z.ltb_spec (slen a) 0); lia.
Qed.
Lemma LastIndexByte_range s c : -1 <= LastIndexByte s c < slen s.
Proof.
  induction s as [|d s IH]; simpl; [unfold slen; simpl; lia|]. rewrite slen_cons.
  repeat case_match; lia.
Qed.

Lemma ContainsByte_free s c : ContainsByte s c = false <-> free c s.
Proof.
  unfold ContainsByte. rewrite negb_false_iff, Z.ltb_lt. by rewrite IndexByte_free.
Qed.
Lemma ContainsByte_not_free s c : ContainsByte s c = true <-> ~ free c s.
Proof. rewrite <- ContainsByte_free. by destruct (ContainsByte s c). Qed.

(** The part of a string before its first separator, and the part after its last. *)
Lemma cut_unique a b c r s :
  free c a -> free c b -> a +:+ String c r = b +:+ String c s -> a = b /\ r = s.
Proof.
  revert b. induction a as [|d a IH]; intros [|e b]; simpl; intros Ha Hb H; simplify_eq.
  - done.
  - by destruct Hb.
  - by destruct Ha.
  - destruct (IH b); [tauto..|]. by subst.
Qed.
Lemma last_cut_unique a b c r s :
  free c r -> free c s -> a +:+ String c r = b +:+ String c s -> a = b /\ r = s.
Proof.
  revert b. induction a as [|d a IH]; intros [|e b]; simpl; intros Hr Hs H; simplify_eq.
  - done.
  - apply free_app in Hr. simpl in Hr. tauto.
  - apply free_app in Hs. simpl in Hs. tauto.
  - destruct (IH b); [done..|]. by subst.
Qed.

(** ** Lemmas: Split and Join *)

Lemma Split_cons_free a sep :
  free sep a -> Split a sep = [a].
Proof.
  induction a as [|c a IH]; simpl; [done|]. intros [Hc H].
  rewrite (proj2 (Ascii.eqb_neq _ _)), IH by done. done.
Qed.
Lemma Split_app a sep s :
  free sep a -> Split (a +:+ String sep s) sep = a :: Split s sep.
Proof.
  induction a as [|c a IH]; simpl; intros H.
  - by rewrite Ascii.eqb_refl.
  - destruct H as [Hc H]. rewrite (proj2 (Ascii.eqb_neq _ _)), IH by done. done.
Qed.

Lemma Split_Join l sep :
  l <> [] -> Forall (free sep) l -> Split (strings_Join l (String sep EmptyString)) sep = l.
Proof.
  intros Hl H. induction H as [|a l Ha Hf IH]; [done|].
  destruct l as [|b l]; simpl.
  - by apply Split_cons_free.
  - rewrite Split_app by done. f_equal. by apply IH.
Qed.

(** ** Lemmas: decimals *)

Lemma digit_pretty x :
  (x < 10)%N -> digit (pretty_N_char x) = Some (Z.of_N x).
Proof.
  intros H. unfold digit, pretty_N_char.
  destruct x as [|p]; [done|]. do 4 (destruct p as [p|p|]; try done; try lia).
Qed.

Lemma atoi_pretty_N_go x s :
  (0 < x)%N -> atoi_digits (pretty_N_go x s) 0 = atoi_digits s (Z.of_N x).
Proof.
  revert s. induction (N.lt_wf_0 x) as [x _ IH]; intros s Hx.
  rewrite pretty_N_go_step by done.
  assert (x mod 10 < 10)%N by (apply N.mod_lt; lia).
  assert (x = 10 * (x / 10) + x mod 10)%N as Hdiv by (apply N.div_mod; lia).
  destruct (decide (x / 10 = 0)%N) as [E|E].
  - rewrite E, pretty_N_go_0. simpl. rewrite digit_pretty by done. f_equal. lia.
  - rewrite IH by (first [apply N.div_lt; lia | apply N.neq_0_lt_0; done]). simpl. rewrite digit_pretty by done. f_equal. lia.
Qed.

Lemma atoi_pretty_N x : atoi_digits (pretty x) 0 = Some (Z.of_N x).
Proof.
  unfold pretty, pretty_N. case_decide; [by subst|].
  rewrite atoi_pretty_N_go by lia. done.
Qed.

(** The decimal digits of a number: not empty, all digits. *)
Fixpoint all_digits (s : string) : Prop :=
  match s with EmptyString => True | String c s => digit c <> None /\ all_digits s end.

Lemma all_digits_pretty_N_go x s : all_digits s -> all_digits (pretty_N_go x s).
Proof.
  revert s. induction (N.lt_wf_0 x) as [x _ IH]; intros s Hs.
  destruct (decide (x = 0)%N) as [->|Hx]; [by rewrite pretty_N_go_0|].
  rewrite pretty_N_go_step by lia. apply IH.
  - apply N.div_lt; lia.
  - simpl. rewrite digit_pretty by (apply N.mod_lt; lia). done.
Qed.
Lemma all_digits_pretty_N (x : N) : all_digits (pretty x).
Proof.
  unfold pretty, pretty_N. case_decide; [done|]. by apply all_digits_pretty_N_go.
Qed.

Lemma pretty_N_nonempty (x : N) : pretty x <> EmptyString.
Proof.
  intros H. pose proof (atoi_pretty_N x) as E. rewrite H in E. simpl in E.
  assert (x = 0)%N as -> by (injection E; lia). done.
Qed.

Lemma free_all_digits c s : digit c = None -> all_digits s -> free c s.
Proof. intros Hc. induction s as [|d s IH]; simpl; [done|]. intros [Hd H]. split; [|auto]. by intros ->. Qed.

Lemma Itoa_pos (z : Z) : 0 <= z -> Itoa z = pretty (Z.to_N z).
Proof. intros H. unfold Itoa. by destruct z. Qed.

Lemma free_Itoa c z : digit c = None -> c <> "-"%char -> free c (Itoa z).
Proof.
  intros H Hm. pose proof (fun x => free_all_digits c _ H (all_digits_pretty_N x)) as Hd.
  unfold Itoa. destruct z as [|p|p].
  - apply (Hd 0%N).
  - apply (Hd (Npos p)).
  - split; [done|]. apply (Hd (Npos p)).
Qed.

#[export] Instance Itoa_inj : Inj (=) (=) Itoa.
Proof. unfold Itoa. apply _. Qed.

Lemma atoi_abs_pretty (neg : bool) (x : N) :
  int64_ok (if neg then - Z.of_N x else Z.of_N x) = true ->
  atoi_abs neg (pretty x) = Some (if neg then - Z.of_N x else Z.of_N x).
Proof.
  intros H. unfold atoi_abs.
  destruct (pretty x) eqn:E; [by apply pretty_N_nonempty in E|].
  rewrite <- E, atoi_pretty_N. simpl. by rewrite H.
Qed.

Lemma Atoi_all_digits s : all_digits s -> Atoi s = atoi_abs false s.
Proof.
  destruct s as [|c s]; [done|]. intros [Hc _]. unfold Atoi.
  by destruct c as [[] [] [] [] [] [] [] []].
Qed.

Lemma Atoi_Itoa z : int64_ok z = true -> Atoi (Itoa z) = Some z.
Proof.
  intros H. destruct (Z.leb_spec 0 z).
  - rewrite Itoa_pos, Atoi_all_digits by (done || apply all_digits_pretty_N).
    rewrite (atoi_abs_pretty false) by (by rewrite Z2N.id). by rewrite Z2N.id.
  - destruct z as [|p|p]; [lia..|].
    change (Atoi (Itoa (Z.neg p))) with (atoi_abs true (pretty (Npos p))).
    by rewrite (atoi_abs_pretty true).
Qed.

Lemma Itoa_nonempty z : String.eqb (Itoa z) "" = false.
Proof.
  apply String.eqb_neq. unfold Itoa. destruct z as [|p|p]; [done| |done].
  apply (pretty_N_nonempty (Npos p)).
Qed.

Lemma TrimSuffix_app s p : TrimSuffix (s +:+ p) p = s.
Proof.
  unfold TrimSuffix. rewrite length_sapp.
  replace (String.length s + String.length p - String.length p)%nat with (String.length s) by lia.
  rewrite drop_s_app, take_s_app, String.eqb_refl by done.
  by rewrite (proj2 (Nat.leb_le _ _)) by lia.
Qed.

(** ** Lemmas: white space *)

Lemma strip_id ps n (l : list byte) :
  (forall p, p ∈ ps -> take (length p) l <> p) -> strip ps n l = l.
Proof.
  intros H. destruct n; [done|]. cbn [strip].
  destruct (list_find _ _) as [[i p]|] eqn:E; [|done].
  apply list_find_Some in E as (Hi & Hp & _). exfalso.
  apply (H p); [by eapply list_elem_of_lookup_2|done].
Qed.

(** A byte that is part of no white space character. *)
Definition solid (b : byte) : Prop := Forall (fun p => b ∉ p) spaces.

#[export] Instance solid_dec b : Decision (solid b).
Proof. unfold solid. apply _. Defined.

Lemma strip_solid ps n l :
  Forall (fun p => p <> [] /\ forall b, b ∈ p -> ~ solid b) ps -> Forall solid l ->
  strip ps n l = l.
Proof.
  intros Hps Hl. apply strip_id. intros p Hp E. rewrite Forall_forall in Hps.
  destruct (Hps p Hp) as [Hne Hb]. destruct p as [|b p]; [done|].
  apply (Hb b); [apply list_elem_of_here|]. rewrite Forall_forall in Hl. apply Hl.
  destruct l as [|x l]; [done|]. simpl in E. injection E as -> _. apply list_elem_of_here.
Qed.

Lemma spaces_not_solid : Forall (fun p => p <> [] /\ forall b, b ∈ p -> ~ solid b) spaces.
Proof.
  apply Forall_forall. intros p Hp. split.
  - intros ->. revert Hp. apply (bool_decide_unpack _). by vm_compute.
  - intros b Hb H. unfold solid in H. rewrite Forall_forall in H. by apply (H p).
Qed.

(** A string without bytes of white space is not trimmed. *)
Lemma TrimSpace_solid s : Forall solid (bytes_of s) -> TrimSpace s = s.
Proof.
  intros H. unfold TrimSpace. rewrite (strip_solid spaces) by
    (done || apply spaces_not_solid).
  rewrite strip_solid.
  - by rewrite rev_involutive, string_of_bytes_of.
  - apply Forall_forall. intros p' Hp'.
    apply list_elem_of_In, in_map_iff in Hp' as (p & <- & Hp). apply list_elem_of_In in Hp.
    pose proof spaces_not_solid as Hs. rewrite Forall_forall in Hs. destruct (Hs p Hp) as [H1 H2].
    split; [intros E; apply H1; by rewrite <- (rev_involutive p), E|].
    intros b Hb. apply H2. by apply list_elem_of_In, in_rev, list_elem_of_In.
  - by apply Forall_rev.
Qed.

Lemma solid_digit c : digit c <> None -> solid (byte_of_ascii c).
Proof.
  destruct c as [[] [] [] [] [] [] [] []]; intros H; try (by destruct (H eq_refl));
    apply (bool_decide_unpack _); by vm_compute.
Qed.

Lemma solid_digits s : all_digits s -> Forall solid (bytes_of s).
Proof.
  induction s as [|c s IH]; [constructor|]. intros [Hc H].
  constructor; [by apply solid_digit|by apply IH].
Qed.

(** ** Lemmas: host and port *)

Lemma drop_s_0 s : drop_s 0 s = s.
Proof. by destruct s. Qed.

Lemma SplitHostPort_Join host port :
  free "[" host -> free "]" host ->
  free "[" port -> free "]" port -> free ":" port ->
  SplitHostPort (JoinHostPort host port) = Ok (host, port).
Proof.
  intros Hh1 Hh2 Hp1 Hp2 Hp3. unfold JoinHostPort.
  destruct (ContainsByte host ":") eqn:E.
  - assert ("[" +:+ host +:+ "]:" +:+ port = ("[" +:+ host +:+ "]") +:+ String ":" port) as ->
      by (by rewrite <- !sapp_assoc).
    unfold SplitHostPort. rewrite LastIndexByte_app by done.
    assert (slen ("[" +:+ host +:+ "]") = slen host + 2) as Hl
      by (rewrite !slen_app; change (slen "[") with 1; change (slen "]") with 1; lia).
    pose proof (slen_nonneg host). pose proof (slen_nonneg port).
    rewrite Hl, (proj2 (Z.ltb_ge _ _)) by lia. cbn [String.append app].
    assert (IndexByte (String "[" ((host +:+ "]") +:+ String ":" port)) "]" = slen host + 1) as He.
    { rewrite <- sapp_assoc.
      change (String "[" (host +:+ "]" +:+ String ":" port)) with
        (String "[" host +:+ String "]" (String ":" port)).
      rewrite IndexByte_app by done. rewrite slen_cons. lia. }
    simpl String.append in *. rewrite He, (proj2 (Z.ltb_ge _ _)) by lia.
    rewrite (proj2 (Z.eqb_neq _ _)).
    2:{ rewrite slen_cons, !slen_app, !slen_cons. change (slen "") with 0. lia. }
    rewrite (proj2 (Z.eqb_eq _ _)) by lia.
    assert (drop_s 1 (String "[" ((host +:+ "]") +:+ String ":" port)) =
      (host +:+ "]") +:+ String ":" port) as Hd by apply (drop_s_0 ((host +:+ "]") +:+ String ":" port)).
    assert (drop_s (S (Z.to_nat (slen host + 1))) (String "[" ((host +:+ "]") +:+ String ":" port))
      = String ":" port) as Hd2.
    { simpl. apply drop_s_app. rewrite length_sapp. unfold slen. simpl. lia. }
    rewrite Hd, Hd2.
    rewrite (proj2 (ContainsByte_free _ "[")).
    2:{ rewrite !free_app. by repeat split. }
    rewrite (proj2 (ContainsByte_free _ "]")) by (by repeat split).
    do 2 f_equal.
    + rewrite <- sapp_assoc. apply take_s_app. unfold slen. lia.
    + assert (S (Z.to_nat (slen host + 2)) = S (S (S (Z.to_nat (slen host))))) as -> by lia.
      change (String "[" ((host +:+ "]") +:+ String ":" port)) with
        (("[" +:+ (host +:+ "]")) +:+ String ":" port).
      replace (("[" +:+ (host +:+ "]")) +:+ String ":" port) with
        ((("[" +:+ host) +:+ "]:") +:+ port) by (by rewrite <- !sapp_assoc).
      apply drop_s_app. rewrite !length_sapp. unfold slen. simpl. lia.
  - apply ContainsByte_free in E. unfold SplitHostPort.
    assert (host +:+ ":" +:+ port = host +:+ String ":" port) as -> by done.
    rewrite LastIndexByte_app by done. pose proof (slen_nonneg host).
    rewrite (proj2 (Z.ltb_ge _ _)) by done.
    assert (take_s (Z.to_nat (slen host)) (host +:+ String ":" port) = host) as ->
      by (apply take_s_app; unfold slen; lia).
    rewrite (proj2 (ContainsByte_free host ":")) by done. rewrite drop_s_0.
    rewrite (proj2 (ContainsByte_free _ "[")) by (rewrite free_app; by repeat split).
    rewrite (proj2 (ContainsByte_free _ "]")) by (rewrite free_app; by repeat split).
    assert (drop_s (S (Z.to_nat (slen host))) (host +:+ String ":" port) = port) as ->.
    { replace (host +:+ String ":" port) with ((host +:+ ":") +:+ port)
        by (by rewrite <- sapp_assoc).
      apply drop_s_app. rewrite length_sapp. unfold slen. simpl. lia. }
    destruct (host +:+ String ":" port) as [|c r] eqn:Ec; [done|].
    destruct (decide (c = "["%char)) as [->|Hc].
    + destruct host; simplify_eq/=. by destruct Hh1.
    + by destruct c as [[] [] [] [] [] [] [] []].
Qed.

(** More colons than one, and no bracket in front. *)
Lemma SplitHostPort_colons host port :
  free "[" host -> ~ free ":" host -> free ":" port -> SplitHostPort (host +:+ String ":" port) = Err tooManyColons.
Proof.
  intros Hb Hc Hp. unfold SplitHostPort. rewrite LastIndexByte_app by done.
  rewrite (proj2 (Z.ltb_ge _ _)) by apply slen_nonneg. cbv zeta.
  destruct host as [|c host]; [by destruct Hc|]. cbn [String.append append].
  assert (take_s (Z.to_nat (slen (String c host))) (String c (host +:+ String ":" port)) = String c host) as ->.
  { apply (take_s_app _ (String c host) (String ":" port)). unfold slen. by rewrite Nat2Z.id. }
  apply ContainsByte_not_free in Hc. rewrite Hc. destruct Hb as [Hb _].
  by destruct c as [[] [] [] [] [] [] [] []].
Qed.
