(* ===== verification/GoText.v ===== *)
(** What the program uses of Go's fmt, bufio and net/textproto.

    Formatting with a format string and no arguments, reading lines from a connection, the
    numbered replies of net/textproto, and scanning a decimal number.  As GoLib.v, this file
    models the Go standard library and no file of src/. *)

From S2P Require Import Prelude GoLib.
From Stdlib Require Import ZArith Lia Strings.Byte Strings.Ascii Strings.String.
From stdpp Require Import gmap strings list fin_maps pretty.

#[local] Open Scope Z_scope.

(** ** fmt: a format string without arguments *)

Definition in_range (b : byte) (lo hi : Z) : bool :=
  (lo <=? byte_to_Z b) && (byte_to_Z b <=? hi).
Definition is_digit (b : byte) : bool := in_range b 48 57.

(** utf8.DecodeRuneInString, as the UTF-8 form of the rune and its width in the input. *)
Definition RuneError : list byte * nat := ([xef; xbf; xbd]%byte, 1%nat).
Definition DecodeRune (l : list byte) : list byte * nat :=
  match l with
  | [] => ([], O)
  | b0 :: r =>
      let cont b := in_range b 0x80 0xbf in
      if byte_to_Z b0 <? 0x80 then ([b0], 1%nat)
      else match r with
           | [] => RuneError
           | b1 :: r =>
               if in_range b0 0xc2 0xdf then
                 if cont b1 then ([b0; b1], 2%nat) else RuneError
               else
                 let ok1 := if byte_to_Z b0 =? 0xe0 then in_range b1 0xa0 0xbf
                            else if byte_to_Z b0 =? 0xed then in_range b1 0x80 0x9f
                            else if byte_to_Z b0 =? 0xf0 then in_range b1 0x90 0xbf
                            else if byte_to_Z b0 =? 0xf4 then in_range b1 0x80 0x8f
                            else cont b1 in
                 match r with
                 | [] => RuneError
                 | b2 :: r =>
                     if in_range b0 0xe0 0xef then
                       if ok1 && cont b2 then ([b0; b1; b2], 3%nat) else RuneError
                     else match r with
                          | [] => RuneError
                          | b3 :: _ =>
                              if in_range b0 0xf0 0xf4 && ok1 && cont b2 && cont b3
                              then ([b0; b1; b2; b3], 4%nat) else RuneError
                          end
                 end
           end
  end.

(** fmt's parsenum: whether there is a number, and what follows it; nothing follows a number
    that is too large. *)
Fixpoint parsenum (l : list byte) (num : Z) (isnum : bool) : bool * list byte :=
  match l with
  | b :: r =>
      if is_digit b then
        if num >? 1000000 then (false, []) else parsenum r (num * 10 + (byte_to_Z b - 48)) true
      else (isnum, l)
  | [] => (isnum, [])
  end.

(** fmt's argNumber on a format without arguments: whether an index in brackets was found,
    whether the argument number is still good, and what follows. *)
Definition argNumber (l : list byte) (good : bool) : bool * bool * list byte :=
  match l with
  | x5b%byte :: r =>
      if decide (length l < 3)%nat then (false, false, r)
      else match list_find (fun b => b = x5d%byte) r with
           | Some (i, _) =>
               let inside := take i r in
               let '(isnum, rest) := parsenum inside 0 false in
               (isnum && bool_decide (rest = []), false, drop (S i) r)
           | None => (false, false, r)
           end
  | _ => (false, good, l)
  end.

Fixpoint skip_flags (l : list byte) : list byte :=
  match l with
  | (x23 | x30 | x2b | x2d | x20)%byte :: r => skip_flags r
  | _ => l
  end.

(** What the verb after a '%' prints, and what follows the verb. *)
Definition verb (l : list byte) : list byte * list byte :=
  let l := skip_flags l in
  let '(after, good, l) := argNumber l true in
  let '(out, after, good, l) :=
    match l with
    | x2a%byte :: r => (bytes_of "%!(BADWIDTH)", false, good, r)
    | _ => let '(wid, r) := match l with [] => (false, []) | _ => parsenum l 0 false end in
           ([], after, if after && wid then false else good, r)
    end in
  let '(out, after, good, l) :=
    match l with
    | x2e%byte :: r =>
        let good := if after : bool then false else good in
        let '(after, good, r) := argNumber r good in
        match r with
        | x2a%byte :: r => (out ++ bytes_of "%!(BADPREC)", false, good, r)
        | _ => (out, after, good, snd (match r with [] => (false, []) | _ => parsenum r 0 false end))
        end
    | _ => (out, after, good, l)
    end in
  let '(good, l) :=
    if after : bool then (good, l)
    else let '(_, good, l) := argNumber l good in (good, l) in
  match l with
  | [] => (out ++ bytes_of "%!(NOVERB)", [])
  | _ =>
      let '(v, n) := DecodeRune l in
      let r := drop n l in
      if decide (v = [x25%byte]) then (out ++ v, r)
      else if good : bool then (out ++ bytes_of "%!" ++ v ++ bytes_of "(MISSING)", r)
      else (out ++ bytes_of "%!" ++ v ++ bytes_of "(BADINDEX)", r)
  end.

Fixpoint format_loop (fuel : nat) (l : list byte) : list byte :=
  match fuel, l with
  | S fuel, x25%byte :: r => let '(out, r) := verb r in out ++ format_loop fuel r
  | S fuel, b :: r => b :: format_loop fuel r
  | _, _ => []
  end.

(** fmt.Sprintf(format). *)
Definition Sprintf0 (format : string) : string :=
  string_of (format_loop (String.length format) (bytes_of format)).

(** fmt.Sscanf(s, "%d", &p): [None] when p is not set. *)
Fixpoint skip_space (fuel : nat) (l : list byte) : option (list byte) :=
  match fuel with
  | O => Some l
  | S fuel =>
      match l with
      | x0d%byte :: x0a%byte :: r => skip_space fuel r
      | x0a%byte :: _ => None
      | _ => match list_find (fun p => take (length p) l = p) spaces with
             | Some (_, p) => skip_space fuel (drop (length p) l)
             | None => Some l
             end
      end
  end.

Fixpoint take_digits (s : string) : string :=
  match s with
  | String c r => match digit c with Some _ => String c (take_digits r) | None => EmptyString end
  | EmptyString => EmptyString
  end.

Definition Sscanf_d (s : string) : option Z :=
  l ← skip_space (String.length s) (bytes_of s);
  match string_of l with
  | String "-" r => atoi_abs true (take_digits r)
  | String "+" r => atoi_abs false (take_digits r)
  | r => atoi_abs false (take_digits r)
  end.

(** fmt.Sscanf(s, "%d", &u) for a uint32: no sign, at least one digit, within the width. *)
Definition Sscanf_u32 (s : string) : option Z :=
  l ← skip_space (String.length s) (bytes_of s);
  match take_digits (string_of l) with
  | EmptyString => None
  | ds => n ← atoi_digits ds 0; if n <? 2 ^ 32 then Some n else None
  end.

(** ** bufio *)

Definition crlf : string := String "013" (String "010" EmptyString).

(** The input up to its first newline, and what follows it. *)
Fixpoint cut_nl (l : list byte) : option (list byte * list byte) :=
  match l with
  | [] => None
  | x0a%byte :: r => Some ([], r)
  | b :: r => p ← cut_nl r; Some (b :: p.1, p.2)
  end.

Definition trim_cr (l : list byte) : list byte :=
  match rev l with x0d%byte :: r => rev r | _ => l end.

(** ** net/textproto *)

(** The line without its end; a last line without an end is returned too. *)
Definition ReadLine : IO string := fun c =>
  match rx c with
  | [] => (Err (rx_end c), c)
  | l => match cut_nl l with
         | Some (a, r) => (Ok (string_of (trim_cr a)), set_rx r c)
         | None => (Ok (string_of l), set_rx [] c)
         end
  end.

(** Cmd, for a formatted line. *)
Definition PrintfLine (line : string) : IO unit := Write_ (bytes_of (line +:+ crlf)).

Record codeline : Type := MkCode {
  c_code : Z; c_continued : bool; c_message : string; c_err : option goerr }.

Definition wrong_code (expect code : Z) : bool :=
  (1 <=? expect) && (expect <? 10) && negb (Z.quot code 100 =? expect) ||
  (10 <=? expect) && (expect <? 100) && negb (Z.quot code 10 =? expect) ||
  (100 <=? expect) && (expect <? 1000) && negb (code =? expect).

Definition parseCodeLine (line : string) (expect : Z) : codeline :=
  match line with
  | String a (String b (String c (String d m))) =>
      if Ascii.eqb d " " || Ascii.eqb d "-" then
        let continued := Ascii.eqb d "-" in
        match Atoi (String a (String b (String c EmptyString))) with
        | Some code =>
            if code <? 100 then MkCode code continued "" (Some (Errorf "invalid response code: "))
            else MkCode code continued m
                   (if wrong_code expect code then Some (Errorf "%03d %s") else None)
        | None => MkCode 0 continued "" (Some (Errorf "invalid response code: "))
        end
      else MkCode 0 false "" (Some (Errorf "short response: "))
  | _ => MkCode 0 false "" (Some (Errorf "short response: "))
  end.

(** The loop over the lines of a multi-line reply: the whole message. *)
Fixpoint more_lines (fuel : nat) (code : Z) (message : string) : IO string :=
  match fuel with
  | O => lift OutOfFuel
  | S fuel =>
      line ← ReadLine;
      let cl := parseCodeLine line 0 in
      if bool_decide (c_err cl <> None) || negb (c_code cl =? code) then
        more_lines fuel code (message +:+ String "010" EmptyString +:+ TrimRight line crlf)
      else
        let message := message +:+ String "010" EmptyString +:+ c_message cl in
        if c_continued cl then more_lines fuel code message else mret message
  end.

(** ReadResponse(expect), for the callers that use the message or the error. *)
Definition ReadResponse (expect : Z) : IO string := fun c =>
  (line ← ReadLine;
   let cl := parseCodeLine line expect in
   message ← (if c_continued cl
              then fun c => more_lines (S (length (rx c))) (c_code cl) (c_message cl) c
              else mret (c_message cl));
   match c_err cl with Some e => throw e | None => mret message end) c.

(** ** Lemmas *)

Lemma byte_of_ascii_inj a b : byte_of_ascii a = byte_of_ascii b -> a = b.
Proof.
  intros H. by rewrite <- (ascii_of_byte_of_ascii a), H, ascii_of_byte_of_ascii.
Qed.

(** A format without '%' prints itself. *)
Lemma format_loop_free l fuel :
  (length l <= fuel)%nat -> x25%byte ∉ l -> format_loop fuel l = l.
Proof.
  revert fuel. induction l as [|b l IH]; intros [|fuel] Hl Hn; simpl in *; [done..|lia|].
  apply not_elem_of_cons in Hn as [Hb Hn]. rewrite IH by (done || lia).
  destruct b; try done; by destruct Hb.
Qed.

Lemma free_bytes c s : free c s <-> byte_of_ascii c ∉ bytes_of s.
Proof.
  induction s as [|d s IH]; [split; [intros _; apply not_elem_of_nil|done]|].
  change (bytes_of (String d s)) with (byte_of_ascii d :: bytes_of s).
  simpl free. rewrite not_elem_of_cons, IH. split; intros [H1 H2]; split; try done.
  - intros E. by apply byte_of_ascii_inj in E.
  - by intros ->.
Qed.

Lemma Sprintf0_free s : free "%" s -> Sprintf0 s = s.
Proof.
  intros H. unfold Sprintf0. rewrite format_loop_free.
  - apply string_of_bytes_of.
  - by rewrite length_bytes_of.
  - by apply (free_bytes "%").
Qed.

(** A line and its end at the start of the input. *)
Lemma cut_nl_app l r : x0a%byte ∉ l -> cut_nl (l ++ x0a%byte :: r) = Some (l, r).
Proof.
  induction l as [|b l IH]; simpl; [done|]. intros [Hb Hl]%not_elem_of_cons.
  rewrite IH by done. destruct b; try done; by destruct Hb.
Qed.

Lemma cut_nl_Some l a r : cut_nl l = Some (a, r) -> l = a ++ x0a%byte :: r /\ x0a%byte ∉ a.
Proof.
  revert a r. induction l as [|b l IH]; intros a r; [done|]. intros H.
  destruct (decide (b = x0a%byte)) as [->|Hb].
  - simpl in H. simplify_eq. split; [done|apply not_elem_of_nil].
  - assert (exists p, cut_nl l = Some p /\ a = b :: p.1 /\ r = p.2) as ([a' r'] & E & -> & ->).
    { destruct b; simpl in H; try done; destruct (cut_nl l); simplify_eq/=; eauto. }
    destruct (IH _ _ E) as [-> Hn]. split; [done|]. by apply not_elem_of_cons.
Qed.

Lemma trim_cr_snoc l : trim_cr (l ++ [x0d%byte]) = l.
Proof. unfold trim_cr. rewrite rev_app_distr. simpl. apply rev_involutive. Qed.

(** Reading a line that ends in CR LF. *)
Lemma ReadLine_crlf line r e t room w :
  free "010" line ->
  ReadLine (Conn (bytes_of (line +:+ crlf) ++ r) e t room w) = (Ok line, Conn r e t room w).
Proof.
  intros H. unfold ReadLine. cbn [rx].
  assert (bytes_of (line +:+ crlf) ++ r = (bytes_of line ++ [x0d%byte]) ++ x0a%byte :: r) as ->.
  { rewrite bytes_of_app, <- !app_assoc. done. }
  assert (exists b l, (bytes_of line ++ [x0d%byte]) ++ x0a%byte :: r = b :: l) as (b & l & E).
  { destruct (bytes_of line); simpl; eauto. }
  rewrite E. rewrite <- E, cut_nl_app, trim_cr_snoc, string_of_bytes_of; [done|].
  apply (free_bytes "010") in H. rewrite not_elem_of_app, list_elem_of_singleton. by split.
Qed.

(** A reply of one line. *)
Definition reply_line (code : Z) (msg : string) : string := Itoa code +:+ " " +:+ msg.

Lemma parse_reply code msg expect :
  100 <= code < 1000 ->
  parseCodeLine (reply_line code msg) expect =
    MkCode code false msg (if wrong_code expect code then Some (Errorf "%03d %s") else None).
Proof.
  intros H. unfold reply_line.
  assert (exists a b c, Itoa code = String a (String b (String c EmptyString)) /\
    Atoi (Itoa code) = Some code) as (a & b & c & E & A).
  { assert (forallb (fun z => match Itoa z with
        | String _ (String _ (String _ EmptyString)) => true | _ => false end)
        (seqZ 100 900) = true) as F by (vm_compute; done).
    rewrite forallb_forall in F. specialize (F code). rewrite <- list_elem_of_In, elem_of_seqZ in F.
    specialize (F ltac:(lia)). rewrite Atoi_Itoa by (unfold int64_ok; lia).
    destruct (Itoa code) as [|a [|b [|c [|]]]]; try done. eauto 10. }
  rewrite E in A |- *. cbn [String.append]. unfold parseCodeLine.
  change (Ascii.eqb " " " ") with true. change (Ascii.eqb " " "-") with false. cbn [orb].
  rewrite A. by rewrite (proj2 (Z.ltb_ge code 100)) by lia.
Qed.

(** ReadResponse on a reply of one line: its message, or an error if the code is another. *)
Lemma ReadResponse_reply code msg expect r e t room w :
  100 <= code < 1000 -> free "010" msg -> 100 <= expect < 1000 ->
  ReadResponse expect (Conn (bytes_of (reply_line code msg +:+ crlf) ++ r) e t room w) =
    (if code =? expect then Ok msg else Err (Errorf "%03d %s"), Conn r e t room w).
Proof.
  intros Hc Hm He. unfold ReadResponse. rewrite IO_bind_eq, ReadLine_crlf.
  2:{ unfold reply_line. rewrite !free_app. split; [|by split].
      apply free_Itoa; done. }
  cbv zeta. rewrite parse_reply by done. cbn [c_continued c_message c_err].
  unfold wrong_code. rewrite (proj2 (Z.ltb_ge expect 10)), (proj2 (Z.ltb_ge expect 100)) by lia.
  rewrite (proj2 (Z.leb_le 100 expect)), (proj2 (Z.ltb_lt expect 1000)), !andb_false_r by lia.
  cbn [orb andb]. by destruct (code =? expect).
Qed.

Example Sprintf0_percent : Sprintf0 "a%db%%c%" = "a%!d(MISSING)b%c%!(NOVERB)"%string.
Proof. vm_compute. reflexivity. Qed.
