(* ===== verification/Aead.v ===== *)
(** The AEAD cipher behind ftp/common and dpi/common.

    Both packages encrypt with AES-GCM from Go's crypto/cipher.  The cipher is a parameter of
    the development: a class with its two functions, and a class with the laws of GCM that the
    theorems use.  [toy] is an instance for the examples; it has the laws and no secrecy. *)

From S2P Require Import Prelude.
From Stdlib Require Import ZArith Lia Strings.Byte Strings.String.
From stdpp Require Import gmap strings list fin_maps.

#[local] Open Scope Z_scope.

(** cipher.AEAD for a key that cipher/aes accepts: Seal and Open without additional data. *)
Class AEAD := {
  Seal : list byte -> list byte -> list byte -> list byte;
  Open : list byte -> list byte -> list byte -> option (list byte)
}.

(** gcm.NonceSize() and gcm.Overhead(). *)
Definition NonceSize : nat := 12.
Definition Overhead : nat := 16.

(** Open inverts Seal, accepts nothing else for the same key and nonce, and the ciphertext is
    the tag longer than the plaintext. *)
Class AEADLaws `{AEAD} : Prop := {
  Open_Seal key nonce p : Open key nonce (Seal key nonce p) = Some p;
  Open_inv key nonce c p : Open key nonce c = Some p -> c = Seal key nonce p;
  length_Seal key nonce p : length (Seal key nonce p) = (length p + Overhead)%nat
}.

(** aes.NewCipher: the key sizes it accepts. *)
Definition NewCipher (key : list byte) : result unit :=
  if decide (length key = 16 \/ length key = 24 \/ length key = 32)%nat then Ok tt
  else Err (Errorf "crypto/aes: invalid key size %d").

Definition toy_tag (key nonce : list byte) : list byte :=
  take Overhead (key ++ nonce ++ replicate Overhead Byte.x00).

#[export] Instance toy : AEAD := {
  Seal key nonce p := p ++ toy_tag key nonce;
  Open key nonce c :=
    if decide (Overhead <= length c /\ drop (length c - Overhead) c = toy_tag key nonce)%nat
    then Some (take (length c - Overhead) c) else None
}.

Lemma length_toy_tag key nonce : length (toy_tag key nonce) = Overhead.
Proof. unfold toy_tag. rewrite length_take, !length_app, length_replicate. lia. Qed.

#[export] Instance toy_laws : AEADLaws.
Proof.
  split; unfold Seal, Open; simpl; intros key nonce.
  - intros p. rewrite length_app, length_toy_tag, Nat.add_sub.
    rewrite decide_True; [by rewrite take_app_length|].
    split; [lia|]. by rewrite drop_app_length.
  - intros c p H. case_decide as Hc; [|done]. simplify_eq. destruct Hc as [_ <-].
    by rewrite take_drop.
  - intros p. by rewrite length_app, length_toy_tag.
Qed.
