(* ===== verification/Encapsulation.v ===== *)
(** Chunk encapsulation: snowflake/common/encapsulation/encapsulation.go.

    Data and padding chunks with a one to three byte length prefix, their writer and
    reader, and the size budget [MaxDataForSize].  Reader and writer are the two halves of
    a [conn]; a [ReadData] that would loop is given one unit of fuel per input byte. *)

From S2P Require Import Prelude.
From Stdlib Require Import ZArith Lia Strings.Byte Strings.String.
From stdpp Require Import gmap strings list fin_maps.

#[local] Open Scope Z_scope.

(** ** The code *)

Definition ErrTooLong : goerr := Errorf "length prefix is too long".

(** The loop [for i := 0; moreLength; i++] of ReadData with [k = 2 - i]. *)
Fixpoint read_length (k : nat) (moreLength : bool) (n : Z) : IO Z :=
  if moreLength then
    match k with
    | O => throw ErrTooLong
    | S k =>
        b ← unexpected ReadByte;
        read_length k (negb (Z.land (byte_to_Z b) 0x80 =? 0))
          (Z.lor (Z.shiftl n 7) (Z.land (byte_to_Z b) 0x7f))
    end
  else mret n.

(** io.CopyN(ioutil.Discard, r, n): io.EOF when the reader ends early without an error. *)
Definition CopyN_Discard (n : Z) : IO unit := fun c =>
  if decide (n <= len (rx c))
  then (Ok tt, set_rx (drop (Z.to_nat n) (rx c)) c)
  else (Err (rx_end c), set_rx [] c).

Fixpoint ReadData_loop (fuel : nat) : IO (list byte) :=
  match fuel with
  | O => lift OutOfFuel
  | S fuel =>
      b ← ReadByte;
      let isData := negb (Z.land (byte_to_Z b) 0x80 =? 0) in
      let moreLength := negb (Z.land (byte_to_Z b) 0x40 =? 0) in
      n ← read_length 2 moreLength (Z.land (byte_to_Z b) 0x3f);
      if isData then unexpected (ReadFull (Z.to_nat n))
      else _ ← unexpected (CopyN_Discard n); ReadData_loop fuel
  end.

Definition ReadData : IO (list byte) := fun c => ReadData_loop (S (length (rx c))) c.

Definition dataPrefixForLength (n : Z) : result (list byte) :=
  if Z.land (Z.shiftr n 0) 0x3f =? Z.shiftr n 0 then
    Ok [byte_of_Z (Z.lor 0x80 (Z.land (Z.shiftr n 0) 0x3f))]
  else if Z.land (Z.shiftr n 7) 0x3f =? Z.shiftr n 7 then
    Ok [byte_of_Z (Z.lor 0xc0 (Z.land (Z.shiftr n 7) 0x3f));
        byte_of_Z (Z.land (Z.shiftr n 0) 0x7f)]
  else if Z.land (Z.shiftr n 14) 0x3f =? Z.shiftr n 14 then
    Ok [byte_of_Z (Z.lor 0xc0 (Z.land (Z.shiftr n 14) 0x3f));
        byte_of_Z (Z.lor 0x80 (Z.land (Z.shiftr n 7) 0x7f));
        byte_of_Z (Z.land (Z.shiftr n 0) 0x7f)]
  else Err ErrTooLong.

(** WriteData returns the number of bytes written with the error. *)
Definition WriteData (data : list byte) : IO (Z * option goerr) :=
  match dataPrefixForLength (len data) with
  | Ok prefix =>
      r ← Write prefix;
      match r.2 with
      | Some e => mret (r.1, Some e)
      | None => r' ← Write data; mret (r.1 + r'.1, r'.2)
      end
  | Err e => mret (0, Some e)
  | Panic s => lift (Panic s)
  | OutOfFuel => lift OutOfFuel
  end.

Definition paddingBuffer : list byte := replicate 1024 Byte.x00.

(** The switch of WritePadding: the prefix and the padding length for a chunk of [p] bytes. *)
Definition padding_prefix (p : Z) : list byte * Z :=
  if Z.land (Z.shiftr (p - 1) 0) 0x3f =? Z.shiftr (p - 1) 0 then
    let p := p - 1 in ([byte_of_Z (Z.land (Z.shiftr p 0) 0x3f)], p)
  else if Z.land (Z.shiftr (p - 2) 7) 0x3f =? Z.shiftr (p - 2) 7 then
    let p := p - 2 in
    ([byte_of_Z (Z.lor 0x40 (Z.land (Z.shiftr p 7) 0x3f));
      byte_of_Z (Z.land (Z.shiftr p 0) 0x7f)], p)
  else if Z.land (Z.shiftr (p - 3) 14) 0x3f =? Z.shiftr (p - 3) 14 then
    let p := p - 3 in
    ([byte_of_Z (Z.lor 0x40 (Z.land (Z.shiftr p 14) 0x3f));
      byte_of_Z (Z.lor 0x80 (Z.land (Z.shiftr p 7) 0x3f));
      byte_of_Z (Z.land (Z.shiftr p 0) 0x7f)], p)
  else ([], p).

Fixpoint WritePadding_loop (fuel : nat) (n total : Z) : IO (Z * option goerr) :=
  match fuel with
  | O => lift OutOfFuel
  | S fuel =>
      if n >? 0 then
        let p := len paddingBuffer in
        let p := if p >? n then n else p in
        let n := n - p in
        let '(prefix, p) := padding_prefix p in
        r ← Write prefix;
        let total := total + r.1 in
        match r.2 with
        | Some e => mret (total, Some e)
        | None =>
            r ← Write (take (Z.to_nat p) paddingBuffer);
            let total := total + r.1 in
            match r.2 with
            | Some e => mret (total, Some e)
            | None => WritePadding_loop fuel n total
            end
        end
      else mret (total, None)
  end.

Definition WritePadding (n : Z) : IO (Z * option goerr) :=
  if n <? 0 then lift (Panic "negative length")
  else WritePadding_loop (S (Z.to_nat n)) n 0.

Definition MaxDataForSize (n : Z) : result Z :=
  if n =? 0 then Panic "zero length"
  else match dataPrefixForLength n with
       | Ok prefix => Ok (n - len prefix)
       | Err e => if decide (e = ErrTooLong)
                  then Ok (Z.shiftl 1 (6 + 7 + 7) - 1 - 3)
                  else Panic "err"
       | Panic s => Panic s
       | OutOfFuel => OutOfFuel
       end.

(** ** A stream of chunks *)

(** A call that a writer makes on the stream. *)
Inductive chunk : Type :=
  | CData (data : list byte)
  | CPadding (n : Z).

Definition write_chunk (k : chunk) : IO (Z * option goerr) :=
  match k with CData d => WriteData d | CPadding n => WritePadding n end.

Fixpoint write_chunks (ks : list chunk) : IO unit :=
  match ks with
  | [] => mret tt
  | k :: ks =>
      r ← write_chunk k;
      match r.2 with None => write_chunks ks | Some e => throw e end
  end.

(** The data chunks of a stream, in order. *)
Fixpoint chunk_data (ks : list chunk) : list (list byte) :=
  match ks with
  | [] => []
  | CData d :: ks => d :: chunk_data ks
  | CPadding _ :: ks => chunk_data ks
  end.

(** Successive calls of ReadData, as long as they return data. *)
Fixpoint read_chunks (fuel : nat) (c : conn) : list (list byte) * result (list byte) :=
  match fuel with
  | O => ([], OutOfFuel)
  | S fuel =>
      match ReadData c with
      | (Ok d, c') => let '(ds, r) := read_chunks fuel c' in (d :: ds, r)
      | (r, _) => ([], r)
      end
  end.

Definition chunk_ok (k : chunk) : Prop :=
  match k with CData d => len d < 2 ^ 20 | CPadding n => 0 <= n end.

(** ** Length prefixes *)

(** The prefix of a chunk of type [d] (128 for data, 0 for padding) and length [n]: the
    common form of the writers' switches. *)
Definition prefix_of (d : Z) (n : Z) : list byte :=
  if n <? 64 then [byte_of_Z (d + n)]
  else if n <? 8192 then [byte_of_Z (d + 64 + n / 128); byte_of_Z (n mod 128)]
  else [byte_of_Z (d + 64 + n / 16384); byte_of_Z (128 + n / 128 mod 128);
        byte_of_Z (n mod 128)].

Lemma land63_eqb x : (Z.land x 0x3f =? x) = (0 <=? x) && (x <? 64).
Proof.
  rewrite (land_ones_mod x 6) by (done || lia). change (2 ^ 6) with 64.
  pose proof (Z.mod_pos_bound x 64). apply Bool.eq_iff_eq_true.
  rewrite andb_true_iff, Z.eqb_eq, Z.leb_le, Z.ltb_lt. split; [lia|].
  intros. apply Z.mod_small; lia.
Qed.

(** The three tests of the prefix switches, on the chunk length. *)
Lemma prefix_tests n :
  0 <= n ->
  (Z.land (Z.shiftr n 0) 0x3f =? Z.shiftr n 0) = (n <? 64) /\
  (Z.land (Z.shiftr n 7) 0x3f =? Z.shiftr n 7) = (n <? 8192) /\
  (Z.land (Z.shiftr n 14) 0x3f =? Z.shiftr n 14) = (n <? 2 ^ 20).
Proof.
  intros Hn. rewrite !land63_eqb, !Z.shiftr_div_pow2 by lia.
  change (2 ^ 0) with 1. change (2 ^ 7) with 128. change (2 ^ 14) with 16384.
  change (2 ^ 20) with 1048576.
  split_and!; apply Bool.eq_iff_eq_true;
    rewrite andb_true_iff, Z.leb_le, !Z.ltb_lt; zdiv.
Qed.

(** A negative length passes none of the tests. *)
Lemma prefix_tests_neg n k : n < 0 -> 0 <= k ->
  (Z.land (Z.shiftr n k) 0x3f =? Z.shiftr n k) = false.
Proof.
  intros Hn Hk. rewrite land63_eqb. apply andb_false_iff. left. apply Z.leb_gt.
  by apply Z.shiftr_neg.
Qed.

(** The masked pieces of a length, as quotients. *)
Lemma prefix_low n : 0 <= n < 64 -> Z.land (Z.shiftr n 0) 0x3f = n.
Proof. intros. rewrite Z.shiftr_0_r, (land_ones_mod _ 6) by done. by apply Z.mod_small. Qed.
Lemma prefix_low7 n : Z.land (Z.shiftr n 0) 0x7f = n mod 128.
Proof. by rewrite Z.shiftr_0_r, (land_ones_mod _ 7) by done. Qed.
Lemma prefix_mid n : 0 <= n < 8192 -> Z.land (Z.shiftr n 7) 0x3f = n / 128.
Proof.
  intros. rewrite (land_ones_mod _ 6), Z.shiftr_div_pow2 by done.
  apply Z.mod_small. change (2 ^ 7) with 128. change (2 ^ 6) with 64. zdiv.
Qed.
Lemma prefix_mid7 n : Z.land (Z.shiftr n 7) 0x7f = n / 128 mod 128.
Proof. by rewrite (land_ones_mod _ 7), Z.shiftr_div_pow2 by done. Qed.
Lemma prefix_high n : 0 <= n < 2 ^ 20 -> Z.land (Z.shiftr n 14) 0x3f = n / 16384.
Proof.
  intros. rewrite (land_ones_mod _ 6), Z.shiftr_div_pow2 by done.
  apply Z.mod_small. change (2 ^ 14) with 16384. change (2 ^ 6) with 64. zdiv.
Qed.

Lemma lor_64 a x : a mod 64 = 0 -> 0 <= x < 64 -> Z.lor a x = a + x.
Proof. intros. by apply (lor_byte_add _ _ 6). Qed.
Lemma lor_128 a x : a mod 128 = 0 -> 0 <= x < 128 -> Z.lor a x = a + x.
Proof. intros. by apply (lor_byte_add _ _ 7). Qed.

Lemma dataPrefix_spec n :
  dataPrefixForLength n =
    if (0 <=? n) && (n <? 2 ^ 20) then Ok (prefix_of 128 n) else Err ErrTooLong.
Proof.
  unfold dataPrefixForLength, prefix_of. destruct (Z.leb_spec 0 n); simpl.
  2:{ by rewrite !prefix_tests_neg by lia. }
  destruct (prefix_tests n) as (-> & -> & ->); [done|].
  destruct (Z.ltb_spec n 64).
  { rewrite (proj2 (Z.ltb_lt n (2 ^ 20))), prefix_low, lor_128 by (done || lia). done. }
  destruct (Z.ltb_spec n 8192).
  { rewrite (proj2 (Z.ltb_lt n (2 ^ 20))), prefix_mid, prefix_low7, lor_64
      by (done || lia || zdiv). done. }
  destruct (Z.ltb_spec n (2 ^ 20)); [|done].
  rewrite prefix_high, prefix_mid7, prefix_low7, lor_64, lor_128 by (done || zdiv).
  done.
Qed.

(** ** Reading a prefix *)

(** The two flag bits and the value bits of a prefix byte. *)
Lemma bit_data b :
  negb (Z.land (byte_to_Z b) 0x80 =? 0) = (128 <=? byte_to_Z b).
Proof. by destruct b. Qed.
Lemma bit_more b :
  negb (Z.land (byte_to_Z b) 0x40 =? 0) = (64 <=? byte_to_Z b mod 128).
Proof. by destruct b. Qed.

(** [decodes pre isData n]: a reader that finds the prefix [pre] goes on with the rest of
    the stream, the flag and the length. *)
Definition decodes (pre : list byte) (isData : bool) (n : Z) : Prop :=
  forall fuel s e t r w,
    ReadData_loop (S fuel) (Conn (pre ++ s) e t r w) =
      (if isData then unexpected (ReadFull (Z.to_nat n))
       else _ ← unexpected (CopyN_Discard n); ReadData_loop fuel) (Conn s e t r w).

(** The data flag of a prefix byte. *)
Definition dbit (isData : bool) : Z := if isData then 128 else 0.

Lemma read_length_step k n v s e t r w :
  0 <= v < 256 ->
  read_length (S k) true n (Conn (byte_of_Z v :: s) e t r w) =
    read_length k (128 <=? v) (n * 128 + v mod 128) (Conn s e t r w).
Proof.
  intros Hv. change (read_length (S k) true n) with
    (b ← unexpected ReadByte;
     read_length k (negb (Z.land (byte_to_Z b) 0x80 =? 0))
       (Z.lor (Z.shiftl n 7) (Z.land (byte_to_Z b) 0x7f))).
  rewrite IO_bind_eq. unfold unexpected; simpl.
  rewrite bit_data, byte_to_of_Z_small, (land_ones_mod _ 7) by (done || lia).
  by rewrite lor_shiftl_add by zdiv.
Qed.

Lemma read_length_stop k n c : read_length k false n c = (Ok n, c).
Proof. by destruct k. Qed.

#[local] Arguments read_length : simpl never.
#[local] Arguments ReadData_loop : simpl never.

Lemma ReadData_loop_cons fuel b s e t r w :
  ReadData_loop (S fuel) (Conn (b :: s) e t r w) =
    (n ← read_length 2 (negb (Z.land (byte_to_Z b) 0x40 =? 0)) (Z.land (byte_to_Z b) 0x3f);
     if negb (Z.land (byte_to_Z b) 0x80 =? 0) then unexpected (ReadFull (Z.to_nat n))
     else _ ← unexpected (CopyN_Discard n); ReadData_loop fuel) (Conn s e t r w).
Proof. done. Qed.

Ltac prefix_start :=
  intros fuel s e t r w; simpl app; rewrite ReadData_loop_cons;
  rewrite bit_data, bit_more, byte_to_of_Z_small, (land_ones_mod _ 6) by (done || lia);
  rewrite IO_bind_eq.

Lemma decodes_1 d n :
  0 <= n < 64 -> decodes [byte_of_Z (dbit d + n)] d n.
Proof.
  intros Hn. assert (0 <= dbit d + n < 256) by (destruct d; simpl; lia).
  prefix_start. rewrite (proj2 (Z.leb_gt 64 _)) by (destruct d; simpl; zdiv).
  rewrite read_length_stop.
  replace ((dbit d + n) mod 2 ^ 6) with n by (destruct d; simpl; zdiv).
  by replace (128 <=? dbit d + n) with d by (destruct d; simpl; lia).
Qed.

Lemma decodes_2 d hi lo :
  0 <= hi < 64 -> 0 <= lo < 128 ->
  decodes [byte_of_Z (dbit d + 64 + hi); byte_of_Z lo] d (hi * 128 + lo).
Proof.
  intros Hh Hl. assert (0 <= dbit d + 64 + hi < 256) by (destruct d; simpl; lia).
  prefix_start. rewrite (proj2 (Z.leb_le 64 _)) by (destruct d; simpl; zdiv).
  rewrite read_length_step, (proj2 (Z.leb_gt 128 _)), read_length_stop by lia.
  replace ((dbit d + 64 + hi) mod 2 ^ 6) with hi by (destruct d; simpl; zdiv).
  rewrite (Z.mod_small lo) by lia.
  by replace (128 <=? dbit d + 64 + hi) with d by (destruct d; simpl; lia).
Qed.

Lemma decodes_3 d hi mid lo :
  0 <= hi < 64 -> 0 <= mid < 128 -> 0 <= lo < 128 ->
  decodes [byte_of_Z (dbit d + 64 + hi); byte_of_Z (128 + mid); byte_of_Z lo] d
    ((hi * 128 + mid) * 128 + lo).
Proof.
  intros Hh Hm Hl. assert (0 <= dbit d + 64 + hi < 256) by (destruct d; simpl; lia).
  prefix_start. rewrite (proj2 (Z.leb_le 64 _)) by (destruct d; simpl; zdiv).
  rewrite read_length_step, (proj2 (Z.leb_le 128 _)) by lia.
  rewrite read_length_step, (proj2 (Z.leb_gt 128 _)), read_length_stop by lia.
  replace ((dbit d + 64 + hi) mod 2 ^ 6) with hi by (destruct d; simpl; zdiv).
  rewrite (Z.mod_small lo) by lia.
  replace ((128 + mid) mod 128) with mid by zdiv.
  by replace (128 <=? dbit d + 64 + hi) with d by (destruct d; simpl; lia).
Qed.

Lemma decodes_prefix n : 0 <= n < 2 ^ 20 -> decodes (prefix_of 128 n) true n.
Proof.
  intros Hn. unfold prefix_of.
  destruct (Z.ltb_spec n 64). { apply (decodes_1 true). lia. }
  destruct (Z.ltb_spec n 8192).
  - pose proof (decodes_2 true (n / 128) (n mod 128)) as H'.
    replace (n / 128 * 128 + n mod 128) with n in H' by zdiv. apply H'; zdiv.
  - pose proof (decodes_3 true (n / 16384) (n / 128 mod 128) (n mod 128)) as H'.
    replace ((n / 16384 * 128 + n / 128 mod 128) * 128 + n mod 128) with n in H' by zdiv.
    apply H'; zdiv.
Qed.

Lemma length_prefix_of d n : (1 <= length (prefix_of d n) <= 3)%nat.
Proof. unfold prefix_of. repeat case_match; simpl; lia. Qed.

(** One padding chunk: its size is the one asked for, and a reader decodes it. *)
Lemma padding_prefix_spec p :
  1 <= p <= 1024 ->
  exists pre m, padding_prefix p = (pre, m) /\ 0 <= m <= 1024 /\ len pre + m = p /\
    (1 <= length pre)%nat /\ decodes pre false m.
Proof.
  intros Hp. unfold padding_prefix.
  destruct (prefix_tests (p - 1)) as (-> & _ & _); [lia|].
  destruct (Z.ltb_spec (p - 1) 64); cbv zeta.
  { rewrite prefix_low by lia. eexists _, _. split_and!; [done|lia|lia|len_lia|simpl; lia|].
    apply (decodes_1 false). lia. }
  destruct (prefix_tests (p - 2)) as (_ & -> & _); [lia|].
  rewrite (proj2 (Z.ltb_lt (p - 2) 8192)), prefix_mid, prefix_low7, lor_64
    by (done || zdiv).
  eexists _, _. split_and!; [done|lia|lia|len_lia|simpl; lia|].
  pose proof (decodes_2 false ((p - 2) / 128) ((p - 2) mod 128)) as H'.
  replace ((p - 2) / 128 * 128 + (p - 2) mod 128) with (p - 2) in H' by zdiv.
  apply H'; zdiv.
Qed.

(** ** The reader's loop *)

(** [read_length] and [CopyN_Discard] only consume input, and do not look past what they
    consume. *)
Lemma read_length_inv k m n c v c' :
  read_length k m n c = (Ok v, c') ->
  exists p, rx c = p ++ rx c' /\ c' = set_rx (rx c') c /\
    forall s, read_length k m n (set_rx (rx c ++ s) c) = (Ok v, set_rx (rx c' ++ s) c).
Proof.
  revert m n c. induction k as [|k IH]; intros m n c.
  - destruct m; [done|]. intros [= <- <-]. exists []. by destruct c.
  - destruct m; [|intros [= <- <-]; exists []; by destruct c].
    destruct c as [[|b l] e t r w]; [done|]. intros H.
    change (read_length k (negb (Z.land (byte_to_Z b) 0x80 =? 0))
       (Z.lor (Z.shiftl n 7) (Z.land (byte_to_Z b) 0x7f)) (Conn l e t r w) = (Ok v, c')) in H.
    destruct (IH _ _ _ H) as (p & Hp & Hc & Hs). exists (b :: p). simpl in *.
    split_and!; [by rewrite Hp|by rewrite Hc|exact Hs].
Qed.

Lemma read_length_cases k m n c :
  (exists v c', read_length k m n c = (Ok v, c')) \/
  (exists e c', read_length k m n c = (Err e, c') /\ e <> EOF).
Proof.
  revert m n c. induction k as [|k IH]; intros m n c.
  - destruct m; [right|left]; by repeat eexists.
  - destruct m; [|left; by repeat eexists].
    destruct c as [[|b l] e t r w]; [right|apply IH].
    exists (eof_unexpected e), (Conn [] e t r w). split; [done|by destruct e].
Qed.

(** One turn of the loop on a non-empty input: a failed prefix, or a chunk of length [n]
    that starts at [l']. *)
Lemma ReadData_loop_turn b l e t r w :
  (exists e' c', (forall f, ReadData_loop (S f) (Conn (b :: l) e t r w) = (Err e', c')) /\
     e' <> EOF) \/
  (exists n p l', l = p ++ l' /\ forall f s,
     ReadData_loop (S f) (Conn (b :: l ++ s) e t r w) =
        (if 128 <=? byte_to_Z b then unexpected (ReadFull (Z.to_nat n))
         else _ ← unexpected (CopyN_Discard n); ReadData_loop f) (Conn (l' ++ s) e t r w)).
Proof.
  destruct (read_length_cases 2 (negb (Z.land (byte_to_Z b) 0x40 =? 0))
    (Z.land (byte_to_Z b) 0x3f) (Conn l e t r w)) as [(v & c' & H)|(e' & c' & H & He)].
  - right. destruct (read_length_inv _ _ _ _ _ _ H) as (p & Hp & _ & Hs).
    exists v, p, (rx c'). split; [done|]. intros f s. rewrite ReadData_loop_cons, bit_data.
    erewrite bind_Ok by apply (Hs s). done.
  - left. exists e', c'. split; [|done]. intros f. rewrite ReadData_loop_cons.
    by erewrite bind_Err by done.
Qed.

Lemma unexpected_Ok {A} (m : IO A) c a c' : m c = (Ok a, c') -> unexpected m c = (Ok a, c').
Proof. unfold unexpected. by intros ->. Qed.
Lemma unexpected_Err {A} (m : IO A) c e c' :
  m c = (Err e, c') -> unexpected m c = (Err (eof_unexpected e), c').
Proof. unfold unexpected. by intros ->. Qed.
Lemma eof_unexpected_neq e : eof_unexpected e <> EOF.
Proof. by destruct e. Qed.

Lemma CopyN_cases n l e t r w :
  (len l < n /\ unexpected (CopyN_Discard n) (Conn l e t r w) =
     (Err (eof_unexpected e), Conn [] e t r w)) \/
  (n <= len l /\ forall s, unexpected (CopyN_Discard n) (Conn (l ++ s) e t r w) =
     (Ok tt, Conn (drop (Z.to_nat n) l ++ s) e t r w)).
Proof.
  destruct (decide (n <= len l)) as [Hn|Hn]; [right|left]; (split; [lia|]).
  - intros s. apply unexpected_Ok. unfold CopyN_Discard, set_rx; simpl.
    rewrite decide_True by len_lia. rewrite drop_app_le by len_lia. done.
  - apply unexpected_Err. unfold CopyN_Discard; simpl. by rewrite decide_False.
Qed.

Lemma ReadFull_cases n c :
  (exists p c', ReadFull n c = (Ok p, c')) \/ (exists e c', ReadFull n c = (Err e, c')).
Proof. unfold ReadFull. case_decide; [left|right]; by repeat eexists. Qed.

(** Any two sufficient amounts of fuel give the same answer, which is not [OutOfFuel]. *)
Lemma ReadData_loop_total f c :
  (length (rx c) < f)%nat ->
  (exists d c', forall g, (length (rx c) < g)%nat -> ReadData_loop g c = (Ok d, c')) \/
  (exists e c', forall g, (length (rx c) < g)%nat -> ReadData_loop g c = (Err e, c')).
Proof.
  revert c. induction f as [|f IH]; intros [l e t r w] Hf; [lia|]. simpl in *.
  destruct l as [|b l].
  { right. exists e, (Conn [] e t r w). intros [|g] Hg; [lia|done]. }
  destruct (ReadData_loop_turn b l e t r w) as [(e' & c' & H & _)|(n & p & l' & Hl & H)].
  { right. exists e', c'. intros [|g] Hg; [lia|apply H]. }
  assert (forall g, ReadData_loop (S g) (Conn (b :: l) e t r w) =
        (if 128 <=? byte_to_Z b then unexpected (ReadFull (Z.to_nat n))
         else _ ← unexpected (CopyN_Discard n); ReadData_loop g) (Conn l' e t r w)) as H'.
  { intros g. pose proof (H g []) as H'. by rewrite !app_nil_r in H'. }
  simpl in Hf. assert (length l' <= length l)%nat by (subst l; rewrite length_app; lia).
  destruct (128 <=? byte_to_Z b).
  { destruct (ReadFull_cases (Z.to_nat n) (Conn l' e t r w)) as [(d & c' & E)|(e' & c' & E)].
    - left. exists d, c'. intros [|g] Hg; [lia|]. rewrite H'. by apply unexpected_Ok.
    - right. eexists _, c'. intros [|g] Hg; [lia|]. rewrite H'. by apply unexpected_Err. }
  destruct (CopyN_cases n l' e t r w) as [[_ E]|[_ E]].
  { right. eexists _, _. intros [|g] Hg; [lia|]. rewrite H'. by apply bind_Err. }
  specialize (E []). rewrite !app_nil_r in E.
  destruct (IH (Conn (drop (Z.to_nat n) l') e t r w)) as [(d & c' & I)|(e' & c' & I)];
    simpl in *; [rewrite length_drop; lia|left|right]; eexists _, _;
    (intros [|g] Hg; [lia|]; rewrite H'; erewrite bind_Ok by done; apply I;
     rewrite length_drop; simpl in Hg; lia).
Qed.

Lemma ReadData_loop_enough f c :
  (length (rx c) < f)%nat -> ReadData_loop f c = ReadData c.
Proof.
  intros Hf. unfold ReadData.
  destruct (ReadData_loop_total f c Hf) as [(d & c' & H)|(e & c' & H)];
    by rewrite !H by lia.
Qed.

(** ** What a chunk does to a reader *)

(** [skips bs]: ReadData passes over [bs]. *)
Definition skips (bs : list byte) : Prop :=
  forall s e t r w, ReadData (Conn (bs ++ s) e t r w) = ReadData (Conn s e t r w).

Lemma skips_nil : skips [].
Proof. done. Qed.
Lemma skips_app a b : skips a -> skips b -> skips (a ++ b).
Proof. intros Ha Hb s e t r w. by rewrite <- app_assoc, Ha, Hb. Qed.

Lemma skips_padding pre m d :
  decodes pre false m -> (1 <= length pre)%nat -> len d = m -> skips (pre ++ d).
Proof.
  intros Hd Hp Hm s e t r w. unfold ReadData at 1; simpl.
  rewrite <- app_assoc, Hd. erewrite bind_Ok.
  2:{ apply unexpected_Ok. unfold CopyN_Discard, set_rx; simpl.
      rewrite decide_True by len_lia.
      rewrite drop_app_length' by len_lia. done. }
  apply ReadData_loop_enough. len_lia.
Qed.

(** [delivers bs d]: ReadData reads [bs] and returns [d]. *)
Definition delivers (bs d : list byte) : Prop :=
  forall s e t r w, ReadData (Conn (bs ++ s) e t r w) = (Ok d, Conn s e t r w).

Lemma delivers_data pre d :
  decodes pre true (len d) -> delivers (pre ++ d) d.
Proof.
  intros Hd s e t r w. unfold ReadData; simpl. rewrite <- app_assoc, Hd.
  apply unexpected_Ok. rewrite to_nat_len. apply ReadFull_app.
Qed.

(** The writers, on a writer that never fails: what they append. *)
Lemma WriteData_appends d c :
  tx_room c = None -> len d < 2 ^ 20 ->
  exists bs, WriteData d c = (Ok (len bs, None), set_tx (tx c ++ bs) None c) /\
    delivers bs d /\ len bs = len (prefix_of 128 (len d)) + len d.
Proof.
  intros Hr Hd. exists (prefix_of 128 (len d) ++ d). pose proof (len_nonneg d).
  split_and!; [|apply delivers_data, decodes_prefix; lia|apply len_app].
  unfold WriteData. rewrite dataPrefix_spec.
  rewrite (proj2 (Z.leb_le 0 _)), (proj2 (Z.ltb_lt _ (2 ^ 20))) by lia. simpl.
  erewrite bind_Ok by (by apply Write_room_None). simpl.
  erewrite bind_Ok by (by apply Write_room_None). simpl.
  by rewrite len_app, app_assoc.
Qed.

Lemma WritePadding_loop_appends f n total c :
  tx_room c = None -> 0 <= n -> (Z.to_nat n < f)%nat ->
  exists bs, WritePadding_loop f n total c =
    (Ok (total + n, None), set_tx (tx c ++ bs) None c) /\ skips bs /\ len bs = n.
Proof.
  revert n total c. induction f as [|f IH]; intros n total c Hr Hn Hf; [lia|].
  cbn [WritePadding_loop]. destruct (n >? 0) eqn:E.
  2:{ exists []. rewrite app_nil_r. split_and!; [|done|unfold len; simpl; lia].
      assert (n = 0) as -> by lia. rewrite Z.add_0_r.
      unfold set_tx. rewrite <- Hr. by destruct c. }
  set (p := if len paddingBuffer >? n then n else len paddingBuffer).
  assert (len paddingBuffer = 1024) as Hb by done.
  assert (1 <= p <= n /\ p <= 1024) as [Hp Hp'] by (unfold p; rewrite Hb; case_match; lia).
  destruct (padding_prefix_spec p) as (pre & m & -> & Hm & Hl & H1 & Hd); [lia|].
  erewrite bind_Ok by (by apply Write_room_None). cbn [fst snd].
  erewrite bind_Ok by (by apply Write_room_None). cbn [fst snd].
  assert (len (take (Z.to_nat m) paddingBuffer) = m) as Ht by (rewrite len_take, Hb; lia).
  match goal with |- context [WritePadding_loop f _ ?t ?c'] =>
    destruct (IH (n - p) t c') as (bs & -> & Hs & Hn'); [done|lia|lia|] end.
  exists ((pre ++ take (Z.to_nat m) paddingBuffer) ++ bs). split_and!.
  - unfold set_tx; simpl. rewrite !app_assoc, Ht. by replace (total + len pre + m + (n - p)) with (total + n) by lia.
  - apply skips_app; [|done]. by apply (skips_padding _ m).
  - rewrite !len_app, Ht. lia.
Qed.

Lemma WritePadding_appends n c :
  tx_room c = None -> 0 <= n ->
  exists bs, WritePadding n c = (Ok (n, None), set_tx (tx c ++ bs) None c) /\
    skips bs /\ len bs = n.
Proof.
  intros Hr Hn. unfold WritePadding. rewrite (proj2 (Z.ltb_ge n 0)) by done.
  apply WritePadding_loop_appends; [done|done|lia].
Qed.

(** A whole stream: what [write_chunks] appends is read back as its data chunks. *)
Lemma write_chunks_appends ks c :
  Forall chunk_ok ks -> tx_room c = None ->
  exists bs, write_chunks ks c = (Ok tt, set_tx (tx c ++ bs) None c) /\
    forall f, (length ks < f)%nat ->
      read_chunks f (conn_of bs) = (chunk_data ks, Err EOF).
Proof.
  intros Hks. revert c. induction Hks as [|k ks Hk Hks IH]; intros c Hr.
  { exists []. rewrite app_nil_r. split.
    - unfold set_tx. rewrite <- Hr. by destruct c.
    - intros [|f] Hf; [simpl in Hf; lia|done]. }
  assert (exists bs x, write_chunk k c = (Ok (x, None), set_tx (tx c ++ bs) None c) /\
    match k with CData d => delivers bs d | CPadding _ => skips bs end)
    as (bs & x & Hw & Hd).
  { destruct k as [d|n]; simpl in *.
    - destruct (WriteData_appends d c Hr Hk) as (bs & ? & ? & _); eauto.
    - destruct (WritePadding_appends n c Hr Hk) as (bs & ? & ? & _); eauto. }
  destruct (IH (set_tx (tx c ++ bs) None c)) as (bs' & Hw' & Hread); [done|].
  exists (bs ++ bs'). split.
  { cbn [write_chunks]. erewrite bind_Ok by done. simpl. rewrite Hw'.
    unfold set_tx; simpl. by rewrite app_assoc. }
  intros [|f] Hf; simpl in Hf; [lia|]. destruct k as [d|n]; simpl in *.
  - unfold conn_of. rewrite (Hd _ _ _ _ _). fold (conn_of bs').
    by rewrite (Hread f) by lia.
  - unfold conn_of. rewrite (Hd _ _ _ _ _). fold (conn_of bs').
    specialize (Hread (S f) ltac:(lia)). by simpl in Hread.
Qed.

(** ** Where a stream may end *)

Lemma ReadData_loop_boundary f l e t r w c' :
  (length l < f)%nat -> ReadData_loop f (Conn l e t r w) = (Err EOF, c') ->
  forall s, ReadData (Conn (l ++ s) e t r w) = ReadData (Conn s e t r w).
Proof.
  revert l. induction f as [|f IH]; intros l Hf H s; [lia|].
  destruct l as [|b l]; [done|]. simpl in Hf.
  destruct (ReadData_loop_turn b l e t r w) as [(e' & c'' & H' & He)|(n & p & l' & Hl & H')].
  { rewrite H' in H. congruence. }
  pose proof (H' f []) as H0. rewrite !app_nil_r in H0. rewrite H0 in H. clear H0.
  destruct (128 <=? byte_to_Z b) eqn:Eb.
  { destruct (ReadFull_cases (Z.to_nat n) (Conn l' e t r w)) as [(d & c1 & E)|(e1 & c1 & E)].
    - rewrite (unexpected_Ok _ _ _ _ E) in H. congruence.
    - rewrite (unexpected_Err _ _ _ _ E) in H. by destruct (eof_unexpected_neq e1); simplify_eq. }
  destruct (CopyN_cases n l' e t r w) as [[_ E]|[Hn E]].
  { rewrite (bind_Err _ _ _ _ _ E) in H. by destruct (eof_unexpected_neq e); simplify_eq. }
  pose proof (E []) as E0. rewrite !app_nil_r in E0.
  rewrite (bind_Ok _ _ _ _ _ E0) in H.
  transitivity (ReadData (Conn (drop (Z.to_nat n) l' ++ s) e t r w)).
  2:{ apply IH; [subst l; len_lia|done]. }
  unfold ReadData at 1; simpl. rewrite H', (bind_Ok _ _ _ _ _ (E s)).
  apply ReadData_loop_enough. subst l. len_lia.
Qed.

(** ** The size budget *)

Lemma length_prefix_mono d e n m : 0 <= n <= m -> len (prefix_of d n) <= len (prefix_of e m).
Proof.
  intros H. unfold prefix_of.
  destruct (Z.ltb_spec n 64), (Z.ltb_spec n 8192), (Z.ltb_spec m 64), (Z.ltb_spec m 8192);
    unfold len; simpl; lia.
Qed.

Lemma MaxDataForSize_spec n :
  0 < n ->
  MaxDataForSize n =
    Ok (if n <? 2 ^ 20 then n - len (prefix_of 128 n) else 2 ^ 20 - 4).
Proof.
  intros Hn. unfold MaxDataForSize. rewrite (proj2 (Z.eqb_neq n 0)) by lia.
  rewrite dataPrefix_spec, (proj2 (Z.leb_le 0 n)) by lia. simpl.
  by destruct (n <? 2 ^ 20).
Qed.

(** ** The properties *)

(** Stream round trip.  Whatever data and padding chunks are written with WriteData and
    WritePadding (data shorter than 2^20 bytes, padding of any size), the writes succeed, and
    successive calls of ReadData return exactly the data chunks, unchanged and in order, and
    then io.EOF; padding leaves no trace. *)
Theorem ReadData_stream (ks : list chunk) :
  Forall chunk_ok ks ->
  (write_chunks ks (conn_of [])).1 = Ok tt /\
  read_chunks (S (length ks)) (conn_of (tx (write_chunks ks (conn_of [])).2)) =
    (chunk_data ks, Err EOF).
Proof.
  intros Hks. destruct (write_chunks_appends ks (conn_of []) Hks) as (bs & Hw & Hr); [done|].
  rewrite Hw. cbn [fst snd tx set_tx conn_of app]. split; [done|]. apply Hr. lia.
Qed.

Lemma ReadData_stream_witness :
  let ks := [CPadding 70; CData [Byte.x41; Byte.x42]; CPadding 0; CData []; CPadding 3] in
  Forall chunk_ok ks /\
  read_chunks 6 (conn_of (tx (write_chunks ks (conn_of [])).2)) =
    ([[Byte.x41; Byte.x42]; []], Err EOF).
Proof.
  split; [repeat constructor; simpl; lia|].
  refine (proj2 (ReadData_stream [CPadding 70; CData [Byte.x41; Byte.x42]; CPadding 0;
    CData []; CPadding 3] _)).
  repeat constructor; simpl; lia.
Defined.

(** WritePadding writes exactly the [n] bytes it is asked for, on any writer that does
    not fail, and ReadData passes over all of them whatever follows. *)
Theorem WritePadding_exact (n : Z) (c : conn) :
  0 <= n -> tx_room c = None ->
  exists bs, WritePadding n c = (Ok (n, None), set_tx (tx c ++ bs) None c) /\
    len bs = n /\
    forall s e t r w, ReadData (Conn (bs ++ s) e t r w) = ReadData (Conn s e t r w).
Proof.
  intros Hn Hr. destruct (WritePadding_appends n c Hr Hn) as (bs & H & Hs & Hl). eauto.
Qed.

Lemma WritePadding_exact_witness :
  exists bs, WritePadding 1500 (conn_of []) = (Ok (1500, None), set_tx bs None (conn_of [])) /\
    len bs = 1500.
Proof.
  destruct (WritePadding_exact 1500 (conn_of [])) as (bs & H & Hl & _); [lia|done|].
  by exists bs.
Defined.

(** C40: ReadData always returns, with data or with an error: never by a panic and never by
    running out of the loop's fuel, which is one more than the number of input bytes.  When
    the error is io.EOF the stream ended on a chunk boundary: a reader of the same bytes
    followed by more input behaves as a reader of the further input alone. *)
Theorem ReadData_total (c : conn) :
  (exists d, (ReadData c).1 = Ok d) \/
  (exists e, (ReadData c).1 = Err e /\
     (e = EOF -> forall s, ReadData (set_rx (rx c ++ s) c) = ReadData (set_rx s c))).
Proof.
  destruct (ReadData_loop_total (S (length (rx c))) c) as [(d & c' & H)|(e & c' & H)];
    [lia|left|right].
  - exists d. unfold ReadData. by rewrite H by lia.
  - exists e. unfold ReadData at 1. rewrite H by lia. split; [done|]. intros -> s.
    destruct c as [l e t r w]. simpl in *.
    eapply (ReadData_loop_boundary (S (length l))); [lia|]. apply H; lia.
Qed.

(** MaxDataForSize keeps the budget.  For every positive [n], data of the returned size
    (and any shorter data) is written by WriteData without error, in at most [n] bytes. *)
Theorem MaxDataForSize_fits (n m : Z) (d : list byte) :
  0 < n -> MaxDataForSize n = Ok m -> len d <= m ->
  exists bs, WriteData d (conn_of []) = (Ok (len bs, None), set_tx bs None (conn_of [])) /\
    len bs <= n.
Proof.
  intros Hn Hm Hd. rewrite MaxDataForSize_spec in Hm by done. simplify_eq.
  pose proof (len_nonneg d). change (2 ^ 20) with 1048576 in *.
  destruct (WriteData_appends d (conn_of [])) as (bs & Hw & _ & Hl); [done| |].
  { pose proof (length_prefix_of 128 n). change (2 ^ 20) with 1048576.
    destruct (Z.ltb_spec n 1048576); unfold len in *; lia. }
  exists bs. split; [done|]. rewrite Hl.
  pose proof (length_prefix_of 128 (len d)). destruct (Z.ltb_spec n 1048576).
  - pose proof (length_prefix_mono 128 128 (len d) n). unfold len in *; lia.
  - unfold len in *; lia.
Qed.

Lemma MaxDataForSize_fits_witness :
  exists bs, WriteData (replicate 98 Byte.x07) (conn_of []) =
    (Ok (len bs, None), set_tx bs None (conn_of [])) /\ len bs <= 100.
Proof. apply (MaxDataForSize_fits 100 98); [lia|by vm_compute|by vm_compute]. Defined.

(** Where MaxDataForSize is the longest length, as its comment says: every [n] below 2^20
    apart from 64, 8192 and 8193.  At those three budgets one more byte of data still fits
    (the prefix is chosen for the length [n], not for the length of the data). *)
Theorem MaxDataForSize_longest (n m : Z) :
  0 < n < 2 ^ 20 -> MaxDataForSize n = Ok m ->
  (exists d bs, len d = m + 1 /\
     WriteData d (conn_of []) = (Ok (len bs, None), set_tx bs None (conn_of [])) /\
     len bs <= n) <-> n = 64 \/ n = 8192 \/ n = 8193.
Proof.
  intros Hn Hm. rewrite MaxDataForSize_spec, (proj2 (Z.ltb_lt n (2 ^ 20))) in Hm by lia.
  simplify_eq. change (2 ^ 20) with 1048576 in *.
  assert (forall k, 0 <= k < 1048576 -> len (prefix_of 128 k) =
    if k <? 64 then 1 else if k <? 8192 then 2 else 3) as Hp.
  { intros k _. unfold prefix_of. by destruct (k <? 64), (k <? 8192). }
  assert (0 <= n - len (prefix_of 128 n) + 1 < 1048576) as Hm.
  { rewrite Hp by lia. repeat case_match; lia. }
  assert (forall d, len d = n - len (prefix_of 128 n) + 1 -> exists bs,
    WriteData d (conn_of []) = (Ok (len bs, None), set_tx bs None (conn_of [])) /\
    len bs = len (prefix_of 128 (len d)) + len d) as Hw.
  { intros d Hd. destruct (WriteData_appends d (conn_of [])) as (bs & ? & _ & ?);
      [done|change (2 ^ 20) with 1048576; lia|eauto]. }
  assert (len (prefix_of 128 (n - len (prefix_of 128 n) + 1)) +
    (n - len (prefix_of 128 n) + 1) <= n <-> n = 64 \/ n = 8192 \/ n = 8193) as Hn'.
  { rewrite !Hp by (rewrite ?Hp in * by lia; lia).
    destruct (Z.ltb_spec n 64), (Z.ltb_spec n 8192); try lia;
      repeat (case_match; try lia). }
  split.
  - intros (d & bs & Hd & E & Hl). destruct (Hw d Hd) as (bs' & E' & Hl').
    rewrite E in E'. simplify_eq. rewrite Hd in Hl'. apply Hn'. lia.
  - intros H%Hn'. set (k := Z.to_nat (n - len (prefix_of 128 n) + 1)).
    assert (len (replicate k Byte.x00) = n - len (prefix_of 128 n) + 1) as Hk.
    { unfold len at 1. rewrite length_replicate. lia. }
    destruct (Hw _ Hk) as (bs & E & Hl). exists (replicate k Byte.x00), bs.
    split_and!; [done..|]. rewrite Hl, Hk. done.
Qed.

Lemma MaxDataForSize_longest_witness :
  exists d bs, len d = 63 /\
    WriteData d (conn_of []) = (Ok (len bs, None), set_tx bs None (conn_of [])) /\ len bs <= 64.
Proof. apply (MaxDataForSize_longest 64 62); [lia|by vm_compute|by left]. Defined.
