(* ===== verification/FtpProtocol.v ===== *)
(** The FTP tunnel's wire format: ftp/common/protocol.go.

    Frames, their UDP payload, the encrypted batches that carry them, and the camouflage file
    names.  Random values (the nonce, the padding, the choices of a name) are arguments; the
    cipher is the class [AEAD]. *)

From S2P Require Import Prelude GoLib Aead.
From Stdlib Require Import ZArith Lia Strings.Byte Strings.Ascii Strings.String.
From stdpp Require Import gmap strings list fin_maps.

#[local] Open Scope Z_scope.

(** ** Frame types *)

Definition TypeData : Z := 0x01.
Definition TypeOpen : Z := 0x02.
Definition TypeClose : Z := 0x03.
Definition TypeAck : Z := 0x04.
Definition TypeHB : Z := 0x05.
Definition TypeHBAck : Z := 0x06.
Definition TypeUDPData : Z := 0x07.
Definition TypeDNSReq : Z := 0x08.
Definition TypeDNSResp : Z := 0x09.
Definition TypeHello : Z := 0x0A.
Definition TypeReverseBind : Z := 0x0B.
Definition TypeReverseOpen : Z := 0x0C.

Definition frameHeaderSize : nat := 13.
Definition BatchMagic : Z := 0xFAB1C0DE.
Definition MaxFrameData : Z := 32 * 1024.

(** ** Frame *)

Record Frame : Type := MkFrame {
  ConnID : Z;
  FType : Z;
  Seq : Z;
  Data : list byte
}.

#[export] Instance Frame_eq_dec : EqDecision Frame.
Proof. solve_decision. Defined.

Definition EncodeUDPData (addr : string) (payload : list byte) : list byte :=
  let ab := bytes_of addr in
  byte_of_Z (len ab) :: ab ++ payload.

Definition DecodeUDPData (data : list byte) : result (string * list byte) :=
  match data with
  | [] => Err (Errorf "udp data too short")
  | b :: _ =>
      let al := Z.to_nat (byte_to_Z b) in
      if decide (length data < 1 + al)%nat then Err (Errorf "udp addr truncated")
      else Ok (string_of (sub data 1 (1 + al)), drop (1 + al) data)
  end.

(** [func (f *Frame) encode()]. *)
Definition encode (f : Frame) : list byte :=
  PutUint32 (ConnID f) ++ [byte_of_Z (FType f)] ++ PutUint32 (Seq f) ++
  PutUint32 (u32 (len (Data f))) ++ Data f.

Definition decodeFrame (b : list byte) : result Frame :=
  if decide (length b < frameHeaderSize)%nat then Err (Errorf "frame too short: %d")
  else
    let dl := be_get (sub b 9 13) in
    if dl >? len b - Z.of_nat frameHeaderSize then Err (Errorf "frame data truncated")
    else Ok {| ConnID := be_get (sub b 0 4);
               FType := be_get (sub b 4 5);
               Seq := be_get (sub b 5 9);
               Data := if dl >? 0
                       then sub b frameHeaderSize (frameHeaderSize + Z.to_nat dl) else [] |}.

(** ** Crypto *)

Section Crypto.
Context `{AEAD}.

(** Encrypt, with the nonce it draws. *)
Definition Encrypt (key plaintext nonce : list byte) : result (list byte) :=
  _ ← NewCipher key;
  Ok (nonce ++ Seal key nonce plaintext).

Definition Decrypt (key ciphertext : list byte) : result (list byte) :=
  _ ← NewCipher key;
  if decide (length ciphertext < NonceSize)%nat then Err (Errorf "ciphertext too short")
  else match Open key (take NonceSize ciphertext) (drop NonceSize ciphertext) with
       | Some p => Ok p
       | None => Err (Errorf "cipher: message authentication failed")
       end.

(** ** Batches *)

(** The body of the loop of EncodeBatch. *)
Definition encode_entry (f : Frame) : list byte :=
  let enc := encode f in PutUint32 (u32 (len enc)) ++ enc.

Definition EncodeBatch (frames : list Frame) (key pad nonce : list byte) : result (list byte) :=
  let plain := PutUint32 BatchMagic ++ PutUint32 (u32 (len frames)) in
  let plain := fold_left (fun plain f => plain ++ encode_entry f) frames plain in
  Encrypt key (plain ++ pad) nonce.

(** The loop of DecodeBatch from index [i] and position [pos] on. *)
Fixpoint decode_frames (fuel : nat) (plain : list byte) (i count : Z) (pos : nat)
    (out : list Frame) : result (list Frame) :=
  match fuel with
  | O => OutOfFuel
  | S fuel =>
      if i <? count then
        if decide (length plain < pos + 4)%nat then Err (Errorf "truncated at frame %d")
        else
          let fl := be_get (sub plain pos (pos + 4)) in
          let pos := (pos + 4)%nat in
          if Z.of_nat pos + fl >? len plain then Err (Errorf "frame %d data overrun")
          else
            f ← decodeFrame (sub plain pos (pos + Z.to_nat fl));
            decode_frames fuel plain (i + 1) count (pos + Z.to_nat fl)%nat (out ++ [f])
      else Ok out
  end.

Definition DecodeBatch (blob key : list byte) : result (list Frame) :=
  match Decrypt key blob with
  | Ok plain =>
      if decide (length plain < 8)%nat then Err (Errorf "batch too short")
      else if be_get (sub plain 0 4) =? BatchMagic then
        let count := be_get (sub plain 4 8) in
        decode_frames (S (length plain)) plain 0 count 8 []
      else Err (Errorf "bad magic")
  | Err e => Err (Errorf "decrypt: %w")
  | Panic s => Panic s
  | OutOfFuel => OutOfFuel
  end.

End Crypto.

(** ** Camouflage file names *)

Definition webExts : list string :=
  [".html"; ".css"; ".js"; ".json"; ".png"; ".jpg"; ".svg"; ".webp";
   ".woff2"; ".woff"; ".ttf"; ".ico"; ".xml"; ".txt"; ".map"].

Definition webPrefixes : list (list string) :=
  [ ["index"; "main"; "app"; "page"; "home"; "about"; "contact"; "shell"];
    ["style"; "theme"; "base"; "reset"; "layout"; "grid"; "util"; "vars"];
    ["chunk"; "vendor"; "runtime"; "polyfill"; "bundle"; "lib"; "esm"];
    ["logo"; "icon"; "hero"; "banner"; "avatar"; "thumb"; "bg"; "sprite"];
    ["data"; "config"; "manifest"; "sitemap"; "robots"; "feed"; "schema"] ].

(** NewSessionToken, from its eight random bytes. *)
Definition NewSessionToken (b : list byte) : string := hex b.

(** RandomWebName, from its random draws: the group, the prefix, the extension, five bytes. *)
Definition RandomWebName (dir : ascii) (token : string) (g p e : nat) (suffix : list byte) :
    string :=
  let group := default [] (webPrefixes !! g) in
  let prefix := default ""%string (group !! p) in
  let ext := default ""%string (webExts !! e) in
  String dir token +:+ "-" +:+ prefix +:+ "-" +:+ hex suffix +:+ ext.

Definition IsUploadName (name : string) : bool :=
  match name with String "u" _ => true | _ => false end.

Definition IsMyDownload (name token : string) : bool :=
  (slen name >? 1 + slen token) &&
  match name with
  | String "d" rest => String.eqb (take_s (String.length token) rest) token
  | _ => false
  end.

Definition TokenFromUpload (name : string) : option string :=
  if slen name <? 2 then None
  else match name with
       | String "u" rest =>
           let dash := Index rest "-" in
           if dash <? 0 then None else Some (take_s (Z.to_nat dash) rest)
       | _ => None
       end.

(** ** Well-formed values *)

(** The values a Frame of Go holds: 32-bit numbers, a byte, and data whose encoding fits the
    32-bit length of a batch entry. *)
Definition frame_ok (f : Frame) : Prop :=
  0 <= ConnID f < 2 ^ 32 /\ 0 <= FType f < 256 /\ 0 <= Seq f < 2 ^ 32 /\
  len (Data f) + 13 < 2 ^ 32.

#[export] Instance frame_ok_dec f : Decision (frame_ok f).
Proof. unfold frame_ok. apply _. Defined.

(** ** Lemmas: frames *)

Lemma length_encode f : length (encode f) = (13 + length (Data f))%nat.
Proof. unfold encode. autorewrite with go_len. simpl. lia. Qed.

Lemma len_encode f : len (encode f) = 13 + len (Data f).
Proof. unfold len. rewrite length_encode. lia. Qed.

Lemma be_get_put32_small v : 0 <= v < 2 ^ 32 -> be_get (PutUint32 v) = v.
Proof. intros. rewrite be_get_put32. by apply u32_small. Qed.

Lemma be_get_byte z : 0 <= z < 256 -> be_get [byte_of_Z z] = z.
Proof. intros. unfold be_get. simpl. by apply byte_to_of_Z_small. Qed.

(** The four header fields of an encoded frame. *)
Lemma encode_fields f :
  sub (encode f) 0 4 = PutUint32 (ConnID f) /\ sub (encode f) 4 5 = [byte_of_Z (FType f)] /\
  sub (encode f) 5 9 = PutUint32 (Seq f) /\
  sub (encode f) 9 13 = PutUint32 (u32 (len (Data f))) /\ drop 13 (encode f) = Data f.
Proof. done. Qed.

Lemma decode_encode f : frame_ok f -> decodeFrame (encode f) = Ok f.
Proof.
  intros (Hc & Ht & Hs & Hd). unfold decodeFrame.
  destruct (encode_fields f) as (-> & -> & -> & -> & E).
  rewrite len_encode, length_encode. unfold frameHeaderSize.
  pose proof (len_nonneg (Data f)).
  rewrite (u32_small (len (Data f))), !be_get_put32_small, be_get_byte by lia.
  rewrite decide_False by lia. rewrite Z.gtb_ltb, (proj2 (Z.ltb_ge _ _)) by lia.
  destruct f as [c t s d]; cbn [ConnID FType Seq Data] in *. do 2 f_equal.
  rewrite Z.gtb_ltb. destruct (Z.ltb_spec 0 (len d)) as [Hl|Hl].
  - unfold sub. rewrite E. apply firstn_all2. rewrite to_nat_len. lia.
  - destruct d; [done|]. unfold len in Hl; simpl in Hl; lia.
Qed.

(** What a decoded frame is: its fields are in range, and its encoding is the bytes read. *)
Lemma decodeFrame_ok b f :
  decodeFrame b = Ok f ->
  exists rest, b = encode f ++ rest /\
    0 <= ConnID f < 2 ^ 32 /\ 0 <= FType f < 256 /\ 0 <= Seq f < 2 ^ 32.
Proof.
  unfold decodeFrame. case_decide as Hl; [done|]. unfold frameHeaderSize in *.
  destruct (Z.gtb_spec (be_get (sub b 9 13)) (len b - Z.of_nat 13)) as [?|Hd]; [done|].
  intros [= <-].
  assert (exists h c4 t1 s4 d4 r, h = c4 ++ t1 ++ s4 ++ d4 /\ b = h ++ r /\ length c4 = 4%nat /\
    length t1 = 1%nat /\ length s4 = 4%nat /\ length d4 = 4%nat)
    as (h & c4 & t1 & s4 & d4 & r & Eh & Eb & L1 & L2 & L3 & L4).
  { exists (take 13 b), (sub b 0 4), (sub b 4 5), (sub b 5 9), (sub b 9 13), (drop 13 b).
    rewrite take_drop, !length_sub by lia. split_and!; try done; try lia.
    do 13 (destruct b as [|? b]; [simpl in Hl; lia|]). done. }
  subst h b. rewrite <- !app_assoc in *.
  assert (sub (c4 ++ t1 ++ s4 ++ d4 ++ r) 0 4 = c4) as E1
    by (apply (sub_app [] c4); simpl; lia).
  assert (sub (c4 ++ t1 ++ s4 ++ d4 ++ r) 4 5 = t1) as E2 by (apply sub_app; lia).
  assert (sub (c4 ++ t1 ++ s4 ++ d4 ++ r) 5 9 = s4) as E3.
  { rewrite (app_assoc c4). apply sub_app; rewrite ?length_app; lia. }
  assert (sub (c4 ++ t1 ++ s4 ++ d4 ++ r) 9 13 = d4) as E4.
  { rewrite (app_assoc c4), (app_assoc _ s4). apply sub_app; rewrite ?length_app; lia. }
  rewrite E1, E2, E3, E4 in *.
  pose proof (be_get_range c4); pose proof (be_get_range t1); pose proof (be_get_range s4).
  pose proof (be_get_range d4). unfold len in *. rewrite L1, L2, L3, L4 in *.
  rewrite !length_app, L1, L2, L3, L4 in Hd.
  set (n := be_get d4) in *.
  assert ((if n >? 0 then sub (c4 ++ t1 ++ s4 ++ d4 ++ r) 13 (13 + Z.to_nat n) else []) =
    take (Z.to_nat n) r) as Hdata.
  { rewrite Z.gtb_ltb. destruct (Z.ltb_spec 0 n).
    - unfold sub. do 3 rewrite app_assoc. rewrite drop_app_length' by
        (rewrite !length_app; lia). f_equal. lia.
    - by replace (Z.to_nat n) with O by lia. }
  cbn [Nat.add] in Hdata. exists (drop (Z.to_nat n) r). rewrite Hdata. split; [|done]. unfold encode;
    cbn [ConnID FType Seq Data]. rewrite len_take. unfold len.
  rewrite u32_small, Z2Nat.id, Z.min_l by lia.
  assert (PutUint32 (be_get c4) = c4) as -> by (by apply be_put_get_n).
  assert (PutUint32 (be_get s4) = s4) as -> by (by apply be_put_get_n).
  assert (PutUint32 n = d4) as -> by (by apply be_put_get_n).
  assert ([byte_of_Z (be_get t1)] = t1) as ->.
  { destruct t1 as [|x [|? ?]]; [done| |done]. change (be_get [x]) with (byte_to_Z x).
    by rewrite byte_of_to_Z. }
  rewrite <- !app_assoc. by rewrite take_drop.
Qed.

(** ** Lemmas: batches *)

Lemma length_encode_entry f : length (encode_entry f) = (17 + length (Data f))%nat.
Proof. unfold encode_entry. rewrite length_app, length_be_put, length_encode. lia. Qed.

Lemma fold_entries fs plain :
  fold_left (fun plain f => plain ++ encode_entry f) fs plain =
  plain ++ concat (map encode_entry fs).
Proof.
  revert plain. induction fs as [|f fs IH]; intros plain; cbn [fold_left map concat].
  - by rewrite app_nil_r.
  - by rewrite IH, app_assoc.
Qed.

(** The loop on a buffer that has well-formed entries at its position. *)
Lemma decode_frames_entries fs pre post fuel i out :
  Forall frame_ok fs -> (length fs < fuel)%nat ->
  decode_frames fuel (pre ++ concat (map encode_entry fs) ++ post) i (i + len fs) (length pre) out
  = Ok (out ++ fs).
Proof.
  intros Hfs. revert pre fuel i out. induction Hfs as [|f fs Hf Hfs IH];
    intros pre fuel i out Hfuel; (destruct fuel as [|fuel]; [simpl in Hfuel; lia|]).
  - cbn [decode_frames]. rewrite (proj2 (Z.ltb_ge _ _)) by (rewrite len_nil; lia).
    by rewrite app_nil_r.
  - cbn [decode_frames map concat]. pose proof (len_nonneg fs).
    rewrite (proj2 (Z.ltb_lt _ _)) by (rewrite len_cons; lia).
    set (plain := pre ++ (encode_entry f ++ concat (map encode_entry fs)) ++ post).
    assert (plain = pre ++ PutUint32 (u32 (len (encode f))) ++
      (encode f ++ concat (map encode_entry fs) ++ post)) as E1.
    { unfold plain, encode_entry. by rewrite <- !app_assoc. }
    assert (plain = (pre ++ PutUint32 (u32 (len (encode f)))) ++ encode f ++
      (concat (map encode_entry fs) ++ post)) as E2.
    { rewrite E1. by rewrite <- !app_assoc. }
    assert (length plain = (length pre + 4 + length (encode f) +
      length (concat (map encode_entry fs) ++ post))%nat) as El.
    { rewrite E2, !length_app, length_be_put. lia. }
    rewrite decide_False by lia.
    assert (sub plain (length pre) (length pre + 4) = PutUint32 (u32 (len (encode f)))) as ->.
    { rewrite E1. apply sub_app; [done|]. by rewrite length_be_put. }
    destruct Hf as (Hc & Ht & Hs & Hd). pose proof (len_nonneg (Data f)).
    rewrite (u32_small (len (encode f))), be_get_put32_small
      by (change (2 ^ 32) with 4294967296 in *; rewrite len_encode; lia).
    rewrite Z.gtb_ltb, (proj2 (Z.ltb_ge _ _)) by (unfold len; lia). rewrite to_nat_len.
    assert (sub plain (length pre + 4) (length pre + 4 + length (encode f)) = encode f) as ->.
    { rewrite E2. apply sub_app; rewrite ?length_app, ?length_be_put; lia. }
    rewrite decode_encode by done. cbn [mbind result_bind].
    replace (i + len (f :: fs)) with ((i + 1) + len fs) by (rewrite len_cons; lia).
    replace (length pre + 4 + length (encode f))%nat with (length (pre ++ encode_entry f)).
    2:{ unfold encode_entry. rewrite !length_app, length_be_put. lia. }
    replace plain with ((pre ++ encode_entry f) ++ concat (map encode_entry fs) ++ post).
    2:{ unfold plain. by rewrite <- !app_assoc. }
    rewrite IH by (simpl in Hfuel; lia). by rewrite <- app_assoc.
Qed.

(** The loop always answers: each turn moves the position forward. *)
Lemma decode_frames_total fuel plain i count pos out :
  (pos <= length plain)%nat -> (length plain < pos + fuel)%nat ->
  (exists fs, decode_frames fuel plain i count pos out = Ok fs) \/
  (exists e, decode_frames fuel plain i count pos out = Err e /\ e <> EOF).
Proof.
  revert i pos out. induction fuel as [|fuel IH]; intros i pos out Hp Hf; [lia|].
  cbn [decode_frames]. destruct (i <? count); [|eauto].
  case_decide as Hl; [eauto|]. destruct (Z.gtb_spec (Z.of_nat (pos + 4) +
    be_get (sub plain pos (pos + 4))) (len plain)) as [?|Hb]; [eauto|].
  destruct (decodeFrame _) as [f|e|s|] eqn:E; cbn [mbind result_bind].
  - pose proof (be_get_range (sub plain pos (pos + 4))). unfold len in Hb.
    apply IH; lia.
  - right. exists e. split; [done|]. unfold decodeFrame in E. repeat case_match; by simplify_eq.
  - unfold decodeFrame in E. by repeat case_match.
  - unfold decodeFrame in E. by repeat case_match.
Qed.

Section CryptoLemmas.
Context `{AEADLaws}.

Definition key_ok (key : list byte) : Prop := NewCipher key = Ok tt.

Lemma Decrypt_Encrypt key nonce p c :
  length nonce = NonceSize -> Encrypt key p nonce = Ok c -> Decrypt key c = Ok p.
Proof.
  unfold Encrypt, Decrypt. intros Hn. destruct (NewCipher key); try done.
  cbn [mbind result_bind]. intros [= <-].
  rewrite decide_False by (rewrite length_app; lia).
  rewrite take_app_length', drop_app_length' by done. by rewrite Open_Seal.
Qed.

(** A blob that decrypts is the encryption of the plaintext under the nonce it starts with. *)
Lemma Decrypt_inv key c p :
  Decrypt key c = Ok p ->
  exists nonce, length nonce = NonceSize /\ Encrypt key p nonce = Ok c.
Proof.
  unfold Encrypt, Decrypt. destruct (NewCipher key); try done. cbn [mbind result_bind].
  case_decide; [done|]. destruct (Open _ _ _) eqn:E; [|done]. intros [= ->].
  exists (take NonceSize c). split; [rewrite length_take; lia|].
  apply Open_inv in E. by rewrite <- E, take_drop.
Qed.

Lemma Encrypt_length key nonce p c :
  Encrypt key p nonce = Ok c -> length c = (length nonce + length p + Overhead)%nat.
Proof.
  unfold Encrypt. destruct (NewCipher key); try done. cbn [mbind result_bind].
  intros [= <-]. rewrite length_app, length_Seal. lia.
Qed.

Lemma Encrypt_Ok key p nonce :
  key_ok key -> Encrypt key p nonce = Ok (nonce ++ Seal key nonce p).
Proof. unfold key_ok, Encrypt. by intros ->. Qed.

Lemma DecodeBatch_EncodeBatch fs key pad nonce blob :
  Forall frame_ok fs -> len fs < 2 ^ 32 -> length nonce = NonceSize ->
  EncodeBatch fs key pad nonce = Ok blob -> DecodeBatch blob key = Ok fs.
Proof.
  intros Hfs Hc Hn Hb. unfold EncodeBatch in Hb. unfold DecodeBatch.
  rewrite (Decrypt_Encrypt _ _ _ _ Hn Hb), fold_entries.
  pose proof (len_nonneg fs).
  set (plain := ((PutUint32 BatchMagic ++ PutUint32 (u32 (len fs))) ++
    concat (map encode_entry fs)) ++ pad).
  assert (plain = (PutUint32 BatchMagic ++ PutUint32 (u32 (len fs))) ++
    concat (map encode_entry fs) ++ pad) as Ep by (unfold plain; by rewrite <- app_assoc).
  assert (sub plain 0 4 = PutUint32 BatchMagic) as -> by done.
  assert (sub plain 4 8 = PutUint32 (u32 (len fs))) as -> by done.
  rewrite decide_False by (rewrite Ep, !length_app, !length_be_put; lia).
  rewrite be_get_put32_small, Z.eqb_refl by done.
  rewrite (u32_small (len fs)), be_get_put32_small by done.
  rewrite Ep. apply (decode_frames_entries fs (PutUint32 BatchMagic ++ PutUint32 _) pad _ 0 []).
  - done.
  - rewrite !length_app, !length_be_put.
    assert (length fs <= length (concat (map encode_entry fs)))%nat; [|lia].
    clear. induction fs as [|f fs IH]; cbn [map concat length]; [lia|].
    rewrite length_app, length_encode_entry. lia.
Qed.

End CryptoLemmas.

(** What a decoded batch is made of: the entries the loop passed over, each the encoding of
    its frame followed by bytes the frame does not use. *)
Fixpoint entries (fs : list Frame) (bs : list byte) : Prop :=
  match fs with
  | [] => True
  | f :: fs =>
      exists extra rest, bs = PutUint32 (len (encode f ++ extra)) ++ encode f ++ extra ++ rest /\
        entries fs rest
  end.

Lemma decode_frames_sound fuel plain i count pos out fs :
  (pos <= length plain)%nat ->
  decode_frames fuel plain i count pos out = Ok fs ->
  exists gs, fs = out ++ gs /\ len gs = Z.max 0 (count - i) /\ entries gs (drop pos plain) /\
    Forall (fun f => 0 <= ConnID f < 2 ^ 32 /\ 0 <= FType f < 256 /\ 0 <= Seq f < 2 ^ 32) gs.
Proof.
  revert i pos out. induction fuel as [|fuel IH]; intros i pos out Hp H; [done|].
  cbn [decode_frames] in H. destruct (Z.ltb_spec i count) as [Hi|Hi].
  2:{ simplify_eq. exists []. rewrite app_nil_r, len_nil. split_and!; [done|lia|done|done]. }
  case_decide as Hl; [done|].
  destruct (Z.gtb_spec (Z.of_nat (pos + 4) + be_get (sub plain pos (pos + 4))) (len plain))
    as [?|Hb]; [done|].
  pose proof (be_get_range (sub plain pos (pos + 4))) as Hr.
  assert (length (sub plain pos (pos + 4)) = 4%nat) as L4 by (rewrite length_sub; lia).
  set (fl := be_get (sub plain pos (pos + 4))) in *.
  destruct (decodeFrame _) as [f|?|?|] eqn:E; cbn [mbind result_bind] in H; try done.
  unfold len in Hb. apply IH in H as (gs & -> & Hlen & He & Hall); [|lia].
  apply decodeFrame_ok in E as (extra & E & Hf).
  exists (f :: gs). rewrite <- app_assoc. split_and!; [done|rewrite len_cons; lia| |by constructor].
  exists extra, (drop (pos + 4 + Z.to_nat fl) plain). split; [|done].
  rewrite (app_assoc (encode f)), <- E.
  assert (len (sub plain (pos + 4) (pos + 4 + Z.to_nat fl)) = fl) as ->
    by (unfold len; rewrite length_sub; lia).
  assert (PutUint32 fl = sub plain pos (pos + 4)) as -> by (by apply be_put_get_n).
  unfold sub. rewrite <- (take_drop 4 (drop pos plain)) at 1. f_equal; [f_equal; lia|].
  rewrite drop_drop. rewrite <- (take_drop (Z.to_nat fl) (drop (pos + 4) plain)) at 1.
  f_equal; [f_equal; lia|]. by rewrite drop_drop.
Qed.

(** ** Lemmas: UDP payloads and names *)

Lemma DecodeUDPData_app b addr rest :
  Z.to_nat (byte_to_Z b) = length addr ->
  DecodeUDPData (b :: addr ++ rest) = Ok (string_of addr, rest).
Proof.
  intros Hb. cbn [DecodeUDPData]. rewrite Hb.
  rewrite decide_False by (simpl; rewrite length_app; lia).
  do 2 f_equal.
  - f_equal. apply (sub_app [b]); simpl; lia.
  - simpl. by apply drop_app_length.
Qed.

Lemma Index_byte s c : Index s (String c EmptyString) = IndexByte s c.
Proof.
  induction s as [|d s IH]; [done|].
  cbn [Index IndexByte]. rewrite IH. unfold HasPrefix. simpl.
  destruct (ascii_dec c d) as [<-|Hd].
  - rewrite Ascii.eqb_refl. by destruct s.
  - by rewrite (proj2 (Ascii.eqb_neq _ _)) by congruence.
Qed.

(** ** The properties *)

(** C5: Batch round trip.  A batch of frames with values in the ranges of their Go types,
    encrypted under any nonce and any padding, decodes to exactly the frames: types,
    sequence numbers, connection ids and data, in order; padding leaves no trace. *)
Theorem Batch_roundtrip `{AEADLaws} (fs : list Frame) (key pad nonce blob : list byte) :
  Forall frame_ok fs -> len fs < 2 ^ 32 -> length nonce = NonceSize ->
  EncodeBatch fs key pad nonce = Ok blob ->
  DecodeBatch blob key = Ok fs.
Proof. apply DecodeBatch_EncodeBatch. Qed.

Definition sample_frames : list Frame :=
  [ MkFrame 7 TypeOpen 0 (bytes_of "example.org:80"); MkFrame 0xffffffff TypeData 1 [];
    MkFrame 7 TypeClose 0xfffffffe [Byte.x00] ].

Lemma Batch_roundtrip_witness :
  let key := replicate 32 Byte.x4b in let nonce := replicate 12 Byte.x01 in
  exists blob, EncodeBatch sample_frames key [Byte.xaa; Byte.xbb] nonce = Ok blob /\
    DecodeBatch blob key = Ok sample_frames.
Proof.
  eexists. split; [reflexivity|].
  apply (Batch_roundtrip sample_frames (replicate 32 Byte.x4b) [Byte.xaa; Byte.xbb]
    (replicate 12 Byte.x01)).
  - repeat constructor; vm_compute; done.
  - done.
  - done.
  - reflexivity.
Defined.

(** C14: DecodeBatch answers every input, and accepts only what was encrypted under its key.
    It never panics and its loop always ends.  When it returns frames, the blob is the
    encryption under the key of a plaintext with the magic number and the count of those
    frames, followed by their encodings (each in an entry that may hold further bytes), and
    their fields are in range. *)
Theorem DecodeBatch_sound `{AEADLaws} (blob key : list byte) :
  match DecodeBatch blob key with
  | Ok fs =>
      exists nonce plain rest,
        Encrypt key plain nonce = Ok blob /\ length nonce = NonceSize /\
        plain = PutUint32 BatchMagic ++ PutUint32 (len fs) ++ rest /\ entries fs rest /\
        Forall (fun f => 0 <= ConnID f < 2 ^ 32 /\ 0 <= FType f < 256 /\ 0 <= Seq f < 2 ^ 32) fs
  | Err e => e <> EOF
  | Panic _ | OutOfFuel => False
  end.
Proof.
  unfold DecodeBatch. destruct (Decrypt key blob) as [plain|e|s|] eqn:E; [|done|..].
  2-3: unfold Decrypt, NewCipher in E; repeat case_match; simplify_eq/=; by repeat case_match.
  case_decide as Hl; [done|]. destruct (Z.eqb_spec (be_get (sub plain 0 4)) BatchMagic) as [Hm|];
    [|done].
  destruct (decode_frames_total (S (length plain)) plain 0 (be_get (sub plain 4 8)) 8 [])
    as [[fs Hd]|(e & Hd & He)]; [lia|lia| |]; rewrite Hd; [|done].
  apply decode_frames_sound in Hd as (gs & -> & Hlen & He & Hall); [|lia].
  apply Decrypt_inv in E as (nonce & Hn & E). exists nonce, plain, (drop 8 plain).
  split_and!; [done|done| |done|done]. rewrite app_nil_l, Hlen.
  pose proof (be_get_range (sub plain 4 8)).
  rewrite Z.max_r, Z.sub_0_r by lia. rewrite <- Hm.
  assert (PutUint32 (be_get (sub plain 0 4)) = sub plain 0 4) as ->
    by (apply be_put_get_n; by rewrite length_sub by lia).
  assert (PutUint32 (be_get (sub plain 4 8)) = sub plain 4 8) as ->
    by (apply be_put_get_n; by rewrite length_sub by lia).
  do 8 (destruct plain as [|? plain]; [simpl in Hl; lia|]). done.
Qed.

Definition sample_blob : list byte :=
  replicate 12 Byte.x01 ++ Seal (replicate 32 Byte.x4b) (replicate 12 Byte.x01)
    (PutUint32 BatchMagic ++ PutUint32 1 ++ encode_entry (MkFrame 7 TypeHB 5 [])).

Lemma DecodeBatch_sound_witness :
  DecodeBatch sample_blob (replicate 32 Byte.x4b) = Ok [MkFrame 7 TypeHB 5 []] /\
  exists nonce plain rest, Encrypt (replicate 32 Byte.x4b) plain nonce = Ok sample_blob /\
    plain = PutUint32 BatchMagic ++ PutUint32 1 ++ rest /\ entries [MkFrame 7 TypeHB 5 []] rest.
Proof.
  assert (DecodeBatch sample_blob (replicate 32 Byte.x4b) = Ok [MkFrame 7 TypeHB 5 []]) as E
    by (by vm_compute).
  split; [exact E|].
  pose proof (DecodeBatch_sound sample_blob (replicate 32 Byte.x4b)) as H. rewrite E in H.
  destruct H as (nonce & plain & rest & H1 & _ & H2 & H3 & _). by exists nonce, plain, rest.
Defined.

(** UDP payloads.  For every address and payload, decoding the encoding gives them back
    exactly when the address is shorter than 256 bytes.  A longer address is cut at its length
    modulo 256, and its tail becomes part of the payload. *)
Theorem UDPData_roundtrip (addr : string) (payload : list byte) :
  let n := Z.to_nat (slen addr mod 256) in
  DecodeUDPData (EncodeUDPData addr payload) =
    Ok (take_s n addr, bytes_of (drop_s n addr) ++ payload) /\
  (DecodeUDPData (EncodeUDPData addr payload) = Ok (addr, payload) <-> slen addr < 256).
Proof.
  intros n. assert (len (bytes_of addr) = slen addr) as Hl
    by (unfold len, slen; by rewrite length_bytes_of).
  pose proof (slen_nonneg addr). pose proof (Z.mod_pos_bound (slen addr) 256 ltac:(lia)).
  pose proof (Z.mod_le (slen addr) 256 ltac:(lia) ltac:(lia)).
  assert (DecodeUDPData (EncodeUDPData addr payload) =
    Ok (take_s n addr, bytes_of (drop_s n addr) ++ payload)) as E.
  { unfold EncodeUDPData. rewrite <- (take_drop n (bytes_of addr)) at 2. rewrite <- app_assoc.
    rewrite DecodeUDPData_app; [by rewrite take_bytes_of, drop_bytes_of, string_of_bytes_of|].
    rewrite Hl, byte_to_of_Z, length_take, length_bytes_of. unfold slen in *. lia. }
  split; [done|]. rewrite E. split.
  - intros [= _ Hp]. apply (f_equal length) in Hp. rewrite length_app, length_bytes_of in Hp.
    pose proof (f_equal String.length (take_drop_s n addr)) as Hs. rewrite length_sapp in Hs.
    pose proof (length_take_s n addr). unfold slen in *. lia.
  - intros Hlt. assert (n = String.length addr) as ->.
    { unfold n. rewrite Z.mod_small by lia. unfold slen. lia. }
    rewrite <- (sapp_nil_r addr) at 2 4. by rewrite take_s_app, drop_s_app.
Qed.

(** Camouflage names carry the session token.  For a token without a dash, the server
    reads the token of an upload name back, and a client recognises the download names of its
    own token and of no other token of the same length; the random parts do not matter. *)
Theorem WebName_token (token token' : string) (g p e : nat) (suffix : list byte) :
  free "-" token -> String.length token' = String.length token ->
  TokenFromUpload (RandomWebName "u" token g p e suffix) = Some token /\
  IsUploadName (RandomWebName "u" token g p e suffix) = true /\
  IsUploadName (RandomWebName "d" token g p e suffix) = false /\
  (IsMyDownload (RandomWebName "d" token g p e suffix) token' = true <-> token' = token).
Proof.
  intros Hf Hl. unfold RandomWebName.
  set (tail := default "" (default [] (webPrefixes !! g) !! p) +:+ "-" +:+ hex suffix +:+
    default "" (webExts !! e)).
  change (String ?d token +:+ "-" +:+ tail) with (String d (token +:+ String "-" tail)).
  split_and!; [|done|done|].
  - unfold TokenFromUpload. rewrite slen_cons, slen_app, slen_cons.
    pose proof (slen_nonneg token). pose proof (slen_nonneg tail).
    rewrite (proj2 (Z.ltb_ge _ _)) by lia. cbv zeta.
    rewrite Index_byte, IndexByte_app by done. rewrite (proj2 (Z.ltb_ge _ _)) by lia.
    f_equal. apply take_s_app. unfold slen. lia.
  - unfold IsMyDownload. rewrite slen_cons, slen_app, slen_cons, Hl, take_s_app by done.
    pose proof (slen_nonneg tail). assert (slen token' = slen token) as -> by
      (unfold slen; by rewrite Hl).
    rewrite Z.gtb_ltb, (proj2 (Z.ltb_lt _ _)) by lia. simpl. rewrite String.eqb_eq. done.
Qed.

Lemma WebName_token_witness :
  TokenFromUpload (RandomWebName "u" (NewSessionToken (replicate 8 Byte.xa5)) 2 3 1
    [Byte.x01; Byte.x02; Byte.x03; Byte.x04; Byte.x05]) = Some "a5a5a5a5a5a5a5a5"%string.
Proof.
  refine (proj1 (WebName_token (NewSessionToken (replicate 8 Byte.xa5))
    (NewSessionToken (replicate 8 Byte.xa5)) 2 3 1 _ _ _)); [|done].
  vm_compute. repeat split; discriminate.
Defined.
