(* ===== verification/FtpReorder.v ===== *)
(** The reorder buffer of an FTP virtual connection: ftp/common/reorder.go.

    The output channel is the list of the frames sent to it.  A call runs under the buffer's
    mutex to its end: the model has the schedules in which the channel (1024 frames in the
    client) has room, so that [deliver] does not release the mutex.  The gap timer is a flag;
    its callback [timeoutFlush] may run at any point, as it may when [Stop] comes too late. *)

From S2P Require Import Prelude FtpProtocol.
From Stdlib Require Import ZArith Lia Strings.Byte.
From stdpp Require Import gmap list fin_maps.

#[local] Open Scope Z_scope.

(** ** The code *)

Record ReorderBuffer : Type := MkReorder {
  nextExpected : Z;
  held : list Frame;
  out : list Frame;
  timer : bool
}.

Definition set_held (h : list Frame) (r : ReorderBuffer) : ReorderBuffer :=
  MkReorder (nextExpected r) h (out r) (timer r).
Definition set_timer (t : bool) (r : ReorderBuffer) : ReorderBuffer :=
  MkReorder (nextExpected r) (held r) (out r) t.

Definition NewReorderBuffer : ReorderBuffer := MkReorder 1 [] [] false.

(** sort.Slice by Seq, as the insertion sort it is on the short slices of [held]. *)
Fixpoint insert_frame (f : Frame) (l : list Frame) : list Frame :=
  match l with
  | [] => [f]
  | g :: l' => if Seq f <? Seq g then f :: l else g :: insert_frame f l'
  end.
Definition sort_frames (l : list Frame) : list Frame :=
  fold_left (fun acc f => insert_frame f acc) l [].

Definition deliver (f : Frame) (r : ReorderBuffer) : ReorderBuffer :=
  MkReorder (u32 (Seq f + 1)) (held r) (out r ++ [f]) (timer r).

(** The loop of flushContiguous, on the held frames. *)
Fixpoint flush_loop (hs : list Frame) (r : ReorderBuffer) : ReorderBuffer :=
  match hs with
  | h :: t =>
      if Seq h =? nextExpected r then flush_loop t (set_held t (deliver h r)) else r
  | [] => r
  end.
Definition flushContiguous (r : ReorderBuffer) : ReorderBuffer := flush_loop (held r) r.

Definition Push (f : Frame) (r : ReorderBuffer) : ReorderBuffer :=
  if Seq f <? nextExpected r then r
  else if Seq f =? nextExpected r then
    let r := flushContiguous (deliver f r) in
    if timer r && (len (held r) =? 0) then set_timer false r else r
  else
    let r := set_held (sort_frames (held r ++ [f])) r in
    if timer r then r else set_timer true r.

Fixpoint timeout_loop (hs : list Frame) (r : ReorderBuffer) : ReorderBuffer :=
  match hs with
  | h :: t => timeout_loop t (set_held t (deliver h r))
  | [] => r
  end.
Definition timeoutFlush (r : ReorderBuffer) : ReorderBuffer :=
  let r := set_timer false r in timeout_loop (held r) r.

(** A run of the buffer: the calls it receives, in order. *)
Inductive call : Type := CPush (f : Frame) | CTimeout.

Definition step (r : ReorderBuffer) (c : call) : ReorderBuffer :=
  match c with CPush f => Push f r | CTimeout => timeoutFlush r end.
Definition run (cs : list call) (r : ReorderBuffer) : ReorderBuffer := fold_left step cs r.

Definition pushed (cs : list call) : list Frame :=
  omap (fun c => match c with CPush f => Some f | CTimeout => None end) cs.

(** ** Sorted lists of frames *)

(** Strictly increasing sequence numbers, all above [lo]. *)
Fixpoint increasing (lo : Z) (l : list Frame) : Prop :=
  match l with [] => True | f :: l => lo < Seq f /\ increasing (Seq f) l end.

Lemma increasing_weaken lo lo' l : lo' <= lo -> increasing lo l -> increasing lo' l.
Proof. destruct l; simpl; [done|]. intuition lia. Qed.

Lemma increasing_Forall lo l : increasing lo l -> Forall (fun g => lo < Seq g) l.
Proof.
  revert lo. induction l as [|g l IH]; intros lo; [constructor|]. intros [H1 H2].
  constructor; [done|]. apply (Forall_impl _ _ _ (IH _ H2)). intros; simpl in *. lia.
Qed.

Lemma increasing_snoc lo l f :
  increasing lo (l ++ [f]) <-> increasing lo l /\ lo < Seq f /\ Forall (fun g => Seq g < Seq f) l.
Proof.
  revert lo. induction l as [|g l IH]; intros lo; simpl.
  - intuition.
  - rewrite IH, Forall_cons. intuition lia.
Qed.

Lemma insert_increasing lo f l :
  increasing lo l -> lo < Seq f -> Seq f ∉ map Seq l -> increasing lo (insert_frame f l).
Proof.
  revert lo. induction l as [|g l IH]; intros lo; simpl; [done|].
  intros [H1 H2] H Hn. rewrite not_elem_of_cons in Hn.
  destruct (Z.ltb_spec (Seq f) (Seq g)); simpl; [done|].
  split; [done|]. apply IH; [done|lia|tauto].
Qed.

Lemma insert_Permutation f l : insert_frame f l ≡ₚ f :: l.
Proof.
  induction l as [|g l IH]; simpl; [done|]. case_match; [done|]. rewrite IH. apply perm_swap.
Qed.

Lemma insert_last lo f l : increasing lo (l ++ [f]) -> insert_frame f l = l ++ [f].
Proof.
  revert lo. induction l as [|g l IH]; intros lo; simpl; [done|]. intros [H1 H2].
  pose proof (proj1 (increasing_snoc _ _ _) H2) as (_ & H & _).
  rewrite (proj2 (Z.ltb_ge _ _)) by lia. by erewrite IH.
Qed.

Lemma sort_sorted lo l : increasing lo l -> sort_frames l = l.
Proof.
  unfold sort_frames. induction l as [|f l IH] using rev_ind; [done|]. intros H.
  rewrite fold_left_app. simpl. rewrite IH by (apply increasing_snoc in H; tauto).
  by eapply insert_last.
Qed.

Lemma sort_snoc lo l f : increasing lo l -> sort_frames (l ++ [f]) = insert_frame f l.
Proof.
  intros H. unfold sort_frames. rewrite fold_left_app. simpl.
  by rewrite (sort_sorted lo l H : fold_left _ l [] = l).
Qed.

(** ** The invariant *)

Definition seq_ok (f : Frame) : Prop := 0 <= Seq f < 2 ^ 32 - 1.

#[export] Instance seq_ok_dec f : Decision (seq_ok f).
Proof. unfold seq_ok. apply _. Defined.

(** The output is increasing and below [nextExpected]; what is held is increasing and not
    below it; output and held frames are among the pushed ones [ps]. *)
Record winv (ps : list Frame) (r : ReorderBuffer) : Prop := {
  winv_next : 1 <= nextExpected r < 2 ^ 32;
  winv_out : increasing 0 (out r);
  winv_out_next : Forall (fun f => Seq f < nextExpected r) (out r);
  winv_held : increasing (nextExpected r - 1) (held r);
  winv_held_ok : Forall seq_ok (held r);
  winv_from : forall f, f ∈ out r ++ held r -> f ∈ ps
}.

(** Between calls the frame [nextExpected] is not held. *)
Definition inv (ps : list Frame) (r : ReorderBuffer) : Prop :=
  winv ps r /\ increasing (nextExpected r) (held r).

Lemma inv_new : inv [] NewReorderBuffer.
Proof. split; [split|]; simpl; try done; try lia; constructor. Qed.

Lemma winv_weaken ps f r : winv ps r -> winv (ps ++ [f]) r.
Proof.
  intros [? ? ? ? ? H]. split; try done. intros g Hg. apply elem_of_app. left. by apply H.
Qed.

Lemma winv_timer ps b r : winv ps r -> winv ps (set_timer b r).
Proof. by intros []; split. Qed.

(** One delivery: [f] goes out, [t] stays held. *)
Lemma deliver_winv ps f t r :
  winv ps r -> seq_ok f -> nextExpected r <= Seq f -> f ∈ ps ->
  increasing (Seq f) t -> Forall seq_ok t -> (forall g, g ∈ t -> g ∈ ps) ->
  winv ps (set_held t (deliver f r)).
Proof.
  intros [H1 H2 H3 _ _ H6] [Hs1 Hs2] Hn Hf Ht Hok Hin.
  assert (u32 (Seq f + 1) = Seq f + 1) as E
    by (apply u32_small; change (2 ^ 32) with 4294967296 in *; lia).
  split; simpl; rewrite ?E; try done; try lia.
  - apply increasing_snoc. split_and!; [done|lia|].
    eapply Forall_impl; [done|]. simpl; lia.
  - apply Forall_app. split; [eapply Forall_impl; [done|]; simpl; lia|].
    constructor; [lia|constructor].
  - by replace (Seq f + 1 - 1) with (Seq f) by lia.
  - intros g. rewrite !elem_of_app, list_elem_of_singleton.
    intros [[H| ->]|H]; [|done|by apply Hin]. apply H6, elem_of_app. by left.
Qed.

(** The same when [f] is the first held frame. *)
Lemma deliver_head_winv ps h t r :
  held r = h :: t -> winv ps r -> winv ps (set_held t (deliver h r)).
Proof.
  intros E Hr. pose proof Hr as [H1 H2 H3 H4 H5 H6]. rewrite E in *.
  destruct H4 as [Hi1 Hi2]. inversion H5; subst.
  apply deliver_winv; try done; [lia| |].
  - apply H6, elem_of_app. right. apply list_elem_of_here.
  - intros g Hg. apply H6, elem_of_app. right. by apply list_elem_of_further.
Qed.

Lemma flush_loop_inv ps r hs : held r = hs -> winv ps r -> inv ps (flush_loop hs r).
Proof.
  revert r. induction hs as [|h t IH]; intros r Hh Hr; simpl.
  - split; [done|]. by rewrite Hh.
  - destruct (Z.eqb_spec (Seq h) (nextExpected r)) as [E|E].
    + apply IH; [done|]. by apply deliver_head_winv.
    + split; [done|]. pose proof (winv_held _ _ Hr) as Hi. rewrite Hh in *.
      simpl in *. split; [lia|tauto].
Qed.

Lemma timeout_loop_inv ps r hs : held r = hs -> winv ps r -> inv ps (timeout_loop hs r).
Proof.
  revert r. induction hs as [|h t IH]; intros r Hh Hr; simpl.
  - split; [done|]. by rewrite Hh.
  - apply IH; [done|]. by apply deliver_head_winv.
Qed.

Lemma Push_inv ps f r :
  inv ps r -> seq_ok f -> Seq f ∉ map Seq ps -> inv (ps ++ [f]) (Push f r).
Proof.
  intros [Hr Hi] Hf Hnew. pose proof (winv_weaken _ f _ Hr) as Hr'.
  unfold Push. destruct (Z.ltb_spec (Seq f) (nextExpected r)); [done|].
  destruct (Z.eqb_spec (Seq f) (nextExpected r)) as [E|E].
  - assert (inv (ps ++ [f]) (flushContiguous (deliver f r))) as Hfl.
    { apply flush_loop_inv; [done|]. apply (deliver_winv _ f (held r) r); try done; try lia.
      - apply elem_of_app. right. by apply list_elem_of_singleton.
      - by rewrite E.
      - apply Hr'.
      - intros g Hg. apply (winv_from _ _ Hr'), elem_of_app. by right. }
    destruct (timer _ && _); [|done]. destruct Hfl. split; [by apply winv_timer|done].
  - assert (inv (ps ++ [f]) (set_held (sort_frames (held r ++ [f])) r)) as [Hs Hs'].
    { assert (Seq f ∉ map Seq (held r)) as Hnh.
      { rewrite list_elem_of_In, in_map_iff. intros (g & Eg & Hg). apply Hnew.
        rewrite <- Eg. apply list_elem_of_In, in_map, list_elem_of_In.
        apply (winv_from _ _ Hr), elem_of_app. right. by apply list_elem_of_In. }
      assert (increasing (nextExpected r) (sort_frames (held r ++ [f]))) as Hin.
      { rewrite (sort_snoc (nextExpected r)) by done. apply insert_increasing; [done|lia|done]. }
      destruct Hr' as [H1 H2 H3 H4 H5 H6]. split; [split|]; simpl; try done.
      - eapply increasing_weaken; [|done]. lia.
      - rewrite (sort_snoc (nextExpected r)), insert_Permutation by done. by constructor.
      - intros g. rewrite (sort_snoc (nextExpected r)), insert_Permutation by done.
        rewrite elem_of_app, elem_of_cons. intros [Hg|[->|Hg]].
        + apply H6, elem_of_app. by left.
        + apply elem_of_app. right. by apply list_elem_of_singleton.
        + apply H6, elem_of_app. by right. }
    destruct (timer _); [done|]. split; [by apply winv_timer|done].
Qed.

Lemma timeoutFlush_inv ps r : inv ps r -> inv ps (timeoutFlush r).
Proof. intros [Hr _]. apply timeout_loop_inv; [done|]. by apply winv_timer. Qed.

(** The invariant along a run whose pushed frames have distinct sequence numbers. *)
Lemma run_inv_from ps cs r :
  inv ps r -> Forall seq_ok (pushed cs) -> NoDup (map Seq (ps ++ pushed cs)) ->
  inv (ps ++ pushed cs) (run cs r).
Proof.
  revert ps r. induction cs as [|[f|] cs IH]; intros ps r Hr Hok Hd; simpl in *.
  - by rewrite app_nil_r.
  - inversion Hok; subst. change (f :: pushed cs) with ([f] ++ pushed cs).
    rewrite app_assoc. apply IH; [|done|by rewrite <- app_assoc].
    apply Push_inv; [done..|]. rewrite map_app in Hd.
    apply NoDup_app in Hd as (_ & H & _). intros Hin. apply (H _ Hin). apply list_elem_of_here.
  - apply IH; [by apply timeoutFlush_inv|done..].
Qed.

Lemma run_inv cs :
  Forall seq_ok (pushed cs) -> NoDup (map Seq (pushed cs)) ->
  inv (pushed cs) (run cs NewReorderBuffer).
Proof. intros. apply (run_inv_from []); [apply inv_new|done|done]. Qed.

(** ** Runs without timeouts *)

(** The output is a contiguous interval ending below [nextExpected]; no pushed frame from 1
    on is lost. *)
Record contiguous (ps : list Frame) (r : ReorderBuffer) : Prop := {
  ct_out : map Seq (out r) = seqZ 1 (nextExpected r - 1);
  ct_lost : forall f, f ∈ ps -> 1 <= Seq f -> f ∈ out r ++ held r
}.

Lemma deliver_contiguous ps f t r :
  seq_ok f -> Seq f = nextExpected r -> 1 <= nextExpected r ->
  map Seq (out r) = seqZ 1 (nextExpected r - 1) ->
  (forall g, g ∈ ps -> 1 <= Seq g -> g ∈ out r ++ f :: t) ->
  contiguous ps (set_held t (deliver f r)).
Proof.
  intros [Hs1 Hs2] E Hn Ho Hl. split; simpl.
  - rewrite map_app, Ho, E, u32_small by (change (2 ^ 32) with 4294967296 in *; lia). simpl.
    rewrite E. replace (nextExpected r + 1 - 1) with ((nextExpected r - 1) + 1) by lia.
    rewrite seqZ_app by lia. do 2 f_equal. rewrite seqZ_cons by lia. f_equal. lia.
  - intros g Hg H1. rewrite <- app_assoc. by apply Hl.
Qed.

Lemma flush_loop_contiguous ps r hs :
  held r = hs -> winv ps r -> contiguous ps r -> contiguous ps (flush_loop hs r).
Proof.
  revert r. induction hs as [|h t IH]; intros r Hh Hr Hc; simpl; [done|].
  destruct (Z.eqb_spec (Seq h) (nextExpected r)) as [E|E]; [|done].
  apply IH; [done|by apply deliver_head_winv|]. destruct Hc as [Hc1 Hc2].
  pose proof Hr as [H1 _ _ _ H5 _]. rewrite Hh in *. inversion H5; subst.
  apply deliver_contiguous; try done. lia.
Qed.

Lemma Push_contiguous ps f r :
  inv ps r -> contiguous ps r -> seq_ok f -> Seq f ∉ map Seq ps ->
  contiguous (ps ++ [f]) (Push f r).
Proof.
  intros [Hr Hi] [Hc1 Hc2] Hf Hnew. pose proof (winv_weaken _ f _ Hr) as Hr'.
  pose proof (winv_next _ _ Hr) as Hn.
  unfold Push. destruct (Z.ltb_spec (Seq f) (nextExpected r)).
  { split; [done|]. intros g [Hg|Hg%list_elem_of_singleton]%elem_of_app H1; [by apply Hc2|].
    subst g. exfalso.
    assert (Seq f ∈ map Seq (out r)) as Ho by (rewrite Hc1; apply elem_of_seqZ; lia).
    apply Hnew. apply list_elem_of_In, in_map_iff in Ho as (g & Eg & Hg).
    rewrite <- Eg. apply list_elem_of_In, in_map, list_elem_of_In.
    apply (winv_from _ _ Hr), elem_of_app. left. by apply list_elem_of_In. }
  destruct (Z.eqb_spec (Seq f) (nextExpected r)) as [E|E].
  - assert (contiguous (ps ++ [f]) (flushContiguous (deliver f r))) as Hfl.
    { apply flush_loop_contiguous; [done| |].
      - apply (deliver_winv _ f (held r) r); try done; try lia.
        + apply elem_of_app. right. by apply list_elem_of_singleton.
        + by rewrite E.
        + apply Hr'.
        + intros g Hg. apply (winv_from _ _ Hr'), elem_of_app. by right.
      - apply (deliver_contiguous _ f (held r) r); try done; try lia.
        intros g [Hg|Hg%list_elem_of_singleton]%elem_of_app H1.
        + specialize (Hc2 g Hg H1). rewrite elem_of_app, elem_of_cons in *. tauto.
        + subst. apply elem_of_app. right. apply list_elem_of_here. }
    destruct (timer _ && _); [|done]. by destruct Hfl.
  - assert (contiguous (ps ++ [f]) (set_held (sort_frames (held r ++ [f])) r)) as Hs.
    { split; [done|]. simpl. intros g Hg H1.
      rewrite (sort_snoc (nextExpected r)), insert_Permutation by done.
      apply elem_of_app in Hg as [Hg|Hg%list_elem_of_singleton].
      - specialize (Hc2 g Hg H1). rewrite elem_of_app, elem_of_cons in *. tauto.
      - subst. apply elem_of_app. right. apply list_elem_of_here. }
    destruct (timer _); [done|]. by destruct Hs.
Qed.

Lemma run_contiguous_from ps fs r :
  inv ps r -> contiguous ps r -> Forall seq_ok fs -> NoDup (map Seq (ps ++ fs)) ->
  contiguous (ps ++ fs) (run (map CPush fs) r).
Proof.
  revert ps r. induction fs as [|f fs IH]; intros ps r Hr Hc Hok Hd; simpl in *.
  - by rewrite app_nil_r.
  - inversion Hok; subst. change (f :: fs) with ([f] ++ fs). rewrite app_assoc.
    assert (Seq f ∉ map Seq ps) as Hn.
    { rewrite map_app in Hd. apply NoDup_app in Hd as (_ & H & _). intros Hin.
      apply (H _ Hin). apply list_elem_of_here. }
    apply IH; [by apply Push_inv|by apply Push_contiguous|done|by rewrite <- app_assoc].
Qed.

Lemma pushed_CPush fs : pushed (map CPush fs) = fs.
Proof. induction fs as [|f fs IH]; [done|]. change (f :: pushed (map CPush fs) = f :: fs). by rewrite IH. Qed.

(** Frames that are determined by their place in an increasing list. *)
Lemma increasing_unique lo l k :
  increasing lo l -> increasing lo k -> (forall f, f ∈ l <-> f ∈ k) -> l = k.
Proof.
  revert lo k. induction l as [|f l IH]; intros lo k Hl Hk H.
  - destruct k as [|g k]; [done|]. exfalso. apply (not_elem_of_nil g), H, list_elem_of_here.
  - destruct k as [|g k]; [exfalso; apply (not_elem_of_nil f), H, list_elem_of_here|].
    destruct Hl as [Hl1 Hl2], Hk as [Hk1 Hk2].
    pose proof (increasing_Forall _ _ Hl2) as Fl. pose proof (increasing_Forall _ _ Hk2) as Fk.
    rewrite Forall_forall in Fl, Fk. assert (f = g) as <-.
    { pose proof (proj1 (H f) (list_elem_of_here _ _)) as A.
      pose proof (proj2 (H g) (list_elem_of_here _ _)) as B.
      apply elem_of_cons in A as [A|A]; [done|]. apply elem_of_cons in B as [B|B]; [done|].
      specialize (Fl _ B). specialize (Fk _ A). simpl in *. lia. }
    f_equal. apply (IH (Seq f)); [done..|]. intros h. split; intros Hh.
    + pose proof (proj1 (H h) (list_elem_of_further _ _ _ Hh)) as A.
      apply elem_of_cons in A as [->|A]; [|done]. specialize (Fl _ Hh). simpl in Fl. lia.
    + pose proof (proj2 (H h) (list_elem_of_further _ _ _ Hh)) as A.
      apply elem_of_cons in A as [->|A]; [|done]. specialize (Fk _ Hh). simpl in Fk. lia.
Qed.

Lemma increasing_of_seqs lo n l : map Seq l = seqZ (lo + 1) n -> increasing lo l.
Proof.
  revert lo n. induction l as [|f l IH]; intros lo n; simpl; [done|].
  destruct (Z.ltb_spec 0 n).
  - rewrite seqZ_cons by done. intros [= E H']. split; [lia|]. rewrite E. apply (IH _ (Z.pred n)).
    rewrite H'. f_equal; lia.
  - by rewrite seqZ_nil by done.
Qed.

(** The frames 1 to [n], in any order, come out in order. *)
Lemma run_restores (fs ps : list Frame) :
  map Seq fs = seqZ 1 (len fs) -> len fs < 2 ^ 32 - 1 -> ps ≡ₚ fs ->
  out (run (map CPush ps) NewReorderBuffer) = fs /\
  held (run (map CPush ps) NewReorderBuffer) = [].
Proof.
  intros Hs Hl Hp.
  assert (Forall seq_ok ps) as Hok.
  { rewrite Hp. apply Forall_forall. intros f Hf. apply list_elem_of_In, (in_map Seq) in Hf.
    rewrite Hs in Hf. apply list_elem_of_In, elem_of_seqZ in Hf. unfold seq_ok. lia. }
  assert (NoDup (map Seq ps)) as Hd by (rewrite Hp, Hs; apply NoDup_seqZ).
  pose proof (run_inv (map CPush ps)) as Hr. rewrite pushed_CPush in Hr.
  destruct (Hr Hok Hd) as [Hw Hi].
  pose proof (run_contiguous_from [] ps NewReorderBuffer inv_new) as Hc.
  destruct Hc as [Hc1 Hc2]; [by split; [|intros f Hf; apply not_elem_of_nil in Hf]|done..|].
  simpl in Hc2. set (r := run (map CPush ps) NewReorderBuffer) in *.
  assert (held r = []) as Hh.
  { destruct (held r) as [|h t] eqn:Eh; [done|]. exfalso. destruct Hi as [Hh1 Hh2].
    assert (forall g, g ∈ ps -> 1 <= Seq g <= len fs) as Hrange.
    { intros g Hg. rewrite Hp in Hg. apply list_elem_of_In, (in_map Seq) in Hg.
      rewrite Hs in Hg. apply list_elem_of_In, elem_of_seqZ in Hg. lia. }
    destruct (Hrange h) as [H1 H2].
    { apply (winv_from _ _ Hw), elem_of_app. right. rewrite Eh. apply list_elem_of_here. }
    pose proof (winv_next _ _ Hw).
    assert (nextExpected r ∈ map Seq fs) as Hn by (rewrite Hs; apply elem_of_seqZ; lia).
    apply list_elem_of_In, in_map_iff in Hn as (g & Eg & Hg).
    apply list_elem_of_In in Hg. rewrite <- Hp in Hg.
    destruct (Hrange g Hg) as [Hg1 Hg2]. specialize (Hc2 g Hg Hg1).
    apply elem_of_app in Hc2 as [Hc2|Hc2].
    - pose proof (winv_out_next _ _ Hw) as Hb. rewrite Forall_forall in Hb.
      specialize (Hb _ Hc2). simpl in Hb. lia.
    - apply elem_of_cons in Hc2 as [->|Hc2]; [lia|].
      pose proof (increasing_Forall _ _ Hh2) as Hb. rewrite Forall_forall in Hb.
      specialize (Hb _ Hc2). simpl in Hb. lia. }
  split; [|done]. apply (increasing_unique 0).
  - apply Hw.
  - by apply (increasing_of_seqs 0 (len fs)).
  - intros f. rewrite <- Hp. split; intros Hf.
    + apply (winv_from _ _ Hw), elem_of_app. by left.
    + rewrite Hh, app_nil_r in Hc2. apply Hc2; [done|]. rewrite Hp in Hf.
      apply list_elem_of_In, (in_map Seq) in Hf.
      rewrite Hs in Hf. apply list_elem_of_In, elem_of_seqZ in Hf. lia.
Qed.

(** ** The properties *)

(** Order.  Whatever frames with distinct sequence numbers are pushed, in whatever order,
    and whenever the gap timer fires, the frames come out in strictly increasing order of
    sequence number: none is delivered twice and none overtakes a later one; and what comes
    out was pushed. *)
Theorem Reorder_increasing (cs : list call) :
  Forall seq_ok (pushed cs) -> NoDup (map Seq (pushed cs)) ->
  increasing 0 (out (run cs NewReorderBuffer)) /\
  forall f, f ∈ out (run cs NewReorderBuffer) -> f ∈ pushed cs.
Proof.
  intros Hok Hd. destruct (run_inv cs Hok Hd) as [[_ H _ _ _ Hin] _]. split; [done|].
  intros f Hf. apply Hin, elem_of_app. by left.
Qed.

Definition fr (s : Z) : Frame := MkFrame 9 TypeData s [].

Lemma Reorder_increasing_witness :
  out (run [CPush (fr 3); CPush (fr 1); CTimeout; CPush (fr 2); CPush (fr 4)] NewReorderBuffer)
    = [fr 1; fr 3; fr 4] /\
  increasing 0
    (out (run [CPush (fr 3); CPush (fr 1); CTimeout; CPush (fr 2); CPush (fr 4)]
       NewReorderBuffer)).
Proof.
  split; [reflexivity|].
  refine (proj1 (Reorder_increasing
    [CPush (fr 3); CPush (fr 1); CTimeout; CPush (fr 2); CPush (fr 4)] _ _)).
  - apply (bool_decide_unpack _). by vm_compute.
  - apply (bool_decide_unpack _). by vm_compute.
Defined.



(** A frame that arrives again while it is held is not dropped.  After the frames 2, 2
    and 1, one copy of 2 stays held below [nextExpected]; frame 3 does not release it, and when
    the gap timer fires the copy is delivered after 3 and [nextExpected] falls from 4 to 3, so
    that a further copy of 3 is delivered too.  The data of the frames does not matter. *)
Theorem Reorder_duplicate_held (c : Z) (d1 d2 d2' d3 d3' : list byte) :
  let f s d := MkFrame c TypeData s d in
  let r := run (map CPush [f 2 d2; f 2 d2'; f 1 d1; f 3 d3]) NewReorderBuffer in
  nextExpected r = 4 /\ held r = [f 2 d2'] /\
  nextExpected (timeoutFlush r) = 3 /\
  out (Push (f 3 d3') (timeoutFlush r)) = [f 1 d1; f 2 d2; f 3 d3; f 2 d2'; f 3 d3'].
Proof. split_and!; reflexivity. Qed.
