(* ===== verification/FtpChannel.v ===== *)
(** The FTP tunnel's data channels and port ranges: ftp/common/channel.go.

    A channel is one encrypted byte stream; its ends are the two halves of a [conn].  The read
    and write deadlines have no counterpart.  [net.Listen] and the TLS handshakes are
    arguments of the functions that call them. *)

From S2P Require Import Prelude GoLib Aead FtpProtocol.
From Stdlib Require Import ZArith Lia Strings.Byte Strings.Ascii Strings.String.
From stdpp Require Import gmap strings list fin_maps pretty.

#[local] Open Scope Z_scope.

(** ** Hello *)

Definition DirUpload : Z := 117.
Definition DirDownload : Z := 100.
Definition PathUpload : string := "out".
Definition PathDownload : string := "in".
Definition MaxBatchWire : Z := 4 * 1024 * 1024.

Record Hello : Type := MkHello { Token : string; Dir : Z; HIndex : Z }.

#[export] Instance Hello_eq_dec : EqDecision Hello.
Proof. solve_decision. Defined.

Definition EncodeHello (h : Hello) : list byte :=
  let tb := bytes_of (Token h) in
  byte_of_Z (len tb) :: tb ++ [byte_of_Z (Dir h)] ++ PutUint16 (HIndex h).

Definition DecodeHello (data : list byte) : result Hello :=
  match data with
  | [] => Err (Errorf "hello too short")
  | b :: _ =>
      let n := Z.to_nat (byte_to_Z b) in
      if decide (length data < 1 + n + 1 + 2)%nat then Err (Errorf "hello truncated")
      else Ok {| Token := string_of (sub data 1 (1 + n));
                 Dir := be_get (sub data (1 + n) (2 + n));
                 HIndex := be_get (sub data (2 + n) (4 + n)) |}
  end.

(** ** Batches on the wire *)

Section Wire.
Context `{AEAD}.

Definition WriteBatch (frames : list Frame) (key pad nonce : list byte) : IO unit :=
  blob ← lift (EncodeBatch frames key pad nonce);
  _ ← Write_ (PutUint32 (u32 (len blob)));
  Write_ blob.

Definition ReadBatch (key : list byte) : IO (list Frame) :=
  hdr ← ReadFull 4;
  let n := be_get hdr in
  if (n =? 0) || (n >? MaxBatchWire) then throw (Errorf "invalid batch length %d")
  else
    blob ← ReadFull (Z.to_nat n);
    lift (DecodeBatch blob key).

Definition WriteHello (h : Hello) (key pad nonce : list byte) : IO unit :=
  WriteBatch [MkFrame 0 TypeHello 0 (EncodeHello h)] key pad nonce.

Definition ReadHello (key : list byte) : IO Hello :=
  frames ← ReadBatch key;
  match frames with
  | [f] => if FType f =? TypeHello then lift (DecodeHello (Data f))
           else throw (Errorf "expected hello frame")
  | _ => throw (Errorf "expected hello frame")
  end.

(** ** Channel *)

(** [chan_conn] is [None] once the channel is closed. *)
Record Channel : Type := MkChannel {
  chan_conn : option conn;
  key : list byte;
  dir : Z;
  idx : Z
}.

Definition WrapChannel (c : conn) (key : list byte) (dir idx : Z) : Channel :=
  MkChannel (Some c) key dir idx.

Definition with_conn (ch : Channel) (c : option conn) : Channel :=
  MkChannel c (key ch) (dir ch) (idx ch).

Definition WriteFrames (ch : Channel) (frames : list Frame) (pad nonce : list byte) :
    result unit * Channel :=
  match chan_conn ch with
  | None => (Err (Errorf "channel closed"), ch)
  | Some c =>
      let '(r, c) := WriteBatch frames (key ch) pad nonce c in (r, with_conn ch (Some c))
  end.

Definition ReadFrames (ch : Channel) : result (list Frame) * Channel :=
  match chan_conn ch with
  | None => (Err (Errorf "channel closed"), ch)
  | Some c => let '(r, c) := ReadBatch (key ch) c in (r, with_conn ch (Some c))
  end.

(** Close, with the error the connection's Close returns. *)
Definition CloseChannel (ch : Channel) (conn_err : option goerr) : option goerr * Channel :=
  match chan_conn ch with
  | None => (None, ch)
  | Some _ => (conn_err, with_conn ch None)
  end.

End Wire.

(** ** TLS wrapping *)

(** MaybeTLSClient and MaybeTLSServer: [handshake] is the result of the TLS handshake on the
    connection; the flag says whether the connection was closed. *)
Definition MaybeTLSClient {C} (c : C) (useTLS : bool) (handshake : result C) : result C * bool :=
  if negb useTLS then (Ok c, false)
  else match handshake with Ok tc => (Ok tc, false) | r => (r, true) end.

Definition MaybeTLSServer {C} (c : C) (cfg : bool) (handshake : result C) : result C * bool :=
  if negb cfg then (Ok c, false)
  else match handshake with Ok tc => (Ok tc, false) | r => (r, true) end.

(** ** Port ranges *)

Record PortRange : Type := MkPortRange { Lo : Z; Hi : Z }.

#[export] Instance PortRange_eq_dec : EqDecision PortRange.
Proof. solve_decision. Defined.

Definition ParsePortRange (s : string) : result PortRange :=
  let s := TrimSpace s in
  if String.eqb s "" then Err (Errorf "empty port range")
  else if Contains s "-" then
    match SplitN2 s "-" with
    | p0 :: p1 :: _ =>
        match Atoi (TrimSpace p0), Atoi (TrimSpace p1) with
        | Some lo, Some hi =>
            if (lo <? 1) || (hi >? 65535) || (lo >? hi)
            then Err (Errorf "invalid port range %q")
            else Ok (MkPortRange lo hi)
        | _, _ => Err (Errorf "invalid port range %q")
        end
    | _ => Panic "index out of range"
    end
  else
    match Atoi s with
    | Some p => if (p <? 1) || (p >? 65535) then Err (Errorf "invalid port %q")
                else Ok (MkPortRange p p)
    | None => Err (Errorf "invalid port %q")
    end.

Definition Single (r : PortRange) : bool := Lo r =? Hi r.

Definition PortRange_String (r : PortRange) : string :=
  if Single r then Itoa (Lo r) else Itoa (Lo r) +:+ "-" +:+ Itoa (Hi r).

Section Listen.
(** [Listen addr] is net.Listen("tcp", addr); [now] is time.Now().UnixNano(). *)
Context {L : Type} (Listen : string -> result L) (now : Z).

Definition listen_addr (p : Z) : string := "0.0.0.0:" +:+ Itoa p.

(** The loop over [i < n], with [k = n - i] turns left. *)
Fixpoint listen_loop (r : PortRange) (n start : Z) (k : nat) : result (L * Z) :=
  match k with
  | O => Err (Errorf "no free port in %s")
  | S k' =>
      let i := n - Z.of_nat k in
      let p := Lo r + Z.rem (start + i) n in
      match Listen (listen_addr p) with
      | Ok ln => Ok (ln, p)
      | Err _ => listen_loop r n start k'
      | Panic s => Panic s
      | OutOfFuel => OutOfFuel
      end
  end.

Definition ListenInRange (r : PortRange) : result (L * Z) :=
  if Single r then
    ln ← Listen (listen_addr (Lo r));
    Ok (ln, Lo r)
  else
    let n := Hi r - Lo r + 1 in
    if n =? 0 then Panic "integer divide by zero"
    else
      let start := Z.rem now n in
      listen_loop r n start (Z.to_nat n).
End Listen.

Definition range_ok (r : PortRange) : Prop := 1 <= Lo r <= Hi r /\ Hi r <= 65535.

(** ** Lemmas: hello *)

Lemma DecodeHello_Encode h :
  slen (Token h) < 256 -> 0 <= Dir h < 256 -> 0 <= HIndex h < 65536 ->
  DecodeHello (EncodeHello h) = Ok h.
Proof.
  intros Ht Hd Hi. destruct h as [t d i]; cbn [Token Dir HIndex] in *. unfold EncodeHello.
  cbn [Token Dir HIndex]. pose proof (slen_nonneg t).
  cbn [DecodeHello]. rewrite len_bytes_of, byte_to_of_Z_small by lia.
  assert (Z.to_nat (slen t) = length (bytes_of t)) as ->
    by (rewrite length_bytes_of; unfold slen; lia).
  rewrite decide_False.
  2:{ cbn [length]. rewrite !length_app, length_be_put. simpl. lia. }
  set (tb := bytes_of t). set (b := byte_of_Z (slen t)).
  assert (sub (b :: tb ++ [byte_of_Z d] ++ PutUint16 i) 1 (1 + length tb) = tb) as ->
    by (apply (sub_app [b]); simpl; lia).
  assert (sub (b :: tb ++ [byte_of_Z d] ++ PutUint16 i) (1 + length tb) (2 + length tb) =
    [byte_of_Z d]) as -> by (apply (sub_app (b :: tb)); simpl; lia).
  assert (sub (b :: tb ++ [byte_of_Z d] ++ PutUint16 i) (2 + length tb) (4 + length tb) =
    PutUint16 i) as ->.
  { replace (b :: tb ++ [byte_of_Z d] ++ PutUint16 i) with
      (((b :: tb) ++ [byte_of_Z d]) ++ PutUint16 i ++ []) by
      (by rewrite app_nil_r, <- app_assoc).
    apply sub_app; rewrite ?length_app, ?length_be_put; simpl; lia. }
  rewrite be_get_put16, u16_small, be_get_byte by lia.
  unfold tb. by rewrite string_of_bytes_of.
Qed.

(** ** Lemmas: batches on the wire *)

Section WireLemmas.
Context `{AEADLaws}.

(** The size of a batch on the wire, without its four-byte header. *)
Definition blob_size (frames : list Frame) (pad : list byte) : Z :=
  36 + foldr (fun f n => 17 + len (Data f) + n) 0 frames + len pad.

Lemma EncodeBatch_size fs k pad nonce :
  key_ok k -> length nonce = NonceSize ->
  exists blob, EncodeBatch fs k pad nonce = Ok blob /\ len blob = blob_size fs pad.
Proof.
  intros Hk Hn. unfold EncodeBatch. rewrite fold_entries. eexists.
  split; [by apply Encrypt_Ok|]. unfold blob_size.
  assert (foldr (fun f n => 17 + len (Data f) + n) 0 fs =
    len (concat (map encode_entry fs))) as ->.
  { induction fs as [|f fs IH]; [done|]. cbn [map concat foldr].
    rewrite IH, len_app. unfold len. rewrite length_encode_entry. lia. }
  unfold len. rewrite length_app, length_Seal.
  rewrite !length_app, !length_be_put, Hn. unfold NonceSize, Overhead. lia.
Qed.

Lemma blob_size_pos fs pad : 36 <= blob_size fs pad.
Proof.
  unfold blob_size. pose proof (len_nonneg pad).
  enough (0 <= foldr (fun f n => 17 + len (Data f) + n) 0 fs) by lia.
  induction fs as [|f fs IH]; simpl; [lia|]. pose proof (len_nonneg (Data f)). lia.
Qed.

(** What WriteBatch puts on the wire. *)
Lemma WriteBatch_appends fs k pad nonce c :
  key_ok k -> length nonce = NonceSize -> tx_room c = None ->
  exists blob, EncodeBatch fs k pad nonce = Ok blob /\ len blob = blob_size fs pad /\
    WriteBatch fs k pad nonce c =
      (Ok tt, set_tx (tx c ++ PutUint32 (u32 (len blob)) ++ blob) None c).
Proof.
  intros Hk Hn Hr. destruct (EncodeBatch_size fs k pad nonce Hk Hn) as (blob & E & Hl).
  exists blob. split_and!; [done..|]. unfold WriteBatch. rewrite E.
  rewrite IO_bind_eq. unfold lift. rewrite IO_bind_eq, Write__room_None by done.
  rewrite Write__room_None by done. unfold set_tx; cbn [rx rx_end tx tx_room tx_err]. by rewrite app_assoc.
Qed.

(** A reader that finds a batch. *)
Lemma ReadBatch_blob blob k s e t r w :
  0 < len blob < 2 ^ 32 ->
  ReadBatch k (Conn (PutUint32 (u32 (len blob)) ++ blob ++ s) e t r w) =
    if len blob >? MaxBatchWire
    then (Err (Errorf "invalid batch length %d"), Conn (blob ++ s) e t r w)
    else (DecodeBatch blob k, Conn s e t r w).
Proof.
  intros Hl. unfold ReadBatch.
  erewrite bind_Ok by (apply ReadFull_exact; apply length_be_put).
  rewrite u32_small, be_get_put32_small by lia.
  rewrite (proj2 (Z.eqb_neq _ _)) by lia. cbn [orb].
  destruct (len blob >? MaxBatchWire); [done|].
  erewrite bind_Ok by (apply ReadFull_exact; by rewrite to_nat_len). done.
Qed.

End WireLemmas.

(** ** Lemmas: port ranges *)

Lemma solid_Itoa z : Forall solid (bytes_of (Itoa z)).
Proof.
  unfold Itoa. destruct z as [|p|p].
  - apply (solid_digits "0"). by vm_compute.
  - apply (solid_digits (pretty (Npos p))), all_digits_pretty_N.
  - constructor; [apply (bool_decide_unpack _); by vm_compute|].
    apply (solid_digits (pretty (Npos p))), all_digits_pretty_N.
Qed.

Lemma TrimSpace_Itoa z : TrimSpace (Itoa z) = Itoa z.
Proof. apply TrimSpace_solid, solid_Itoa. Qed.

Lemma ParsePortRange_String r :
  range_ok r -> ParsePortRange (PortRange_String r) = Ok r.
Proof.
  destruct r as [lo hi]. unfold range_ok, PortRange_String, Single. cbn [Lo Hi].
  intros [Hl Hh]. assert (forall z, 1 <= z <= 65535 -> int64_ok z = true) as Hok
    by (intros z Hz; unfold int64_ok; lia).
  assert (forall z, 1 <= z -> free "-" (Itoa z)) as Hfree.
  { intros z Hz. rewrite Itoa_pos by lia. by apply free_all_digits, all_digits_pretty_N. }
  unfold ParsePortRange. destruct (Z.eqb_spec lo hi) as [->|Hne].
  - rewrite TrimSpace_Itoa, Itoa_nonempty. unfold Contains. rewrite Index_byte.
    rewrite (proj2 (Z.ltb_lt _ _)) by (apply IndexByte_free, Hfree; lia). cbn [negb].
    rewrite Atoi_Itoa by (apply Hok; lia).
    by rewrite (proj2 (Z.ltb_ge hi 1)), Z.gtb_ltb, (proj2 (Z.ltb_ge 65535 hi)) by lia.
  - rewrite TrimSpace_solid.
    2:{ rewrite !bytes_of_app. rewrite !Forall_app. split_and!; [apply solid_Itoa| |apply solid_Itoa].
        constructor; [|constructor]. apply (bool_decide_unpack _). by vm_compute. }
    assert (Itoa lo +:+ "-" +:+ Itoa hi = Itoa lo +:+ String "-" (Itoa hi)) as -> by done.
    assert (String.eqb (Itoa lo +:+ String "-" (Itoa hi)) "" = false) as ->.
    { apply String.eqb_neq. by destruct (Itoa lo). }
    unfold Contains, SplitN2. rewrite Index_byte, IndexByte_app by (apply Hfree; lia).
    pose proof (slen_nonneg (Itoa lo)). rewrite (proj2 (Z.ltb_ge _ _)) by lia. cbn [negb].
    rewrite take_s_app by (unfold slen; lia).
    assert (drop_s (S (Z.to_nat (slen (Itoa lo)))) (Itoa lo +:+ String "-" (Itoa hi)) = Itoa hi)
      as ->.
    { change (String "-" (Itoa hi)) with ("-" +:+ Itoa hi). rewrite sapp_assoc.
      apply drop_s_app. rewrite length_sapp. unfold slen. simpl. lia. }
    rewrite !TrimSpace_Itoa, !Atoi_Itoa by (apply Hok; lia).
    rewrite (proj2 (Z.ltb_ge lo 1)), !Z.gtb_ltb, (proj2 (Z.ltb_ge 65535 hi)),
      (proj2 (Z.ltb_ge hi lo)) by lia. done.
Qed.

Lemma ParsePortRange_ok s r : ParsePortRange s = Ok r -> range_ok r.
Proof.
  unfold ParsePortRange, range_ok. intros H. repeat case_match; simplify_eq; simpl; lia.
Qed.

Lemma ParsePortRange_total s :
  match ParsePortRange s with Panic _ | OutOfFuel => False | _ => True end.
Proof.
  unfold ParsePortRange. destruct (String.eqb _ _); [done|].
  destruct (Contains _ _) eqn:Ec; [|by repeat case_match].
  assert (exists p0 p1, SplitN2 (TrimSpace s) "-" = [p0; p1]) as (p0 & p1 & ->).
  { unfold SplitN2. unfold Contains in Ec. rewrite Index_byte in Ec.
    destruct (IndexByte _ _ <? 0); [done|eauto]. }
  by repeat case_match.
Qed.

Section ListenLemmas.
Context {L : Type} (Listen : string -> result L).

(** What the search for a port finds: the first port, from its start on and around, on which
    Listen succeeds. *)
Lemma listen_loop_spec r n start k :
  0 < n -> (Z.of_nat k <= n) ->
  (forall p, match Listen (listen_addr p) with Panic _ | OutOfFuel => False | _ => True end) ->
  match listen_loop Listen r n start k with
  | Ok (ln, p) => Listen (listen_addr p) = Ok ln /\
      exists i, n - Z.of_nat k <= i < n /\ p = Lo r + Z.rem (start + i) n
  | Err e => e = Errorf "no free port in %s" /\
      forall i, n - Z.of_nat k <= i < n ->
        exists e, Listen (listen_addr (Lo r + Z.rem (start + i) n)) = Err e
  | Panic _ | OutOfFuel => False
  end.
Proof.
  intros Hn Hk Hl. induction k as [|k IH]; cbn [listen_loop].
  { split; [done|]. lia. }
  specialize (IH ltac:(lia)). set (p := Lo r + Z.rem (start + (n - Z.of_nat (S k))) n).
  specialize (Hl p). destruct (Listen (listen_addr p)) as [ln|e|?|] eqn:Hx; try done.
  - split; [done|]. exists (n - Z.of_nat (S k)). split; [lia|done].
  - destruct (listen_loop _ _ _ _ _) as [[ln' p']|e'|?|]; try done.
    + destruct IH as (H1 & i & Hi & ->). split; [done|]. exists i. split; [lia|done].
    + destruct IH as (-> & IH). split; [done|]. intros i Hi.
      destruct (decide (i = n - Z.of_nat (S k))) as [->|]; [eauto|]. apply IH. lia.
Qed.
End ListenLemmas.

(** ** The properties *)

(** C10: One batch through a channel.  A writer that does not fail takes any batch of frames
    with values in range.  If the encrypted batch has at most MaxBatchWire bytes, the reader
    gets exactly the frames and is left at the end of the batch, whatever follows.  If it is
    longer (WriteBatch has no limit), the reader refuses it after the four bytes of the
    header, and the rest of the batch stays in the stream. *)
Theorem Batch_wire `{AEADLaws} (fs : list Frame) (k pad nonce s : list byte) :
  key_ok k -> length nonce = NonceSize -> Forall frame_ok fs -> len fs < 2 ^ 32 ->
  blob_size fs pad < 2 ^ 32 ->
  let '(r, c) := WriteBatch fs k pad nonce (conn_of []) in
  r = Ok tt /\
  exists body, len body = blob_size fs pad /\
    ReadBatch k (conn_of (tx c ++ s)) =
      if blob_size fs pad <=? MaxBatchWire
      then (Ok fs, conn_of s)
      else (Err (Errorf "invalid batch length %d"), conn_of (body ++ s)).
Proof.
  intros Hk Hn Hfs Hc Hs.
  destruct (WriteBatch_appends fs k pad nonce (conn_of []) Hk Hn eq_refl) as (blob & E & Hl & ->).
  split; [done|]. exists blob. split; [done|]. pose proof (blob_size_pos fs pad).
  unfold conn_of; cbn [tx set_tx app]. rewrite <- app_assoc.
  rewrite ReadBatch_blob by lia. rewrite Hl, Z.gtb_ltb, Z.leb_antisym.
  destruct (MaxBatchWire <? blob_size fs pad); [done|]. simpl.
  by rewrite (DecodeBatch_EncodeBatch fs k pad nonce blob).
Qed.

Lemma Batch_wire_witness :
  let k := replicate 16 Byte.x11 in let nonce := replicate 12 Byte.x22 in
  ReadBatch k (conn_of (tx (WriteBatch sample_frames k [Byte.x00] nonce (conn_of [])).2))
    = (Ok sample_frames, conn_of []).
Proof.
  cbv zeta. pose proof (Batch_wire sample_frames (replicate 16 Byte.x11) [Byte.x00]
    (replicate 12 Byte.x22) []) as H.
  destruct (WriteBatch _ _ _ _ _) as [r c]. destruct H as (_ & body & _ & H).
  - reflexivity.
  - reflexivity.
  - apply (bool_decide_unpack _). by vm_compute.
  - by vm_compute.
  - by vm_compute.
  - rewrite app_nil_r in H. exact H.
Defined.

(** What WriteHello puts on the wire, and what ReadHello makes of it. *)
Lemma WriteHello_wire `{AEADLaws} (h : Hello) (k pad nonce : list byte) (c : conn) :
  key_ok k -> length nonce = NonceSize -> len pad <= 512 ->
  slen (Token h) < 256 -> 0 <= Dir h < 256 -> 0 <= HIndex h < 65536 -> tx_room c = None ->
  exists out, WriteHello h k pad nonce c = (Ok tt, set_tx (tx c ++ out) None c) /\
    forall s, ReadHello k (conn_of (out ++ s)) = (Ok h, conn_of s).
Proof.
  intros Hk Hn Hp Ht Hd Hi Hr. set (f := MkFrame 0 TypeHello 0 (EncodeHello h)).
  assert (len (EncodeHello h) <= 260) as Hlen.
  { unfold EncodeHello. autorewrite with go_len. rewrite len_bytes_of. lia. }
  pose proof (len_nonneg (EncodeHello h)).
  assert (frame_ok f) as Hf by (unfold frame_ok, f; simpl; unfold TypeHello; lia).
  assert (blob_size [f] pad <= 825) as Hb by (unfold blob_size; simpl; lia).
  destruct (WriteBatch_appends [f] k pad nonce c Hk Hn Hr) as (blob & E & Hl & Hw).
  exists (PutUint32 (u32 (len blob)) ++ blob). split; [done|]. intros s.
  unfold ReadHello, conn_of. rewrite <- app_assoc. pose proof (blob_size_pos [f] pad).
  rewrite IO_bind_eq, ReadBatch_blob by (change (2 ^ 32) with 4294967296; lia).
  rewrite Z.gtb_ltb, (proj2 (Z.ltb_ge _ _)) by (unfold MaxBatchWire; lia).
  rewrite (DecodeBatch_EncodeBatch [f] k pad nonce blob) by first [done | by apply Forall_singleton].
  unfold lift. cbn [FType f Data]. change (FType f =? TypeHello) with true. cbv iota.
  by rewrite DecodeHello_Encode.
Qed.

(** The hello of a channel.  The client's WriteHello is read by the server's ReadHello as
    the same token, direction and index, whatever follows on the stream, for every token
    shorter than 256 bytes. *)
Theorem Hello_wire `{AEADLaws} (h : Hello) (k pad nonce s : list byte) :
  key_ok k -> length nonce = NonceSize -> len pad <= 512 ->
  slen (Token h) < 256 -> 0 <= Dir h < 256 -> 0 <= HIndex h < 65536 ->
  ReadHello k (conn_of (tx (WriteHello h k pad nonce (conn_of [])).2 ++ s)) = (Ok h, conn_of s).
Proof.
  intros Hk Hn Hp Ht Hd Hi.
  destruct (WriteHello_wire h k pad nonce (conn_of []) Hk Hn Hp Ht Hd Hi eq_refl) as (out & -> & H').
  apply H'.
Qed.

Lemma Hello_wire_witness :
  let h := MkHello "0011aabb" DirUpload 3 in
  let k := replicate 32 Byte.x11 in
  ReadHello k (conn_of (tx (WriteHello h k [] (replicate 12 Byte.x22) (conn_of [])).2 ++ [Byte.x07]))
    = (Ok h, conn_of [Byte.x07]).
Proof.
  exact (Hello_wire (MkHello "0011aabb" DirUpload 3) (replicate 32 Byte.x11) []
    (replicate 12 Byte.x22) [Byte.x07] eq_refl eq_refl ltac:(by vm_compute) ltac:(by vm_compute)
    ltac:(by vm_compute) ltac:(by vm_compute)).
Defined.

(** Port ranges.  ParsePortRange never panics; what it accepts is a range of ports
    1 <= Lo <= Hi <= 65535; and it accepts the printed form of every such range, as that
    range. *)
Theorem PortRange_roundtrip (s : string) (r : PortRange) :
  (match ParsePortRange s with Panic _ | OutOfFuel => False | _ => True end) /\
  (ParsePortRange s = Ok r -> range_ok r) /\
  (ParsePortRange (PortRange_String r) = Ok r <-> range_ok r).
Proof.
  split_and!; [apply ParsePortRange_total|apply ParsePortRange_ok|].
  split; [apply ParsePortRange_ok|apply ParsePortRange_String].
Qed.

Lemma ListenInRange_spec {L} (Listen : string -> result L) (now : Z) (r : PortRange) :
  range_ok r -> 0 <= now ->
  (forall p, match Listen (listen_addr p) with Panic _ | OutOfFuel => False | _ => True end) ->
  match ListenInRange Listen now r with
  | Ok (ln, p) => Lo r <= p <= Hi r /\ Listen (listen_addr p) = Ok ln
  | Err _ => forall p, Lo r <= p <= Hi r -> exists e, Listen (listen_addr p) = Err e
  | Panic _ | OutOfFuel => False
  end.
Proof.
  intros [[H1 H2] H3] Hnow HL. unfold ListenInRange, Single.
  destruct (Z.eqb_spec (Lo r) (Hi r)) as [E|E].
  { specialize (HL (Lo r)). destruct (Listen (listen_addr (Lo r))) as [ln|e|?|] eqn:El;
      cbn [mbind result_bind]; try done.
    intros p Hp. assert (p = Lo r) as -> by lia. eauto. }
  cbv zeta. set (n := Hi r - Lo r + 1). assert (1 < n) as Hn by lia.
  rewrite (proj2 (Z.eqb_neq n 0)) by lia.
  set (start := Z.rem now n). assert (0 <= start) as Hs by (apply Z.rem_nonneg; lia).
  pose proof (listen_loop_spec Listen r n start (Z.to_nat n)) as H.
  rewrite Z2Nat.id, Z.sub_diag in H by lia. specialize (H ltac:(lia) ltac:(lia) HL).
  destruct (listen_loop _ _ _ _ _) as [[ln p]|e|?|]; try done; destruct H as [Ha Hb].
  - destruct Hb as (i & Hi & ->). pose proof (Z.rem_bound_pos (start + i) n). split; [lia|done].
  - intros p Hp. specialize (Hb ((p - Lo r - start) mod n)).
    pose proof (Z.mod_pos_bound (p - Lo r - start) n ltac:(lia)).
    destruct Hb as [e' He]; [lia|]. exists e'. rewrite <- He. do 2 f_equal.
    rewrite Z.rem_mod_nonneg, Z.add_mod_idemp_r by lia.
    replace (start + (p - Lo r - start)) with (p - Lo r) by lia.
    rewrite Z.mod_small by lia. lia.
Qed.

(** ListenInRange.  For a valid range and whatever ports of the machine are free, the port
    it returns is in the range and is the one it listens on; it fails only when Listen fails
    on every port of the range. *)
Theorem ListenInRange_complete {L} (Listen : string -> result L) (now : Z) (r : PortRange) :
  range_ok r -> 0 <= now ->
  (forall p, match Listen (listen_addr p) with Panic _ | OutOfFuel => False | _ => True end) ->
  match ListenInRange Listen now r with
  | Ok (ln, p) => Lo r <= p <= Hi r /\ Listen (listen_addr p) = Ok ln
  | Err _ => forall p, Lo r <= p <= Hi r -> exists e, Listen (listen_addr p) = Err e
  | Panic _ | OutOfFuel => False
  end.
Proof. apply ListenInRange_spec. Qed.

Definition only_8082 (addr : string) : result unit :=
  if String.eqb addr "0.0.0.0:8082" then Ok tt else Err (Errorf "address already in use").

Lemma ListenInRange_complete_witness :
  exists p, ListenInRange only_8082 12345 (MkPortRange 8080 8085) = Ok (tt, p) /\
    8080 <= p <= 8085.
Proof.
  assert (ListenInRange only_8082 12345 (MkPortRange 8080 8085) = Ok (tt, 8082)) as E
    by (by vm_compute).
  pose proof (ListenInRange_complete only_8082 12345 (MkPortRange 8080 8085)) as H.
  rewrite E in H. exists 8082. split; [done|]. apply H.
  - by vm_compute.
  - lia.
  - intros q. unfold only_8082. by destruct (String.eqb _ _).
Defined.
