(* ===== verification/FtpConn.v ===== *)
(** The FTP client connection: ftp/common/ftpclient.go, [FTPConn] and its helpers.

    A control connection is a [conn]: its input is what the server sends.  Dialing and TLS
    handshakes are the environment's; they answer with a connection or an error.  Each method
    runs under the connection's mutex, so that it is one step. *)

From S2P Require Import Prelude GoLib GoText.
From Stdlib Require Import ZArith Lia Strings.Byte Strings.Ascii Strings.String.
From stdpp Require Import gmap strings list fin_maps pretty.

#[local] Open Scope Z_scope.

(** ** Helpers *)

(** The conversion to int on a 64-bit machine. *)
Definition i64 (z : Z) : Z := (z + 2 ^ 63) mod 2 ^ 64 - 2 ^ 63.

Definition ParsePASV (msg : string) : result string :=
  let s := LastIndexByte msg "(" in
  let e := LastIndexByte msg ")" in
  if (s <? 0) || (e <? 0) then Err (Errorf "PASV parse: %q")
  else
    inner ← slice msg (s + 1) e;
    match Split inner "," with
    | [h1; h2; h3; h4; p4; p5] =>
        let host := strings_Join [h1; h2; h3; h4] "." in
        let p1 := default 0 (Sscanf_d p4) in
        let p2 := default 0 (Sscanf_d p5) in
        Ok (host +:+ ":" +:+ Itoa (i64 (p1 * 256 + p2)))
    | _ => Err (Errorf "PASV fields: %v")
    end.

(** The loop of applyPasvOverrides: the first override with the port [pasvPort]. *)
Fixpoint same_port (pasvPort : string) (usable : list string) : option string :=
  match usable with
  | [] => None
  | o :: os =>
      match SplitHostPort o with
      | Ok (_, op) => if String.eqb op pasvPort then Some o else same_port pasvPort os
      | _ => same_port pasvPort os
      end
  end.

(** [rnd] is rand.Intn(len(usable)). *)
Definition applyPasvOverrides (pasvAddr : string) (overrides : list string) (rnd : nat) :
    string :=
  let usable := filter (fun o => o <> ""%string) overrides in
  match usable with
  | [] => pasvAddr
  | o0 :: rest =>
      let found := match SplitHostPort pasvAddr with
                   | Ok (_, pasvPort) => same_port pasvPort usable
                   | _ => None
                   end in
      match found with
      | Some o => o
      | None => match rest with [] => o0 | _ => default ""%string (usable !! rnd) end
      end
  end.

(** ** The connection *)

Record FTPConn : Type := MkFTP {
  ctrl : conn;
  raw_open : bool;
  f_addr : string; f_user : string; f_pass : string;
  useTLS : bool;
  tlsCfg : bool;
  dead : bool;
  pasvOverrides : list string
}.

Definition set_ctrl (k : conn) (c : FTPConn) : FTPConn :=
  MkFTP k (raw_open c) (f_addr c) (f_user c) (f_pass c) (useTLS c) (tlsCfg c) (dead c)
    (pasvOverrides c).
Definition set_dead (d : bool) (c : FTPConn) : FTPConn :=
  MkFTP (ctrl c) (raw_open c) (f_addr c) (f_user c) (f_pass c) (useTLS c) (tlsCfg c) d
    (pasvOverrides c).
Definition set_overrides (l : list string) (c : FTPConn) : FTPConn :=
  MkFTP (ctrl c) (raw_open c) (f_addr c) (f_user c) (f_pass c) (useTLS c) (tlsCfg c) (dead c) l.

(** simpleCmd: the line is the format of [Cmd]. *)
Definition simpleCmd (expect : Z) (line : string) : IO unit :=
  _ ← PrintfLine (Sprintf0 line);
  _ ← ReadResponse expect;
  mret tt.

Fixpoint simpleCmds (l : list (Z * string)) : IO unit :=
  match l with
  | [] => mret tt
  | (expect, line) :: l => _ ← simpleCmd expect line; simpleCmds l
  end.

(** What the environment answers to dialOne: the TCP connection and the TLS connection. *)
Record dial_env : Type := MkDial { de_tcp : result conn; de_tls : result conn }.

(** dialOne: the connection or the error, and whether a dialed socket was closed. *)
Definition dialOne (addr user pass : string) (tls tlscfg : bool) (e : dial_env) :
    result FTPConn * bool :=
  let made k := MkFTP k true addr user pass tls tlscfg false [] in
  match de_tcp e with
  | Ok raw =>
      if tls then
        match (_ ← ReadResponse 220;
               _ ← PrintfLine (Sprintf0 "AUTH TLS");
               _ ← ReadResponse 234; mret tt) raw with
        | (Ok _, _) =>
            match de_tls e with
            | Ok tlsConn =>
                match simpleCmds [(331, "USER " +:+ user); (230, "PASS " +:+ pass);
                                  (200, "PBSZ 0"); (200, "PROT P"); (200, "TYPE I")]%string
                        tlsConn with
                | (Ok _, k) => (Ok (made k), false)
                | (Err x, _) => (Err x, true)
                | (Panic m, _) => (Panic m, false)
                | (OutOfFuel, _) => (OutOfFuel, false)
                end
            | Err _ => (Err (Errorf "TLS handshake: %w"), true)
            | Panic m => (Panic m, false)
            | OutOfFuel => (OutOfFuel, false)
            end
        | (Err x, _) => (Err x, true)
        | (Panic m, _) => (Panic m, false)
        | (OutOfFuel, _) => (OutOfFuel, false)
        end
      else
        match (_ ← ReadResponse 220;
               simpleCmds [(331, "USER " +:+ user); (230, "PASS " +:+ pass);
                           (200, "TYPE I")]%string) raw with
        | (Ok _, k) => (Ok (made k), false)
        | (Err x, _) => (Err x, true)
        | (Panic m, _) => (Panic m, false)
        | (OutOfFuel, _) => (OutOfFuel, false)
        end
  | Err x => (Err x, false)
  | Panic m => (Panic m, false)
  | OutOfFuel => (OutOfFuel, false)
  end.

(** *** Methods *)

(** A data connection as the environment gives it: its address, what io.ReadAll returns, how
    a Write on it ends. *)
Record datac : Type := MkDatac {
  da_addr : string; da_read : result (list byte); da_write : option goerr }.

Record data_env : Type := MkDataEnv {
  d_dial : string -> result datac; d_tls : option goerr; d_rnd : nat }.

#[local] Abbreviation FT := (RS FTPConn).

Definition is_err {A} (r : result A) : bool := match r with Err _ => true | _ => false end.

(** A call on the control connection, for the callers that take an error as the end of the
    connection ([fatal]) and for those that do not ([soft]). *)
Definition soft {A} (m : IO A) : FT A := fun c =>
  let '(r, k) := m (ctrl c) in (r, set_ctrl k c).
Definition fatal {A} (m : IO A) : FT A := fun c =>
  let '(r, k) := m (ctrl c) in (r, set_dead (dead c || is_err r) (set_ctrl k c)).

Definition of_result {A} (r : result A) : FT A := fun c => (r, c).

Definition check_dead (msg : string) : FT unit := fun c =>
  if dead c then (Err (Errorf msg), c) else (Ok tt, c).

(** [pasv], on the fields of [c]. *)
Definition pasv (c : FTPConn) (e : data_env) : IO datac :=
  _ ← PrintfLine (Sprintf0 "PASV");
  msg ← ReadResponse 227;
  addr ← lift (ParsePASV msg);
  let addr := applyPasvOverrides addr (pasvOverrides c) (d_rnd e) in
  dc ← lift (d_dial e addr);
  if useTLS c && tlsCfg c then
    match d_tls e with Some _ => throw (Errorf "data TLS: %w") | None => mret dc end
  else mret dc.

Definition SetPasvAddrOverrides (addrs : list string) (c : FTPConn) : FTPConn :=
  set_overrides (filter (fun a => a <> ""%string) addrs) c.

Definition Cmd (expect : Z) (line : string) : FT unit :=
  _ ← check_dead "dead"; fatal (simpleCmd expect line).

Definition Upload (name : string) (blob : list byte) (e : data_env) : FT unit :=
  _ ← check_dead "connection dead";
  dc ← (fun c => fatal (pasv c e) c);
  _ ← fatal (PrintfLine ("STOR " +:+ name));
  _ ← fatal (ReadResponse 150);
  _ ← fatal (match da_write dc with Some x => throw x | None => mret tt end);
  _ ← fatal (ReadResponse 226);
  mret tt.

Definition List_ (pattern : string) (e : data_env) : FT (list string) :=
  _ ← check_dead "connection dead";
  dc ← (fun c => fatal (pasv c e) c);
  _ ← fatal (PrintfLine ("NLST " +:+ pattern));
  _ ← soft (ignore (ReadResponse 150));
  raw ← fatal (lift (da_read dc));
  _ ← soft (ignore (ReadResponse 226));
  mret (filter (fun l => l <> ""%string) (map TrimSpace (Split (string_of raw) "010"))).

Definition Download (name : string) (e : data_env) : FT (list byte) :=
  _ ← check_dead "connection dead";
  dc ← (fun c => fatal (pasv c e) c);
  _ ← fatal (PrintfLine ("RETR " +:+ name));
  _ ← fatal (ReadResponse 150);
  data ← fatal (lift (da_read dc));
  _ ← soft (ignore (ReadResponse 226));
  mret data.

Definition Delete (name : string) : FT unit := fun c =>
  if dead c then (Ok tt, c) else soft (ignore (simpleCmd 250 ("DELE " +:+ name))) c.

Definition Noop : FT unit := _ ← check_dead "dead"; fatal (simpleCmd 200 "NOOP").

Definition CWD (path : string) : FT unit :=
  _ ← check_dead "dead"; fatal (simpleCmd 250 ("CWD " +:+ path)).

Definition PasvAddr : FT string :=
  _ ← check_dead "dead";
  _ ← fatal (PrintfLine (Sprintf0 "PASV"));
  msg ← fatal (ReadResponse 227);
  of_result (ParsePASV msg).

(** Close, with the error of the socket's Close. *)
Definition Close (x : option goerr) (c : FTPConn) : option goerr * FTPConn :=
  (x, MkFTP (ctrl c) false (f_addr c) (f_user c) (f_pass c) (useTLS c) (tlsCfg c) true
        (pasvOverrides c)).

Definition IsDead (c : FTPConn) : bool := dead c.
