(* ===== verification/FtpDial.v ===== *)
(** How the FTP tunnel client gets its connections: ftp/client/client.go, lines 22 to 62 and
    172 to 340.

    The configuration, the control connection that is dialed on demand, the data channels it
    bootstraps through PASV, and the retry loop with its backoff.  Sockets and TLS handshakes
    are the environment's. *)

From S2P Require Import Prelude GoLib GoText Aead FtpProtocol FtpChannel FtpConn.
From Stdlib Require Import ZArith Lia Strings.Byte Strings.Ascii Strings.String.
From stdpp Require Import gmap strings list fin_maps.

#[local] Open Scope Z_scope.

(** ** Configuration (the log tag has no counterpart) *)

Record Config : Type := MkConfig {
  Listen : string; FTP : string; User : string; Pass : string; Key : string; TLS : bool;
  UploadChannels : Z; DownloadChannels : Z; OverrideUpAddr : string; OverrideDownAddr : string;
  Decoy : bool; SocksUser : string; SocksPass : string; Debug : bool; ReverseAddr : string;
  SkipUDP : bool
}.

Record Globals : Type := MkGlobals {
  cfgListen : string; cfgFTP : string; cfgUser : string; cfgPass : string; cfgKey : string;
  cfgTLS : bool; cfgUpChans : Z; cfgDownChans : Z; cfgUpAddr : string; cfgDownAddr : string;
  cfgDecoy : bool; cfgSocksUser : string; cfgSocksPass : string; cfgDebug : bool;
  cfgReverse : string; cfgSkipUDP : bool
}.

Definition default_globals : Globals :=
  MkGlobals "127.0.0.1:1080" "127.0.0.1:21" "tunnel" "secret" "change-me-please" false 1 1
    "" "" false "" "" false "" false.

Definition if_set (v old : string) : string := if String.eqb v "" then old else v.

Definition applyConfig (c : Config) (g : Globals) : Globals :=
  {| cfgListen := if_set (Listen c) (cfgListen g);
     cfgFTP := if_set (FTP c) (cfgFTP g);
     cfgUser := if_set (User c) (cfgUser g);
     cfgPass := if_set (Pass c) (cfgPass g);
     cfgKey := if_set (Key c) (cfgKey g);
     cfgTLS := TLS c;
     cfgUpChans := if UploadChannels c >? 0 then UploadChannels c else cfgUpChans g;
     cfgDownChans := if DownloadChannels c >? 0 then DownloadChannels c else cfgDownChans g;
     cfgUpAddr := OverrideUpAddr c;
     cfgDownAddr := OverrideDownAddr c;
     cfgDecoy := Decoy c;
     cfgSocksUser := SocksUser c;
     cfgSocksPass := SocksPass c;
     cfgDebug := Debug c;
     cfgReverse := ReverseAddr c;
     cfgSkipUDP := SkipUDP c |}.

(** The checks of Run: the host of the FTP server, for TLS. *)
Definition check_addrs (g : Globals) : result string :=
  match SplitHostPort (cfgFTP g) with
  | Ok (ftpHost, _) =>
      match (if String.eqb (cfgUpAddr g) "" then Ok tt
             else (_ ← SplitHostPort (cfgUpAddr g); Ok tt)) with
      | Ok _ =>
          match (if String.eqb (cfgDownAddr g) "" then Ok tt
                 else (_ ← SplitHostPort (cfgDownAddr g); Ok tt)) with
          | Ok _ => Ok ftpHost
          | _ => Err (Errorf "invalid override-down-addr %q: %w")
          end
      | _ => Err (Errorf "invalid override-up-addr %q: %w")
      end
  | _ => Err (Errorf "invalid ftp address: %w")
  end.

(** ** Dialing *)

(** What the environment answers during one dialTunnelChannel: the control connection, the
    data connection to an address, its TLS handshake, and the random bytes of the hello. *)
Record tunnel_env : Type := MkTunnelEnv {
  te_ctrl : dial_env;
  te_dial : string -> result conn;
  te_tls : result conn;
  te_pad : list byte;
  te_nonce : list byte
}.

(** How a dialTunnelChannel ends: its result, and the socket it leaves behind without a channel,
    if there is one. *)
Definition outcome (A : Type) : Type := result A * bool.

Section Dial.
Context `{AEAD}.
Context (g : Globals) (aesKey : list byte) (sessionToken : string).

Definition redialFTP (e : dial_env) : result FTPConn * bool :=
  dialOne (cfgFTP g) (cfgUser g) (cfgPass g) (cfgTLS g) (cfgTLS g) e.

(** The control connection to use, [ftpCtrl] when it is alive. *)
Definition get_ctrl (e : dial_env) (ftpCtrl : option FTPConn) : result FTPConn :=
  match ftpCtrl with
  | Some c => if IsDead c then (redialFTP e).1 else Ok c
  | None => (redialFTP e).1
  end.

(** The data connection of a tunnel channel, once its address is known. *)
Definition dial_data (e : tunnel_env) (dir index : Z) (addr : string) : outcome Channel :=
  match te_dial e addr with
  | Ok raw =>
      match MaybeTLSClient raw (cfgTLS g) (te_tls e) with
      | (Ok conn, _) =>
          match WriteHello (MkHello sessionToken dir index) aesKey (te_pad e) (te_nonce e) conn with
          | (Ok _, conn) => (Ok (WrapChannel conn aesKey dir index), false)
          | (Err _, _) => (Err (Errorf "hello: %w"), false)
          | (Panic m, _) => (Panic m, true)
          | (OutOfFuel, _) => (OutOfFuel, true)
          end
      | (Err x, closed) => (Err x, negb closed)
      | (Panic m, _) => (Panic m, true)
      | (OutOfFuel, _) => (OutOfFuel, true)
      end
  | Err _ => (Err (Errorf "dial %s: %w"), false)
  | Panic m => (Panic m, false)
  | OutOfFuel => (OutOfFuel, false)
  end.

Definition channel_addr (dir : Z) (addr : string) : string :=
  if (dir =? DirUpload) && negb (String.eqb (cfgUpAddr g) "") then cfgUpAddr g
  else if (dir =? DirDownload) && negb (String.eqb (cfgDownAddr g) "") then cfgDownAddr g
  else addr.

(** dialTunnelChannel: its outcome and the new [ftpCtrl]. *)
Definition dialTunnelChannel (e : tunnel_env) (dir index : Z) (ftpCtrl : option FTPConn) :
    outcome Channel * option FTPConn :=
  match get_ctrl (te_ctrl e) ftpCtrl with
  | Ok c =>
      let path := if dir =? DirDownload then PathDownload else PathUpload in
      match CWD path c with
      | (Ok _, c) =>
          match PasvAddr c with
          | (Ok addr, c) => (dial_data e dir index (channel_addr dir addr), Some c)
          | (Err _, _) => ((Err (Errorf "PASV: %w"), false), None)
          | (Panic m, c) => ((Panic m, false), Some c)
          | (OutOfFuel, c) => ((OutOfFuel, false), Some c)
          end
      | (Err _, _) => ((Err (Errorf "CWD %s: %w"), false), None)
      | (Panic m, c) => ((Panic m, false), Some c)
      | (OutOfFuel, c) => ((OutOfFuel, false), Some c)
      end
  | Err x => ((Err x, false), ftpCtrl)
  | Panic m => ((Panic m, false), ftpCtrl)
  | OutOfFuel => ((OutOfFuel, false), ftpCtrl)
  end.

(** controlKeepalive, for one tick. *)
Definition controlKeepalive (ftpCtrl : option FTPConn) : option FTPConn :=
  match ftpCtrl with
  | Some c => match Noop c with (Ok _, c) => Some c | (Err _, _) => None | (_, c) => Some c end
  | None => None
  end.

End Dial.

(** ** Retrying *)

Definition retryMin : Z := 1000000000.
Definition retryMax : Z := 30 * 1000000000.

Definition next_backoff (backoff : Z) : Z :=
  if backoff <? retryMax
  then let backoff := backoff * 2 in if backoff >? retryMax then retryMax else backoff
  else backoff.

(** A turn of the loop: whether the context is done at its start, how the login and
    openAllChannels end, whether the sleep is slept to its end. *)
Record attempt : Type := MkAttempt {
  at_done : bool; at_login : result FTPConn; at_open : option goerr; at_wake : bool }.

Definition ctx_canceled : goerr := Errorf "context canceled".

(** connectWithRetry: the sleeps, the value it returns if it does within the given turns, and
    the control connection. *)
Fixpoint connectWithRetry (turns : list attempt) (backoff : Z) (ftpCtrl : option FTPConn) :
    list Z * option (option goerr) * option FTPConn :=
  match turns with
  | [] => ([], None, ftpCtrl)
  | a :: turns =>
      if at_done a then ([], Some (Some ctx_canceled), ftpCtrl)
      else
        let retry :=
          if at_wake a then
            let '(sleeps, r, c) := connectWithRetry turns (next_backoff backoff) None in
            (backoff :: sleeps, r, c)
          else ([backoff], Some (Some ctx_canceled), None) in
        match at_login a with
        | Ok c => match at_open a with
                  | None => ([], Some None, Some c)
                  | Some _ => retry
                  end
        | _ => retry
        end
  end.

(** ** Lemmas *)

Definition backoff_at (n : nat) : Z := Z.min (2 ^ Z.of_nat n * retryMin) retryMax.

Lemma backoff_at_S n : next_backoff (backoff_at n) = backoff_at (S n).
Proof.
  unfold next_backoff, backoff_at, retryMax, retryMin. rewrite Nat2Z.inj_succ, Z.pow_succ_r by lia.
  pose proof (Z.pow_pos_nonneg 2 (Z.of_nat n)). set (x := 2 ^ Z.of_nat n) in *.
  rewrite Z.gtb_ltb. destruct (Z.ltb_spec (Z.min (x * 1000000000) (30 * 1000000000)) (30 * 1000000000));
    cbv zeta; [destruct (Z.ltb_spec (30 * 1000000000) (Z.min (x * 1000000000) (30 * 1000000000) * 2))|]; lia.
Qed.

Lemma backoff_at_0 : backoff_at 0 = retryMin.
Proof. done. Qed.

(** Whether a turn connects. *)
Definition connects (a : attempt) : Prop :=
  (exists c, at_login a = Ok c) /\ at_open a = None.

Lemma connect_run turns n c0 :
  Forall (fun a => at_done a = false /\ at_wake a = true) turns ->
  let '(sleeps, r, c) := connectWithRetry turns (backoff_at n) c0 in
  (forall i d, sleeps !! i = Some d -> d = backoff_at (n + i)) /\
  match r with
  | Some None => exists l a l', turns = l ++ a :: l' /\ Forall (fun a => ~ connects a) l /\
      connects a /\ len sleeps = len l /\ (Some <$> c) = Some (match at_login a with Ok x => Some x | _ => None end)
  | Some (Some _) => False
  | None => Forall (fun a => ~ connects a) turns /\ len sleeps = len turns
  end.
Proof.
  intros Hf. revert n c0. induction Hf as [|a turns [Hd Hw] Hf IH]; intros n c0; cbn [connectWithRetry].
  { split; [done|]. split; [constructor|done]. }
  rewrite Hd, Hw, backoff_at_S. specialize (IH (S n) None).
  destruct (connectWithRetry turns (backoff_at (S n)) None) as [[sleeps r] c].
  destruct IH as [IH1 IH2].
  assert (forall i d, (backoff_at n :: sleeps) !! i = Some d -> d = backoff_at (n + i)) as Hsl.
  { intros [|i] d; simpl; [intros [= <-]; by rewrite Nat.add_0_r|]. intros Hi.
    apply IH1 in Hi. by replace (n + S i)%nat with (S n + i)%nat by lia. }
  assert (~ connects a ->
    (forall i d, (backoff_at n :: sleeps) !! i = Some d -> d = backoff_at (n + i)) /\
    match r with
    | Some None => exists l b l', a :: turns = l ++ b :: l' /\ Forall (fun a => ~ connects a) l /\
        connects b /\ len (backoff_at n :: sleeps) = len l /\
        (Some <$> c) = Some (match at_login b with Ok x => Some x | _ => None end)
    | Some (Some _) => False
    | None => Forall (fun a => ~ connects a) (a :: turns) /\
        len (backoff_at n :: sleeps) = len (a :: turns)
    end) as Retry.
  { intros Hn. split; [done|]. destruct r as [[e|]|]; [done|..].
    - destruct IH2 as (l & b & l' & -> & H1 & H2 & H3 & H4). exists (a :: l), b, l'.
      rewrite !len_cons, H3. split_and!; try done. by constructor.
    - destruct IH2 as [H1 H2]. rewrite !len_cons, H2. split; [by constructor|done]. }
  unfold connects in Retry at 1. destruct (at_login a) as [c1|e|m|] eqn:El.
  - destruct (at_open a) eqn:Eo; [apply Retry; by intros [_ ?]|]. split; [done|].
    exists [], a, turns. rewrite El. split; [done|]. split; [constructor|].
    split; [split; eauto|done].
  - apply Retry. by intros [[? ?] _].
  - apply Retry. by intros [[? ?] _].
  - apply Retry. by intros [[? ?] _].
Qed.

(** The control connection is alive after a command that has succeeded on it. *)
Lemma CWD_Ok_alive path c c' : CWD path c = (Ok tt, c') -> dead c' = false.
Proof.
  unfold CWD, check_dead, fatal, mbind, RS_bind. destruct (dead c) eqn:Ed; [done|].
  destruct (simpleCmd _ _ _) as [r k]. intros [= -> <-]. by rewrite Ed.
Qed.

Lemma PasvAddr_Ok_alive c c' a : PasvAddr c = (Ok a, c') -> dead c' = false.
Proof.
  unfold PasvAddr, check_dead, fatal, of_result, mbind, RS_bind.
  destruct (dead c) eqn:Ed; [done|].
  destruct (PrintfLine _ _) as [[] k]; try done. cbn [is_err set_ctrl set_dead ctrl dead].
  destruct (ReadResponse _ _) as [[] k']; try done. cbn [is_err set_ctrl set_dead ctrl dead].
  intros [= _ <-]. cbn. by rewrite Ed.
Qed.

(** A connection that has sent nothing and whose writer does not fail. *)
Definition fresh (c : conn) : Prop := tx c = [] /\ tx_room c = None.

Section Properties.
Context `{AEADLaws}.

Lemma dial_data_spec g aesKey token e dir index addr :
  key_ok aesKey -> length (te_nonce e) = NonceSize -> len (te_pad e) <= 512 ->
  slen token < 256 -> 0 <= dir < 256 -> 0 <= index < 65536 ->
  (forall a c, te_dial e a = Ok c -> fresh c) -> (forall c, te_tls e = Ok c -> fresh c) ->
  let '(r, leak) := dial_data g aesKey token e dir index addr in
  match r with
  | Ok ch => exists c, ch = MkChannel (Some c) aesKey dir index /\
      forall s, ReadHello aesKey (conn_of (tx c ++ s)) = (Ok (MkHello token dir index), conn_of s)
  | Err _ => leak = false
  | _ => True
  end.
Proof.
  intros Hk Hn Hp Ht Hd Hi Hdial Htls. unfold dial_data.
  destruct (te_dial e addr) as [raw| | |] eqn:Er; try done. unfold MaybeTLSClient.
  assert (forall c, fresh c -> exists c',
    WriteHello (MkHello token dir index) aesKey (te_pad e) (te_nonce e) c = (Ok tt, c') /\
    forall s, ReadHello aesKey (conn_of (tx c' ++ s)) = (Ok (MkHello token dir index), conn_of s))
    as Hello.
  { intros c [Hc1 Hc2].
    destruct (WriteHello_wire (MkHello token dir index) aesKey (te_pad e) (te_nonce e) c)
      as (out & Hw & Hr); try done.
    rewrite Hw. eexists. split; [done|]. cbn [set_tx tx]. by rewrite Hc1. }
  destruct (cfgTLS g); cbn [negb].
  - destruct (te_tls e) as [tc| | |] eqn:Et; try done.
    destruct (Hello tc (Htls _ eq_refl)) as (c' & -> & Hc). eauto.
  - destruct (Hello raw (Hdial _ _ Er)) as (c' & -> & Hc). eauto.
Qed.

(** Tunnel channels.  Whatever the server replies and the network does, a dialTunnelChannel
    that succeeds returns an open channel with the direction and index asked for, at whose other
    end ReadHello finds the client's token, direction and index first; the control connection
    is then alive.  When it fails no socket is left open, and the control connection it leaves
    is alive, or gone, or the one it found when it could not log in again. *)
Theorem Dial_channel (g : Globals) (aesKey : list byte) (token : string) (e : tunnel_env)
    (dir index : Z) (ctrl : option FTPConn) :
  key_ok aesKey -> length (te_nonce e) = NonceSize -> len (te_pad e) <= 512 ->
  slen token < 256 -> 0 <= dir < 256 -> 0 <= index < 65536 ->
  (forall a c, te_dial e a = Ok c -> fresh c) -> (forall c, te_tls e = Ok c -> fresh c) ->
  let '((r, leak), ctrl') := dialTunnelChannel g aesKey token e dir index ctrl in
  match r with
  | Ok ch =>
      (exists k, ctrl' = Some k /\ dead k = false) /\
      exists c, ch = MkChannel (Some c) aesKey dir index /\
        forall s, ReadHello aesKey (conn_of (tx c ++ s)) =
          (Ok (MkHello token dir index), conn_of s)
  | Err _ =>
      leak = false /\
      ((exists k, ctrl' = Some k /\ dead k = false) \/ ctrl' = None \/
       (ctrl' = ctrl /\ exists x, (redialFTP g (te_ctrl e)).1 = Err x))
  | _ => True
  end.
Proof.
  intros Hk Hn Hp Ht Hd Hi Hdial Htls. unfold dialTunnelChannel.
  destruct (get_ctrl g (te_ctrl e) ctrl) as [c|x| |] eqn:Ec; try done.
  - destruct (CWD _ c) as [[]  c1] eqn:E1; try done; [|by split; [|right; left]].
    destruct (PasvAddr c1) as [[addr|x|m|] c2] eqn:E2; try done; [|by split; [|right; left]].
    pose proof (PasvAddr_Ok_alive _ _ _ E2) as Ha.
    pose proof (dial_data_spec g aesKey token e dir index (channel_addr g dir addr)
      Hk Hn Hp Ht Hd Hi Hdial Htls) as Hs.
    destruct (dial_data _ _ _ _ _ _ _) as [[ch|y|m|] leak]; try done.
    + split; [eauto|done].
    + split; [done|]. left. eauto.
  - split; [done|]. right. right. split; [done|]. unfold get_ctrl in Ec.
    destruct ctrl as [c|]; [destruct (IsDead c); [|done]|]; eauto.
Qed.

End Properties.

(** Backoff.  As long as the context is not cancelled, connectWithRetry sleeps 1, 2, 4, 8, 16
    and then always 30 seconds between its turns, returns at the first turn that both logs in
    and opens the channels, with that turn's control connection, and never gives up. *)
Theorem Retry_backoff (turns : list attempt) (c0 : option FTPConn) :
  Forall (fun a => at_done a = false /\ at_wake a = true) turns ->
  let '(sleeps, r, c) := connectWithRetry turns retryMin c0 in
  (forall i d, sleeps !! i = Some d -> d = Z.min (2 ^ Z.of_nat i * retryMin) retryMax) /\
  match r with
  | Some None => exists l a l', turns = l ++ a :: l' /\ Forall (fun a => ~ connects a) l /\
      connects a /\ len sleeps = len l /\
      (Some <$> c) = Some (match at_login a with Ok x => Some x | _ => None end)
  | Some (Some _) => False
  | None => Forall (fun a => ~ connects a) turns /\ len sleeps = len turns
  end.
Proof. rewrite <- backoff_at_0. apply connect_run. Qed.

(** ** Witnesses *)

(** A server that answers 250 and 227, and a peer that accepts the data connection. *)
Definition demo_ctrl : FTPConn :=
  MkFTP (conn_of (bytes_of ("250 OK." +:+ crlf +:+
      "227 Entering Passive Mode (1,2,3,4,31,144)." +:+ crlf))) true "1.2.3.4:21" "tunnel"
    "secret" false false false [].
Definition demo_tunnel_env : tunnel_env :=
  MkTunnelEnv (MkDial (Err EOF) (Err EOF))
    (fun a => if String.eqb a "1.2.3.4:8080" then Ok (conn_of []) else Err EOF) (Err EOF) []
    (replicate 12 Byte.x22).

Lemma Dial_channel_witness :
  exists ch k, dialTunnelChannel default_globals (replicate 32 Byte.x11) "0011aabb" demo_tunnel_env
      DirUpload 0 (Some demo_ctrl) = ((Ok ch, false), Some k) /\ dead k = false.
Proof.
  pose proof (Dial_channel default_globals (replicate 32 Byte.x11) "0011aabb" demo_tunnel_env
    DirUpload 0 (Some demo_ctrl) eq_refl eq_refl ltac:(by vm_compute) ltac:(by vm_compute)
    ltac:(by vm_compute) ltac:(by vm_compute)) as H.
  destruct (dialTunnelChannel _ _ _ _ _ _ _) as [[[ch|x|m|] leak] ctrl'] eqn:E;
    vm_compute in E; try discriminate E.
  destruct H as [(k & -> & Hk) _].
  - intros a c. unfold demo_tunnel_env; cbn [te_dial]. destruct (String.eqb _ _); [|done].
    by intros [= <-].
  - done.
  - exists ch, k. injection E as <- <- <-. by split.
Defined.

Definition demo_turn (login open : bool) : attempt :=
  MkAttempt false (if login then Ok demo_ctrl else Err EOF)
    (if open then None else Some EOF) true.

Lemma Retry_backoff_witness :
  (connectWithRetry (replicate 6 (demo_turn false true) ++ [demo_turn true true]) retryMin None).1.2
    = Some None.
Proof.
  pose proof (Retry_backoff (replicate 6 (demo_turn false true) ++ [demo_turn true true]) None) as H.
  destruct (connectWithRetry _ _ _) as [[sleeps r] c] eqn:E. vm_compute in E.
  injection E as _ <- _. destruct H as [_ _]; [|done].
  apply Forall_app. split; [by apply Forall_replicate|by apply Forall_singleton].
Defined.
