(* ===== verification/FtpControl.v ===== *)
(** The FTP façade of the tunnel server: ftp/server/server.go, control side.

    The configuration, the pools of data ports, and the FTP sessions that clients (and
    probes) talk to.  A [Facade] holds the two pools, the channels of pending decoy transfers,
    the listeners, the data connections and the sessions.  One [event] is one atomic piece of
    a goroutine: a turn of a session's command loop, the end of a wait for a data connection,
    a connection accepted by a listener.  What the environment decides (which ports are free,
    random numbers, the clock, TLS handshakes) is the record [cenv] of an event. *)

From S2P Require Import Prelude GoLib GoText FtpProtocol FtpChannel.
From Stdlib Require Import ZArith Lia Strings.Byte Strings.Ascii Strings.String.
From stdpp Require Import gmap strings list fin_maps pretty.

#[local] Open Scope Z_scope.

(** ** Configuration *)

Record Config : Type := MkConfig {
  Listen : string; User : string; Pass : string; Key : string; PasvIP : string;
  UploadPorts : string; DownloadPorts : string; TLS : bool; Cert : string; CertKey : string;
  Debug : bool; Target : string; SkipUDP : bool
}.

(** The package variables. *)
Record Globals : Type := MkGlobals {
  cfgFTPAddr : string; cfgUser : string; cfgPass : string; cfgKey : string;
  cfgPasvIP : string; cfgUploadPorts : string; cfgDownloadPorts : string; cfgTLS : bool;
  cfgCert : string; cfgCertKey : string; cfgDebug : bool; cfgTarget : string;
  cfgSkipUDP : bool
}.

Definition default_globals : Globals :=
  MkGlobals "0.0.0.0:21" "tunnel" "secret" "change-me-please" "" "8080-8800" "8080-8800"
    false "cert.pem" "key.pem" false "" false.

(** [if v != "" { old = v }]. *)
Definition if_set (v old : string) : string := if String.eqb v "" then old else v.

Definition applyConfig (c : Config) (g : Globals) : Globals :=
  {| cfgFTPAddr := if_set (Listen c) (cfgFTPAddr g);
     cfgUser := if_set (User c) (cfgUser g);
     cfgPass := if_set (Pass c) (cfgPass g);
     cfgKey := if_set (Key c) (cfgKey g);
     cfgPasvIP := PasvIP c;
     cfgUploadPorts := if_set (UploadPorts c) (cfgUploadPorts g);
     cfgDownloadPorts := if_set (DownloadPorts c) (cfgDownloadPorts g);
     cfgTLS := TLS c;
     cfgCert := if_set (Cert c) (cfgCert g);
     cfgCertKey := if_set (CertKey c) (cfgCertKey g);
     cfgDebug := Debug c;
     cfgTarget := TrimSpace (Target c);
     cfgSkipUDP := SkipUDP c |}.

(** ** State *)

(** A shared listener and its port; the channel that takes the next connection. *)
Record dataPool : Type := MkPool {
  p_r : PortRange;
  p_shared : option (nat * Z);
  p_pend : option nat
}.

(** What a listener is for: the shared port of a pool, one tunnel connection of a PASV, or one
    decoy connection of a PASV. *)
Inductive purpose : Type := LShared (up : bool) | LAdvertised | LDecoy.
Record listener : Type := MkLn { l_open : bool; l_port : Z; l_for : purpose }.

(** A data connection of a decoy transfer: whether it is open, and what was sent on it. *)
Record dataconn : Type := MkData { d_open : bool; d_tls : bool; d_out : string }.

(** The closures [decoyWait] and [decoyCancel] of a session, which are set and cleared
    together: on a channel armed in the download pool, and in the upload pool too when the
    flag says so; or on a listener of their own. *)
Inductive decoy : Type := DChan (ch : nat) (both : bool) | DLn (ln : nat).

(** A transfer that waits for its data connection. *)
Inductive transfer : Type :=
  | TList (cmd : string)
  | TRetr (arg : string) (data : list byte).

Inductive phase : Type := Idle | Waiting (d : decoy) (t : transfer) | Closed.

(** An FTP session: the input that its reader has buffered, the replies it has sent. *)
Record ftpSess : Type := MkSess {
  s_in : list byte;
  s_out : string;
  authed : bool;
  userOK : bool;
  pending : option decoy;
  tlsUpgrade : bool;
  dataProtP : bool;
  cwd : string;
  localAddr : string;
  s_phase : phase
}.

Record Facade : Type := MkFacade {
  upPool : dataPool;
  downPool : dataPool;
  dchans : gmap nat (option nat);
  lns : gmap nat listener;
  dconns : gmap nat dataconn;
  handed : list nat;
  sess : gmap nat ftpSess
}.

(** The environment of one turn: net.Listen, the clock, the random numbers of a reply, the
    order in which the decoy files are listed, and the two TLS handshakes. *)
Record cenv : Type := MkEnv {
  e_listen : string -> option goerr;
  e_now : N;
  e_size : Z;
  e_stamp : string;
  e_files : list string;
  e_ctrl_tls : bool;
  e_data_tls : bool
}.

(** *** Updates *)

Definition set_pools (u d : dataPool) (w : Facade) : Facade :=
  MkFacade u d (dchans w) (lns w) (dconns w) (handed w) (sess w).
Definition set_dchans (x : gmap nat (option nat)) (w : Facade) : Facade :=
  MkFacade (upPool w) (downPool w) x (lns w) (dconns w) (handed w) (sess w).
Definition set_lns (x : gmap nat listener) (w : Facade) : Facade :=
  MkFacade (upPool w) (downPool w) (dchans w) x (dconns w) (handed w) (sess w).
Definition set_dconns (x : gmap nat dataconn) (w : Facade) : Facade :=
  MkFacade (upPool w) (downPool w) (dchans w) (lns w) x (handed w) (sess w).
Definition set_handed (x : list nat) (w : Facade) : Facade :=
  MkFacade (upPool w) (downPool w) (dchans w) (lns w) (dconns w) x (sess w).
Definition set_sess (x : gmap nat ftpSess) (w : Facade) : Facade :=
  MkFacade (upPool w) (downPool w) (dchans w) (lns w) (dconns w) (handed w) x.

Definition set_pend (p : dataPool) (x : option nat) : dataPool := MkPool (p_r p) (p_shared p) x.

Definition set_io (i : list byte) (o : string) (s : ftpSess) : ftpSess :=
  MkSess i o (authed s) (userOK s) (pending s) (tlsUpgrade s) (dataProtP s) (cwd s)
    (localAddr s) (s_phase s).
Definition set_auth (a u : bool) (s : ftpSess) : ftpSess :=
  MkSess (s_in s) (s_out s) a u (pending s) (tlsUpgrade s) (dataProtP s) (cwd s)
    (localAddr s) (s_phase s).
Definition set_pending (d : option decoy) (s : ftpSess) : ftpSess :=
  MkSess (s_in s) (s_out s) (authed s) (userOK s) d (tlsUpgrade s) (dataProtP s) (cwd s)
    (localAddr s) (s_phase s).
Definition set_prot (u p : bool) (s : ftpSess) : ftpSess :=
  MkSess (s_in s) (s_out s) (authed s) (userOK s) (pending s) u p (cwd s) (localAddr s)
    (s_phase s).
Definition set_cwd (d : string) (s : ftpSess) : ftpSess :=
  MkSess (s_in s) (s_out s) (authed s) (userOK s) (pending s) (tlsUpgrade s) (dataProtP s) d
    (localAddr s) (s_phase s).
Definition set_phase (p : phase) (s : ftpSess) : ftpSess :=
  MkSess (s_in s) (s_out s) (authed s) (userOK s) (pending s) (tlsUpgrade s) (dataProtP s)
    (cwd s) (localAddr s) p.

(** ** Data pools *)

Definition newDataPool (r : PortRange) : dataPool := MkPool r None None.

#[local] Abbreviation F := (ST Facade).

Definition close_ln (n : nat) (w : Facade) : Facade :=
  set_lns (alter (fun l => MkLn false (l_port l) (l_for l)) n (lns w)) w.
Definition close_data (n : nat) (w : Facade) : Facade :=
  set_dconns (alter (fun d => MkData false (d_tls d) (d_out d)) n (dconns w)) w.

(** common.ListenInRange: the new listener is entered with its purpose. *)
Definition listen_in_range (e : cenv) (r : PortRange) (u : purpose) : F (result (nat * Z)) :=
  fun w =>
    match ListenInRange (fun a => match e_listen e a with None => Ok tt | Some x => Err x end)
            (Z.of_N (e_now e)) r with
    | Ok (_, port) =>
        let n := fresh_id (lns w) in
        (Ok (n, port), set_lns (<[n := MkLn true port u]> (lns w)) w)
    | Err x => (Err x, w)
    | Panic m => (Panic m, w)
    | OutOfFuel => (OutOfFuel, w)
    end.

Definition the_pool (up : bool) (w : Facade) : dataPool := if up then upPool w else downPool w.
Definition put_pool (up : bool) (p : dataPool) (w : Facade) : Facade :=
  if up then set_pools p (downPool w) w else set_pools (upPool w) p w.

Definition ensureShared (e : cenv) (up : bool) : F (result Z) :=
  p ← gets (the_pool up);
  match p_shared p with
  | Some (_, port) => mret (Ok port)
  | None =>
      r ← listen_in_range e (p_r p) (LShared up);
      match r with
      | Ok (ln, port) =>
          _ ← modify (put_pool up (MkPool (p_r p) (Some (ln, port)) (p_pend p)));
          mret (Ok port)
      | Err x => mret (Err x)
      | Panic m => mret (Panic m)
      | OutOfFuel => mret OutOfFuel
      end
  end.

Definition clearDecoy (up : bool) (ch : nat) (w : Facade) : Facade :=
  let p := the_pool up w in
  if decide (p_pend p = Some ch) then put_pool up (set_pend p None) w else w.

(** acceptLoop, for a connection [c] that the shared listener of the pool has accepted. *)
Definition accept_shared (up : bool) (c : nat) (w : Facade) : Facade :=
  match p_pend (the_pool up w) with
  | Some ch =>
      match dchans w !! ch with
      | Some None => set_dchans (<[ch := Some c]> (dchans w)) w
      | _ => set_handed (handed w ++ [c]) w
      end
  | None => set_handed (handed w ++ [c]) w
  end.

Definition advertise (e : cenv) (up : bool) : F (result Z) :=
  p ← gets (the_pool up);
  if Single (p_r p) then ensureShared e up
  else
    r ← listen_in_range e (p_r p) LAdvertised;
    mret (match r with
          | Ok (_, port) => Ok port
          | Err x => Err x | Panic m => Panic m | OutOfFuel => OutOfFuel
          end).

(** The goroutine of [advertise]: its Accept on [ln] returned a connection, or failed. *)
Definition accept_advertised (ln : nat) (r : option nat) (w : Facade) : Facade :=
  let w := match r with Some c => set_handed (handed w ++ [c]) w | None => w end in
  close_ln ln w.

Definition new_dchan : F nat := fun w =>
  let n := fresh_id (dchans w) in (n, set_dchans (<[n := None]> (dchans w)) w).

Definition arm (up : bool) (ch : nat) (w : Facade) : Facade :=
  put_pool up (set_pend (the_pool up w) (Some ch)) w.

(** reserveDecoy, of the download pool: its only caller takes that pool. *)
Definition reserveDecoy (e : cenv) : F (result (Z * decoy)) :=
  p ← gets downPool;
  if Single (p_r p) then
    r ← ensureShared e false;
    match r with
    | Ok port =>
        ch ← new_dchan;
        _ ← modify (arm false ch);
        mret (Ok (port, DChan ch false))
    | Err x => mret (Err x) | Panic m => mret (Panic m) | OutOfFuel => mret OutOfFuel
    end
  else
    r ← listen_in_range e (p_r p) LDecoy;
    mret (match r with
          | Ok (ln, port) => Ok (port, DLn ln)
          | Err x => Err x | Panic m => Panic m | OutOfFuel => OutOfFuel
          end).

Definition reserveDecoyAny (e : cenv) : F (result (Z * decoy)) :=
  up ← gets upPool;
  down ← gets downPool;
  if negb (Single (p_r up)) || negb (Single (p_r down)) then reserveDecoy e
  else
    r ← ensureShared e true;
    match r with
    | Ok _ =>
        r ← ensureShared e false;
        match r with
        | Ok downPort =>
            ch ← new_dchan;
            _ ← modify (arm true ch);
            _ ← modify (arm false ch);
            mret (Ok (downPort, DChan ch true))
        | Err x => mret (Err x) | Panic m => mret (Panic m) | OutOfFuel => mret OutOfFuel
        end
    | Err x => mret (Err x) | Panic m => mret (Panic m) | OutOfFuel => mret OutOfFuel
    end.

(** The deferred calls of the closure [wait], and the closure [cancel]. *)
Definition disarm (d : decoy) (w : Facade) : Facade :=
  match d with
  | DChan ch both => clearDecoy false ch (if both then clearDecoy true ch w else w)
  | DLn ln => close_ln ln w
  end.

Definition cancel_decoy (d : decoy) (w : Facade) : Facade :=
  let w := disarm d w in
  match d with
  | DChan ch _ =>
      match dchans w !! ch with
      | Some (Some c) => set_dchans (<[ch := None]> (dchans w)) (close_data c w)
      | _ => w
      end
  | DLn _ => w
  end.

(** ** The FTP session *)

Section Session.
Context (g : Globals).
(** The decoy files by name; [tls] says whether the server has a TLS configuration. *)
Context (tls : bool).

Definition decoyFiles : list (string * list byte) :=
  [("index.html", bytes_of ("<!DOCTYPE html><html><body><h1>Welcome</h1></body></html>" +:+
                            String "010" ""));
   ("style.css", bytes_of ("body{font-family:sans-serif;margin:2rem}" +:+ String "010" ""));
   ("app.js", bytes_of ("console.log('ok');" +:+ String "010" ""));
   ("favicon.ico", [x00; x00; x01; x00]%byte);
   ("robots.txt", bytes_of ("User-agent: *" +:+ String "010" "" +:+ "Disallow:" +:+ String "010" ""));
   ("manifest.json",
     bytes_of ("{" +:+ String "034" "name" +:+ String "034" ":" +:+ String "034" "site" +:+
               String "034" "," +:+ String "034" "short_name" +:+ String "034" ":" +:+
               String "034" "site" +:+ String "034" "}" +:+ String "010" ""))]%string.

Definition decoy_file (name : string) : option (list byte) :=
  snd <$> (snd <$> list_find (fun f => f.1 = name) decoyFiles).

Definition banners : list string :=
  ["(vsFTPd 3.0.5)"; "ProFTPD 1.3.8 Server (FTP Server) [%s]"; "FileZilla Server 1.8.2";
   "Microsoft FTP Service"].

(** sendf, for the message the format makes. *)
Definition sendf (code : Z) (msg : string) (s : ftpSess) : ftpSess :=
  set_io (s_in s) (s_out s +:+ reply_line code msg +:+ crlf) s.

Fixpoint multi_lines (code : Z) (lines : list string) : string :=
  match lines with
  | [] => EmptyString
  | [l] => Itoa code +:+ " " +:+ l +:+ crlf
  | l :: ls => Itoa code +:+ "-" +:+ l +:+ crlf +:+ multi_lines code ls
  end.
Definition sendMulti (code : Z) (lines : list string) (s : ftpSess) : ftpSess :=
  set_io (s_in s) (s_out s +:+ multi_lines code lines) s.

Definition newFTPSess (addr : string) : ftpSess :=
  MkSess [] "" false false None false false "/" addr Idle.

(** The host of the local address; SplitHostPort returns "" with an error. *)
Definition local_host (s : ftpSess) : string :=
  match SplitHostPort (localAddr s) with Ok (h, _) => h | _ => ""%string end.

Definition pasvIP (s : ftpSess) : string :=
  let ip := cfgPasvIP g in
  let ip := if String.eqb ip "" then local_host s else ip in
  let ip := if String.eqb ip "" || String.eqb ip "::" || String.eqb ip "0.0.0.0"
            then "127.0.0.1"%string else ip in
  if HasPrefix ip "::ffff:" then TrimPrefix ip "::ffff:" else ip.

Definition send227 (port : Z) (s : ftpSess) : ftpSess :=
  let ipStr := ReplaceAllByte (pasvIP s) "." "," in
  sendf 227 ("Entering Passive Mode (" +:+ ipStr +:+ "," +:+ Itoa (Z.quot port 256) +:+ "," +:+
             Itoa (Z.rem port 256) +:+ ").") s.

(** The field [pasvLn] is never set, so that clearPasv has only the decoy to cancel. *)
Definition clearPasv (s : ftpSess) : F ftpSess :=
  match pending s with
  | Some d => _ ← modify (cancel_decoy d); mret (set_pending None s)
  | None => mret s
  end.

Definition handlePASV (e : cenv) (s : ftpSess) : F ftpSess :=
  s ← clearPasv s;
  let dir := Trim (cwd s) "/" in
  let tunnel up :=
    r ← advertise e up;
    mret (match r with
          | Ok port => send227 port s
          | _ => sendf 425 "Cannot open data connection." s
          end) in
  if String.eqb dir PathUpload then tunnel true
  else if String.eqb dir PathDownload then tunnel false
  else
    r ← reserveDecoyAny e;
    mret (match r with
          | Ok (port, d) => send227 port (set_pending (Some d) s)
          | _ => sendf 425 "Cannot open data connection." s
          end).

(** openData up to its wait: the transfer goes on once there is a data connection. *)
Definition openData (t : transfer) (s : ftpSess) : ftpSess :=
  match pending s with
  | Some d => set_phase (Waiting d t) (set_pending None s)
  | None => sendf 425 "Use PASV first." s
  end.

(** The deferred calls of [serve]. *)
Definition end_session (s : ftpSess) : F ftpSess :=
  s ← clearPasv s; mret (set_phase Closed s).

Definition file_size (name : string) : Z := len (default [] (decoy_file name)).

(** The lines that LIST and NLST write for a file. *)
Definition list_line (cmd name : string) : string :=
  if String.eqb cmd "LIST"
  then "-rw-r--r-- 1 ftp ftp " +:+ Itoa (file_size name) +:+ " Jan 1 00:00 " +:+ name +:+ crlf
  else name +:+ crlf.

(** The command and the argument of a line. *)
Definition parse_line (line : string) : string * string :=
  let line := TrimRight line crlf in
  let parts := SplitN2 line " " in
  (ToUpper (default line (head parts)), default ""%string (parts !! 1%nat)).

(** One command of the loop of [serve]. *)
Definition command (e : cenv) (line : string) (s : ftpSess) : F ftpSess :=
  let '(cmd, arg) := parse_line line in
  if String.eqb cmd "AUTH" then
    if String.eqb (ToUpper arg) "TLS" && tls then
      let s := sendf 234 "AUTH TLS OK." s in
      if e_ctrl_tls e then mret (set_prot true (dataProtP s) (set_io [] (s_out s) s))
      else end_session s
    else mret (sendf 502 "Unsupported AUTH type." s)
  else if String.eqb cmd "PBSZ" then mret (sendf 200 "PBSZ=0" s)
  else if String.eqb cmd "PROT" then
    if String.eqb (ToUpper arg) "P"
    then mret (sendf 200 "Protection level set to P." (set_prot (tlsUpgrade s) true s))
    else mret (sendf 200 "Protection level set to C." (set_prot (tlsUpgrade s) false s))
  else if String.eqb cmd "USER" then
    if String.eqb arg (cfgUser g)
    then mret (sendf 331 "Please specify the password." (set_auth (authed s) true s))
    else mret (sendf 530 "Login incorrect." s)
  else if String.eqb cmd "PASS" then
    if userOK s && String.eqb arg (cfgPass g)
    then mret (sendf 230 "Login successful." (set_auth true (userOK s) s))
    else mret (sendf 530 "Login incorrect." s)
  else if String.eqb cmd "SYST" then mret (sendf 215 "UNIX Type: L8" s)
  else if String.eqb cmd "FEAT" then
    mret (sendMulti 211 ["Features:"; " EPRT"; " EPSV"; " MDTM"; " PASV"; " REST STREAM";
                         " SIZE"; " TVFS"; " UTF8"; "End"] s)
  else if String.eqb cmd "OPTS" then mret (sendf 200 "Always in UTF8 mode." s)
  else if String.eqb cmd "PWD" then
    mret (sendf 257 (String "034" "/" +:+ Trim (cwd s) "/" +:+
                     String "034" " is the current directory.") s)
  else if String.eqb cmd "CWD" then
    let path := Trim arg "/" in
    let s := set_cwd (if String.eqb path "" then "/" else "/" +:+ path)%string s in
    mret (sendf 250 "Directory successfully changed." s)
  else if String.eqb cmd "CDUP" then
    mret (sendf 250 "Directory successfully changed." (set_cwd "/" s))
  else if String.eqb cmd "MKD" then
    mret (sendf 257 (String "034" "/" +:+ arg +:+ String "034" " created.") s)
  else if String.eqb cmd "SIZE" then
    match decoy_file arg with
    | Some data => mret (sendf 213 (Itoa (len data)) s)
    | None => mret (sendf 213 (Itoa (e_size e + 1000)) s)
    end
  else if String.eqb cmd "MDTM" then mret (sendf 213 (e_stamp e) s)
  else if String.eqb cmd "NOOP" then mret (sendf 200 "NOOP ok." s)
  else if String.eqb cmd "TYPE" then mret (sendf 200 "Switching to Binary mode." s)
  else if String.eqb cmd "REST" then
    mret (sendf 350 ("Restart position accepted (" +:+ arg +:+ ").") s)
  else if String.eqb cmd "PASV" then
    if authed s then handlePASV e s
    else mret (sendf 530 "Please login with USER and PASS." s)
  else if String.eqb cmd "STOR" then mret (sendf 250 "Transfer complete." s)
  else if String.eqb cmd "NLST" || String.eqb cmd "LIST" then
    if authed s then mret (openData (TList cmd) s)
    else mret (sendf 530 "Please login with USER and PASS." s)
  else if String.eqb cmd "RETR" then
    if authed s then
      match decoy_file (TrimPrefix arg "/") with
      | Some data => mret (openData (TRetr arg data) s)
      | None => mret (sendf 550 "Failed to open file." s)
      end
    else mret (sendf 530 "Please login with USER and PASS." s)
  else if String.eqb cmd "DELE" then mret (sendf 250 "Delete operation successful." s)
  else if String.eqb cmd "QUIT" then end_session (sendf 221 "Goodbye." s)
  else mret (sendf 502 "Unknown command." s).

(** The rest of a transfer, with what the wait of [openData] returned. *)
Definition write_data (c : nat) (t : string) (w : Facade) : Facade :=
  set_dconns (alter (fun d => MkData (d_open d) (d_tls d) (d_out d +:+ t)) c (dconns w)) w.
Definition tls_data (c : nat) (w : Facade) : Facade :=
  set_dconns (alter (fun d => MkData (d_open d) true (d_out d)) c (dconns w)) w.

Definition run_transfer (e : cenv) (t : transfer) (dc : option nat) (s : ftpSess) : F ftpSess :=
  match dc with
  | None => mret (sendf 425 "Use PASV first." s)
  | Some c =>
      if dataProtP s && tls && negb (e_data_tls e) then
        _ ← modify (close_data c); mret (sendf 425 "Use PASV first." s)
      else
        _ ← (if dataProtP s && tls then modify (tls_data c) else mret tt);
        match t with
        | TList cmd =>
            let s := sendf 150 "Here comes the directory listing." s in
            _ ← modify (write_data c (String.concat "" (map (list_line cmd) (e_files e))));
            _ ← modify (close_data c);
            mret (sendf 226 "Directory send OK." s)
        | TRetr arg data =>
            let s := sendf 150 ("Opening BINARY mode data connection for " +:+ arg +:+ " (" +:+
                                Itoa (len data) +:+ " bytes).") s in
            _ ← modify (write_data c (string_of data));
            _ ← modify (close_data c);
            mret (sendf 226 "Transfer complete." s)
        end
  end.

(** ** Events *)

Inductive event : Type :=
  (** a control connection, with its local address and the banner that is picked *)
  | EvConn (addr : string) (b : nat)
  (** bytes that reach the reader of a session *)
  | EvRecv (sid : nat) (b : list byte)
  (** a turn of the command loop: ReadString, then the command *)
  | EvLine (sid : nat) (e : cenv)
  (** the control connection ends *)
  | EvHup (sid : nat)
  (** the wait of a transfer ends: [ok] for a connection, or a timeout *)
  | EvWait (sid : nat) (e : cenv) (ok : bool)
  (** a shared listener of the pool accepts a connection *)
  | EvAccept (up : bool)
  (** the listener of a PASV outside the shared ports accepts, or gives up *)
  | EvAdvertised (ln : nat) (ok : bool).

Definition put_sess (sid : nat) (s : ftpSess) (w : Facade) : Facade :=
  set_sess (<[sid := s]> (sess w)) w.

Definition fresh_data : F nat := fun w =>
  let n := fresh_id (dconns w) in (n, set_dconns (<[n := MkData true false ""]> (dconns w)) w).

Definition banner (b : nat) (s : ftpSess) : string :=
  match b with
  | 1%nat => Sprintf0 ("ProFTPD 1.3.8 Server (FTP Server) [" +:+ local_host s +:+ "]")
  | _ => default ""%string (banners !! b)
  end.

(** The connection that the wait of a decoy returns. *)
Definition wait_decoy (d : decoy) (ok : bool) : F (option nat) :=
  match d with
  | DChan ch both =>
      oc ← gets (fun w => dchans w !! ch);
      _ ← modify (disarm d);
      match oc with
      | Some (Some c) =>
          if ok then _ ← modify (fun w => set_dchans (<[ch := None]> (dchans w)) w); mret (Some c)
          else mret None
      | _ => mret None
      end
  | DLn ln =>
      oc ← (if ok then c ← fresh_data; mret (Some c) else mret None);
      _ ← modify (close_ln ln);
      mret oc
  end.

(** A step of the façade; it says which line a session has read. *)
Definition fstep (ev : event) : F (option (nat * string)) := fun w =>
  match ev with
  | EvConn addr b =>
      let sid := fresh_id (sess w) in
      let s := newFTPSess addr in
      (None, put_sess sid (sendf 220 (banner b s) s) w)
  | EvRecv sid b =>
      match sess w !! sid with
      | Some s => (None, put_sess sid (set_io (s_in s ++ b) (s_out s) s) w)
      | None => (None, w)
      end
  | EvLine sid e =>
      match sess w !! sid with
      | Some s =>
          match s_phase s, cut_nl (s_in s) with
          | Idle, Some (l, r) =>
              let line := string_of l +:+ String "010" "" in
              let '(s, w) := command e line (set_io r (s_out s) s) w in
              (Some (sid, line), put_sess sid s w)
          | _, _ => (None, w)
          end
      | None => (None, w)
      end
  | EvHup sid =>
      match sess w !! sid with
      | Some s =>
          match s_phase s with
          | Idle => let '(s, w) := end_session s w in (None, put_sess sid s w)
          | _ => (None, w)
          end
      | None => (None, w)
      end
  | EvWait sid e ok =>
      match sess w !! sid with
      | Some s =>
          match s_phase s with
          | Waiting d t =>
              let '(dc, w) := wait_decoy d ok w in
              let '(s, w) := run_transfer e t dc (set_phase Idle s) w in
              (None, put_sess sid s w)
          | _ => (None, w)
          end
      | None => (None, w)
      end
  | EvAccept up =>
      match p_shared (the_pool up w) with
      | Some _ => let '(c, w) := fresh_data w in (None, accept_shared up c w)
      | None => (None, w)
      end
  | EvAdvertised ln ok =>
      match lns w !! ln with
      | Some (MkLn true _ LAdvertised) =>
          let '(oc, w) := (if ok then c ← fresh_data; mret (Some c) else mret None) w in
          (None, accept_advertised ln oc w)
      | _ => (None, w)
      end
  end.

(** The lines that the sessions read along a run, and its last state. *)
Fixpoint frun (evs : list event) (w : Facade) : list (nat * string) * Facade :=
  match evs with
  | [] => ([], w)
  | ev :: evs =>
      let '(o, w) := fstep ev w in
      let '(ls, w) := frun evs w in
      (match o with Some l => l :: ls | None => ls end, w)
  end.

End Session.

(** ** Run *)

Definition init_facade (u d : PortRange) : Facade :=
  MkFacade (newDataPool u) (newDataPool d) ∅ ∅ ∅ [] ∅.

(** Run, until it accepts control connections: the package variables and the façade.
    [load_cert] is tls.LoadX509KeyPair. *)
Definition Run (c : Config) (g0 : Globals) (load_cert : string -> string -> option goerr)
    (e : cenv) : result (Globals * Facade) :=
  let g := applyConfig c g0 in
  match ParsePortRange (cfgUploadPorts g), ParsePortRange (cfgDownloadPorts g) with
  | Ok u, Ok d =>
      match (if cfgTLS g then load_cert (cfgCert g) (cfgCertKey g) else None) with
      | Some _ => Err (Errorf "TLS certs: %w")
      | None =>
          let shared up r w :=
            if Single r then ensureShared e up w else (Ok 0, w) in
          match shared true u (init_facade u d) with
          | (Ok _, w) =>
              match shared false d w with
              | (Ok _, w) =>
                  match e_listen e (cfgFTPAddr g) with
                  | None => Ok (g, w)
                  | Some _ => Err (Errorf "listen: %w")
                  end
              | _ => Err (Errorf "download listen: %w")
              end
          | _ => Err (Errorf "upload listen: %w")
          end
      end
  | Ok _, _ => Err (Errorf "download-ports: %w")
  | _, _ => Err (Errorf "upload-ports: %w")
  end.
