(* ===== verification/FtpControlThms.v ===== *)
(** Theorems about the FTP façade (FtpControl.v) and its client connection (FtpConn.v). *)

From S2P Require Import Prelude GoLib GoText FtpProtocol FtpChannel FtpConn FtpControl.
From Stdlib Require Import ZArith Lia Strings.Byte Strings.Ascii Strings.String.
From stdpp Require Import gmap strings list fin_maps pretty.

#[local] Open Scope Z_scope.

(** ** The invariant *)

(** A session holds a decoy: it is pending, or a transfer waits for it. *)
Definition holds (s : ftpSess) (d : decoy) : Prop :=
  pending s = Some d \/ exists t, s_phase s = Waiting d t.

Definition holds_none (s : ftpSess) : Prop := forall d, ~ holds s d.

(** A session holds at most one decoy, and none before it has logged in. *)
Definition sess_ok (s : ftpSess) : Prop :=
  ((forall d t, s_phase s <> Waiting d t) \/ pending s = None) /\
  (authed s = false -> holds_none s).

(** The state of the façade, for the sessions [sm]. *)
Record finv (sm : gmap nat ftpSess) (w : Facade) : Prop := {
  f_pend up ch : p_pend (the_pool up w) = Some ch ->
    exists sid s both, sm !! sid = Some s /\ holds s (DChan ch both) /\ (up = true -> both = true);
  f_chan sid s ch both : sm !! sid = Some s -> holds s (DChan ch both) -> is_Some (dchans w !! ch);
  f_uniq i1 i2 s1 s2 ch b1 b2 : sm !! i1 = Some s1 -> sm !! i2 = Some s2 ->
    holds s1 (DChan ch b1) -> holds s2 (DChan ch b2) -> i1 = i2;
  f_sess sid s : sm !! sid = Some s -> sess_ok s;
  f_ln n l : lns w !! n = Some l -> l_open l = true -> l_for l = LDecoy ->
    exists sid s, sm !! sid = Some s /\ holds s (DLn n);
  f_dln sid s n : sm !! sid = Some s -> holds s (DLn n) ->
    exists l, lns w !! n = Some l /\ l_for l = LDecoy;
  f_shared up n port : p_shared (the_pool up w) = Some (n, port) ->
    lns w !! n = Some (MkLn true port (LShared up)) /\
    Lo (p_r (the_pool up w)) <= port <= Hi (p_r (the_pool up w));
  f_range up : range_ok (p_r (the_pool up w))
}.

Lemma holds_fun s d1 d2 : sess_ok s -> holds s d1 -> holds s d2 -> d1 = d2.
Proof.
  intros [[H|H] _] [H1|[t1 H1]] [H2|[t2 H2]]; try congruence; try (by edestruct H); done.
Qed.

(** Two sessions that hold the same. *)
Definition same_hold (s s' : ftpSess) : Prop := forall d, holds s' d <-> holds s d.

Lemma finv_same sm w sid s s' :
  finv sm w -> sm !! sid = Some s -> same_hold s s' -> sess_ok s' ->
  finv (<[sid := s']> sm) w.
Proof.
  intros [P C U S L D Sh R] Hs Hh Hok.
  assert (forall i x, <[sid := s']> sm !! i = Some x ->
    exists y, sm !! i = Some y /\ forall d, holds x d <-> holds y d) as Old.
  { intros i x. destruct (decide (i = sid)) as [->|]; [rewrite lookup_insert_eq|
      rewrite lookup_insert_ne by done]; intros; simplify_eq; eexists; by split. }
  assert (forall i y, sm !! i = Some y ->
    exists x, <[sid := s']> sm !! i = Some x /\ forall d, holds x d <-> holds y d) as New.
  { intros i y Hy. destruct (decide (i = sid)) as [->|].
    - exists s'. rewrite lookup_insert_eq. simplify_eq. by split.
    - exists y. by rewrite lookup_insert_ne by done. }
  split; try done.
  - intros up ch Hp. destruct (P up ch Hp) as (i & y & b & Hy & Hd & Hb).
    destruct (New i y Hy) as (x & Hx & E). exists i, x, b. by rewrite E.
  - intros i x ch b Hx Hd. destruct (Old i x Hx) as (y & Hy & E). apply E in Hd. eauto.
  - intros i1 i2 x1 x2 ch b1 b2 H1 H2 Hd1 Hd2.
    destruct (Old _ _ H1) as (y1 & Hy1 & E1), (Old _ _ H2) as (y2 & Hy2 & E2).
    apply E1 in Hd1. apply E2 in Hd2. eauto.
  - intros i x. destruct (decide (i = sid)) as [->|]; [rewrite lookup_insert_eq|
      rewrite lookup_insert_ne by done]; intros; simplify_eq; eauto.
  - intros n l H1 H2 H3. destruct (L n l H1 H2 H3) as (i & y & Hy & Hd).
    destruct (New i y Hy) as (x & Hx & E). exists i, x. by rewrite E.
  - intros i x n Hx Hd. destruct (Old i x Hx) as (y & Hy & E). apply E in Hd. eauto.
Qed.

(** The listener of a pool's shared port, as it should be. *)
Definition shared_ln (w : Facade) (up : bool) (n : nat) (port : Z) : Prop :=
  lns w !! n = Some (MkLn true port (LShared up)) /\
  Lo (p_r (the_pool up w)) <= port <= Hi (p_r (the_pool up w)).

(** [w'] is no more than [w] for the invariant: its pools are those of [w] but for decoys
    that are gone and shared listeners that are new, its channels those of [w], and its open
    decoy listeners among those of [w]. *)
Record less (w w' : Facade) : Prop := {
  l_pend up : p_pend (the_pool up w') = p_pend (the_pool up w) \/ p_pend (the_pool up w') = None;
  l_range up : p_r (the_pool up w') = p_r (the_pool up w);
  l_shared up n port : p_shared (the_pool up w') = Some (n, port) ->
    p_shared (the_pool up w) = Some (n, port) \/ shared_ln w' up n port;
  l_dom ch : is_Some (dchans w !! ch) -> is_Some (dchans w' !! ch);
  l_lns n l : lns w' !! n = Some l -> l_open l = true -> l_for l = LDecoy -> lns w !! n = Some l;
  l_old n l : lns w !! n = Some l -> exists l', lns w' !! n = Some l' /\ l_for l' = l_for l /\
   (l_for l <> LDecoy -> l_for l <> LAdvertised -> l' = l);
  l_sess : sess w' = sess w
}.

Lemma less_refl w : less w w.
Proof. split; eauto 8. Qed.

Lemma less_trans w1 w2 w3 : less w1 w2 -> less w2 w3 -> less w1 w3.
Proof.
  intros [P1 Q1 R1 D1 L1 O1 S1] [P2 Q2 R2 D2 L2 O2 S2]. split; eauto.
  - intros up. destruct (P1 up), (P2 up); intuition congruence.
  - intros up. by rewrite Q2, Q1.
  - intros up n port H. destruct (R2 _ _ _ H) as [H2|H2]; [|by right].
    destruct (R1 _ _ _ H2) as [H1|[H1 B]]; [by left|right].
    destruct (O2 _ _ H1) as (l & Hl & _ & E). rewrite E in Hl by done.
    split; [done|]. by rewrite Q2.
  - intros n l H. destruct (O1 n l H) as (l1 & H1 & E1 & F1).
    destruct (O2 n l1 H1) as (l2 & H2 & E2 & F2). exists l2. split_and!; [done|congruence|].
    intros A B. specialize (F1 A B). subst l1. auto.
  - congruence.
Qed.

Lemma finv_less sm w w' : finv sm w -> less w w' -> finv sm w'.
Proof.
  intros [P C U S L D Sh R] [lp lq ls ld ll lo _]. split; try done.
  - intros up ch Hp. destruct (lp up) as [E|E]; rewrite E in Hp; [eauto|done].
  - eauto.
  - intros n l H1 H2 H3. apply (L n l); auto.
  - intros sid s n H1 H2. destruct (D sid s n H1 H2) as (l & Hl & E).
    destruct (lo n l Hl) as (l' & Hl' & E' & _). exists l'. split; congruence.
  - intros up n port H. destruct (ls _ _ _ H) as [H'|H']; [|done].
    destruct (Sh _ _ _ H') as [H1 H2]. rewrite lq.
    destruct (lo n _ H1) as (l' & Hl' & _ & F). rewrite F in Hl' by done. done.
  - intros up. rewrite lq. apply R.
Qed.

(** *** Operations that are no more *)

Lemma less_close_ln n l w :
  lns w !! n = Some l -> l_for l = LDecoy \/ l_for l = LAdvertised -> less w (close_ln n w).
Proof.
  intros Hn Hf. split; simpl; auto.
  - intros m x. destruct (decide (m = n)) as [->|]; [rewrite lookup_alter_eq, Hn|
      by rewrite lookup_alter_ne]. simpl. intros; simplify_eq/=.
  - intros m x H. destruct (decide (m = n)) as [->|]; [rewrite lookup_alter_eq, H|
      rewrite lookup_alter_ne by done; eauto]. simpl. eexists. split; [done|]. simplify_eq/=.
    split; [done|]. destruct Hf as [-> | ->]; done.
Qed.

Lemma less_dconns x w : less w (set_dconns x w).
Proof. split; simpl; eauto 8; by intros []. Qed.
Lemma less_handed x w : less w (set_handed x w).
Proof. split; simpl; eauto 8; by intros []. Qed.
Lemma less_dchans ch x w : less w (set_dchans (<[ch := x]> (dchans w)) w).
Proof.
  split; simpl; eauto 8; try by intros [].
  intros c [y Hy]. destruct (decide (c = ch)) as [->|]; [by rewrite lookup_insert_eq|].
  rewrite lookup_insert_ne by done. eauto.
Qed.
Lemma less_clearDecoy up ch w : less w (clearDecoy up ch w).
Proof.
  unfold clearDecoy. case_decide; [|apply less_refl].
  destruct up; split; simpl; eauto 8; intros [] *; simpl; eauto.
Qed.
Lemma less_accept_shared up c w : less w (accept_shared up c w).
Proof.
  unfold accept_shared. repeat case_match; first [apply less_dchans|apply less_handed].
Qed.

(** A new listener that is not a decoy's. *)
Lemma less_new_ln n l w :
  lns w !! n = None -> l_for l <> LDecoy -> less w (set_lns (<[n := l]> (lns w)) w).
Proof.
  intros Hn Hf. split; simpl; auto.
  - intros m x. destruct (decide (m = n)) as [->|]; [rewrite lookup_insert_eq|
      by rewrite lookup_insert_ne]. intros; simplify_eq.
  - intros m x H. assert (m <> n) by congruence. rewrite lookup_insert_ne by done. eauto.
Qed.

(** ListenInRange of the façade: the port is in the range; the listener is new. *)
Lemma listen_in_range_cases e r u w :
  range_ok r ->
  (exists port, Lo r <= port <= Hi r /\
    listen_in_range e r u w =
      (Ok (fresh_id (lns w), port),
       set_lns (<[fresh_id (lns w) := MkLn true port u]> (lns w)) w)) \/
  (exists x, listen_in_range e r u w = (Err x, w) /\ exists a, e_listen e a <> None).
Proof.
  intros Hr. unfold listen_in_range.
  set (Lf := fun a => match e_listen e a with None => Ok tt | Some x => Err x end).
  pose proof (ListenInRange_spec Lf (Z.of_N (e_now e)) r Hr ltac:(lia)) as H.
  assert (forall p, match Lf (listen_addr p) with Panic _ | OutOfFuel => False | _ => True end)
    as HL by (intros p; unfold Lf; by destruct (e_listen e _)).
  specialize (H HL). destruct (ListenInRange Lf _ r) as [[[] p]|x|?|]; try done.
  - left. exists p. destruct H. eauto.
  - right. exists x. split; [done|]. exists (listen_addr (Lo r)).
    destruct (H (Lo r)) as [x' Hx]; [destruct Hr; lia|]. unfold Lf in Hx. by destruct (e_listen e _).
Qed.

(** What ensureShared and advertise do to the façade, for an operation with this result: the
    port belongs to an open listener, and it fails only if a port is taken. *)
Definition gives_port (e : cenv) (w w' : Facade) (r : result Z) (fors : purpose -> Prop) : Prop :=
  less w w' /\
  match r with
  | Ok port => (exists n u, lns w' !! n = Some (MkLn true port u) /\ fors u) /\ 1 <= port <= 65535
  | Err _ => exists a, e_listen e a <> None
  | _ => False
  end.

Lemma less_put_shared n port up w :
  lns w !! n = Some (MkLn true port (LShared up)) ->
  Lo (p_r (the_pool up w)) <= port <= Hi (p_r (the_pool up w)) ->
  less w (put_pool up (MkPool (p_r (the_pool up w)) (Some (n, port)) (p_pend (the_pool up w))) w).
Proof.
  intros Hn Hp. split; destruct up; simpl; eauto 8; intros [] *; simpl; eauto;
    intros; simplify_eq; right; by split.
Qed.

Lemma port_bounds r port : range_ok r -> Lo r <= port <= Hi r -> 1 <= port <= 65535.
Proof. unfold range_ok. lia. Qed.

Lemma ensureShared_less e up sm w :
  finv sm w ->
  let '(r, w') := ensureShared e up w in
  gives_port e w w' r (eq (LShared up)) /\
  (is_Some (p_shared (the_pool up w)) -> w' = w).
Proof.
  intros I. unfold ensureShared. st_run.
  destruct (p_shared (the_pool up w)) as [[n port]|] eqn:E.
  - split; [|done]. split; [apply less_refl|]. destruct (f_shared _ _ I _ _ _ E) as [H1 H2].
    split; [eauto|]. eapply port_bounds; [apply (f_range _ _ I up)|done].
  - destruct (listen_in_range_cases e (p_r (the_pool up w)) (LShared up) w (f_range _ _ I up))
      as [(port & Hp & ->)|(x & -> & Hx)].
    + set (n := fresh_id (lns w)). set (w1 := set_lns _ w).
      assert (lns w1 !! n = Some (MkLn true port (LShared up))) as Hn
        by (simpl; by rewrite lookup_insert_eq).
      assert (the_pool up w1 = the_pool up w) as Ep by (by destruct up).
      assert (less w w1) as L1 by (apply less_new_ln; [apply fresh_id_None|done]).
      split; [|by intros []]. split.
      * eapply less_trans; [exact L1|]. rewrite <- Ep. apply less_put_shared; [done|].
        by rewrite Ep.
      * split; [|eapply port_bounds; [apply (f_range _ _ I up)|done]].
        exists n, (LShared up). split; [|done]. by destruct up.
    + split; [|by intros []]. split; [apply less_refl|done].
Qed.

Lemma advertise_less e up sm w :
  finv sm w ->
  let '(r, w') := advertise e up w in
  gives_port e w w' r (fun u => u <> LDecoy).
Proof.
  intros I. unfold advertise. st_run. destruct (Single _).
  - pose proof (ensureShared_less e up sm w I) as H. destruct (ensureShared e up w) as [r w'].
    destruct H as [[H1 H2] _]. split; [done|]. destruct r; try done.
    destruct H2 as [(n & u & Hn & <-) Hb]. split; [eauto|done].
  - destruct (listen_in_range_cases e (p_r (the_pool up w)) LAdvertised w (f_range _ _ I up))
      as [(port & Hp & ->)|(x & -> & Hx)]; simpl.
    + split; [apply less_new_ln; [apply fresh_id_None|done]|].
      split; [|eapply port_bounds; [apply (f_range _ _ I up)|done]].
      exists (fresh_id (lns w)), LAdvertised. split; [|done]. simpl. by rewrite lookup_insert_eq.
    + split; [apply less_refl|done].
Qed.

(** *** Letting a decoy go, and taking one *)

Lemma finv_drop sm w sid s s' d :
  finv sm w -> sm !! sid = Some s -> holds s d -> holds_none s' -> sess_ok s' ->
  finv (<[sid := s']> sm) (disarm d w).
Proof.
  intros I Hs Hd Hn Hok. pose proof I as [P C U S L D Sh R].
  assert (forall d', holds s d' -> d' = d) as One.
  { intros d' Hd'. apply (holds_fun s); [by eapply S|done..]. }
  assert (less w (disarm d w)) as Lw.
  { destruct d as [ch []|n]; cbn [disarm].
    - eapply less_trans; apply less_clearDecoy.
    - apply less_clearDecoy.
    - destruct (D _ _ _ Hs Hd) as (l & Hl & El). eapply less_close_ln; eauto. }
  assert (forall i x, <[sid := s']> sm !! i = Some x -> forall d', holds x d' ->
    i <> sid /\ sm !! i = Some x) as Old.
  { intros i x Hx d' Hd'. destruct (decide (i = sid)) as [->|Hne].
    - rewrite lookup_insert_eq in Hx. simplify_eq. by destruct (Hn d').
    - by rewrite lookup_insert_ne in Hx. }
  apply (finv_less _ _ (disarm d w)) in I; [|done]. destruct I as [P' C' _ _ L' D' Sh' R'].
  split; try done.
  - intros up ch Hp. destruct (P' up ch Hp) as (i & y & b & Hy & Hh & Hb).
    exists i, y, b. rewrite lookup_insert_ne; [done|]. intros <-. simplify_eq.
    rewrite <- (One _ Hh) in Hp. cbn [disarm] in Hp. revert Hp. unfold clearDecoy.
    destruct up; [rewrite (Hb eq_refl)|destruct b]; repeat case_decide; simpl in *; congruence.
  - intros i x ch b Hx Hh. destruct (Old i x Hx _ Hh). eauto.
  - intros i1 i2 s1 s2 ch b1 b2 H1 H2 Hh1 Hh2.
    destruct (Old _ _ H1 _ Hh1), (Old _ _ H2 _ Hh2). eauto.
  - intros i x. destruct (decide (i = sid)) as [->|]; [rewrite lookup_insert_eq|
      rewrite lookup_insert_ne by done]; intros; simplify_eq; eauto.
  - intros n l H1 H2 H3. destruct (L' n l H1 H2 H3) as (i & y & Hy & Hh).
    exists i, y. rewrite lookup_insert_ne; [done|]. intros <-. simplify_eq.
    rewrite <- (One _ Hh) in H1. cbn [disarm close_ln] in H1. simpl in H1.
    rewrite lookup_alter_eq in H1. destruct (lns w !! n); simplify_eq/=.
  - intros i x n Hx Hh. destruct (Old i x Hx _ Hh). eauto.
Qed.

Lemma less_cancel d w : less (disarm d w) (cancel_decoy d w).
Proof.
  unfold cancel_decoy. destruct d; [|apply less_refl].
  repeat case_match; try apply less_refl.
  eapply less_trans; [apply less_dconns|]. apply (less_dchans _ _ (close_data _ _)).
Qed.

Lemma sess_disarm d w : sess (disarm d w) = sess w.
Proof. destruct d as [ch []|]; simpl; unfold clearDecoy, put_pool; repeat case_match; done. Qed.
Lemma sess_cancel d w : sess (cancel_decoy d w) = sess w.
Proof.
  rewrite <- (sess_disarm d w). unfold cancel_decoy. destruct d; [|done]. by repeat case_match.
Qed.

Lemma set_pending_none_holds s :
  (forall d t, s_phase s <> Waiting d t) -> holds_none (set_pending None s).
Proof. intros H d [H'|[t H']]; [done|]. by apply H in H'. Qed.

(** clearPasv: the session holds nothing afterwards. *)
Lemma clearPasv_inv sm w sid s :
  finv sm w -> sm !! sid = Some s -> s_phase s = Idle ->
  let '(s', w') := clearPasv s w in
  finv (<[sid := s']> sm) w' /\ sess w' = sess w /\ s' = set_pending None s /\ holds_none s'.
Proof.
  intros I Hs Hph. unfold clearPasv.
  assert (holds_none (set_pending None s)) as Hn by (apply set_pending_none_holds; congruence).
  assert (sess_ok (set_pending None s)) as Hok by (split; [by right|done]).
  destruct (pending s) as [d|] eqn:E; st_run.
  - assert (holds s d) as Hd by by left. split_and!; [|apply sess_cancel|done|done].
    eapply finv_less; [eapply finv_drop; eauto|]. apply less_cancel.
  - assert (s = set_pending None s) as Es by (unfold set_pending; rewrite <- E; by destruct s).
    rewrite <- Es. rewrite insert_id by done. by rewrite Es at 3.
Qed.

Definition holds_only (s : ftpSess) (d : decoy) : Prop := forall d', holds s d' <-> d' = d.

(** The entry [sid] of an updated session map, and the others. *)
Lemma insert_cases {A} (m : gmap nat A) i j x y :
  <[i := x]> m !! j = Some y -> j = i /\ y = x \/ j <> i /\ m !! j = Some y.
Proof.
  destruct (decide (j = i)) as [->|H]; [rewrite lookup_insert_eq|rewrite lookup_insert_ne by done];
    intros; simplify_eq; auto.
Qed.

Lemma pend_arm up up' ch w :
  p_pend (the_pool up' (arm up ch w)) =
    if Bool.eqb up up' then Some ch else p_pend (the_pool up' w).
Proof. by destruct up, up'. Qed.
Lemma shared_arm up up' ch w :
  p_shared (the_pool up' (arm up ch w)) = p_shared (the_pool up' w) /\
  p_r (the_pool up' (arm up ch w)) = p_r (the_pool up' w).
Proof. by destruct up, up'. Qed.
Lemma rest_arm up ch w :
  dchans (arm up ch w) = dchans w /\ lns (arm up ch w) = lns w /\ sess (arm up ch w) = sess w /\
  handed (arm up ch w) = handed w /\ dconns (arm up ch w) = dconns w.
Proof. by destruct up. Qed.

Definition arm_all (both : bool) (ch : nat) (w : Facade) : Facade :=
  arm false ch (if both then arm true ch w else w).

Lemma arm_all_facts both ch w :
  dchans (arm_all both ch w) = dchans w /\ lns (arm_all both ch w) = lns w /\
  sess (arm_all both ch w) = sess w /\
  forall up, p_shared (the_pool up (arm_all both ch w)) = p_shared (the_pool up w) /\
    p_r (the_pool up (arm_all both ch w)) = p_r (the_pool up w) /\
    p_pend (the_pool up (arm_all both ch w)) =
      if negb up || both then Some ch else p_pend (the_pool up w).
Proof. destruct both; (split_and!; [done..|]); by intros []. Qed.

Lemma finv_arm sm w sid s s' ch both :
  finv sm w -> sm !! sid = Some s -> holds_none s -> is_Some (dchans w !! ch) ->
  (forall i x b, sm !! i = Some x -> ~ holds x (DChan ch b)) ->
  holds_only s' (DChan ch both) -> sess_ok s' ->
  finv (<[sid := s']> sm) (arm_all both ch w).
Proof.
  intros [P C U S L D Sh R] Hs Hn Hch Hf Ho Hok.
  destruct (arm_all_facts both ch w) as (E1 & E2 & _ & E3).
  assert (holds s' (DChan ch both)) as Hs' by by apply Ho.
  split.
  - intros up c. destruct (E3 up) as (_ & _ & ->). intros Hp.
    destruct (negb up || both) eqn:Eb.
    + simplify_eq. exists sid, s', both. rewrite lookup_insert_eq. split_and!; [done..|].
      by intros ->.
    + destruct (P up c Hp) as (i & x & b & Hx & Hh & Hb). exists i, x, b.
      rewrite lookup_insert_ne; [done|]. intros <-. simplify_eq. by destruct (Hn (DChan c b)).
  - intros i x c b Hx Hh. rewrite E1. apply insert_cases in Hx as [[-> ->]|[_ Hx]]; [|eauto].
    apply Ho in Hh. by simplify_eq.
  - intros i1 i2 x1 x2 c b1 b2 H1 H2 Hh1 Hh2.
    apply insert_cases in H1 as [[-> ->]|[N1 H1]], H2 as [[-> ->]|[N2 H2]]; [done|..|eauto].
    + apply Ho in Hh1. simplify_eq. by destruct (Hf _ _ _ H2 Hh2).
    + apply Ho in Hh2. simplify_eq. by destruct (Hf _ _ _ H1 Hh1).
  - intros i x Hx. apply insert_cases in Hx as [[-> ->]|[_ Hx]]; eauto.
  - intros n l H1 H2 H3. rewrite E2 in H1. destruct (L n l H1 H2 H3) as (i & x & Hx & Hh).
    exists i, x. rewrite lookup_insert_ne; [done|]. intros <-. simplify_eq. by destruct (Hn (DLn n)).
  - intros i x n Hx Hh. rewrite E2. apply insert_cases in Hx as [[-> ->]|[_ Hx]]; [|eauto].
    apply Ho in Hh. done.
  - intros up n port. destruct (E3 up) as (-> & -> & _). rewrite E2. apply Sh.
  - intros up. destruct (E3 up) as (_ & -> & _). apply R.
Qed.

Lemma finv_take_ln sm w sid s s' n port :
  finv sm w -> sm !! sid = Some s -> holds_none s -> lns w !! n = None ->
  holds_only s' (DLn n) -> sess_ok s' ->
  finv (<[sid := s']> sm) (set_lns (<[n := MkLn true port LDecoy]> (lns w)) w).
Proof.
  intros [P C U S L D Sh R] Hs Hn Hf Ho Hok.
  split; simpl.
  - intros up c Hp. destruct (P up c) as (i & x & b & Hx & Hh & Hb); [by destruct up|].
    exists i, x, b. rewrite lookup_insert_ne; [done|]. intros <-. simplify_eq.
    by destruct (Hn (DChan c b)).
  - intros i x c b Hx Hh. apply insert_cases in Hx as [[-> ->]|[_ Hx]]; [|eauto].
    by apply Ho in Hh.
  - intros i1 i2 x1 x2 c b1 b2 H1 H2 Hh1 Hh2.
    apply insert_cases in H1 as [[-> ->]|[N1 H1]], H2 as [[-> ->]|[N2 H2]]; [done|..|eauto];
      first [by apply Ho in Hh1 | by apply Ho in Hh2].
  - intros i x Hx. apply insert_cases in Hx as [[-> ->]|[_ Hx]]; eauto.
  - intros m l H1 H2 H3. apply insert_cases in H1 as [[-> ->]|[N1 H1]].
    + exists sid, s'. rewrite lookup_insert_eq. split; [done|]. by apply Ho.
    + destruct (L m l H1 H2 H3) as (i & x & Hx & Hh). exists i, x.
      rewrite lookup_insert_ne; [done|]. intros <-. simplify_eq. by destruct (Hn (DLn m)).
  - intros i x m Hx Hh. apply insert_cases in Hx as [[-> ->]|[_ Hx]].
    + apply Ho in Hh. simplify_eq. rewrite lookup_insert_eq. eauto.
    + destruct (D _ _ _ Hx Hh) as (l & Hl & El). exists l. rewrite lookup_insert_ne; [done|congruence].
  - intros up m p Hp. destruct (Sh up m p) as [H1 H2]; [by destruct up|].
    split; [rewrite lookup_insert_ne; [done|congruence]|by destruct up].
  - intros up. specialize (R up). by destruct up.
Qed.

Definition takes (sid : nat) (sm : gmap nat ftpSess) (e : cenv) (w w' : Facade)
    (r : result (Z * decoy)) : Prop :=
  sess w' = sess w /\
  match r with
  | Ok (port, d) =>
      (forall s', holds_only s' d -> sess_ok s' -> finv (<[sid := s']> sm) w') /\
      (exists n u, lns w' !! n = Some (MkLn true port u)) /\ 1 <= port <= 65535
  | Err _ => finv sm w' /\ exists a, e_listen e a <> None
  | _ => False
  end.

(** A new channel, armed: the end of both reserve functions. *)
Lemma takes_arm both e sm sid s w0 w port :
  finv sm w -> sm !! sid = Some s -> holds_none s -> sess w = sess w0 ->
  (exists n u, lns w !! n = Some (MkLn true port u)) -> 1 <= port <= 65535 ->
  let ch := fresh_id (dchans w) in
  takes sid sm e w0 (arm_all both ch (set_dchans (<[ch := None]> (dchans w)) w))
    (Ok (port, DChan ch both)).
Proof.
  intros I Hs Hn Hw Hp Hb ch. set (w1 := set_dchans _ w).
  destruct (arm_all_facts both ch w1) as (_ & E2 & E4 & _).
  split; [by rewrite E4|]. rewrite E2. split; [|done]. intros s' Ho Hok.
  assert (finv sm w1) as I1 by (eapply finv_less; [exact I|apply less_dchans]).
  eapply finv_arm; eauto.
  - simpl. by rewrite lookup_insert_eq.
  - intros i x b Hx Hh. destruct (f_chan _ _ I _ _ _ _ Hx Hh) as [y Hy].
    unfold ch in Hy. by rewrite fresh_id_None in Hy.
Qed.

Lemma reserveDecoy_takes e sm sid s w0 w :
  finv sm w -> sm !! sid = Some s -> holds_none s -> sess w = sess w0 ->
  let '(r, w') := reserveDecoy e w in takes sid sm e w0 w' r.
Proof.
  intros I Hs Hn Hw. unfold reserveDecoy. st_run. destruct (Single _).
  - pose proof (ensureShared_less e false sm w I) as H. destruct (ensureShared e false w) as [r w1].
    destruct H as [[Hl Hr] _]. pose proof (finv_less _ _ _ I Hl) as I1.
    pose proof (l_sess _ _ Hl) as Hw1.
    destruct r as [port|x|m|]; try done.
    + destruct Hr as [(n & u & Hn' & _) Hb].
      apply (takes_arm false e sm sid s w0 w1 port); eauto. congruence.
    + split; [congruence|by split].
  - destruct (listen_in_range_cases e (p_r (downPool w)) LDecoy w (f_range _ _ I false))
      as [(port & Hp & ->)|(x & -> & Hx)]; simpl.
    + split; [done|]. split_and!.
      * intros. eapply finv_take_ln; eauto using fresh_id_None.
      * exists (fresh_id (lns w)), LDecoy. simpl. by rewrite lookup_insert_eq.
      * eapply port_bounds; [apply (f_range _ _ I false)|done].
      * eapply port_bounds; [apply (f_range _ _ I false)|done].
    + split; [done|]. by split.
Qed.

Lemma reserveDecoyAny_takes e sm sid s w :
  finv sm w -> sm !! sid = Some s -> holds_none s ->
  let '(r, w') := reserveDecoyAny e w in takes sid sm e w w' r.
Proof.
  intros I Hs Hn. unfold reserveDecoyAny. st_run. destruct (negb _ || negb _).
  { eapply reserveDecoy_takes; eauto. }
  pose proof (ensureShared_less e true sm w I) as H. destruct (ensureShared e true w) as [r w1].
  destruct H as [[Hl Hr] _]. pose proof (finv_less _ _ _ I Hl) as I1.
  pose proof (l_sess _ _ Hl) as Hw1.
  destruct r as [port|x|m|]; try done.
  pose proof (ensureShared_less e false sm w1 I1) as H. destruct (ensureShared e false w1) as [r w2].
  destruct H as [[Hl2 Hr2] _]. pose proof (finv_less _ _ _ I1 Hl2) as I2.
  pose proof (l_sess _ _ Hl2) as Hw2.
  destruct r as [port2|x|m|]; try done; [|split; [congruence|by split]].
  destruct Hr2 as [(n & u & Hn' & _) Hb].
  apply (takes_arm true e sm sid s w w2 port2); eauto. congruence.
Qed.

(** ** Commands *)

Section Commands.
Context (g : Globals) (tls : bool).

Lemma finv_pure sm w sid s s' :
  finv sm w -> sm !! sid = Some s -> pending s' = pending s -> s_phase s' = s_phase s ->
  (authed s = true -> authed s' = true) -> finv (<[sid := s']> sm) w.
Proof.
  intros I Hs Hp Hph Ha. eapply finv_same; eauto.
  - intros d. unfold holds. by rewrite Hp, Hph.
  - destruct (f_sess _ _ I _ _ Hs) as [H1 H2]. split.
    + by rewrite Hp, Hph.
    + intros Hf d. unfold holds. rewrite Hp, Hph. apply H2. destruct (authed s); [|done].
      rewrite Ha in Hf by done. done.
Qed.

Lemma openData_inv sm w sid s t :
  finv sm w -> sm !! sid = Some s -> s_phase s = Idle -> authed s = true ->
  finv (<[sid := openData t s]> sm) w.
Proof.
  intros I Hs Hph Ha. unfold openData. destruct (pending s) as [d|] eqn:E.
  - eapply finv_same; eauto.
    + intros d'. unfold holds. simpl. rewrite Hph, E. split.
      * intros [H|[t' H]]; [done|]. simplify_eq. by left.
      * intros [H|[t' H]]; [|done]. simplify_eq. right. eauto.
    + split; simpl; [by right|congruence].
  - by eapply finv_pure.
Qed.

Lemma end_session_inv sm w sid s :
  finv sm w -> sm !! sid = Some s -> s_phase s = Idle ->
  let '(s', w') := end_session s w in
  finv (<[sid := s']> sm) w' /\ sess w' = sess w /\ holds_none s' /\
  authed s' = authed s /\ userOK s' = userOK s.
Proof.
  intros I Hs Hph. unfold end_session. st_run.
  pose proof (clearPasv_inv sm w sid s I Hs Hph) as H. destruct (clearPasv s w) as [s1 w1].
  destruct H as (I1 & Hw & -> & Hn). split_and!; [|done| |done|done].
  - rewrite <- (insert_insert_eq sm sid _ (set_pending None s)).
    eapply finv_same; [done|by rewrite lookup_insert_eq| |].
    + intros d. unfold holds. simpl. rewrite Hph. split; intros [H|[t H]]; done.
    + split; [by right|]. intros _ d [H|[t H]]; done.
  - intros d [H|[t H]]; done.
Qed.

(** What handlePASV answers: a port of an open listener, or an error. *)
Lemma handlePASV_inv sm w sid s e :
  finv sm w -> sm !! sid = Some s -> s_phase s = Idle -> authed s = true ->
  let '(s', w') := handlePASV g e s w in
  finv (<[sid := s']> sm) w' /\ sess w' = sess w /\
  s_phase s' = Idle /\ authed s' = true /\ userOK s' = userOK s /\
  ((exists port n u, s_out s' = s_out (send227 g port s) /\ 1 <= port <= 65535 /\
      lns w' !! n = Some (MkLn true port u)) \/
   (s_out s' = s_out (sendf 425 "Cannot open data connection." s) /\
    exists a, e_listen e a <> None)).
Proof.
  intros I Hs Hph Ha. unfold handlePASV. st_run.
  pose proof (clearPasv_inv sm w sid s I Hs Hph) as H. destruct (clearPasv s w) as [s0 w0].
  destruct H as (I0 & Hw & Es & Hn0). set (sm0 := <[sid := s0]> sm) in *.
  assert (sm0 !! sid = Some s0) as Hs0 by (unfold sm0; by rewrite lookup_insert_eq).
  assert (forall s', <[sid := s']> sm0 = <[sid := s']> sm) as Esm
    by (intros; apply insert_insert_eq).
  assert (cwd s0 = cwd s /\ s_out s0 = s_out s /\ userOK s0 = userOK s /\ authed s0 = true /\
    s_phase s0 = Idle /\ s_in s0 = s_in s /\ localAddr s0 = localAddr s)
    as (E1 & E2 & E3 & E4 & E5 & E6 & E7) by (rewrite Es; by destruct s).
  assert (forall port d, s_out (send227 g port (set_pending d s0)) = s_out (send227 g port s) /\
      s_out (send227 g port s0) = s_out (send227 g port s)) as E227.
  { intros port d. unfold send227, pasvIP, local_host. simpl. by rewrite E2, E7. }
  assert (forall up, let '(r, w') := advertise e up w0 in
    let s' := match r with Ok port => send227 g port s0
              | _ => sendf 425 "Cannot open data connection." s0 end in
    finv (<[sid := s']> sm) w' /\ sess w' = sess w /\ s_phase s' = Idle /\ authed s' = true /\
    userOK s' = userOK s /\
    ((exists port n u, s_out s' = s_out (send227 g port s) /\ 1 <= port <= 65535 /\
        lns w' !! n = Some (MkLn true port u)) \/
     (s_out s' = s_out (sendf 425 "Cannot open data connection." s) /\
      exists a, e_listen e a <> None))) as Adv.
  { intros up. pose proof (advertise_less e up sm0 w0 I0) as H.
    destruct (advertise e up w0) as [r w1]. destruct H as [Hl Hr].
    pose proof (finv_less _ _ _ I0 Hl) as I1. pose proof (l_sess _ _ Hl) as Hw1.
    destruct r as [port|x|m|]; try done; cbv zeta.
    - destruct Hr as [(n & u & Hn & _) Hb]. split_and!; try done; [|congruence|].
      + rewrite <- Esm. by eapply finv_pure.
      + left. exists port, n, u. split_and!; try done; try lia. by destruct (E227 port None).
    - split_and!; try done; [|congruence|].
      + rewrite <- Esm. by eapply finv_pure.
      + right. simpl. by rewrite E2. }
  rewrite E1. destruct (String.eqb _ PathUpload).
  { specialize (Adv true). by destruct (advertise e true w0). }
  destruct (String.eqb _ PathDownload).
  { specialize (Adv false). by destruct (advertise e false w0). }
  pose proof (reserveDecoyAny_takes e sm0 sid s0 w0 I0 Hs0 Hn0) as H.
  destruct (reserveDecoyAny e w0) as [r w1]. destruct H as [Hw1 Hr].
  destruct r as [[port d]|x|m|]; try done.
  - destruct Hr as (Hi & (n & u & Hn) & Hb). split_and!; try done; [|congruence|].
    + rewrite <- Esm. apply Hi.
      * intros d'. unfold holds. simpl. rewrite E5. split; [|by intros ->; left].
        intros [H|[t H]]; by simplify_eq.
      * split; simpl; [left; congruence|congruence].
    + left. exists port, n, u. split_and!; try done; try lia. by destruct (E227 port (Some d)).
  - destruct Hr as [I1 Hx]. split_and!; try done; [|congruence|].
    + rewrite <- Esm. by eapply finv_pure.
    + right. simpl. by rewrite E2.
Qed.

(** The effect of a line on the login of a session. *)
Definition is_user (line : string) : bool :=
  let '(cmd, arg) := parse_line line in String.eqb cmd "USER" && String.eqb arg (cfgUser g).
Definition is_pass (line : string) : bool :=
  let '(cmd, arg) := parse_line line in String.eqb cmd "PASS" && String.eqb arg (cfgPass g).

Lemma command_inv sm w sid s e line :
  finv sm w -> sm !! sid = Some s -> s_phase s = Idle ->
  let '(s', w') := command g tls e line s w in
  finv (<[sid := s']> sm) w' /\ sess w' = sess w /\
  userOK s' = userOK s || is_user line /\
  authed s' = authed s || userOK s && is_pass line.
Proof.
  intros I Hs Hph. unfold command, is_user, is_pass. destruct (parse_line line) as [cmd arg'].
  assert (forall s', s_phase s' = s_phase s -> pending s' = pending s ->
    (authed s = true -> authed s' = true) -> finv (<[sid := s']> sm) w) as Pure
    by (intros; by eapply finv_pure).
  assert (forall m s1, pending s1 = pending s -> s_phase s1 = s_phase s -> authed s1 = authed s ->
    userOK s1 = userOK s ->
    let '(s', w') := end_session s1 w in
    finv (<[sid := s']> sm) w' /\ sess w' = sess w /\ userOK s' = userOK s || (m && false) /\
    authed s' = authed s || userOK s && false) as Ends.
  { intros m s1 H1 H2 H3 H4.
    pose proof (end_session_inv (<[sid := s1]> sm) w sid s1) as H.
    destruct (end_session s1 w) as [s' w']. rewrite insert_insert_eq in H.
    destruct H as (? & ? & ? & -> & ->); [by apply Pure; congruence| |congruence|].
    - by rewrite lookup_insert_eq.
    - rewrite H3, H4, !andb_false_r, !orb_false_r. by split_and!. }
  st_run.
  repeat match goal with
    | |- context [if String.eqb cmd ?x then _ else _] =>
        destruct (String.eqb_spec cmd x); [subst cmd|]
    end.
  all: try match goal with
    | |- context [handlePASV] => destruct (authed s) eqn:Ha
    | |- context [openData] => destruct (authed s) eqn:Ha
    end.
  all: repeat match goal with
    | |- context [if ?b then _ else _] => destruct b eqn:?
    | |- context [match decoy_file ?x with _ => _ end] => destruct (decoy_file x)
    end.
  all: try (by apply (Ends false)).
  all: try (by apply (Ends (String.eqb arg' (cfgUser g)))).
  all: try (split_and!; [by apply Pure|done|..]; simpl in *;
            repeat match goal with H : ?b = _ |- context [?b] => rewrite H end;
            rewrite ?andb_false_r, ?andb_true_r, ?orb_false_r, ?orb_true_r; done).
  all: try (split_and!; [by apply openData_inv|done|..]; simpl in *;
            unfold openData; destruct (pending s); simpl; by rewrite ?Ha, ?orb_false_r).
  pose proof (handlePASV_inv sm w sid s e I Hs Hph Ha) as H.
  destruct (handlePASV g e s w) as [s' w']. destruct H as (H1 & H2 & H3 & H4 & H5 & _).
  rewrite H5, orb_false_r. by split_and!.
Qed.

(** ** Events *)

Lemma run_transfer_inv sm w sid s e t dc :
  finv sm w -> sm !! sid = Some s -> s_phase s = Idle ->
  let '(s', w') := run_transfer tls e t dc s w in
  finv (<[sid := s']> sm) w' /\ sess w' = sess w /\ userOK s' = userOK s /\ authed s' = authed s.
Proof.
  intros I Hs Hph. unfold run_transfer. st_run.
  assert (forall s' x, pending s' = pending s -> s_phase s' = s_phase s -> authed s' = authed s ->
    finv (<[sid := s']> sm) (set_dconns x w)) as Pure.
  { intros s' x H1 H2 H3. eapply finv_less; [|apply less_dconns]. eapply finv_pure; eauto. }
  destruct dc as [c|]; st_run.
  2:{ split_and!; try done. eapply finv_pure; eauto. }
  destruct (dataProtP s && tls && negb (e_data_tls e)); st_run.
  { split_and!; try done. by apply Pure. }
  destruct (dataProtP s && tls), t; st_run; (split_and!; [by apply Pure|done..]).
Qed.

Lemma wait_decoy_inv sm w sid s d t ok :
  finv sm w -> sm !! sid = Some s -> s_phase s = Waiting d t ->
  let '(dc, w') := wait_decoy d ok w in
  finv (<[sid := set_phase Idle s]> sm) w' /\ sess w' = sess w.
Proof.
  intros I Hs Hph.
  assert (holds s d) as Hd by (right; eauto).
  assert (holds_none (set_phase Idle s)) as Hn.
  { intros d' [H|[t' H]]; [|done]. simpl in H.
    destruct (f_sess _ _ I _ _ Hs) as [[H'|H'] _]; [by eapply H'|congruence]. }
  assert (forall w1, less w w1 -> finv (<[sid := set_phase Idle s]> sm) (disarm d w1)) as Drop.
  { intros w1 Hl. eapply finv_drop; eauto; [by eapply finv_less|]. split; [by left|done]. }
  unfold wait_decoy. destruct d as [ch both|n]; st_run.
  - pose proof (Drop w (less_refl w)) as I1.
    pose proof (sess_disarm (DChan ch both) w) as Hw. cbn [disarm] in *.
    destruct (dchans w !! ch) as [[c|]|]; [destruct ok|..]; st_run; split; try done.
    eapply finv_less; [done|]. apply less_dchans.
  - destruct ok; unfold fresh_data; st_run.
    + split; [|done]. apply (Drop (set_dconns _ w)). apply less_dconns.
    + split; [|done]. by apply (Drop w (less_refl w)).
Qed.

Lemma finv_new sm w sid s :
  finv sm w -> sm !! sid = None -> holds_none s -> finv (<[sid := s]> sm) w.
Proof.
  intros [P C U S L D Sh R] Hs Hn.
  assert (forall i x d, <[sid := s]> sm !! i = Some x -> holds x d -> sm !! i = Some x) as Old.
  { intros i x d Hx Hd. apply insert_cases in Hx as [[-> ->]|[_ Hx]]; [|done]. by destruct (Hn d). }
  assert (forall i x, sm !! i = Some x -> <[sid := s]> sm !! i = Some x) as New.
  { intros i x Hx. rewrite lookup_insert_ne; [done|congruence]. }
  split; try done.
  - intros up ch Hp. destruct (P up ch Hp) as (i & x & b & Hx & H). exists i, x, b.
    split; [by apply New|done].
  - eauto.
  - eauto.
  - intros i x Hx. apply insert_cases in Hx as [[-> ->]|[_ Hx]]; [|eauto].
    split; [|done]. left. intros d t H. apply (Hn d). right. eauto.
  - intros n l H1 H2 H3. destruct (L n l H1 H2 H3) as (i & x & Hx & H). eauto.
  - eauto.
Qed.

(** What a step does: the invariant holds again, no session goes, and a session's login
    changes only by the line it reads. *)
Definition login (os : option ftpSess) : bool * bool :=
  match os with Some s => (userOK s, authed s) | None => (false, false) end.
Definition login_line (line : string) (l : bool * bool) : bool * bool :=
  (l.1 || is_user line, l.2 || l.1 && is_pass line).

Definition step_fact (w w' : Facade) (o : option (nat * string)) : Prop :=
  finv (sess w') w' /\
  forall sid,
    (is_Some (sess w !! sid) -> is_Some (sess w' !! sid)) /\
    login (sess w' !! sid) =
      match o with
      | Some (i, line) =>
          if decide (i = sid) then login_line line (login (sess w !! sid))
          else login (sess w !! sid)
      | None => login (sess w !! sid)
      end.

Lemma step_fact_put w sid s s' w' :
  sess w !! sid = Some s -> finv (<[sid := s']> (sess w)) w' -> sess w' = sess w ->
  userOK s' = userOK s -> authed s' = authed s ->
  step_fact w (put_sess sid s' w') None.
Proof.
  intros Hs I Hw H1 H2. split.
  - replace (sess (put_sess sid s' w')) with (<[sid := s']> (sess w)) by (simpl; by rewrite Hw).
    destruct I; by split.
  - intros i. simpl. rewrite Hw. destruct (decide (i = sid)) as [->|].
    + rewrite lookup_insert_eq, Hs. simpl. split; [eauto|congruence].
    + by rewrite lookup_insert_ne.
Qed.

Lemma finv_put sm w sid s : finv sm w -> finv sm (put_sess sid s w).
Proof. intros []; by split. Qed.

Lemma step_fact_less w w' : finv (sess w) w -> less w w' -> step_fact w w' None.
Proof.
  intros I H. pose proof (l_sess _ _ H) as E. split; [rewrite E; by eapply finv_less|].
  intros sid. by rewrite E.
Qed.

Lemma fstep_fact ev w :
  finv (sess w) w -> let '(o, w') := fstep g tls ev w in step_fact w w' o.
Proof.
  intros I. destruct ev as [addr b|sid bs|sid e|sid|sid e ok|up|ln ok]; cbn [fstep].
  - set (sid := fresh_id (sess w)).
    assert (sess w !! sid = None) as Hs by apply fresh_id_None. split.
    + simpl. apply finv_put, finv_new; [done..|]. intros d [H|[t H]]; done.
    + intros i. simpl. destruct (decide (i = sid)) as [->|].
      * rewrite lookup_insert_eq, Hs. simpl. split; [eauto|done].
      * by rewrite lookup_insert_ne.
  - destruct (sess w !! sid) as [s|] eqn:Hs; [|by apply step_fact_less, less_refl].
    eapply step_fact_put; eauto. by eapply finv_pure.
  - destruct (sess w !! sid) as [s|] eqn:Hs; [|by apply step_fact_less, less_refl].
    destruct (s_phase s) eqn:Hph; try (by apply step_fact_less, less_refl).
    destruct (cut_nl (s_in s)) as [[l r]|]; [|by apply step_fact_less, less_refl].
    set (s0 := set_io r (s_out s) s). set (line := string_of l +:+ String "010" "").
    pose proof (command_inv (<[sid := s0]> (sess w)) w sid s0 e line) as H.
    destruct (command g tls e line s0 w) as [s' w']. rewrite insert_insert_eq in H.
    destruct H as (I' & Hw & Hu & Ha); [by eapply finv_pure|by rewrite lookup_insert_eq|done|].
    split.
    + replace (sess (put_sess sid s' w')) with (<[sid := s']> (sess w)) by (simpl; by rewrite Hw).
      by apply finv_put.
    + intros i. simpl. rewrite Hw. case_decide as Hi; [subst i|].
      * rewrite lookup_insert_eq, Hs. unfold login, login_line. simpl. split; [eauto|].
        by rewrite Hu, Ha.
      * by rewrite lookup_insert_ne.
  - destruct (sess w !! sid) as [s|] eqn:Hs; [|by apply step_fact_less, less_refl].
    destruct (s_phase s) eqn:Hph; try (by apply step_fact_less, less_refl).
    pose proof (end_session_inv (sess w) w sid s I Hs Hph) as H.
    destruct (end_session s w) as [s' w']. destruct H as (I' & Hw & _ & Ha & Hu).
    by eapply step_fact_put.
  - destruct (sess w !! sid) as [s|] eqn:Hs; [|by apply step_fact_less, less_refl].
    destruct (s_phase s) as [|d t|] eqn:Hph; try (by apply step_fact_less, less_refl).
    pose proof (wait_decoy_inv (sess w) w sid s d t ok I Hs Hph) as H.
    destruct (wait_decoy d ok w) as [dc w1]. destruct H as [I1 Hw1].
    pose proof (run_transfer_inv _ w1 sid (set_phase Idle s) e t dc I1) as H.
    destruct (run_transfer tls e t dc (set_phase Idle s) w1) as [s' w'].
    rewrite insert_insert_eq in H.
    destruct H as (I' & Hw & Hu & Ha); [by rewrite lookup_insert_eq|done|].
    eapply step_fact_put; eauto. congruence.
  - destruct (p_shared _); [|by apply step_fact_less, less_refl].
    unfold fresh_data. apply step_fact_less; [done|].
    eapply less_trans; [apply less_dconns|apply less_accept_shared].
  - destruct (lns w !! ln) as [[[] p []]|] eqn:Hl; try (by apply step_fact_less, less_refl).
    destruct ok; unfold fresh_data; st_run; apply step_fact_less; try done.
    + unfold accept_advertised. eapply less_trans; [apply less_dconns|].
      eapply less_trans; [apply less_handed|]. eapply less_close_ln; [exact Hl|by right].
    + eapply less_close_ln; [exact Hl|by right].
Qed.
End Commands.

(** ** Runs *)

Lemma the_pool_init up u d :
  the_pool up (init_facade u d) = newDataPool (if up then u else d).
Proof. by destruct up. Qed.

Lemma init_finv u d : range_ok u -> range_ok d -> finv ∅ (init_facade u d).
Proof.
  intros Hu Hd. split; try done.
  - intros up ch. by rewrite the_pool_init.
  - intros up n port. by rewrite the_pool_init.
  - intros up. rewrite the_pool_init. by destruct up.
Qed.

Lemma Run_finv c g0 load e g w :
  Run c g0 load e = Ok (g, w) -> finv (sess w) w /\ sess w = ∅.
Proof.
  unfold Run. intros H.
  destruct (ParsePortRange _) as [u| | |] eqn:Eu; try done.
  destruct (ParsePortRange (cfgDownloadPorts _)) as [d| | |] eqn:Ed; try done.
  destruct (if cfgTLS _ then _ else _); [done|].
  assert (forall up (b : bool) w0, finv ∅ w0 -> sess w0 = ∅ ->
    let '(r, w') := (if b then ensureShared e up w0 else (Ok 0, w0)) in
    finv ∅ w' /\ sess w' = ∅) as Step.
  { intros up [] w0 I Hw; [|done]. pose proof (ensureShared_less e up ∅ w0 I) as H'.
    destruct (ensureShared e up w0) as [r w']. destruct H' as [[Hl _] _].
    split; [by eapply finv_less|]. by rewrite (l_sess _ _ Hl). }
  assert (finv ∅ (init_facade u d)) as I0
    by (apply init_finv; by eapply ParsePortRange_ok).
  pose proof (Step true (Single u) _ I0 eq_refl) as H1.
  destruct (if Single u then _ else _) as [r1 w1]. destruct r1; try done. destruct H1 as [I1 E1].
  pose proof (Step false (Single d) _ I1 E1) as H2.
  destruct (if Single d then _ else _) as [r2 w2]. destruct r2; try done. destruct H2 as [I2 E2].
  destruct (e_listen e _); [done|]. simplify_eq. by rewrite E2.
Qed.

(** The lines that a session has read. *)
Definition lines_of (sid : nat) (ls : list (nat * string)) : list string :=
  map snd (filter (fun l => l.1 = sid) ls).

Definition login_lines (g : Globals) (ls : list string) (l : bool * bool) : bool * bool :=
  fold_left (fun l line => login_line g line l) ls l.

Lemma frun_fact g tls evs w :
  finv (sess w) w ->
  let '(ls, w') := frun g tls evs w in
  finv (sess w') w' /\
  forall sid, login (sess w' !! sid) = login_lines g (lines_of sid ls) (login (sess w !! sid)).
Proof.
  revert w. induction evs as [|ev evs IH]; intros w I; cbn [frun]; [done|].
  pose proof (fstep_fact g tls ev w I) as H. destruct (fstep g tls ev w) as [o w1].
  destruct H as [I1 H1]. specialize (IH w1 I1). destruct (frun g tls evs w1) as [ls w2].
  destruct IH as [I2 H2]. split; [done|]. intros sid. rewrite H2. destruct (H1 sid) as [_ ->].
  destruct o as [[i line]|]; [|done]. unfold lines_of. rewrite filter_cons. simpl.
  by case_decide.
Qed.

(** A login: the right USER, and later the right PASS. *)
Definition logged_in (g : Globals) (ls : list string) : Prop :=
  exists l1 u l2 p l3, ls = l1 ++ u :: l2 ++ p :: l3 /\
    is_user g u = true /\ is_pass g p = true.

Lemma login_lines_spec g ls u a :
  (login_lines g ls (u, a)).2 = true <->
  a = true \/ (u = true /\ Exists (fun l => is_pass g l = true) ls) \/ logged_in g ls.
Proof.
  revert u a. induction ls as [|l ls IH]; intros u a.
  - simpl. rewrite Exists_nil. split; [tauto|]. intros [?|[?|(l1 & x & l2 & y & l3 & H & _)]]; try tauto.
    by destruct l1.
  - change (login_lines g (l :: ls) (u, a)) with
    (login_lines g ls (u || is_user g l, a || u && is_pass g l)). rewrite IH, Exists_cons.
    rewrite !orb_true_iff, andb_true_iff.
    assert (logged_in g (l :: ls) <->
      (is_user g l = true /\ Exists (fun l => is_pass g l = true) ls) \/ logged_in g ls) as ->.
    { split.
      - intros (l1 & x & l2 & y & l3 & H & Hx & Hy). destruct l1 as [|z l1]; simplify_eq/=.
        + left. split; [done|]. apply Exists_exists. exists y.
          split; [|done]. rewrite elem_of_app, elem_of_cons. tauto.
        + right. by exists l1, x, l2, y, l3.
      - intros [[Hx Hy]|(l1 & x & l2 & y & l3 & -> & H)].
        + apply Exists_exists in Hy as (y & Hin & Hy).
          apply list_elem_of_split in Hin as (l2 & l3 & ->). by exists [], l, l2, y, l3.
        + by exists (l :: l1), x, l2, y, l3. }
    tauto.
Qed.

(** *** A decoy channel that no pool feeds *)

Definition stale (ch : nat) (w : Facade) : Prop :=
  dchans w !! ch = Some None /\ forall up, p_pend (the_pool up w) <> Some ch.

Lemma stale_new_dchan ch both w :
  stale ch w ->
  stale ch (arm_all both (fresh_id (dchans w))
              (set_dchans (<[fresh_id (dchans w) := None]> (dchans w)) w)).
Proof.
  intros [H1 H2]. assert (fresh_id (dchans w) <> ch) as Hne.
  { intros <-. by rewrite fresh_id_None in H1. }
  set (n := fresh_id (dchans w)) in *. set (w1 := set_dchans _ w).
  destruct (arm_all_facts both n w1) as (E1 & _ & _ & E3). split.
  - rewrite E1. simpl. by rewrite lookup_insert_ne.
  - intros up. destruct (E3 up) as (_ & _ & ->). specialize (H2 up).
    destruct (negb up || both); [congruence|by destruct up].
Qed.

Lemma stale_less ch w w' :
  stale ch w -> less w w' -> (dchans w !! ch = Some None -> dchans w' !! ch = Some None) ->
  stale ch w'.
Proof.
  intros [H1 H2] [Hp _ _ _ _ _ _] H. split; [auto|]. intros up. specialize (H2 up).
  destruct (Hp up) as [->| ->]; done.
Qed.

Lemma stale_disarm ch d w : stale ch w -> stale ch (disarm d w).
Proof.
  intros [H1 H2].
  assert (dchans (disarm d w) !! ch = Some None) as Hd.
  { destruct d as [c []|]; simpl; unfold clearDecoy, put_pool; repeat case_match; done. }
  split; [done|]. intros up. specialize (H2 up).
  destruct d as [c []|]; destruct up; simpl; unfold clearDecoy, put_pool;
    repeat case_match; simpl in *; congruence.
Qed.

Lemma stale_cancel ch d w : stale ch w -> stale ch (cancel_decoy d w).
Proof.
  intros H. apply (stale_disarm ch d) in H. unfold cancel_decoy. destruct d as [c both|]; [|done].
  set (w1 := disarm _ w) in *. destruct (dchans w1 !! c) as [[x|]|] eqn:E; try done.
  destruct H as [H1 H2]. split; [|by intros []; [apply (H2 true)|apply (H2 false)]].
  simpl. destruct (decide (c = ch)) as [->|]; [by rewrite lookup_insert_eq|].
  by rewrite lookup_insert_ne.
Qed.

Lemma stale_clearPasv ch s w : stale ch w -> stale ch (clearPasv s w).2.
Proof. intros H. unfold clearPasv. destruct (pending s); st_run; [by apply stale_cancel|done]. Qed.

(** The operations on listeners and on shared ports leave the channels alone. *)
Lemma listen_dchans e r u w : dchans (listen_in_range e r u w).2 = dchans w /\
  forall up, p_pend (the_pool up (listen_in_range e r u w).2) = p_pend (the_pool up w).
Proof. unfold listen_in_range. repeat case_match; simpl; (split; [done|]); by intros []. Qed.

Lemma ensureShared_dchans e up w : dchans (ensureShared e up w).2 = dchans w /\
  forall up', p_pend (the_pool up' (ensureShared e up w).2) = p_pend (the_pool up' w).
Proof.
  unfold ensureShared. st_run. destruct (p_shared _) as [[n p]|]; [done|].
  pose proof (listen_dchans e (p_r (the_pool up w)) (LShared up) w) as [E1 E2].
  destruct (listen_in_range e (p_r (the_pool up w)) (LShared up) w) as [[[n p]|x|m|] w1]; simpl in *; try done.
  split; [by destruct up|]. intros up'. rewrite <- (E2 up').
  pose proof (E2 up). by destruct up, up'.
Qed.

Lemma stale_ensureShared ch e up w : stale ch w -> stale ch (ensureShared e up w).2.
Proof.
  intros [H1 H2]. destruct (ensureShared_dchans e up w) as [E1 E2]. split; [by rewrite E1|].
  intros up'. by rewrite E2.
Qed.
Lemma stale_listen ch e r u w : stale ch w -> stale ch (listen_in_range e r u w).2.
Proof.
  intros [H1 H2]. destruct (listen_dchans e r u w) as [E1 E2]. split; [by rewrite E1|].
  intros up'. by rewrite E2.
Qed.

Lemma stale_reserveDecoy ch e w : stale ch w -> stale ch (reserveDecoy e w).2.
Proof.
  intros H. unfold reserveDecoy. st_run. destruct (Single _).
  - apply (stale_ensureShared ch e false) in H.
    destruct (ensureShared e false w) as [[]  w1]; try done. by apply (stale_new_dchan ch false).
  - apply (stale_listen ch e (p_r (downPool w)) LDecoy) in H.
    by destruct (listen_in_range e (p_r (downPool w)) LDecoy w) as [[[]| | |] w1].
Qed.

Lemma stale_reserveDecoyAny ch e w : stale ch w -> stale ch (reserveDecoyAny e w).2.
Proof.
  intros H. unfold reserveDecoyAny. st_run. destruct (negb _ || negb _).
  { by apply stale_reserveDecoy. }
  apply (stale_ensureShared ch e true) in H. destruct (ensureShared e true w) as [[] w1]; try done.
  simpl in H. apply (stale_ensureShared ch e false) in H. destruct (ensureShared e false w1) as [[] w2]; try done.
  by apply (stale_new_dchan ch true).
Qed.

Lemma stale_advertise ch e up w : stale ch w -> stale ch (advertise e up w).2.
Proof.
  intros H. unfold advertise. st_run. destruct (Single _); [by apply stale_ensureShared|].
  apply (stale_listen ch e (p_r (the_pool up w)) LAdvertised) in H.
  by destruct (listen_in_range e (p_r (the_pool up w)) LAdvertised w) as [[[]| | |] w1].
Qed.

Lemma stale_handlePASV g ch e s w : stale ch w -> stale ch (handlePASV g e s w).2.
Proof.
  intros H. unfold handlePASV. st_run. apply (stale_clearPasv ch s) in H.
  destruct (clearPasv s w) as [s0 w0]. simpl in H.
  destruct (String.eqb _ PathUpload); [|destruct (String.eqb _ PathDownload)].
  - apply (stale_advertise ch e true) in H. by destruct (advertise e true w0).
  - apply (stale_advertise ch e false) in H. by destruct (advertise e false w0).
  - apply (stale_reserveDecoyAny ch e) in H.
    by destruct (reserveDecoyAny e w0) as [[[]| | |] w1].
Qed.

Lemma stale_command g tls ch e line s w : stale ch w -> stale ch (command g tls e line s w).2.
Proof.
  intros H. unfold command. destruct (parse_line line) as [cmd arg].
  assert (forall s, stale ch (end_session s w).2) as He.
  { intros s1. unfold end_session. st_run. apply (stale_clearPasv ch s1) in H.
    by destruct (clearPasv s1 w). }
  st_run. repeat match goal with
    | |- context [if ?b then _ else _] => destruct b
    | |- context [match decoy_file ?x with _ => _ end] => destruct (decoy_file x)
    end; try done; try apply He. by apply stale_handlePASV.
Qed.

Lemma stale_dchans ch x c w : stale ch w -> c <> ch -> stale ch (set_dchans (<[c := x]> (dchans w)) w).
Proof.
  intros [H1 H2] Hne. split; [simpl; by rewrite lookup_insert_ne|].
  by intros []; [apply (H2 true)|apply (H2 false)].
Qed.

Lemma stale_fields ch w w' :
  stale ch w -> dchans w' = dchans w -> upPool w' = upPool w -> downPool w' = downPool w ->
  stale ch w'.
Proof.
  intros [H1 H2] E1 E2 E3. split; [by rewrite E1|]. intros up. specialize (H2 up).
  unfold the_pool in *. by rewrite E2, E3.
Qed.

Lemma stale_fstep g tls ch ev w : stale ch w -> stale ch (fstep g tls ev w).2.
Proof.
  intros H. destruct ev as [addr b|sid bs|sid e|sid|sid e ok|up|ln ok]; cbn [fstep].
  - by eapply stale_fields.
  - destruct (sess w !! sid); by eapply stale_fields.
  - destruct (sess w !! sid) as [s|]; [|done].
    destruct (s_phase s); try done. destruct (cut_nl _) as [[l r]|]; [|done].
    set (s0 := set_io _ _ _). set (line := _ +:+ _).
    apply (stale_command g tls ch e line s0) in H.
    destruct (command g tls e line s0 w). by eapply stale_fields.
  - destruct (sess w !! sid) as [s|]; [|done]. destruct (s_phase s); try done.
    unfold end_session. st_run. apply (stale_clearPasv ch s) in H.
    destruct (clearPasv s w). by eapply stale_fields.
  - destruct (sess w !! sid) as [s|]; [|done]. destruct (s_phase s) as [|d t|]; try done.
    assert (stale ch (wait_decoy d ok w).2) as Hw.
    { unfold wait_decoy. destruct d as [c both|n]; st_run.
      - pose proof (stale_disarm ch (DChan c both) w H) as Hd.
        destruct (dchans w !! c) as [[x|]|] eqn:Ec; [destruct ok|..]; try done. st_run.
        apply (stale_dchans ch None c (disarm (DChan c both) w)); [done|].
        intros ->. destruct H. congruence.
      - destruct ok; unfold fresh_data; st_run; by eapply stale_fields. }
    destruct (wait_decoy d ok w) as [dc w1]. simpl in Hw. unfold run_transfer.
    destruct dc as [c|]; [|by eapply stale_fields].
    destruct (dataProtP _ && tls && negb _); [by eapply stale_fields|].
    destruct (dataProtP _ && tls), t; by eapply stale_fields.
  - destruct (p_shared _); [|done]. unfold fresh_data, accept_shared.
    set (w1 := set_dconns _ w). assert (stale ch w1) as H1 by by eapply stale_fields.
    destruct (p_pend (the_pool up w1)) as [c|] eqn:Ep; [|by eapply stale_fields].
    destruct (dchans w1 !! c) as [[]|]; try by eapply stale_fields.
    apply stale_dchans; [done|]. intros ->. by destruct H1 as [_ H2]; destruct (H2 up).
  - destruct (lns w !! ln) as [[[] p []]|]; try done.
    destruct ok; unfold fresh_data; st_run; by eapply stale_fields.
Qed.

Lemma stale_frun g tls ch evs w : stale ch w -> stale ch (frun g tls evs w).2.
Proof.
  revert w. induction evs as [|ev evs IH]; intros w H; cbn [frun]; [done|].
  apply (stale_fstep g tls ch ev) in H. destruct (fstep g tls ev w) as [o w1].
  specialize (IH w1 H). by destruct (frun g tls evs w1).
Qed.

(** *** A transfer *)

(** What clearPasv leaves alone. *)
Lemma clearPasv_frame s w :
  let '(s', w') := clearPasv s w in
  s' = set_pending None s /\ handed w' = handed w /\ sess w' = sess w /\
  (forall up, p_shared (the_pool up w') = p_shared (the_pool up w) /\
              p_r (the_pool up w') = p_r (the_pool up w)) /\
  (forall c, dconns w' !! c = None -> dconns w !! c = None) /\
  (forall ch, dchans w !! ch = Some None -> dchans w' !! ch = Some None).
Proof.
  unfold clearPasv. destruct (pending s) as [d|] eqn:E; st_run.
  - split; [done|].
    assert (handed (disarm d w) = handed w /\ sess (disarm d w) = sess w /\
      (forall up, p_shared (the_pool up (disarm d w)) = p_shared (the_pool up w) /\
                  p_r (the_pool up (disarm d w)) = p_r (the_pool up w)) /\
      dconns (disarm d w) = dconns w /\ dchans (disarm d w) = dchans w) as (H1 & H2 & H3 & H4 & H6).
    { destruct d as [c []|]; cbn [disarm]; unfold clearDecoy, put_pool;
        repeat case_decide; split_and!; try done; by intros []. }
    unfold cancel_decoy. set (w1 := disarm d w) in *.
    assert (forall c, dconns w1 !! c = None -> dconns w !! c = None) as H5 by (intros; by rewrite <- H4).
    rewrite <- H6.
    destruct d as [c both|]; [|done]. destruct (dchans w1 !! c) as [[x|]|] eqn:Ec; try done.
    split_and!; [done..| | |].
    + intros up. rewrite <- (proj1 (H3 up)), <- (proj2 (H3 up)). by destruct up.
    + simpl. intros c' Hc. apply H5. destruct (decide (c' = x)) as [->|].
      * rewrite lookup_alter_eq in Hc. by destruct (dconns w1 !! x).
      * by rewrite lookup_alter_ne in Hc.
    + simpl. intros ch Hch. rewrite lookup_insert_ne; [done|congruence].
  - split_and!; try done. unfold set_pending. rewrite <- E. by destruct s.
Qed.

(** PASV outside the tunnel directories, when both pools have their shared ports. *)
Lemma handlePASV_decoy g e s w :
  Trim (cwd s) "/" <> PathUpload -> Trim (cwd s) "/" <> PathDownload ->
  (forall up, Single (p_r (the_pool up w)) = true /\ is_Some (p_shared (the_pool up w))) ->
  exists port w0, let ch := fresh_id (dchans w0) in
    handlePASV g e s w =
      (send227 g port (set_pending (Some (DChan ch true)) (set_pending None s)),
       arm_all true ch (set_dchans (<[ch := None]> (dchans w0)) w0)) /\
    handed w0 = handed w /\ sess w0 = sess w /\
    (forall up, is_Some (p_shared (the_pool up w0))) /\
    (forall c, dconns w0 !! c = None -> dconns w !! c = None) /\
    (forall ch, dchans w !! ch = Some None -> dchans w0 !! ch = Some None).
Proof.
  intros Hu Hd Hp. unfold handlePASV. st_run.
  pose proof (clearPasv_frame s w) as H. destruct (clearPasv s w) as [s0 w0].
  destruct H as (-> & H1 & H2 & H3 & H4 & H5). change (cwd (set_pending None s)) with (cwd s).
  rewrite (proj2 (String.eqb_neq _ _) Hu), (proj2 (String.eqb_neq _ _) Hd).
  unfold reserveDecoyAny. st_run.
  assert (Single (p_r (upPool w0)) = true) as ->.
  { change (upPool w0) with (the_pool true w0). rewrite (proj2 (H3 true)). apply (Hp true). }
  assert (Single (p_r (downPool w0)) = true) as ->.
  { change (downPool w0) with (the_pool false w0). rewrite (proj2 (H3 false)). apply (Hp false). }
  assert (forall up, is_Some (p_shared (the_pool up w0))) as Hs
    by (intros up; rewrite (proj1 (H3 up)); apply Hp).
  cbn [negb orb]. unfold ensureShared. st_run.
  destruct (Hs true) as [[n1 q1] E1], (Hs false) as [[n2 q2] E2]. simpl in E1, E2.
  rewrite E1. simpl. rewrite E2. simpl. exists q2, w0. by split_and!.
Qed.

Definition pasv_list : list byte := bytes_of ("PASV" +:+ crlf +:+ "LIST" +:+ crlf).

(** What the two commands leave in the session. *)
Definition transfer_done (g : Globals) (port : Z) (s : ftpSess) : ftpSess :=
  sendf 226 "Directory send OK."
    (sendf 150 "Here comes the directory listing."
       (send227 g port (set_pending None (set_io [] (s_out s) s)))).

Lemma frun_cons g tls ev evs w : (frun g tls (ev :: evs) w).2 = (frun g tls evs (fstep g tls ev w).2).2.
Proof. cbn [frun]. destruct (fstep g tls ev w) as [o w1]. simpl. by destruct (frun g tls evs w1). Qed.

(** A turn of the command loop. *)
Lemma fstep_line g tls sid e s l r w :
  sess w !! sid = Some s -> s_phase s = Idle -> cut_nl (s_in s) = Some (l, r) ->
  (fstep g tls (EvLine sid e) w).2 =
    let '(s', w') := command g tls e (string_of l +:+ String "010" "") (set_io r (s_out s) s) w in
    put_sess sid s' w'.
Proof. intros Hs Hph Hl. cbn [fstep]. rewrite Hs, Hph, Hl. by destruct (command _ _ _ _ _ _). Qed.

Lemma command_pasv g tls e s w :
  authed s = true ->
  command g tls e ("PASV" +:+ crlf) s w = handlePASV g e s w.
Proof.
  intros Ha. unfold command. change (parse_line ("PASV" +:+ crlf)) with ("PASV"%string, ""%string).
  cbv iota beta. cbn [String.eqb Ascii.eqb Bool.eqb orb andb]. by rewrite Ha.
Qed.

Lemma command_list g tls e s w :
  authed s = true ->
  command g tls e ("LIST" +:+ crlf) s w = (openData (TList "LIST") s, w).
Proof.
  intros Ha. unfold command. change (parse_line ("LIST" +:+ crlf)) with ("LIST"%string, ""%string).
  cbv iota beta. cbn [String.eqb Ascii.eqb Bool.eqb orb andb]. by rewrite Ha.
Qed.

(** A shared listener accepts the connection for an armed channel, or for the tunnel. *)
Lemma fstep_accept_armed g tls up ch w :
  is_Some (p_shared (the_pool up w)) -> p_pend (the_pool up w) = Some ch ->
  dchans w !! ch = Some None ->
  let c := fresh_id (dconns w) in
  (fstep g tls (EvAccept up) w).2 =
    set_dchans (<[ch := Some c]> (dchans w))
      (set_dconns (<[c := MkData true false ""]> (dconns w)) w).
Proof.
  intros [x Hx] Hp Hc. cbn [fstep]. rewrite Hx. unfold fresh_data, accept_shared.
  set (w1 := set_dconns _ w). assert (the_pool up w1 = the_pool up w) as -> by by destruct up.
  rewrite Hp. simpl. by rewrite Hc.
Qed.

Lemma fstep_accept_tunnel g tls up w :
  is_Some (p_shared (the_pool up w)) -> p_pend (the_pool up w) = None ->
  let c := fresh_id (dconns w) in
  (fstep g tls (EvAccept up) w).2 =
    set_handed (handed w ++ [c]) (set_dconns (<[c := MkData true false ""]> (dconns w)) w).
Proof.
  intros [x Hx] Hp. cbn [fstep]. rewrite Hx. unfold fresh_data, accept_shared.
  set (w1 := set_dconns _ w). assert (the_pool up w1 = the_pool up w) as -> by by destruct up.
  by rewrite Hp.
Qed.

(** The end of a wait that has its connection, for a listing without TLS. *)
Lemma fstep_wait_list g tls sid e s ch c w x :
  sess w !! sid = Some s -> s_phase s = Waiting (DChan ch true) (TList "LIST") ->
  dataProtP s = false -> dchans w !! ch = Some (Some c) -> dconns w !! c = Some x ->
  let w' := (fstep g tls (EvWait sid e true) w).2 in
  sess w' !! sid = Some (sendf 226 "Directory send OK."
    (sendf 150 "Here comes the directory listing." (set_phase Idle s))) /\
  handed w' = handed w /\
  (forall up, p_shared (the_pool up w') = p_shared (the_pool up w)) /\
  (forall up, p_pend (the_pool up w) = Some ch -> p_pend (the_pool up w') = None) /\
  dconns w' !! c = Some (MkData false (d_tls x)
    (d_out x +:+ String.concat "" (map (list_line "LIST") (e_files e)))).
Proof.
  intros Hs Hph Hprot Hc Hx. cbn [fstep]. rewrite Hs, Hph. unfold wait_decoy. st_run.
  rewrite Hc. st_run. unfold run_transfer.
  change (dataProtP (set_phase Idle s)) with (dataProtP s). rewrite Hprot. st_run.
  assert (forall w0, handed (clearDecoy false ch (clearDecoy true ch w0)) = handed w0 /\
    dconns (clearDecoy false ch (clearDecoy true ch w0)) = dconns w0 /\
    (forall up, p_shared (the_pool up (clearDecoy false ch (clearDecoy true ch w0))) =
                p_shared (the_pool up w0)) /\
    (forall up, p_pend (the_pool up w0) = Some ch ->
      p_pend (the_pool up (clearDecoy false ch (clearDecoy true ch w0))) = None)) as Hcl.
  { intros w0. unfold clearDecoy, put_pool; repeat case_decide; split_and!; try done;
      intros []; simpl in *; intros; try done; congruence. }
  destruct (Hcl w) as (E1 & E2 & E3 & E4). split_and!.
  - by rewrite lookup_insert_eq.
  - done.
  - intros up. rewrite <- (E3 up). by destruct up.
  - intros up Hup. rewrite <- (E4 up Hup). by destruct up.
  - rewrite E2, !lookup_alter_eq, Hx. done.
Qed.

Lemma transfer_run g tls e1 e2 e3 up up' sid s w :
  sess w !! sid = Some s -> s_phase s = Idle -> authed s = true -> dataProtP s = false ->
  s_in s = pasv_list -> Trim (cwd s) "/" <> PathUpload -> Trim (cwd s) "/" <> PathDownload ->
  (forall up, Single (p_r (the_pool up w)) = true /\ is_Some (p_shared (the_pool up w))) ->
  let w' := (frun g tls [EvLine sid e1; EvAccept up; EvLine sid e2; EvWait sid e3 true;
                         EvAccept up'] w).2 in
  exists c c' port,
    dconns w !! c = None /\ c' <> c /\ handed w' = handed w ++ [c'] /\
    dconns w' !! c =
      Some (MkData false false (String.concat "" (map (list_line "LIST") (e_files e3)))) /\
    sess w' !! sid = Some (transfer_done g port s).
Proof.
  intros Hs Hph Ha Hprot Hin Hu Hd Hp. rewrite !frun_cons.
  set (s0 := set_io (bytes_of ("LIST" +:+ crlf)) (s_out s) s).
  destruct (handlePASV_decoy g e1 s0 w Hu Hd Hp) as (port & w0 & E & H1 & H2 & H3 & H4 & _).
  set (ch := fresh_id (dchans w0)) in *.
  set (s1 := send227 g port (set_pending (Some (DChan ch true)) (set_pending None s0))) in *.
  set (w1 := put_sess sid s1 (arm_all true ch (set_dchans (<[ch := None]> (dchans w0)) w0))).
  assert ((fstep g tls (EvLine sid e1) w).2 = w1) as ->.
  { rewrite (fstep_line g tls sid e1 s (bytes_of ("PASV" +:+ String "013" ""))
      (bytes_of ("LIST" +:+ crlf)) w) by (done || by rewrite Hin).
    change (command g tls e1 _ _ w) with (command g tls e1 ("PASV" +:+ crlf) s0 w).
    by rewrite (command_pasv g tls e1 s0 w), E by done. }
  rewrite (fstep_accept_armed g tls up ch w1);
    [|destruct up; [apply (H3 true)|apply (H3 false)]|by destruct up|simpl; by rewrite lookup_insert_eq].
  set (c := fresh_id (dconns w1)). set (w2 := set_dchans _ (set_dconns _ w1)).
  set (s2 := set_phase (Waiting (DChan ch true) (TList "LIST")) (set_pending None (set_io [] (s_out s1) s1))).
  assert ((fstep g tls (EvLine sid e2) w2).2 = put_sess sid s2 w2) as ->.
  { rewrite (fstep_line g tls sid e2 s1 (bytes_of ("LIST" +:+ String "013" "")) [] w2)
      by (done || by simpl; rewrite lookup_insert_eq).
    change (command g tls e2 _ ?s w2) with (command g tls e2 ("LIST" +:+ crlf) s w2).
    by rewrite command_list by done. }
  set (w3 := put_sess sid s2 w2).
  destruct (fstep_wait_list g tls sid e3 s2 ch c w3 (MkData true false ""))
    as (F1 & F2 & F3 & F4 & F5).
  { simpl. by rewrite lookup_insert_eq. }
  { done. }
  { done. }
  { simpl. by rewrite lookup_insert_eq. }
  { simpl. by rewrite lookup_insert_eq. }
  set (w4 := (fstep g tls (EvWait sid e3 true) w3).2) in *.
  rewrite (fstep_accept_tunnel g tls up' w4).
  2:{ rewrite F3. destruct up'; [apply (H3 true)|apply (H3 false)]. }
  2:{ apply F4. by destruct up'. }
  assert (fresh_id (dconns w4) <> c) as Hne.
  { intros Hc. pose proof (fresh_id_None (dconns w4)) as Hf. rewrite Hc in Hf. congruence. }
  exists c, (fresh_id (dconns w4)), port. split_and!.
  - apply H4. apply (fresh_id_None (dconns w1)).
  - done.
  - simpl. rewrite F2. simpl. by rewrite H1.
  - simpl. by rewrite lookup_insert_ne.
  - change (sess w4 !! sid = Some (transfer_done g port s)). rewrite F1. unfold transfer_done.
    assert (set_phase Idle s2 = send227 g port (set_pending None (set_io [] (s_out s) s))) as ->.
    { unfold s2, s1, s0. destruct s. cbn in Hph. subst. reflexivity. }
    reflexivity.
Qed.

(** ** Properties *)

(** C22: Login gate.  After any run of the server, under any interleaving of its sessions, a
    session is logged in exactly if it has read the right USER line and, later, the right PASS
    line, whatever came in between; and a session that is not logged in holds no data port and
    waits for no transfer. *)
Theorem Login_gate (c : Config) (g0 : Globals) load (e : cenv) (g : Globals) (w0 : Facade)
    (tls : bool) (evs : list event) (ls : list (nat * string)) (w : Facade)
    (sid : nat) (s : ftpSess) :
  Run c g0 load e = Ok (g, w0) -> frun g tls evs w0 = (ls, w) -> sess w !! sid = Some s ->
  (authed s = true <-> logged_in g (lines_of sid ls)) /\ (authed s = false -> holds_none s).
Proof.
  intros HR Hf Hs. destruct (Run_finv _ _ _ _ _ _ HR) as [I0 E0].
  pose proof (frun_fact g tls evs w0 I0) as H. rewrite Hf in H. destruct H as [I H].
  specialize (H sid). rewrite Hs, E0, lookup_empty in H. simpl in H. split.
  - replace (authed s) with (login_lines g (lines_of sid ls) (false, false)).2 by by rewrite <- H.
    rewrite login_lines_spec. intuition done.
  - apply (f_sess _ _ I _ _ Hs).
Qed.

(** The tunnel's ports.  Whenever no FTP session holds a data port, every connection that a
    shared port accepts goes to the tunnel, and no listener of a decoy transfer is left open. *)
Theorem Tunnel_undisturbed (c : Config) (g0 : Globals) load (e : cenv) (g : Globals)
    (w0 : Facade) (tls : bool) (evs : list event) (ls : list (nat * string)) (w : Facade) :
  Run c g0 load e = Ok (g, w0) -> frun g tls evs w0 = (ls, w) ->
  (forall sid s, sess w !! sid = Some s -> holds_none s) ->
  (forall up, is_Some (p_shared (the_pool up w)) ->
     handed (fstep g tls (EvAccept up) w).2 = handed w ++ [fresh_id (dconns w)]) /\
  (forall n l, lns w !! n = Some l -> l_for l = LDecoy -> l_open l = false).
Proof.
  intros HR Hf Hn. destruct (Run_finv _ _ _ _ _ _ HR) as [I0 _].
  pose proof (frun_fact g tls evs w0 I0) as H. rewrite Hf in H. destruct H as [I _]. split.
  - intros up Hup. rewrite fstep_accept_tunnel; [done|done|].
    destruct (p_pend (the_pool up w)) as [ch|] eqn:Ep; [|done].
    destruct (f_pend _ _ I _ _ Ep) as (sid & s & b & Hs & Hh & _). by destruct (Hn sid s Hs _ Hh).
  - intros n l Hl Hd. destruct (l_open l) eqn:Eo; [|done].
    destruct (f_ln _ _ I _ _ Hl Eo Hd) as (sid & s & Hs & Hh). by destruct (Hn sid s Hs _ Hh).
Qed.

(** A decoy transfer.  When both pools have one shared port, a logged-in session outside
    the tunnel directories that sends PASV and LIST gets the next connection to either port:
    the listing is written to it and it is closed, the three replies are sent, and the tunnel
    gets nothing in between and the connection after. *)
Theorem Decoy_transfer (g : Globals) (tls : bool) (e1 e2 e3 : cenv) (up up' : bool) (sid : nat)
    (s : ftpSess) (w : Facade) :
  sess w !! sid = Some s -> s_phase s = Idle -> authed s = true -> dataProtP s = false ->
  s_in s = pasv_list -> Trim (cwd s) "/" <> PathUpload -> Trim (cwd s) "/" <> PathDownload ->
  (forall up, Single (p_r (the_pool up w)) = true /\ is_Some (p_shared (the_pool up w))) ->
  let w' := (frun g tls [EvLine sid e1; EvAccept up; EvLine sid e2; EvWait sid e3 true;
                         EvAccept up'] w).2 in
  exists c c' port,
    dconns w !! c = None /\ c' <> c /\ handed w' = handed w ++ [c'] /\
    dconns w' !! c =
      Some (MkData false false (String.concat "" (map (list_line "LIST") (e_files e3)))) /\
    sess w' !! sid = Some (transfer_done g port s).
Proof. apply transfer_run. Qed.

(** Competing transfers.  When the pools have one shared port each, a PASV of one session
    takes the data ports away from all transfers that have no connection yet: whatever happens
    afterwards, the wait of such a transfer ends in "Use PASV first.". *)
Theorem Decoy_superseded (g : Globals) (tls : bool) (e : cenv) (sid ch : nat) (s : ftpSess)
    (rest : list byte) (w : Facade) :
  dchans w !! ch = Some None ->
  sess w !! sid = Some s -> s_phase s = Idle -> authed s = true ->
  s_in s = bytes_of ("PASV" +:+ crlf) ++ rest ->
  Trim (cwd s) "/" <> PathUpload -> Trim (cwd s) "/" <> PathDownload ->
  (forall up, Single (p_r (the_pool up w)) = true /\ is_Some (p_shared (the_pool up w))) ->
  forall evs, let w' := (frun g tls (EvLine sid e :: evs) w).2 in
    dchans w' !! ch = Some None /\
    forall sid1 s1 b t e1 ok,
      sess w' !! sid1 = Some s1 -> s_phase s1 = Waiting (DChan ch b) t ->
      sess (fstep g tls (EvWait sid1 e1 ok) w').2 !! sid1 =
        Some (sendf 425 "Use PASV first." (set_phase Idle s1)).
Proof.
  intros Hch Hs Hph Ha Hin Hu Hd Hp evs. cbv zeta. rewrite frun_cons.
  assert (stale ch (fstep g tls (EvLine sid e) w).2) as Hst.
  { set (s0 := set_io rest (s_out s) s).
    rewrite (fstep_line g tls sid e s (bytes_of ("PASV" +:+ String "013" "")) rest w)
      by (done || by rewrite Hin).
    change (command g tls e _ _ w) with (command g tls e ("PASV" +:+ crlf) s0 w).
    rewrite command_pasv by done.
    destruct (handlePASV_decoy g e s0 w Hu Hd Hp) as (port & w1 & -> & _ & _ & _ & _ & H5).
    specialize (H5 ch Hch). set (n := fresh_id (dchans w1)). set (w2 := set_dchans _ w1).
    assert (n <> ch) as Hne.
    { unfold n. intros E. pose proof (fresh_id_None (dchans w1)) as Hf. rewrite E in Hf. congruence. }
    destruct (arm_all_facts true n w2) as (E1 & _ & _ & F).
    eapply (stale_fields ch (arm_all true n w2)); try done. split.
    - rewrite E1. simpl. by rewrite lookup_insert_ne.
    - intros up. destruct (F up) as (_ & _ & ->). rewrite orb_true_r. congruence. }
  apply (stale_frun g tls ch evs) in Hst. set (w' := (frun g tls evs _).2) in *.
  destruct Hst as [Hd' _]. split; [done|]. intros sid1 s1 b t e1 ok Hs1 Hph1.
  cbn [fstep]. rewrite Hs1, Hph1. unfold wait_decoy. st_run. rewrite Hd'. st_run.
  by rewrite lookup_insert_eq.
Qed.

(** ** Witnesses *)

Definition demo_config : Config :=
  MkConfig "" "" "" "" "1.2.3.4" "8080" "8081" false "" "" false "" false.
Definition demo_env : cenv :=
  MkEnv (fun _ => None) 7 0 "20240101000000" (map fst decoyFiles) true true.

Definition demo_lines (l : list string) : list byte :=
  bytes_of (String.concat "" (map (fun x => x +:+ crlf) l)).

(** Two control connections; the first logs in. *)
Definition demo_events : list event :=
  [EvConn "10.0.0.1:21" 2; EvConn "10.0.0.1:21" 2;
   EvRecv 1 (demo_lines ["USER tunnel"; "USER nobody"; "PASS secret"]);
   EvLine 1 demo_env; EvLine 1 demo_env; EvLine 1 demo_env].

Definition demo_run (evs : list event) : option (list (nat * string) * Facade) :=
  match Run demo_config default_globals (fun _ _ => None) demo_env with
  | Ok (g, w0) => Some (frun g false evs w0)
  | _ => None
  end.

Definition demo_globals : Globals := applyConfig demo_config default_globals.
Definition demo_w0 : Facade :=
  match Run demo_config default_globals (fun _ _ => None) demo_env with
  | Ok (_, w) => w | _ => init_facade (MkPortRange 1 1) (MkPortRange 1 1) end.
Definition demo_w (evs : list event) : Facade := (frun demo_globals false evs demo_w0).2.

Lemma demo_Run :
  Run demo_config default_globals (fun _ _ => None) demo_env = Ok (demo_globals, demo_w0).
Proof. by vm_compute. Qed.

(** A field of a looked-up value, by evaluation. *)
Lemma field_of {A B} (f : A -> B) m s y : m = Some s -> f <$> m = Some y -> f s = y.
Proof. intros ->. by intros [= <-]. Qed.

Lemma Login_gate_witness :
  exists s, sess (demo_w demo_events) !! 1%nat = Some s /\ authed s = true /\
    logged_in demo_globals (lines_of 1 (frun demo_globals false demo_events demo_w0).1).
Proof.
  destruct (sess (demo_w demo_events) !! 1%nat) as [s|] eqn:E; [|vm_compute in E; discriminate].
  assert (authed s = true) as Ha by (apply (field_of authed _ _ _ E); by vm_compute).
  exists s. split_and!; [done|done|].
  apply (Login_gate demo_config default_globals (fun _ _ => None) demo_env demo_globals demo_w0
    false demo_events _ (demo_w demo_events) 1 s demo_Run); [|done|done].
  unfold demo_w. by destruct (frun _ _ _ _).
Defined.

Definition no_decoy (s : ftpSess) : bool :=
  match pending s, s_phase s with
  | None, Waiting _ _ => false
  | None, _ => true
  | _, _ => false
  end.

Lemma no_decoy_none s : no_decoy s = true -> holds_none s.
Proof.
  unfold no_decoy. intros H d [Hd|[t Hd]]; rewrite Hd in H; [done|]. by destruct (pending s).
Qed.

Lemma Tunnel_undisturbed_witness :
  let w := demo_w demo_events in
  handed (fstep demo_globals false (EvAccept true) w).2 = handed w ++ [fresh_id (dconns w)].
Proof.
  assert (frun demo_globals false demo_events demo_w0 =
    ((frun demo_globals false demo_events demo_w0).1, demo_w demo_events)) as Hr
    by (unfold demo_w; by destruct (frun _ _ _ _)).
  apply (Tunnel_undisturbed demo_config default_globals (fun _ _ => None) demo_env demo_globals
    demo_w0 false demo_events _ (demo_w demo_events) demo_Run Hr).
  - intros sid s Hs. apply no_decoy_none.
    assert (map_Forall (fun _ s => no_decoy s = true) (sess (demo_w demo_events))) as H
      by (apply (bool_decide_unpack _); by vm_compute).
    by eapply H.
  - apply (is_Some_alt _); by vm_compute.
Defined.

(** The first session has sent PASV and LIST. *)
Definition demo_transfer : list event := demo_events ++ [EvRecv 1 pasv_list].

Lemma Decoy_transfer_witness :
  let w := demo_w demo_transfer in
  exists s, sess w !! 1%nat = Some s /\
  exists c c' port, dconns w !! c = None /\ c' <> c /\
    let w' := (frun demo_globals false [EvLine 1 demo_env; EvAccept true; EvLine 1 demo_env;
      EvWait 1 demo_env true; EvAccept false] w).2 in
    handed w' = handed w ++ [c'] /\
    dconns w' !! c = Some (MkData false false
      (String.concat "" (map (list_line "LIST") (e_files demo_env)))) /\
    sess w' !! 1%nat = Some (transfer_done demo_globals port s).
Proof.
  cbv zeta. set (w := demo_w demo_transfer).
  destruct (sess w !! 1%nat) as [s|] eqn:E; [|vm_compute in E; discriminate].
  exists s. split; [done|].
  assert (s_phase s = Idle) by (apply (field_of s_phase _ _ _ E); by vm_compute).
  assert (authed s = true) by (apply (field_of authed _ _ _ E); by vm_compute).
  assert (dataProtP s = false) by (apply (field_of dataProtP _ _ _ E); by vm_compute).
  assert (s_in s = pasv_list) by (apply (field_of s_in _ _ _ E); by vm_compute).
  assert (cwd s = "/"%string) as H5 by (apply (field_of cwd _ _ _ E); by vm_compute).
  assert (forall up, Single (p_r (the_pool up w)) = true /\ is_Some (p_shared (the_pool up w))) as Hp.
  { intros []; (split; [by vm_compute|apply (is_Some_alt _); by vm_compute]). }
  clearbody w.
  apply (Decoy_transfer demo_globals false demo_env demo_env demo_env true false 1 s w);
    first [assumption | by rewrite H5].
Defined.

(** The second session, logged in too, has a transfer pending; the first one sends PASV. *)
Definition demo_rivals : list event :=
  demo_events ++
  [EvRecv 2 (demo_lines ["USER tunnel"; "PASS secret"; "PASV"]); EvLine 2 demo_env;
   EvLine 2 demo_env; EvLine 2 demo_env; EvRecv 1 (demo_lines ["PASV"])].

Lemma Decoy_superseded_witness :
  let w := demo_w demo_rivals in
  dchans w !! 1%nat = Some None /\
  (exists s, sess w !! 2%nat = Some s /\ pending s = Some (DChan 1 true)) /\
  dchans (frun demo_globals false [EvLine 1 demo_env; EvAccept true; EvAccept false] w).2
    !! 1%nat = Some None.
Proof.
  cbv zeta. set (w := demo_w demo_rivals).
  assert (dchans w !! 1%nat = Some None) as Hc by (by vm_compute).
  split; [done|]. split.
  { destruct (sess w !! 2%nat) as [s|] eqn:E; [|vm_compute in E; discriminate]. exists s.
    split; [done|]. apply (field_of pending _ _ _ E). by vm_compute. }
  destruct (sess w !! 1%nat) as [s|] eqn:E; [|vm_compute in E; discriminate].
  assert (s_phase s = Idle) by (apply (field_of s_phase _ _ _ E); by vm_compute).
  assert (authed s = true) by (apply (field_of authed _ _ _ E); by vm_compute).
  assert (s_in s = bytes_of ("PASV" +:+ crlf) ++ [])
    by (apply (field_of s_in _ _ _ E); by vm_compute).
  assert (cwd s = "/"%string) as H4 by (apply (field_of cwd _ _ _ E); by vm_compute).
  assert (forall up, Single (p_r (the_pool up w)) = true /\ is_Some (p_shared (the_pool up w))) as Hp.
  { intros []; (split; [by vm_compute|apply (is_Some_alt _); by vm_compute]). }
  clearbody w.
  apply (Decoy_superseded demo_globals false demo_env 1 1 s [] w);
    first [assumption | by rewrite H4].
Defined.
