(* ===== verification/FtpLogin.v ===== *)
(** The FTP client connection against the FTP façade: FtpConn.v and FtpControl.v together.

    The two programs share a control connection: what one sends is the input of the other.
    The theorems run the server on the lines the client writes and the client on the replies
    the server sends. *)

From S2P Require Import Prelude GoLib GoText FtpProtocol FtpChannel FtpConn FtpControl FtpControlThms.
From Stdlib Require Import ZArith Lia Strings.Byte Strings.Ascii Strings.String.
From stdpp Require Import gmap strings list fin_maps pretty.

#[local] Open Scope Z_scope.

(** ** Lines *)

(** A text that can be an argument of a command: no line end, no verb of a format. *)
Definition word (s : string) : Prop := free "010" s /\ free "013" s /\ free "%" s.

#[export] Instance word_dec s : Decision (word s).
Proof. unfold word. apply _. Defined.

Lemma TrimRight_crlf a : free "010" a -> free "013" a -> TrimRight (a +:+ crlf) crlf = a.
Proof.
  induction a as [|c a IH]; [done|]. intros [Hc Ha] [Hd Hb].
  change (String c a +:+ crlf) with (String c (a +:+ crlf)). cbn [TrimRight]. rewrite IH by done.
  destruct a; [|done]. unfold in_cutset.
  assert (ContainsByte crlf c = false) as -> by (apply ContainsByte_free; simpl; intuition).
  done.
Qed.

Lemma drop_s_cons_app a n x : drop_s (S (String.length a)) (a +:+ String n x) = x.
Proof. induction a as [|c a IH]; [apply drop_s_0|apply IH]. Qed.

Lemma SplitN2_word a b : free " " a -> SplitN2 (a +:+ String " " b) " " = [a; b].
Proof.
  intros H. unfold SplitN2. rewrite IndexByte_app by done. pose proof (slen_nonneg a).
  rewrite (proj2 (Z.ltb_ge _ _)) by lia.
  assert (Z.to_nat (slen a) = String.length a) as -> by (unfold slen; lia).
  rewrite take_s_app by done. by rewrite drop_s_cons_app.
Qed.

Lemma parse_word cmd arg :
  word cmd -> word arg -> free " " cmd -> ToUpper cmd = cmd ->
  parse_line (cmd +:+ " " +:+ arg +:+ crlf) = (cmd, arg).
Proof.
  intros (H1 & H2 & _) (H3 & H4 & _) Hs Hu. unfold parse_line.
  assert (cmd +:+ " " +:+ arg +:+ crlf = (cmd +:+ " " +:+ arg) +:+ crlf) as ->
    by (by rewrite !sapp_assoc).
  rewrite TrimRight_crlf by (rewrite ?free_app; repeat split; done).
  change (cmd +:+ " " +:+ arg) with (cmd +:+ String " " arg).
  rewrite SplitN2_word by done. simpl. by rewrite Hu.
Qed.

(** The reader of a session cuts a line off its input. *)
Lemma cut_line line r :
  free "010" line ->
  cut_nl (bytes_of (line +:+ crlf) ++ r) = Some (bytes_of line ++ [x0d%byte], r).
Proof.
  intros H. rewrite bytes_of_app.
  change (bytes_of crlf) with ([x0d%byte] ++ [x0a%byte]). rewrite <- !app_assoc. simpl.
  change (x0d%byte :: x0a%byte :: r) with ([x0d%byte] ++ x0a%byte :: r). rewrite app_assoc.
  apply cut_nl_app. apply (free_bytes "010") in H.
  rewrite not_elem_of_app, list_elem_of_singleton. by split.
Qed.

Lemma string_of_app a b : string_of (a ++ b) = string_of a +:+ string_of b.
Proof.
  apply bytes_of_inj. by rewrite bytes_of_string_of, bytes_of_app, !bytes_of_string_of.
Qed.

(** A turn of the command loop for a line of the client. *)
Lemma fstep_word g tls sid e s line r w :
  free "010" line -> sess w !! sid = Some s -> s_phase s = Idle ->
  s_in s = bytes_of (line +:+ crlf) ++ r ->
  (fstep g tls (EvLine sid e) w).2 =
    let '(s', w') := command g tls e (line +:+ crlf) (set_io r (s_out s) s) w in
    put_sess sid s' w'.
Proof.
  intros Hf Hs Hph Hin.
  assert (cut_nl (s_in s) = Some (bytes_of line ++ [x0d%byte], r)) as Hcut
    by (rewrite Hin; by apply cut_line).
  rewrite (fstep_line g tls sid e s (bytes_of line ++ [x0d%byte]) r w) by done.
  rewrite string_of_app, string_of_bytes_of. rewrite <- sapp_assoc. done.
Qed.

(** *** The three commands of a login *)

Lemma command_user g tls e u s w :
  word u ->
  command g tls e ("USER " +:+ u +:+ crlf) s w =
    (if String.eqb u (cfgUser g)
     then sendf 331 "Please specify the password." (set_auth (authed s) true s)
     else sendf 530 "Login incorrect." s, w).
Proof.
  intros Hu. unfold command.
  change ("USER " +:+ u +:+ crlf) with ("USER" +:+ " " +:+ u +:+ crlf).
  rewrite parse_word by (done || by apply (bool_decide_unpack _); vm_compute). cbv iota beta.
  cbn [String.eqb Ascii.eqb Bool.eqb orb andb]. by destruct (String.eqb u _).
Qed.

Lemma command_pass g tls e p s w :
  word p ->
  command g tls e ("PASS " +:+ p +:+ crlf) s w =
    (if userOK s && String.eqb p (cfgPass g)
     then sendf 230 "Login successful." (set_auth true (userOK s) s)
     else sendf 530 "Login incorrect." s, w).
Proof.
  intros Hp. unfold command.
  change ("PASS " +:+ p +:+ crlf) with ("PASS" +:+ " " +:+ p +:+ crlf).
  rewrite parse_word by (done || by apply (bool_decide_unpack _); vm_compute). cbv iota beta.
  cbn [String.eqb Ascii.eqb Bool.eqb orb andb]. by destruct (userOK s && _).
Qed.

Lemma command_type g tls e s w :
  command g tls e ("TYPE I" +:+ crlf) s w = (sendf 200 "Switching to Binary mode." s, w).
Proof. done. Qed.

(** ** The client's side *)

(** simpleCmd on the reply that is next in the input. *)
Lemma simpleCmd_reply expect line code msg r e t w :
  free "%" line -> 100 <= code < 1000 -> 100 <= expect < 1000 -> free "010" msg ->
  simpleCmd expect line (Conn (bytes_of (reply_line code msg +:+ crlf) ++ r) e t None w) =
    (if code =? expect then Ok tt else Err (Errorf "%03d %s"),
     Conn r e (t ++ bytes_of (line +:+ crlf)) None w).
Proof.
  intros Hl Hc He Hm. unfold simpleCmd. rewrite Sprintf0_free by done. unfold PrintfLine.
  rewrite (bind_Ok _ _ _ _ _ (Write__Conn _ _ _ _ _)).
  rewrite IO_bind_eq, ReadResponse_reply by done. by destruct (code =? expect).
Qed.

(** ** Login *)

Definition login_input (u p : string) : list byte :=
  bytes_of ("USER " +:+ u +:+ crlf) ++ bytes_of ("PASS " +:+ p +:+ crlf) ++
  bytes_of ("TYPE I" +:+ crlf).

(** The replies to the three lines, after the greeting. *)
Definition login_replies (g : Globals) (u p : string) : list (Z * string) :=
  [if String.eqb u (cfgUser g) then (331, "Please specify the password.")
   else (530, "Login incorrect.");
   if String.eqb u (cfgUser g) && String.eqb p (cfgPass g) then (230, "Login successful.")
   else (530, "Login incorrect.");
   (200, "Switching to Binary mode.")]%string.

Fixpoint replies_text (l : list (Z * string)) : string :=
  match l with
  | [] => EmptyString
  | (code, msg) :: l => (reply_line code msg +:+ crlf) +:+ replies_text l
  end.

Lemma sendf_replies code msg s l :
  s_out s = replies_text l -> s_out (sendf code msg s) = replies_text (l ++ [(code, msg)]).
Proof.
  intros H. change (s_out (sendf code msg s)) with (s_out s +:+ (reply_line code msg +:+ crlf)).
  rewrite H. clear H. induction l as [|[c m] l IH]; cbn [replies_text app]; [by rewrite sapp_nil_r|].
  by rewrite <- IH, <- sapp_assoc.
Qed.

Lemma server_login g tls e u p hello addr sid w :
  word u -> word p ->
  sess w !! sid = Some (sendf 220 hello (newFTPSess addr)) ->
  let w' := (frun g tls [EvRecv sid (login_input u p); EvLine sid e; EvLine sid e; EvLine sid e] w).2 in
  exists s', sess w' !! sid = Some s' /\
    s_out s' = replies_text ((220, hello) :: login_replies g u p) /\
    authed s' = String.eqb u (cfgUser g) && String.eqb p (cfgPass g).
Proof.
  intros Hu Hp Hs. rewrite !frun_cons.
  set (s0 := sendf 220 hello (newFTPSess addr)) in *.
  set (s1 := set_io (login_input u p) (s_out s0) s0).
  assert ((fstep g tls (EvRecv sid (login_input u p)) w).2 = put_sess sid s1 w) as ->.
  { cbn [fstep]. by rewrite Hs. }
  assert (forall s w, sess (put_sess sid s w) !! sid = Some s) as Hput
    by (intros; simpl; by rewrite lookup_insert_eq).
  assert (free "010" ("USER " +:+ u) /\ free "010" ("PASS " +:+ p)) as [F1 F2].
  { rewrite !free_app. destruct Hu as (? & _), Hp as (? & _). by repeat split. }
  rewrite (fstep_word g tls sid e s1 ("USER " +:+ u)
    (bytes_of ("PASS " +:+ p +:+ crlf) ++ bytes_of ("TYPE I" +:+ crlf)) (put_sess sid s1 w));
    [|done|apply Hput|done|].
  2:{ unfold s1, login_input. simpl s_in. by rewrite <- sapp_assoc. }
  rewrite <- sapp_assoc, command_user by done. cbv zeta beta iota.
  set (s2 := if String.eqb u _ then _ else _).
  assert (s_phase s2 = Idle /\ userOK s2 = String.eqb u (cfgUser g) /\ authed s2 = false /\
    s_in s2 = bytes_of ("PASS " +:+ p +:+ crlf) ++ bytes_of ("TYPE I" +:+ crlf) /\
    s_out s2 = replies_text ((220, hello) :: take 1 (login_replies g u p))) as (A1 & A2 & A3 & A4 & A5).
  { unfold s2, login_replies. destruct (String.eqb u _); split_and!; try done;
      by apply (sendf_replies _ _ _ [_]), (sendf_replies _ _ _ []). }
  clearbody s2.
  rewrite (fstep_word g tls sid e s2 ("PASS " +:+ p) (bytes_of ("TYPE I" +:+ crlf)) (put_sess sid s2 (put_sess sid s1 w)));
    [|done|apply Hput|done|].
  2:{ rewrite A4. by rewrite <- sapp_assoc. }
  rewrite <- sapp_assoc, command_pass by done. cbv zeta beta iota.
  set (s3 := if _ && _ then _ else _).
  assert (s_phase s3 = Idle /\ authed s3 = String.eqb u (cfgUser g) && String.eqb p (cfgPass g) /\
    s_in s3 = bytes_of ("TYPE I" +:+ crlf) /\
    s_out s3 = replies_text ((220, hello) :: take 2 (login_replies g u p))) as (B1 & B2 & B3 & B4).
  { unfold s3, login_replies in *. change (userOK (set_io _ _ s2)) with (userOK s2). rewrite A2.
    destruct (String.eqb u _ && String.eqb p _); split_and!; try done;
      by apply (sendf_replies _ _ _ [_; _]). }
  clearbody s3.
  rewrite (fstep_word g tls sid e s3 "TYPE I" [] (put_sess sid s3 (put_sess sid s2 (put_sess sid s1 w))));
    [|done|apply Hput|done|by rewrite B3, app_nil_r].
  rewrite command_type. cbv zeta beta iota. cbn [frun snd].
  eexists. split; [apply Hput|]. split; [|done].
  by apply (sendf_replies _ _ _ [_; _; _]).
Qed.

Lemma bytes_replies code msg l r :
  bytes_of (replies_text ((code, msg) :: l)) ++ r =
    bytes_of (reply_line code msg +:+ crlf) ++ (bytes_of (replies_text l) ++ r).
Proof. cbn [replies_text]. by rewrite bytes_of_app, app_assoc. Qed.

(** The client, on the replies of the server to the whole login. *)
Lemma client_login g u p hello a tlscfg de :
  word u -> word p -> free "010" hello ->
  dialOne a u p false tlscfg
    (MkDial (Ok (conn_of (bytes_of (replies_text ((220, hello) :: login_replies g u p))))) de) =
    if String.eqb u (cfgUser g) && String.eqb p (cfgPass g)
    then (Ok (MkFTP (Conn [] EOF (login_input u p) None EOF) true a u p false tlscfg false []), false)
    else (Err (Errorf "%03d %s"), true).
Proof.
  intros Hu Hp Hh. 
  assert (free "%" ("USER " +:+ u) /\ free "%" ("PASS " +:+ p)) as [Fu Fp].
  { rewrite !free_app. destruct Hu as (_ & _ & ?), Hp as (_ & _ & ?). by repeat split. }
  unfold dialOne. cbn [de_tcp]. unfold conn_of.
  rewrite <- (app_nil_r (bytes_of (replies_text _))), bytes_replies.
  rewrite IO_bind_eq, ReadResponse_reply by done. cbn [simpleCmds Z.eqb Pos.eqb].
  unfold login_replies. destruct (String.eqb u (cfgUser g)) eqn:Eu; cbn [andb];
    rewrite bytes_replies, IO_bind_eq, simpleCmd_reply by done; cbn [Z.eqb Pos.eqb]; [|done].
  destruct (String.eqb p (cfgPass g)) eqn:Ep; cbn [andb];
    rewrite bytes_replies, IO_bind_eq, simpleCmd_reply by done; cbn [Z.eqb Pos.eqb]; [|done].
  rewrite bytes_replies, IO_bind_eq, simpleCmd_reply by done. cbn [Z.eqb Pos.eqb].
  unfold mret, IO_ret, login_input. cbn [replies_text]. do 4 f_equal.
  by rewrite <- !app_assoc, !sapp_assoc.
Qed.

(** ** PASV *)

(** The four parts of a dotted address, free of the characters of a 227 reply. *)
Definition addr_part (s : string) : Prop :=
  free "." s /\ free "," s /\ free "(" s /\ free ")" s /\ free "010" s.
#[export] Instance addr_part_dec s : Decision (addr_part s).
Proof. unfold addr_part. apply _. Defined.

Definition dotted (ip : string) : Prop :=
  exists a b c d, ip = strings_Join [a; b; c; d] "." /\ Forall addr_part [a; b; c; d].

Lemma ReplaceAllByte_free s old new : free old s -> ReplaceAllByte s old new = s.
Proof.
  induction s as [|c s IH]; simpl; [done|]. intros [Hc H].
  rewrite (proj2 (Ascii.eqb_neq _ _)) by done. by rewrite IH.
Qed.
Lemma ReplaceAllByte_app a b old new :
  ReplaceAllByte (a +:+ b) old new = ReplaceAllByte a old new +:+ ReplaceAllByte b old new.
Proof.
  induction a as [|c a IH]; simpl; [done|]. rewrite IH. destruct (Ascii.eqb c old); [|done].
  by rewrite sapp_assoc.
Qed.

Lemma Sscanf_Itoa x : 0 <= x < 256 -> Sscanf_d (Itoa x) = Some x.
Proof.
  intros H. assert (forallb (fun z => bool_decide (Sscanf_d (Itoa z) = Some z)) (seqZ 0 256) = true)
    as F by (vm_compute; done).
  rewrite forallb_forall in F. specialize (F x).
  rewrite <- list_elem_of_In, elem_of_seqZ in F. specialize (F ltac:(lia)).
  by apply bool_decide_eq_true in F.
Qed.

Definition pasv_msg (ip : string) (port : Z) : string :=
  "Entering Passive Mode (" +:+ ReplaceAllByte ip "." "," +:+ "," +:+ Itoa (Z.quot port 256) +:+
  "," +:+ Itoa (Z.rem port 256) +:+ ").".

Lemma slice_mid a x b i j :
  i = slen a -> j = slen a + slen x -> slice (a +:+ x +:+ b) i j = Ok x.
Proof.
  intros -> ->. pose proof (slen_nonneg a). pose proof (slen_nonneg x). pose proof (slen_nonneg b).
  unfold slice. rewrite decide_True by (rewrite !slen_app; lia). f_equal.
  rewrite drop_s_app by (unfold slen; lia). apply take_s_app. unfold slen in *. lia.
Qed.

Lemma ParsePASV_msg ip port :
  dotted ip -> 0 <= port < 65536 ->
  ParsePASV (pasv_msg ip port) = Ok (ip +:+ ":" +:+ Itoa port) /\ free "010" (pasv_msg ip port).
Proof.
  intros (a & b & c & d & -> & Hf) Hp.
  rewrite !Forall_cons in Hf. destruct Hf as (Ha & Hb & Hc & Hd & _).
  set (q := Z.quot port 256). set (r := Z.rem port 256).
  assert (0 <= q < 256 /\ 0 <= r < 256 /\ q * 256 + r = port) as (Hq & Hr & Hqr)
    by (unfold q, r; Z.to_euclidean_division_equations; lia).
  set (fields := [a; b; c; d; Itoa q; Itoa r]).
  set (X := strings_Join fields ",").
  assert (pasv_msg (strings_Join [a; b; c; d] ".") port =
    "Entering Passive Mode (" +:+ X +:+ ").") as ->.
  { unfold pasv_msg. fold q r. f_equal. cbn [String.concat]. unfold X, fields. cbn [String.concat].
    rewrite !ReplaceAllByte_app.
    rewrite (ReplaceAllByte_free a), (ReplaceAllByte_free b), (ReplaceAllByte_free c),
      (ReplaceAllByte_free d) by (apply Ha || apply Hb || apply Hc || apply Hd).
    change (ReplaceAllByte "." "." ",") with ","%string. by rewrite <- !sapp_assoc. }
  assert (forall ch, digit ch = None -> ch <> "-"%char -> free ch a -> free ch b -> free ch c ->
    free ch d -> free ch "," -> free ch X) as HX.
  { intros ch H1 H2 Fa Fb Fc Fd Fm. unfold X, fields. cbn [String.concat].
    destruct Fm as [Fm _]. rewrite !free_app. repeat split; try done; by apply free_Itoa. }
  assert (free "(" X /\ free ")" X /\ free "010" X) as (X1 & X2 & X3).
  { split_and!; apply HX; try done; first [apply Ha | apply Hb | apply Hc | apply Hd]. }
  split.
  2:{ rewrite !free_app. by repeat split. }
  unfold ParsePASV.
  assert (LastIndexByte ("Entering Passive Mode (" +:+ X +:+ ").") "(" = 22) as ->.
  { change ("Entering Passive Mode (" +:+ X +:+ ").")
      with ("Entering Passive Mode " +:+ String "(" (X +:+ ").")).
    rewrite LastIndexByte_app; [done|]. rewrite free_app. by repeat split. }
  assert (LastIndexByte ("Entering Passive Mode (" +:+ X +:+ ").") ")" = 23 + slen X) as ->.
  { rewrite sapp_assoc. change (").") with (String ")" ".").
    rewrite LastIndexByte_app by done. by rewrite slen_app. }
  pose proof (slen_nonneg X). rewrite (proj2 (Z.ltb_ge (23 + slen X) 0)) by lia. cbn [Z.ltb orb Z.compare].
  rewrite slice_mid by done. cbn [mbind result_bind].
  assert (Split X "," = fields) as ->.
  { apply Split_Join; [done|]. unfold fields.
    rewrite !Forall_cons. repeat split; try (first [apply Ha|apply Hb|apply Hc|apply Hd]);
      try (by apply free_Itoa). apply Forall_nil_2. }
  unfold fields. rewrite !Sscanf_Itoa by done. cbn [default option_rect].
  unfold default, from_option, id. rewrite Hqr. unfold i64. rewrite Z.mod_small by lia.
  by replace (port + 2 ^ 63 - 2 ^ 63) with port by lia.
Qed.

(** PasvAddr on a reply of one line. *)
Lemma PasvAddr_reply c t code msg :
  dead c = false -> 100 <= code < 1000 -> free "010" msg ->
  ctrl c = Conn (bytes_of (reply_line code msg +:+ crlf)) EOF t None EOF ->
  let '(r, c') := PasvAddr c in
  tx (ctrl c') = t ++ bytes_of ("PASV" +:+ crlf) /\
  if code =? 227 then r = ParsePASV msg /\ dead c' = false
  else is_err r = true /\ dead c' = true.
Proof.
  intros Hd Hc Hm Hk. unfold PasvAddr, check_dead, of_result, fatal, mbind, RS_bind.
  rewrite Hd, Hk. change (Sprintf0 "PASV") with "PASV"%string. unfold PrintfLine.
  rewrite Write__Conn. cbn [is_err set_ctrl set_dead ctrl dead]. rewrite Hd. cbn [orb].
  rewrite <- (app_nil_r (bytes_of (reply_line code msg +:+ crlf))), ReadResponse_reply by done.
  destruct (code =? 227); cbn [is_err set_ctrl set_dead ctrl dead tx]; done.
Qed.

(** ** Properties *)


(** Passive mode.  The reply of a logged-in session to PASV is one that the client
    understands: PasvAddr gives the server's address with the port of a listener that is open
    on the server; or no port of the range was free, and the client gets an error and takes the
    connection for dead. *)
Theorem Pasv_handshake (c : Config) (g0 : Globals) load (e0 e : cenv) (g : Globals)
    (w0 w : Facade) (tls : bool) (evs : list event) (ls : list (nat * string)) (sid : nat)
    (s : ftpSess) :
  Run c g0 load e0 = Ok (g, w0) -> frun g tls evs w0 = (ls, w) -> sess w !! sid = Some s ->
  s_phase s = Idle -> authed s = true -> dotted (pasvIP g s) ->
  let '(s', w') := command g tls e ("PASV" +:+ crlf) s w in
  exists reply, s_out s' = s_out s +:+ reply /\
  forall k t, dead k = false -> ctrl k = Conn (bytes_of reply) EOF t None EOF ->
    let '(r, k') := PasvAddr k in
    tx (ctrl k') = t ++ bytes_of ("PASV" +:+ crlf) /\
    ((exists port n u, r = Ok (pasvIP g s +:+ ":" +:+ Itoa port) /\ dead k' = false /\
        lns w' !! n = Some (MkLn true port u)) \/
     (is_err r = true /\ dead k' = true /\ exists a, e_listen e a <> None)).
Proof.
  intros HR Hf Hs Hph Ha Hip. destruct (Run_finv _ _ _ _ _ _ HR) as [I0 _].
  pose proof (frun_fact g tls evs w0 I0) as H. rewrite Hf in H. destruct H as [I _].
  rewrite command_pasv by done.
  pose proof (handlePASV_inv g (sess w) w sid s e I Hs Hph Ha) as H.
  destruct (handlePASV g e s w) as [s' w']. destruct H as (_ & _ & _ & _ & _ & H).
  destruct H as [(port & n & u & Ho & Hb & Hn)|[Ho Hx]].
  - destruct (ParsePASV_msg (pasvIP g s) port Hip) as [Hparse Hfree]; [lia|].
    exists (reply_line 227 (pasv_msg (pasvIP g s) port) +:+ crlf). split; [by rewrite Ho|].
    intros k t Hd Hk. pose proof (PasvAddr_reply k t 227 _ Hd ltac:(lia) Hfree Hk) as H.
    destruct (PasvAddr k) as [r k']. destruct H as (Ht & -> & Hd'). split; [done|].
    left. exists port, n, u. by rewrite Hparse.
  - exists (reply_line 425 "Cannot open data connection." +:+ crlf). split; [by rewrite Ho|].
    intros k t Hd Hk.
    pose proof (PasvAddr_reply k t 425 "Cannot open data connection." Hd ltac:(lia)
      ltac:(by apply (bool_decide_unpack _); vm_compute) Hk) as H.
    destruct (PasvAddr k) as [r k']. destruct H as (Ht & Hr & Hd'). split; [done|]. by right.
Qed.

(** ** Witnesses *)


Definition demo_client (reply : string) : FTPConn :=
  MkFTP (Conn (bytes_of reply) EOF [] None EOF) true "1.2.3.4:21" "tunnel" "secret" false false
    false [].

Lemma Pasv_handshake_witness :
  exists s s' w' reply, sess (demo_w demo_events) !! 1%nat = Some s /\
    command demo_globals false demo_env ("PASV" +:+ crlf) s (demo_w demo_events) = (s', w') /\
    s_out s' = s_out s +:+ reply /\
    tx (ctrl (PasvAddr (demo_client reply)).2) = bytes_of ("PASV" +:+ crlf).
Proof.
  destruct (sess (demo_w demo_events) !! 1%nat) as [s|] eqn:E; [|vm_compute in E; discriminate].
  assert (s_phase s = Idle) as Hph by (apply (field_of s_phase _ _ _ E); by vm_compute).
  assert (authed s = true) as Ha by (apply (field_of authed _ _ _ E); by vm_compute).
  assert (dotted (pasvIP demo_globals s)) as Hip.
  { clear E Hph Ha. exists "1"%string, "2"%string, "3"%string, "4"%string.
    split; [vm_compute; reflexivity|]. apply (bool_decide_unpack _); by vm_compute. }
  assert (frun demo_globals false demo_events demo_w0 =
    ((frun demo_globals false demo_events demo_w0).1, demo_w demo_events)) as Hr
    by (unfold demo_w; by destruct (frun _ _ _ _)).
  pose proof (Pasv_handshake demo_config default_globals (fun _ _ => None) demo_env demo_env
    demo_globals demo_w0 (demo_w demo_events) false demo_events _ 1 s demo_Run Hr E Hph Ha Hip) as H.
  destruct (command demo_globals false demo_env ("PASV" +:+ crlf) s (demo_w demo_events))
    as [s' w'] eqn:Ec.
  destruct H as (reply & Ho & H). exists s, s', w', reply.
  split; [reflexivity|]. split; [exact Ec|]. split; [exact Ho|].
  specialize (H (demo_client reply) [] eq_refl eq_refl).
  destruct (PasvAddr (demo_client reply)) as [r k']. apply H.
Defined.
