(* ===== verification/FtpServer.v ===== *)
(** The tunnel side of the FTP server: ftp/server/server.go, without its FTP façade.

    Sessions with their upload and download channels, the upstream TCP and UDP connections,
    the frames that drive them ([processFrame]), the pumps that carry upstream data down, and
    reverse listening.  Package variables, sockets and channels are fields of a [World]; what
    Go holds by pointer (a channel, an upstream, a network connection) is a number in a store.
    A mutex-protected call is one step; a goroutine is a sequence of steps, one for each
    message it waits for, and the steps of all goroutines interleave freely ([step]).

    The server is written against the interface [ChannelOps]: what it needs of a
    common.Channel.  FtpLink.v gives the instance for the channels of FtpChannel.v. *)

From S2P Require Import Prelude GoLib FtpProtocol FtpChannel.
From Stdlib Require Import ZArith Lia Strings.Byte Strings.Ascii Strings.String.
From stdpp Require Import gmap strings list fin_maps.

#[local] Open Scope Z_scope.

(** ** What the server needs of a channel *)

(** [ch_write frames c]: WriteFrames.  [ch_seen c]: the frames that the reader at the other
    end has to read, in order.  [ch_good c]: the channel works, and [ch_batch frames]: the
    batch is within the limits of the wire. *)
Class ChannelOps (C : Type) := {
  ch_dir : C -> Z;
  ch_idx : C -> Z;
  ch_open : C -> bool;
  ch_write : list Frame -> C -> option goerr * C;
  ch_close : C -> C;
  ch_seen : C -> list Frame;
  ch_good : C -> Prop;
  ch_batch : list Frame -> Prop
}.

(** A write leaves the channel's identity, and fails on a closed channel.  On a channel that
    works, a batch within the limits is written and seen at the other end, and a single frame
    of at most MaxFrameData bytes is such a batch. *)
Class ChannelLaws (C : Type) `{ChannelOps C} : Prop := {
  ch_write_dir fs c : ch_dir (ch_write fs c).2 = ch_dir c;
  ch_write_idx fs c : ch_idx (ch_write fs c).2 = ch_idx c;
  ch_write_open fs c : ch_open (ch_write fs c).2 = ch_open c;
  ch_write_closed fs c : ch_open c = false -> ch_write fs c = (Some (Errorf "channel closed"), c);
  ch_close_dir c : ch_dir (ch_close c) = ch_dir c;
  ch_close_idx c : ch_idx (ch_close c) = ch_idx c;
  ch_close_open c : ch_open (ch_close c) = false;
  ch_write_good fs c : ch_good c -> ch_batch fs ->
    exists c', ch_write fs c = (None, c') /\ ch_good c' /\ ch_seen c' = ch_seen c ++ fs;
  ch_batch_single f : frame_ok f -> len (Data f) <= MaxFrameData -> ch_batch [f]
}.

(** ** Data *)

(** The configuration variables that the tunnel reads. *)
Record Cfg : Type := MkCfg { cfgTarget : string; cfgSkipUDP : bool }.

(** A TCP connection: whether it is open, what was written to it, and the error its writes
    return, if they fail.  A UDP socket: whether it is open and the datagrams it sent. *)
Record netconn : Type := MkNet { n_open : bool; n_tx : list byte; n_werr : option goerr }.
Record udpsock : Type := MkSock { k_open : bool; k_dgrams : list (string * list byte) }.

Record session : Type := MkSession {
  s_token : string;
  s_ups : gmap Z nat;
  s_downs : gmap Z nat;
  s_revConnID : Z;
  s_revLn : option nat;
  s_revUDP : option nat
}.

Record tcpUpstream : Type := MkTcp {
  u_key : string;
  u_token : string;
  u_connID : Z;
  u_conn : nat;
  u_sendSeq : Z
}.

Record udpUpstream : Type := MkUdp {
  v_key : string;
  v_token : string;
  v_connID : Z;
  v_conn : nat;
  v_target : option string;
  v_lastSeen : Z
}.

(** A goroutine that was started. *)
Inductive task : Type :=
  | ReadUpload (token : string) (ch : nat)
  | PumpTCP (u : nat)
  | PumpUDP (v : udpUpstream)
  | ReverseRun (token listen : string)
  | LookupDNS (token : string) (connID seq : Z) (host : string).

Record World (C : Type) : Type := MkWorld {
  sessions : gmap string session;
  chans : gmap nat C;
  tcpUps : gmap string nat;
  ups : gmap nat tcpUpstream;
  udpUps : gmap string udpUpstream;
  conns : gmap nat netconn;
  socks : gmap nat udpsock;
  lns : gmap nat bool;
  tasks : list task;
  now : Z;
  FramesRecv : Z; FramesSent : Z; BytesUp : Z; BytesDown : Z
}.
Arguments MkWorld {C}.
Arguments sessions {C}. Arguments chans {C}. Arguments tcpUps {C}. Arguments ups {C}.
Arguments udpUps {C}. Arguments conns {C}. Arguments socks {C}. Arguments lns {C}. Arguments tasks {C}. Arguments now {C}.
Arguments FramesRecv {C}. Arguments FramesSent {C}. Arguments BytesUp {C}. Arguments BytesDown {C}.

Definition init_world {C} : World C := MkWorld ∅ ∅ ∅ ∅ ∅ ∅ ∅ ∅ [] 0 0 0 0 0.

(** ** The code *)

Definition connKey (token : string) (connID : Z) : string := token +:+ ":" +:+ Itoa connID.

Section Server.
Context {C : Type} `{ChannelOps C}.
(** [iter m] is the order in which Go ranges over a map of channels. *)
Context (cfg : Cfg) (iter : gmap Z nat -> list Z).
(** net.ResolveUDPAddr on an address, in its printed form. *)
Context (ResolveUDPAddr : string -> option string).

#[local] Abbreviation ST_ := (ST (World C)).

(** Updates of one field. *)
Definition set_sessions (x : gmap string session) (w : World C) : World C :=
  MkWorld x (chans w) (tcpUps w) (ups w) (udpUps w) (conns w) (socks w) (lns w) (tasks w)
    (now w) (FramesRecv w) (FramesSent w) (BytesUp w) (BytesDown w).
Definition set_chans (x : gmap nat C) (w : World C) : World C :=
  MkWorld (sessions w) x (tcpUps w) (ups w) (udpUps w) (conns w) (socks w) (lns w) (tasks w)
    (now w) (FramesRecv w) (FramesSent w) (BytesUp w) (BytesDown w).
Definition set_tcpUps (x : gmap string nat) (w : World C) : World C :=
  MkWorld (sessions w) (chans w) x (ups w) (udpUps w) (conns w) (socks w) (lns w) (tasks w)
    (now w) (FramesRecv w) (FramesSent w) (BytesUp w) (BytesDown w).
Definition set_ups (x : gmap nat tcpUpstream) (w : World C) : World C :=
  MkWorld (sessions w) (chans w) (tcpUps w) x (udpUps w) (conns w) (socks w) (lns w)
    (tasks w) (now w) (FramesRecv w) (FramesSent w) (BytesUp w) (BytesDown w).
Definition set_udpUps (x : gmap string udpUpstream) (w : World C) : World C :=
  MkWorld (sessions w) (chans w) (tcpUps w) (ups w) x (conns w) (socks w) (lns w) (tasks w)
    (now w) (FramesRecv w) (FramesSent w) (BytesUp w) (BytesDown w).
Definition set_conns (x : gmap nat netconn) (w : World C) : World C :=
  MkWorld (sessions w) (chans w) (tcpUps w) (ups w) (udpUps w) x (socks w) (lns w) (tasks w)
    (now w) (FramesRecv w) (FramesSent w) (BytesUp w) (BytesDown w).
Definition set_socks (x : gmap nat udpsock) (w : World C) : World C :=
  MkWorld (sessions w) (chans w) (tcpUps w) (ups w) (udpUps w) (conns w) x (lns w) (tasks w)
    (now w) (FramesRecv w) (FramesSent w) (BytesUp w) (BytesDown w).
Definition set_lns (x : gmap nat bool) (w : World C) : World C :=
  MkWorld (sessions w) (chans w) (tcpUps w) (ups w) (udpUps w) (conns w) (socks w) x
    (tasks w) (now w) (FramesRecv w) (FramesSent w) (BytesUp w) (BytesDown w).
Definition set_now (x : Z) (w : World C) : World C :=
  MkWorld (sessions w) (chans w) (tcpUps w) (ups w) (udpUps w) (conns w) (socks w) (lns w)
    (tasks w) x (FramesRecv w) (FramesSent w) (BytesUp w) (BytesDown w).
Definition go (t : task) (w : World C) : World C :=
  MkWorld (sessions w) (chans w) (tcpUps w) (ups w) (udpUps w) (conns w) (socks w) (lns w)
    (tasks w ++ [t]) (now w) (FramesRecv w) (FramesSent w) (BytesUp w) (BytesDown w).
(** GlobalMetrics: the four counters' Add. *)
Definition add_metrics (recv sent up down : Z) (w : World C) : World C :=
  MkWorld (sessions w) (chans w) (tcpUps w) (ups w) (udpUps w) (conns w) (socks w) (lns w)
    (tasks w) (now w) (FramesRecv w + recv) (FramesSent w + sent) (BytesUp w + up)
    (BytesDown w + down).

(** *** Sessions *)

Definition new_session (token : string) : session := MkSession token ∅ ∅ 0 None None.

Definition getOrCreateSession (token : string) : ST_ session := fun w =>
  match sessions w !! token with
  | Some s => (s, w)
  | None => let s := new_session token in (s, set_sessions (<[token := s]> (sessions w)) w)
  end.

Definition getSession (token : string) : ST_ (option session) :=
  gets (fun w => sessions w !! token).

Definition close_chan (ch : nat) (w : World C) : World C :=
  set_chans (alter ch_close ch (chans w)) w.
Definition close_conn (n : nat) (w : World C) : World C :=
  set_conns (alter (fun c => MkNet false (n_tx c) (n_werr c)) n (conns w)) w.
Definition close_sock (n : nat) (w : World C) : World C :=
  set_socks (alter (fun c => MkSock false (k_dgrams c)) n (socks w)) w.
Definition close_ln (n : nat) (w : World C) : World C :=
  set_lns (alter (fun _ => false) n (lns w)) w.

Definition put_session (s : session) : World C -> World C := fun w =>
  set_sessions (<[s_token s := s]> (sessions w)) w.

Definition set_s_ups x (s : session) :=
  MkSession (s_token s) x (s_downs s) (s_revConnID s) (s_revLn s) (s_revUDP s).
Definition set_s_downs x (s : session) :=
  MkSession (s_token s) (s_ups s) x (s_revConnID s) (s_revLn s) (s_revUDP s).
Definition set_s_rev x y z (s : session) :=
  MkSession (s_token s) (s_ups s) (s_downs s) x y z.

(** [if old, ok := m[i]; ok { old.Close() }]. *)
Definition close_slot (m : gmap Z nat) (i : Z) : ST_ unit :=
  match m !! i with
  | Some old => modify (close_chan old)
  | None => mret tt
  end.

(** [func (s *session) bind(ch)], for the channel [ch] with direction [d] and index [i]. *)
Definition bind (s : session) (ch : nat) (d i : Z) : ST_ unit :=
  if d =? DirUpload then
    _ ← close_slot (s_ups s) i;
    modify (put_session (set_s_ups (<[i := ch]> (s_ups s)) s))
  else
    _ ← close_slot (s_downs s) i;
    modify (put_session (set_s_downs (<[i := ch]> (s_downs s)) s)).

Definition downloadFor (s : session) (connID : Z) : option nat :=
  if decide (size (s_downs s) = 0%nat) then None
  else
    let idxs := iter (s_downs s) in
    let n := u32 (Z.of_nat (size (s_downs s))) in
    let want := u16 (connID mod n) in
    match s_downs s !! want with
    | Some ch => Some ch
    | None => i ← head idxs; s_downs s !! i
    end.

Definition closeAll (s : session) : ST_ unit :=
  _ ← for_each (map snd (map_to_list (s_ups s))) (fun ch => modify (close_chan ch));
  _ ← for_each (map snd (map_to_list (s_downs s))) (fun ch => modify (close_chan ch));
  modify (put_session (set_s_ups ∅ (set_s_downs ∅ s))).

(** *** Writing down *)

Definition writeDown (token : string) (frames : list Frame) : ST_ unit :=
  os ← getSession token;
  match os with
  | None => mret tt
  | Some sess =>
      let connID := match frames with f :: _ => ConnID f | [] => 0 end in
      match downloadFor sess connID with
      | None => mret tt
      | Some ch =>
          oc ← gets (fun w => chans w !! ch);
          match oc with
          | None => mret tt
          | Some c =>
              let '(err, c') := ch_write frames c in
              _ ← modify (fun w => set_chans (<[ch := c']> (chans w)) w);
              match err with
              | Some _ => mret tt
              | None => modify (add_metrics 0 (len frames) 0 0)
              end
          end
      end
  end.

(** *** Upstream TCP *)

(** net.DialTimeout: the new connection, or the error of the environment. *)
Definition fresh_conn : ST_ nat := fun w =>
  let n := fresh_id (conns w) in (n, set_conns (<[n := MkNet true [] None]> (conns w)) w).
Definition fresh_sock : ST_ nat := fun w =>
  let n := fresh_id (socks w) in (n, set_socks (<[n := MkSock true []]> (socks w)) w).
Definition fresh_ln : ST_ nat := fun w =>
  let n := fresh_id (lns w) in (n, set_lns (<[n := true]> (lns w)) w).

(** The upstream made by tcpDial and tcpAttach, registered under its key. *)
Definition new_upstream (token : string) (connID : Z) (conn : nat) : ST_ nat := fun w =>
  let key := connKey token connID in
  let u := fresh_id (ups w) in
  (u, go (PumpTCP u)
        (set_tcpUps (<[key := u]> (tcpUps w))
           (set_ups (<[u := MkTcp key token connID conn 0]> (ups w)) w))).

(** [dial target] says how net.DialTimeout ends. *)
Definition tcpDial (dial : string -> option goerr) (token : string) (connID : Z)
    (target : string) : ST_ (result nat) :=
  let key := connKey token connID in
  ou ← gets (fun w => tcpUps w !! key);
  match ou with
  | Some u => mret (Ok u)
  | None =>
      let ext := TrimSpace (cfgTarget cfg) in
      let target := if String.eqb ext "" then target else ext in
      match dial target with
      | Some e => mret (Err e)
      | None =>
          conn ← fresh_conn;
          u ← new_upstream token connID conn;
          mret (Ok u)
      end
  end.

Definition tcpAttach (token : string) (connID : Z) (conn : nat) : ST_ nat :=
  new_upstream token connID conn.

(** The connection of an upstream. *)
Definition conn_of_up (w : World C) (u : nat) : option nat := u_conn <$> ups w !! u.

Definition close_up (u : nat) (w : World C) : World C :=
  match conn_of_up w u with Some n => close_conn n w | None => w end.

Definition tcpRemove (key : string) : ST_ unit :=
  ou ← gets (fun w => tcpUps w !! key);
  match ou with
  | Some u => modify (fun w => let w := close_up u w in set_tcpUps (delete key (tcpUps w)) w)
  | None => mret tt
  end.

(** *** Upstream UDP *)

Definition udpRemove (key : string) : ST_ unit :=
  ou ← gets (fun w => udpUps w !! key);
  match ou with
  | Some u => modify (fun w =>
      let w := close_sock (v_conn u) w in set_udpUps (delete key (udpUps w)) w)
  | None => mret tt
  end.

Definition udpRemoveAll (token : string) : ST_ unit :=
  let prefix := token +:+ ":" in
  keys ← gets (fun w => map fst (map_to_list (udpUps w)));
  for_each keys (fun key => if HasPrefix key prefix then udpRemove key else mret tt).

Definition tcpRemoveAll (token : string) : ST_ unit :=
  let prefix := token +:+ ":" in
  keys ← gets (fun w => map fst (map_to_list (tcpUps w)));
  _ ← for_each keys (fun key => if HasPrefix key prefix then tcpRemove key else mret tt);
  udpRemoveAll token.

(** [listen] says how net.ListenUDP ends. *)
Definition udpGetOrCreate (listen : option goerr) (token : string) (connID : Z) :
    ST_ (result udpUpstream) :=
  let key := connKey token connID in
  ou ← gets (fun w => udpUps w !! key);
  match ou with
  | Some u => mret (Ok u)
  | None =>
      match listen with
      | Some e => mret (Err e)
      | None =>
          conn ← fresh_sock;
          t ← gets now;
          let ext := TrimSpace (cfgTarget cfg) in
          let add target :=
            let u := MkUdp key token connID conn target t in
            _ ← modify (fun w =>
              go (PumpUDP u) (set_udpUps (<[key := u]> (udpUps w)) w));
            mret (Ok u) in
          if String.eqb ext "" then add None
          else match ResolveUDPAddr ext with
               | Some dst => add (Some dst)
               | None => _ ← modify (close_sock conn); mret (Err (Errorf "resolve udp"))
               end
      end
  end.

(** [u.lastSeen.Store(now)]: the upstream [u] is the one under its key that has its socket. *)
Definition touch (u : udpUpstream) (w : World C) : World C :=
  set_udpUps (alter (fun u' =>
    if decide (v_conn u' = v_conn u)
    then MkUdp (v_key u') (v_token u') (v_connID u') (v_conn u') (v_target u') (now w)
    else u') (v_key u) (udpUps w)) w.

(** *** Pumps *)

(** [u.sendSeq.Add(1)], and the frame with that number written down. *)
Definition bump (u : nat) (w : World C) : World C :=
  set_ups (alter (fun up => MkTcp (u_key up) (u_token up) (u_connID up) (u_conn up)
    (u32 (u_sendSeq up + 1))) u (ups w)) w.

Definition pump_down (u : nat) (up : tcpUpstream) (ty : Z) (d : list byte) : ST_ unit :=
  _ ← modify (bump u);
  seq ← gets (fun w => default 0 (u_sendSeq <$> ups w !! u));
  writeDown (u_token up) [MkFrame (u_connID up) ty seq d].

(** One turn of pumpTCP: a Read of the upstream [u] that returned [data] and [err].  Says
    whether the pump goes on. *)
Definition pumpTCP (u : nat) (data : list byte) (err : option goerr) : ST_ bool :=
  ou ← gets (fun w => ups w !! u);
  match ou with
  | None => mret false
  | Some up =>
      _ ← match data with
          | [] => mret tt
          | _ => _ ← modify (add_metrics 0 0 0 (len data)); pump_down u up TypeData data
          end;
      match err with
      | None => mret true
      | Some _ => _ ← pump_down u up TypeClose []; _ ← tcpRemove (u_key up); mret false
      end
  end.

(** One turn of pumpUDP for the upstream [u]: a datagram from [raddr], or an error. *)
Definition pumpUDP (u : udpUpstream) (r : result (string * list byte)) : ST_ bool :=
  match r with
  | Ok (raddr, d) =>
      _ ← modify (touch u);
      let data := EncodeUDPData raddr d in
      _ ← modify (add_metrics 0 0 0 (len d));
      _ ← writeDown (v_token u) [MkFrame (v_connID u) TypeUDPData 0 data];
      mret true
  | _ => _ ← udpRemove (v_key u); mret false
  end.

(** *** Frames from the client *)

(** How the environment answers the calls of one frame. *)
Record oracle : Type := MkOracle { o_dial : string -> option goerr; o_listen : option goerr }.

Definition write_conn (n : nat) (data : list byte) : ST_ (option goerr) := fun w =>
  match conns w !! n with
  | Some c =>
      if n_open c then
        match n_werr c with
        | Some e => (Some e, w)
        | None => (None, set_conns (<[n := MkNet true (n_tx c ++ data) None]> (conns w)) w)
        end
      else (Some (Errorf "use of closed network connection"), w)
  | None => (Some (Errorf "use of closed network connection"), w)
  end.

Definition write_dgram (n : nat) (addr : string) (data : list byte) : ST_ unit :=
  modify (fun w => set_socks (alter (fun c =>
    if k_open c then MkSock true (k_dgrams c ++ [(addr, data)]) else c) n (socks w)) w).

Definition processFrame (o : oracle) (token : string) (f : Frame) : ST_ unit :=
  _ ← modify (add_metrics 1 0 0 0);
  let key := connKey token (ConnID f) in
  if FType f =? TypeReverseBind then
    modify (go (ReverseRun token (string_of (Data f))))
  else if FType f =? TypeOpen then
    let target := string_of (Data f) in
    if String.eqb target "udp://" then
      if cfgSkipUDP cfg then writeDown token [MkFrame (ConnID f) TypeClose 0 []]
      else _ ← udpGetOrCreate (o_listen o) token (ConnID f); mret tt
    else
      r ← tcpDial (o_dial o) token (ConnID f) target;
      match r with
      | Ok _ => mret tt
      | _ => writeDown token [MkFrame (ConnID f) TypeClose 0 []]
      end
  else if FType f =? TypeData then
    ou ← gets (fun w => u ← tcpUps w !! key; conn_of_up w u);
    match ou with
    | None => mret tt
    | Some n =>
        _ ← modify (add_metrics 0 0 (len (Data f)) 0);
        err ← write_conn n (Data f);
        match err with Some _ => tcpRemove key | None => mret tt end
    end
  else if FType f =? TypeUDPData then
    match DecodeUDPData (Data f) with
    | Ok (addr, payload) =>
        r ← udpGetOrCreate (o_listen o) token (ConnID f);
        match r with
        | Ok u =>
            _ ← modify (touch u);
            match (match v_target u with Some a => Some a | None => ResolveUDPAddr addr end) with
            | None => mret tt
            | Some raddr =>
                _ ← modify (add_metrics 0 0 (len payload) 0);
                write_dgram (v_conn u) raddr payload
            end
        | _ => mret tt
        end
    | _ => mret tt
    end
  else if FType f =? TypeClose then
    _ ← tcpRemove key; udpRemove key
  else if FType f =? TypeHB then
    writeDown token [MkFrame 0 TypeHBAck (Seq f) []]
  else if FType f =? TypeDNSReq then
    modify (go (LookupDNS token (ConnID f) (Seq f) (string_of (Data f))))
  else mret tt.

(** The goroutine of TypeDNSReq, once net.LookupHost has answered. *)
Definition dns_answer (token : string) (connID seq : Z) (r : result (list string)) : ST_ unit :=
  let resp := match r with
              | Ok (a :: l) => bytes_of (strings_Join (a :: l) ",")
              | _ => []
              end in
  writeDown token [MkFrame connID TypeDNSResp seq resp].

(** *** Data connections *)

(** handleDataConn after TLS: [h] is what ReadHello returned; [c] is the channel that
    WrapChannel makes of the connection for a direction and an index. *)
Definition handleDataConn (h : result Hello) (c : Z -> Z -> C) : ST_ unit :=
  match h with
  | Ok h =>
      if negb (Dir h =? DirUpload) && negb (Dir h =? DirDownload) then mret tt
      else if String.eqb (Token h) "" then mret tt
      else
        ch ← (fun w => let ch := fresh_id (chans w) in
                (ch, set_chans (<[ch := c (Dir h) (HIndex h)]> (chans w)) w));
        sess ← getOrCreateSession (Token h);
        _ ← bind sess ch (Dir h) (HIndex h);
        if Dir h =? DirUpload then modify (go (ReadUpload (Token h) ch)) else mret tt
  | _ => mret tt
  end.

(** One turn of readUploadLoop: ReadFrames returned [r].  On an error the deferred function
    runs and the loop ends. *)
Definition readUploadLoop (o : oracle) (token : string) (ch : nat) (r : result (list Frame)) :
    ST_ bool :=
  match r with
  | Ok frames => _ ← for_each frames (processFrame o token); mret true
  | _ =>
      i ← gets (fun w => default 0 (ch_idx <$> chans w !! ch));
      _ ← modify (close_chan ch);
      os ← getSession token;
      match os with
      | None => mret false
      | Some s =>
          let s := if decide (s_ups s !! i = Some ch)
                   then set_s_ups (delete i (s_ups s)) s else s in
          _ ← modify (put_session s);
          _ ← (if decide (size (s_ups s) = 0%nat) then tcpRemoveAll token else mret tt);
          mret false
      end
  end.

(** *** Reverse listening *)

(** The start of ftpRunReverse.  [bound] is how dualbind.Listen ends: the flag says whether it
    has a UDP socket beside the listener. *)
Definition ftpRunReverse (token : string) (bound : result bool) : ST_ bool :=
  s ← getOrCreateSession token;
  _ ← match s_revLn s with Some n => modify (close_ln n) | None => mret tt end;
  _ ← match s_revUDP s with Some n => modify (close_ln n) | None => mret tt end;
  _ ← modify (put_session (set_s_rev (s_revConnID s) None None s));
  match bound with
  | Ok udp =>
      ln ← fresh_ln;
      u ← (if udp then n ← fresh_ln; mret (Some n) else mret None);
      _ ← modify (put_session (set_s_rev (s_revConnID s) (Some ln) u s));
      mret true
  | _ => mret false
  end.

(** A datagram on the reverse UDP socket. *)
Definition reverse_udp (token from : string) (d : list byte) : ST_ unit :=
  writeDown token [MkFrame 0xfffffffe TypeUDPData 0 (EncodeUDPData from d)].

(** A connection accepted on the reverse listener, and the goroutine that serves it. *)
Definition reverse_accept (token : string) : ST_ Z :=
  conn ← fresh_conn;
  s ← getOrCreateSession token;
  let id := u32 (s_revConnID s + 1) in
  let id := if id =? 0 then u32 (id + 1) else id in
  _ ← modify (put_session (set_s_rev id (s_revLn s) (s_revUDP s) s));
  _ ← writeDown token [MkFrame id TypeReverseOpen 0 []];
  _ ← tcpAttach token id conn;
  _ ← modify (close_conn conn);
  mret id.

End Server.
