(* ===== verification/FtpLink.v ===== *)
(** The channels of FtpChannel.v as the channels that FtpServer.v is written against.

    A [link] is a common.Channel with the random values that its writes draw.  What the other
    end sees is what ReadBatch reads from the bytes written so far. *)

From S2P Require Import Prelude GoLib Aead FtpProtocol FtpChannel FtpServer.
From Stdlib Require Import ZArith Lia Strings.Byte Strings.String.
From stdpp Require Import gmap strings list fin_maps.

#[local] Open Scope Z_scope.

Section Link.
Context `{AEAD}.

(** [l_rnd n]: the padding and the nonce of the [n]-th write. *)
Record link : Type := MkLink {
  l_ch : Channel;
  l_rnd : nat -> list byte * list byte;
  l_cnt : nat
}.

Definition link_write (fs : list Frame) (l : link) : option goerr * link :=
  let '(pad, nonce) := l_rnd l (l_cnt l) in
  let '(r, ch) := WriteFrames (l_ch l) fs pad nonce in
  (match r with
   | Ok _ => None
   | Err e => Some e
   | Panic _ | OutOfFuel => Some (Errorf "panic")
   end, match chan_conn (l_ch l) with
        | Some _ => MkLink ch (l_rnd l) (S (l_cnt l))
        | None => l
        end).

Definition link_close (l : link) : link :=
  MkLink (CloseChannel (l_ch l) None).2 (l_rnd l) (l_cnt l).

(** The frames of the batches at the front of a stream. *)
Fixpoint read_all (fuel : nat) (k : list byte) (bs : list byte) : list Frame :=
  match fuel with
  | O => []
  | S fuel =>
      match ReadBatch k (conn_of bs) with
      | (Ok fs, c) => fs ++ read_all fuel k (rx c)
      | _ => []
      end
  end.
Definition read_stream (k bs : list byte) : list Frame := read_all (S (length bs)) k bs.

Definition link_tx (l : link) : list byte :=
  match chan_conn (l_ch l) with Some c => tx c | None => [] end.

(** A prefix of a stream that consists of whole batches. *)
Definition whole (k bs : list byte) : Prop :=
  forall s, read_stream k (bs ++ s) = read_stream k bs ++ read_stream k s.

Definition link_good (l : link) : Prop :=
  (exists c, chan_conn (l_ch l) = Some c /\ tx_room c = None) /\
  key_ok (key (l_ch l)) /\
  (forall n, len (l_rnd l n).1 <= 512 /\ length (l_rnd l n).2 = NonceSize) /\
  whole (key (l_ch l)) (link_tx l).

Definition link_batch (fs : list Frame) : Prop :=
  Forall frame_ok fs /\ blob_size fs [] + 512 <= MaxBatchWire.

#[export] Instance link_ops : ChannelOps link := {
  ch_dir l := dir (l_ch l);
  ch_idx l := idx (l_ch l);
  ch_open l := match chan_conn (l_ch l) with Some _ => true | None => false end;
  ch_write := link_write;
  ch_close := link_close;
  ch_seen l := read_stream (key (l_ch l)) (link_tx l);
  ch_good := link_good;
  ch_batch := link_batch
}.
End Link.

Section LinkLaws.
Context `{AEADLaws}.

Lemma ReadBatch_consumes k bs fs c :
  ReadBatch k (conn_of bs) = (Ok fs, c) ->
  (length (rx c) < length bs)%nat /\ c = conn_of (rx c).
Proof.
  unfold ReadBatch. rewrite IO_bind_eq.
  destruct (ReadFull 4 (conn_of bs)) as [[hdr|e|s|] c1] eqn:E1; try done.
  apply ReadFull_Ok_inv in E1 as (L1 & E1 & ->). simpl in E1.
  destruct (_ || _); [done|]. rewrite IO_bind_eq.
  destruct (ReadFull _ _) as [[blob|e|s|] c2] eqn:E2; try done.
  apply ReadFull_Ok_inv in E2 as (L2 & E2 & ->). simpl in E2.
  unfold lift. intros [= _ <-]. simpl. split; [|done].
  rewrite E1, E2, !length_app. lia.
Qed.

Lemma read_all_enough f g k bs :
  (length bs < f)%nat -> (length bs < g)%nat -> read_all f k bs = read_all g k bs.
Proof.
  revert g bs. induction f as [|f IH]; intros [|g] bs Hf Hg; [lia..|].
  cbn [read_all]. destruct (ReadBatch k (conn_of bs)) as [[fs|e|s|] c] eqn:E; try done.
  apply ReadBatch_consumes in E as [Hl _]. f_equal. apply IH; lia.
Qed.

(** One batch in front of a stream. *)
Lemma read_stream_batch k fs bs s :
  (forall s, ReadBatch k (conn_of (bs ++ s)) = (Ok fs, conn_of s)) ->
  read_stream k (bs ++ s) = fs ++ read_stream k s.
Proof.
  intros Hb. unfold read_stream at 1. cbn [read_all]. rewrite Hb. simpl. f_equal.
  specialize (Hb s). apply ReadBatch_consumes in Hb as [Hl _]. simpl in Hl.
  apply read_all_enough; lia.
Qed.

Lemma read_stream_nil k : read_stream k [] = [].
Proof. done. Qed.

Lemma foldr_sizes_count fs :
  17 * len fs <= foldr (fun f n => 17 + len (Data f) + n) 0 fs.
Proof.
  induction fs as [|f fs IH]; cbn [foldr]; [done|].
  rewrite len_cons. pose proof (len_nonneg (Data f)). lia.
Qed.

Lemma link_write_good fs l :
  link_good l -> link_batch fs ->
  exists l', link_write fs l = (None, l') /\ link_good l' /\
    read_stream (key (l_ch l')) (link_tx l') = read_stream (key (l_ch l)) (link_tx l) ++ fs.
Proof.
  intros ((c & Hc & Hr) & Hk & Hrnd & Hwh) [Hfs Hsz].
  destruct l as [[cc k d i] rnd cnt]. cbn [l_ch l_rnd l_cnt key dir idx chan_conn] in *. subst cc.
  destruct (Hrnd cnt) as [Hp Hn]. unfold link_tx in *. simpl in Hwh |- *.
  unfold link_write. simpl. destruct (rnd cnt) as [pad nonce] eqn:Er. simpl in Hp, Hn.
  unfold WriteFrames. simpl.
  destruct (WriteBatch_appends fs k pad nonce c Hk Hn Hr) as (blob & E & Hl & ->).
  set (bs := PutUint32 (u32 (len blob)) ++ blob).
  assert (forall s, ReadBatch k (conn_of (bs ++ s)) = (Ok fs, conn_of s)) as Hread.
  { intros s. unfold conn_of, bs. rewrite <- app_assoc.
    assert (blob_size fs pad <= MaxBatchWire) as Hb.
    { unfold blob_size in *. pose proof (@len_nil byte). lia. }
    pose proof (blob_size_pos fs pad).
    rewrite ReadBatch_blob by (unfold MaxBatchWire in *; lia).
    rewrite Hl, Z.gtb_ltb, (proj2 (Z.ltb_ge _ _)) by lia.
    pose proof (foldr_sizes_count fs). unfold blob_size, MaxBatchWire in *.
    pose proof (len_nonneg pad).
    by rewrite (DecodeBatch_EncodeBatch fs k pad nonce blob) by (done || lia). }
  eexists. split; [done|]. simpl. split; [split_and!|].
  - eexists. split; [done|]. done.
  - done.
  - done.
  - unfold link_tx. simpl. intros s. rewrite <- app_assoc, Hwh, (Hwh bs).
    rewrite <- (app_nil_r bs) at 2. rewrite !(read_stream_batch k fs bs) by done.
    by rewrite read_stream_nil, app_nil_r, app_assoc.
  - rewrite Hwh. rewrite <- (app_nil_r bs). rewrite (read_stream_batch k fs bs) by done.
    by rewrite read_stream_nil, app_nil_r.
Qed.

#[export] Instance link_laws : ChannelLaws link.
Proof.
  assert (forall fs l, key (l_ch (link_write fs l).2) = key (l_ch l) /\
    dir (l_ch (link_write fs l).2) = dir (l_ch l) /\
    idx (l_ch (link_write fs l).2) = idx (l_ch l) /\
    (chan_conn (l_ch (link_write fs l).2) = None <-> chan_conn (l_ch l) = None)) as Hw.
  { intros fs [[[c|] k d i] rnd cnt]; unfold link_write, WriteFrames; simpl;
      destruct (rnd cnt) as [pad nonce]; simpl; [|done].
    by destruct (WriteBatch _ _ _ _ _) as [r c']. }
  split; simpl.
  - intros fs l. apply Hw.
  - intros fs l. apply Hw.
  - intros fs l. destruct (Hw fs l) as (_ & _ & _ & E).
    destruct (chan_conn (l_ch (link_write fs l).2)), (chan_conn (l_ch l)); try done.
    + by destruct E as [_ E]; specialize (E eq_refl).
    + by destruct E as [E _]; specialize (E eq_refl).
  - intros fs [[[c|] k d i] rnd cnt]; simpl; [done|]. intros _.
    unfold link_write, WriteFrames; simpl. by destruct (rnd cnt).
  - by intros [[[c|] k d i] rnd cnt].
  - by intros [[[c|] k d i] rnd cnt].
  - by intros [[[c|] k d i] rnd cnt].
  - apply link_write_good.
  - intros f Hf Hl. split; [by apply Forall_singleton|].
    unfold blob_size. cbn [foldr]. pose proof (@len_nil byte).
    unfold MaxFrameData, MaxBatchWire in *. lia.
Qed.

(** A fresh channel is good. *)
Lemma link_new_good k d i rnd :
  key_ok k -> (forall n, len (rnd n).1 <= 512 /\ length (rnd n).2 = NonceSize) ->
  link_good (MkLink (WrapChannel (conn_of []) k d i) rnd 0).
Proof.
  intros Hk Hr. split_and!; simpl; [by exists (conn_of [])|done|done|].
  unfold link_tx. simpl. intros s. done.
Qed.
End LinkLaws.
