(* ===== verification/FtpServerFacts.v ===== *)
(** The FTP server's tunnel: its invariant and the isolation of sessions.

    [wf] relates sessions, channels, upstreams and connections; [same_for t] says that a step
    left everything of session [t] as it was.  Every operation keeps [wf] and touches only the
    session it works for ([step_ok]); the lemmas follow the structure of FtpServer.v. *)

From S2P Require Import Prelude GoLib FtpProtocol FtpChannel FtpServer.
From Stdlib Require Import ZArith Lia Strings.Byte Strings.Ascii Strings.String.
From stdpp Require Import gmap strings list fin_maps.

#[local] Open Scope Z_scope.

Definition has_chan (s : session) (ch : nat) : Prop :=
  (exists i, s_ups s !! i = Some ch) \/ (exists i, s_downs s !! i = Some ch).

Section Invariant.
Context {C : Type} `{ChannelOps C}.

Record wf (w : World C) : Prop := {
  wf_sess t s : sessions w !! t = Some s -> s_token s = t;
  wf_slot_up t s i ch : sessions w !! t = Some s -> s_ups s !! i = Some ch ->
    exists c, chans w !! ch = Some c /\ ch_idx c = i /\ ch_dir c = DirUpload;
  wf_slot_down t s i ch : sessions w !! t = Some s -> s_downs s !! i = Some ch ->
    exists c, chans w !! ch = Some c /\ ch_idx c = i /\ ch_dir c = DirDownload;
  wf_owner t t' s s' ch : sessions w !! t = Some s -> sessions w !! t' = Some s' ->
    has_chan s ch -> has_chan s' ch -> t = t';
  wf_tcp key u : tcpUps w !! key = Some u -> exists up, ups w !! u = Some up /\ u_key up = key;
  wf_up u up : ups w !! u = Some up ->
    u_key up = connKey (u_token up) (u_connID up) /\ is_Some (conns w !! u_conn up);
  wf_up_inj u u' up up' : ups w !! u = Some up -> ups w !! u' = Some up' ->
    u_conn up = u_conn up' -> u = u';
  wf_udp key v : udpUps w !! key = Some v ->
    v_key v = key /\ key = connKey (v_token v) (v_connID v) /\ is_Some (socks w !! v_conn v);
  wf_udp_inj key key' v v' : udpUps w !! key = Some v -> udpUps w !! key' = Some v' ->
    v_conn v = v_conn v' -> key = key';
  wf_task_read t ch : ReadUpload t ch ∈ tasks w -> is_Some (chans w !! ch) /\
    forall t' s', sessions w !! t' = Some s' -> has_chan s' ch -> t' = t;
  wf_task_pump u : PumpTCP u ∈ tasks w -> is_Some (ups w !! u);
  wf_task_udp v : PumpUDP v ∈ tasks w -> v_key v = connKey (v_token v) (v_connID v)
}.

(** What a step leaves of the session [t]. *)
Record same_for (t : string) (w w' : World C) : Prop := {
  sf_sess : sessions w' !! t = sessions w !! t;
  sf_chan s ch : sessions w !! t = Some s -> has_chan s ch -> chans w' !! ch = chans w !! ch;
  sf_tcp c : tcpUps w' !! connKey t c = tcpUps w !! connKey t c;
  sf_up u up : ups w !! u = Some up -> u_token up = t ->
    ups w' !! u = Some up /\ conns w' !! u_conn up = conns w !! u_conn up;
  sf_udp c : udpUps w' !! connKey t c = udpUps w !! connKey t c;
  sf_sock c v : udpUps w !! connKey t c = Some v -> socks w' !! v_conn v = socks w !! v_conn v
}.

(** A step for a session among those that [mine] selects. *)
Record step_ok (mine : string -> Prop) (w w' : World C) : Prop := {
  so_wf : wf w';
  so_same t : ~ mine t -> same_for t w w'
}.

Lemma same_for_refl t w : same_for t w w.
Proof. by split. Qed.

Lemma same_for_trans t w1 w2 w3 : same_for t w1 w2 -> same_for t w2 w3 -> same_for t w1 w3.
Proof.
  intros [A1 A2 A3 A4 A5 A6] [B1 B2 B3 B4 B5 B6]. split.
  - congruence.
  - intros s ch Hs Hc. rewrite (B2 s ch) by (done || congruence). eauto.
  - intros c. by rewrite B3.
  - intros u up Hu Ht. destruct (A4 u up Hu Ht) as [Hu' Hn].
    destruct (B4 u up Hu' Ht) as [Hu'' Hn']. split; congruence.
  - intros c. by rewrite B5.
  - intros c v Hv. rewrite (B6 c v) by (by rewrite A5). eauto.
Qed.

Lemma step_ok_refl P w : wf w -> step_ok P w w.
Proof. intros. split; [done|]. intros; apply same_for_refl. Qed.

Lemma step_ok_trans P w1 w2 w3 : step_ok P w1 w2 -> step_ok P w2 w3 -> step_ok P w1 w3.
Proof. intros [A1 A2] [B1 B2]. split; [done|]. intros t Ht. eapply same_for_trans; eauto. Qed.

Lemma step_ok_weaken (P Q : string -> Prop) w w' :
  (forall t, P t -> Q t) -> step_ok P w w' -> step_ok Q w w'.
Proof. intros HPQ [A1 A2]. split; [done|]. intros t Ht. apply A2. auto. Qed.

(** The key of an upstream determines the session and the connection id. *)
Lemma connKey_inj t c t' c' : connKey t c = connKey t' c' -> t = t' /\ c = c'.
Proof.
  unfold connKey. intros E.
  change (":" +:+ Itoa c) with (String ":" (Itoa c)) in E.
  change (":" +:+ Itoa c') with (String ":" (Itoa c')) in E.
  apply last_cut_unique in E as [-> E]; [|by apply free_Itoa..].
  split; [done|]. by apply (inj Itoa).
Qed.

(** The keys of the session [token], and of the sessions whose name continues [token:]. *)
Lemma HasPrefix_connKey token t c :
  HasPrefix (connKey t c) (token +:+ ":") = true <->
  t = token \/ HasPrefix t (token +:+ ":") = true.
Proof.
  rewrite !HasPrefix_spec. unfold connKey. split.
  - intros [r E]. revert t E. induction token as [|a token IH]; intros t E.
    + destruct t as [|b t]; [by left|right]. simpl in E. injection E as -> _. by exists t.
    + destruct t as [|b t].
      * simpl in E. injection E as <- E. exfalso.
        assert (free ":" (Itoa c)) as Hf by (by apply free_Itoa).
        rewrite E in Hf. rewrite <- sapp_assoc, free_app in Hf. destruct Hf as [_ Hf].
        by destruct Hf.
      * simpl in E. injection E as <- E. destruct (IH t E) as [->|[r' ->]]; [by left|right].
        by exists r'.
  - intros [->|[r ->]]; [by exists (Itoa c); rewrite <- sapp_assoc|].
    exists (r +:+ ":" +:+ Itoa c). by rewrite <- !sapp_assoc.
Qed.

End Invariant.

(** The clauses of [wf] and [same_for] that a step does not touch. *)
Ltac same_fields := try done; try (by simpl; eauto).

Section Steps.
Context {C : Type} `{ChannelLaws C}.
Implicit Types w : World C.

Lemma so_metrics P a b c d w : wf w -> step_ok P w (add_metrics a b c d w).
Proof. intros []; split; [by split|by split]. Qed.

Lemma so_set_now P n w : wf w -> step_ok P w (set_now n w).
Proof. intros []; split; [by split|by split]. Qed.

(** Starting a goroutine that meets the conditions on its kind. *)
Definition task_ok w (t : task) : Prop :=
  match t with
  | ReadUpload t ch => is_Some (chans w !! ch) /\
      forall t' s', sessions w !! t' = Some s' -> has_chan s' ch -> t' = t
  | PumpTCP u => is_Some (ups w !! u)
  | PumpUDP v => v_key v = connKey (v_token v) (v_connID v)
  | _ => True
  end.

Lemma so_go P t w : wf w -> task_ok w t -> step_ok P w (go t w).
Proof.
  intros [] Ht. split; [|by split]. split; same_fields; simpl;
    intros *; rewrite elem_of_app, list_elem_of_singleton;
    (intros [?|<-]; [by eauto|done]).
Qed.

(** A session record: only the reverse fields change, or slots are removed. *)
Lemma so_put_session t s s' w :
  wf w -> sessions w !! t = Some s -> s_token s' = t ->
  s_ups s' ⊆ s_ups s -> s_downs s' ⊆ s_downs s ->
  step_ok (eq t) w (put_session s' w).
Proof.
  intros Hw Hs <- Hu Hd. pose proof Hw as [].
  assert (forall ch, has_chan s' ch -> has_chan s ch) as Hch.
  { intros ch [[i Hi]|[i Hi]]; [left|right]; exists i; by eapply lookup_weaken. }
  unfold put_session. split.
  - split; same_fields; simpl.
    + intros t s0. rewrite lookup_insert_Some. intros [[<- <-]|[_ ?]]; eauto.
    + intros t s0 i ch. rewrite lookup_insert_Some. intros [[<- <-]|[_ ?]] Hi; [|by eauto].
      eapply wf_slot_up0; [done|]. by eapply lookup_weaken.
    + intros t s0 i ch. rewrite lookup_insert_Some. intros [[<- <-]|[_ ?]] Hi; [|by eauto].
      eapply wf_slot_down0; [done|]. by eapply lookup_weaken.
    + intros t t' s1 s2 ch. rewrite !lookup_insert_Some.
      intros [[<- <-]|[_ ?]] [[<- <-]|[_ ?]]; eauto.
    + intros t ch Ht. destruct (wf_task_read0 t ch Ht) as [A B]. split; [done|].
      intros t' s0. rewrite lookup_insert_Some. intros [[<- <-]|[_ ?]]; eauto.
  - intros t Ht. split; simpl; try done. by rewrite lookup_insert_ne.
Qed.

(** A new session. *)
Lemma so_new_session t w :
  wf w -> sessions w !! t = None ->
  step_ok (eq t) w (set_sessions (<[t := new_session t]> (sessions w)) w).
Proof.
  intros [] Hn. assert (forall ch, ~ has_chan (new_session t) ch) as Hno.
  { intros ch [[i Hi]|[i Hi]]; simpl in Hi; by rewrite lookup_empty in Hi. }
  split.
  - split; same_fields; simpl.
    + intros t' s0. rewrite lookup_insert_Some. intros [[<- <-]|[_ ?]]; eauto.
    + intros t' s0 i ch. rewrite lookup_insert_Some. intros [[<- <-]|[_ ?]] Hi; [|by eauto].
      simpl in Hi. by rewrite lookup_empty in Hi.
    + intros t' s0 i ch. rewrite lookup_insert_Some. intros [[<- <-]|[_ ?]] Hi; [|by eauto].
      simpl in Hi. by rewrite lookup_empty in Hi.
    + intros t1 t2 s1 s2 ch. rewrite !lookup_insert_Some.
      intros [[<- <-]|[_ ?]] [[<- <-]|[_ ?]] ? ?; eauto; exfalso; by eapply Hno.
    + intros t1 ch Ht. destruct (wf_task_read0 t1 ch Ht) as [A B]. split; [done|].
      intros t' s0. rewrite lookup_insert_Some.
      intros [[<- <-]|[_ ?]] ?; [exfalso; by eapply Hno|eauto].
  - intros t' Ht. split; simpl; try done. by rewrite lookup_insert_ne.
Qed.

(** A channel of the session [t], or of none, changes its contents. *)
Lemma so_chan t ch c c' w :
  wf w -> chans w !! ch = Some c -> ch_idx c' = ch_idx c -> ch_dir c' = ch_dir c ->
  (forall t' s', sessions w !! t' = Some s' -> has_chan s' ch -> t' = t) ->
  step_ok (eq t) w (set_chans (<[ch := c']> (chans w)) w).
Proof.
  intros [] Hc Hi Hd Ho.
  assert (forall ch0 c0 i d, chans w !! ch0 = Some c0 /\ ch_idx c0 = i /\ ch_dir c0 = d ->
    exists c1, <[ch := c']> (chans w) !! ch0 = Some c1 /\ ch_idx c1 = i /\ ch_dir c1 = d) as Hsl.
  { intros ch0 c0 i d (? & <- & <-). destruct (decide (ch = ch0)) as [<-|].
    - rewrite lookup_insert_eq. simplify_eq. eauto.
    - rewrite lookup_insert_ne by done. eauto. }
  split.
  - split; same_fields; simpl.
    + intros t0 s i ch0 H1 H2. destruct (wf_slot_up0 _ _ _ _ H1 H2). eauto.
    + intros t0 s i ch0 H1 H2. destruct (wf_slot_down0 _ _ _ _ H1 H2). eauto.
    + intros t0 ch0 Ht. destruct (wf_task_read0 _ _ Ht) as [A B]. split; [|done].
      destruct (decide (ch = ch0)) as [<-|]; [by rewrite lookup_insert_eq|].
      by rewrite lookup_insert_ne.
  - intros t0 Ht. split; simpl; try done. intros s ch0 Hs Hh.
    rewrite lookup_insert_ne; [done|]. intros <-. apply Ht. symmetry. by eapply Ho.
Qed.

(** A new channel. *)
Lemma so_new_chan P c w :
  wf w -> step_ok P w (set_chans (<[fresh_id (chans w) := c]> (chans w)) w).
Proof.
  intros []. set (n := fresh_id (chans w)). assert (chans w !! n = None) as Hn by
    apply fresh_id_None.
  assert (forall ch c0, chans w !! ch = Some c0 -> <[n := c]> (chans w) !! ch = Some c0) as Hk.
  { intros ch c0 Hc. rewrite lookup_insert_ne; [done|]. intros <-. congruence. }
  split.
  - split; same_fields; simpl.
    + intros t s i ch H1 H2. destruct (wf_slot_up0 _ _ _ _ H1 H2) as (c0 & ? & ?). eauto.
    + intros t s i ch H1 H2. destruct (wf_slot_down0 _ _ _ _ H1 H2) as (c0 & ? & ?). eauto.
    + intros t ch Ht. destruct (wf_task_read0 _ _ Ht) as [[x A] B]. split; [|done].
      rewrite (Hk _ _ A). eauto.
  - intros t Ht. split; simpl; try done. intros s ch Hs [[i Hi]|[i Hi]].
    + destruct (wf_slot_up0 _ _ _ _ Hs Hi) as (c0 & Hc & _). by rewrite (Hk _ _ Hc).
    + destruct (wf_slot_down0 _ _ _ _ Hs Hi) as (c0 & Hc & _). by rewrite (Hk _ _ Hc).
Qed.

(** The slot [i] of a session gets a channel that no session has. *)
Lemma so_slot_up t s i ch c w :
  wf w -> sessions w !! t = Some s -> chans w !! ch = Some c -> ch_idx c = i ->
  ch_dir c = DirUpload ->
  (forall t' s', sessions w !! t' = Some s' -> ~ has_chan s' ch) ->
  (forall t', ReadUpload t' ch ∉ tasks w) ->
  step_ok (eq t) w (put_session (set_s_ups (<[i := ch]> (s_ups s)) s) w).
Proof.
  intros Hw Hs Hc Hi Hd Hno Hnt. pose proof Hw as [].
  assert (s_token s = t) as Et by eauto.
  assert (forall ch0, has_chan (set_s_ups (<[i := ch]> (s_ups s)) s) ch0 ->
    ch0 = ch \/ has_chan s ch0) as Hch.
  { intros ch0 [[j Hj]|[j Hj]]; simpl in Hj.
    - apply lookup_insert_Some in Hj as [[_ <-]|[_ Hj]]; [by left|]. right. left. eauto.
    - right. right. eauto. }
  unfold put_session. change (s_token (set_s_ups _ s)) with (s_token s). rewrite Et. split.
  - split; same_fields; simpl.
    + intros t' s0. rewrite lookup_insert_Some. intros [[<- <-]|[_ ?]]; eauto.
    + intros t' s0 j ch0. rewrite lookup_insert_Some. intros [[<- <-]|[_ ?]] Hj; [|by eauto].
      simpl in Hj. apply lookup_insert_Some in Hj as [[<- <-]|[_ Hj]]; eauto.
    + intros t' s0 j ch0. rewrite lookup_insert_Some. intros [[<- <-]|[_ ?]] Hj; by eauto.
    + intros t1 t2 s1 s2 ch0. rewrite !lookup_insert_Some.
      intros [[<- <-]|[_ Hs1]] [[<- <-]|[_ Hs2]] Hh1 Hh2; eauto.
      * apply Hch in Hh1 as [->|Hh1]; [exfalso; by eapply Hno|eauto].
      * apply Hch in Hh2 as [->|Hh2]; [exfalso; by eapply Hno|eauto].
    + intros t1 ch0 Ht. destruct (wf_task_read0 t1 ch0 Ht) as [A B]. split; [done|].
      intros t' s0. rewrite lookup_insert_Some. intros [[<- <-]|[_ ?]] Hh; [|by eauto].
      apply Hch in Hh as [->|Hh]; [by destruct (Hnt t1)|eauto].
  - intros t' Ht. split; simpl; try done. by rewrite lookup_insert_ne.
Qed.

Lemma so_slot_down t s i ch c w :
  wf w -> sessions w !! t = Some s -> chans w !! ch = Some c -> ch_idx c = i ->
  ch_dir c = DirDownload ->
  (forall t' s', sessions w !! t' = Some s' -> ~ has_chan s' ch) ->
  (forall t', ReadUpload t' ch ∉ tasks w) ->
  step_ok (eq t) w (put_session (set_s_downs (<[i := ch]> (s_downs s)) s) w).
Proof.
  intros Hw Hs Hc Hi Hd Hno Hnt. pose proof Hw as [].
  assert (s_token s = t) as Et by eauto.
  assert (forall ch0, has_chan (set_s_downs (<[i := ch]> (s_downs s)) s) ch0 ->
    ch0 = ch \/ has_chan s ch0) as Hch.
  { intros ch0 [[j Hj]|[j Hj]]; simpl in Hj.
    - right. left. eauto.
    - apply lookup_insert_Some in Hj as [[_ <-]|[_ Hj]]; [by left|]. right. right. eauto. }
  unfold put_session. change (s_token (set_s_downs _ s)) with (s_token s). rewrite Et. split.
  - split; same_fields; simpl.
    + intros t' s0. rewrite lookup_insert_Some. intros [[<- <-]|[_ ?]]; eauto.
    + intros t' s0 j ch0. rewrite lookup_insert_Some. intros [[<- <-]|[_ ?]] Hj; by eauto.
    + intros t' s0 j ch0. rewrite lookup_insert_Some. intros [[<- <-]|[_ ?]] Hj; [|by eauto].
      simpl in Hj. apply lookup_insert_Some in Hj as [[<- <-]|[_ Hj]]; eauto.
    + intros t1 t2 s1 s2 ch0. rewrite !lookup_insert_Some.
      intros [[<- <-]|[_ Hs1]] [[<- <-]|[_ Hs2]] Hh1 Hh2; eauto.
      * apply Hch in Hh1 as [->|Hh1]; [exfalso; by eapply Hno|eauto].
      * apply Hch in Hh2 as [->|Hh2]; [exfalso; by eapply Hno|eauto].
    + intros t1 ch0 Ht. destruct (wf_task_read0 t1 ch0 Ht) as [A B]. split; [done|].
      intros t' s0. rewrite lookup_insert_Some. intros [[<- <-]|[_ ?]] Hh; [|by eauto].
      apply Hch in Hh as [->|Hh]; [by destruct (Hnt t1)|eauto].
  - intros t' Ht. split; simpl; try done. by rewrite lookup_insert_ne.
Qed.

(** Connections: a new one, and a change of one that only [t] uses. *)
Lemma so_new_conn P c w :
  wf w -> step_ok P w (set_conns (<[fresh_id (conns w) := c]> (conns w)) w).
Proof.
  intros []. pose proof (fresh_id_None (conns w)) as Hn. split.
  - split; same_fields; simpl. intros u up Hu. destruct (wf_up0 u up Hu) as [A [x B]].
    split; [done|]. rewrite lookup_insert_ne by congruence. eauto.
  - intros t Ht. split; simpl; try done. intros u up Hu _.
    destruct (wf_up0 u up Hu) as [A [x B]]. by rewrite lookup_insert_ne by congruence.
Qed.

Lemma so_conn t n f w :
  wf w -> (forall u up, ups w !! u = Some up -> u_conn up = n -> u_token up = t) ->
  step_ok (eq t) w (set_conns (alter f n (conns w)) w).
Proof.
  intros [] Ho. split.
  - split; same_fields; simpl. intros u up Hu. destruct (wf_up0 u up Hu) as [A B].
    split; [done|]. rewrite lookup_alter_is_Some. done.
  - intros t' Ht. split; simpl; try done. intros u up Hu Et.
    rewrite lookup_alter_ne; [done|]. intros E. apply Ht. rewrite <- Et. symmetry.
    by eapply Ho.
Qed.

(** Sockets. *)
Lemma so_new_sock P c w :
  wf w -> step_ok P w (set_socks (<[fresh_id (socks w) := c]> (socks w)) w).
Proof.
  intros []. pose proof (fresh_id_None (socks w)) as Hn. split.
  - split; same_fields; simpl. intros key v Hu. destruct (wf_udp0 key v Hu) as (A & B & x & D).
    split_and!; [done..|]. rewrite lookup_insert_ne by congruence. eauto.
  - intros t Ht. split; simpl; try done. intros c0 v Hv.
    destruct (wf_udp0 _ v Hv) as (A & B & x & D). by rewrite lookup_insert_ne by congruence.
Qed.

Lemma so_sock t n f w :
  wf w -> (forall t' c v, udpUps w !! connKey t' c = Some v -> v_conn v = n -> t' = t) ->
  step_ok (eq t) w (set_socks (alter f n (socks w)) w).
Proof.
  intros [] Ho. split.
  - split; same_fields; simpl. intros key v Hv. destruct (wf_udp0 key v Hv) as (A & B & D).
    split_and!; [done..|]. rewrite lookup_alter_is_Some. done.
  - intros t' Ht. split; simpl; try done. intros c v Hv.
    rewrite lookup_alter_ne; [done|]. intros E. apply Ht. symmetry. by eapply Ho.
Qed.

Lemma so_lns P x w : wf w -> step_ok P w (set_lns x w).
Proof. intros []; split; [by split|by split]. Qed.

(** The maps of upstreams. *)
Lemma so_del_tcp t c w :
  wf w -> step_ok (eq t) w (set_tcpUps (delete (connKey t c) (tcpUps w)) w).
Proof.
  intros []. split.
  - split; same_fields; simpl. intros key u. rewrite lookup_delete_Some. intros [_ ?]. eauto.
  - intros t' Ht. split; simpl; try done. intros c'.
    rewrite lookup_delete_ne; [done|]. by intros [? _]%connKey_inj.
Qed.

Lemma so_del_udp t c w :
  wf w -> step_ok (eq t) w (set_udpUps (delete (connKey t c) (udpUps w)) w).
Proof.
  intros []. split.
  - split; same_fields; simpl.
    + intros key u. rewrite lookup_delete_Some. intros [_ ?]. eauto.
    + intros key key' v v'. rewrite !lookup_delete_Some. intros [_ ?] [_ ?]. eauto.
  - intros t' Ht. split; simpl; try done. intros c'.
    rewrite lookup_delete_ne; [done|]. by intros [? _]%connKey_inj.
Qed.

Lemma so_new_upstream t c n w :
  wf w -> is_Some (conns w !! n) ->
  (forall u up, ups w !! u = Some up -> u_conn up <> n) ->
  step_ok (eq t) w (new_upstream t c n w).2.
Proof.
  intros Hw Hn Hno. pose proof Hw as []. unfold new_upstream; cbn [snd].
  pose proof (fresh_id_None (ups w)) as Hfr.
  set (u := fresh_id (ups w)) in *. set (up := MkTcp (connKey t c) t c n 0).
  assert (forall u0 up0, ups w !! u0 = Some up0 -> u <> u0) as Hne by congruence.
  assert (step_ok (eq t) w (set_tcpUps (<[connKey t c:=u]> (tcpUps w))
    (set_ups (<[u:=up]> (ups w)) w))) as S1.
  { split.
    - split; same_fields; simpl.
      + intros key u0. rewrite lookup_insert_Some. intros [[<- <-]|[_ Hk]].
        * exists up. by rewrite lookup_insert_eq.
        * destruct (wf_tcp0 _ _ Hk) as (up0 & Hu0 & E). exists up0.
          rewrite lookup_insert_ne by eauto. done.
      + intros u0 up0. rewrite lookup_insert_Some. intros [[<- <-]|[_ ?]]; [done|eauto].
      + intros u1 u2 up1 up2. rewrite !lookup_insert_Some.
        intros [[<- <-]|[_ A]] [[<- <-]|[_ B]] E; simpl in E; eauto.
        * exfalso. by eapply Hno.
        * exfalso. by eapply Hno.
      + intros u0 Ht. apply wf_task_pump0 in Ht as [x Hx].
        rewrite lookup_insert_ne by eauto. eauto.
    - intros t' Ht. split; simpl; try done.
      + intros c'. rewrite lookup_insert_ne; [done|]. by intros [? _]%connKey_inj.
      + intros u0 up0 Hu0 _. rewrite lookup_insert_ne by eauto. done. }
  eapply step_ok_trans; [exact S1|]. apply so_go; [apply S1|]. simpl.
  by rewrite lookup_insert_eq.
Qed.

Lemma so_new_udp t c v w :
  wf w -> v_key v = connKey t c -> v_token v = t -> v_connID v = c ->
  is_Some (socks w !! v_conn v) ->
  (forall key v', udpUps w !! key = Some v' -> v_conn v' <> v_conn v) ->
  step_ok (eq t) w (set_udpUps (<[connKey t c := v]> (udpUps w)) w).
Proof.
  intros [] Hk Ht Hc Hs Hno. split.
  - split; same_fields; simpl.
    + intros key v'. rewrite lookup_insert_Some. intros [[<- <-]|[_ ?]]; [by subst|eauto].
    + intros k1 k2 v1 v2. rewrite !lookup_insert_Some.
      intros [[<- <-]|[_ A]] [[<- <-]|[_ B]] E; eauto; exfalso; by eapply Hno.
  - intros t' Hne. split; simpl; try done. intros c'.
    rewrite lookup_insert_ne; [done|]. by intros [? _]%connKey_inj.
Qed.

Lemma so_touch v w :
  wf w -> v_key v = connKey (v_token v) (v_connID v) -> step_ok (eq (v_token v)) w (touch v w).
Proof.
  intros [] Hk. unfold touch.
  set (g u' := if decide (v_conn u' = v_conn v) then _ else u').
  assert (forall u, v_key (g u) = v_key u /\ v_token (g u) = v_token u /\
    v_connID (g u) = v_connID u /\ v_conn (g u) = v_conn u) as Hg.
  { intros u. unfold g. by case_decide. }
  split.
  - split; same_fields; simpl.
    + intros key v'. rewrite lookup_alter_Some.
      intros [(<- & v0 & Hv0 & ->)|[_ ?]]; [|by eauto].
      destruct (Hg v0) as (-> & -> & -> & ->). eauto.
    + intros k1 k2 v1 v2. rewrite !lookup_alter_Some.
      intros [(<- & v0 & Hv0 & ->)|[_ A]] [(<- & v0' & Hv0' & ->)|[_ B]] E;
        try destruct (Hg v0) as (_ & _ & _ & E0); try destruct (Hg v0') as (_ & _ & _ & E0');
        rewrite ?E0, ?E0' in E; eauto.
  - intros t' Hne. split; simpl; try done. intros c'. rewrite lookup_alter_ne; [done|].
    rewrite Hk. by intros [? _]%connKey_inj.
Qed.

Lemma so_bump u up w :
  wf w -> ups w !! u = Some up -> step_ok (eq (u_token up)) w (bump u w).
Proof.
  intros [] Hu. unfold bump. set (g up := MkTcp _ _ _ _ _).
  assert (forall u0 up0, alter g u (ups w) !! u0 = Some up0 ->
    exists up1, ups w !! u0 = Some up1 /\ u_key up0 = u_key up1 /\ u_token up0 = u_token up1 /\
      u_connID up0 = u_connID up1 /\ u_conn up0 = u_conn up1) as Hg.
  { intros u0 up0. rewrite lookup_alter_Some. intros [(<- & x & Hx & ->)|[_ ?]]; eauto 10. }
  split.
  - split; same_fields; simpl.
    + intros key u0 Hk. destruct (wf_tcp0 _ _ Hk) as (x & Hx & E).
      destruct (decide (u = u0)) as [<-|].
      * exists (g x). rewrite lookup_alter_eq, Hx. done.
      * exists x. by rewrite lookup_alter_ne.
    + intros u0 up0 (x & Hx & -> & -> & -> & ->)%Hg. eauto.
    + intros u1 u2 up1 up2 (x & Hx & _ & _ & _ & ->)%Hg (y & Hy & _ & _ & _ & ->)%Hg. eauto.
    + intros u0 Ht. rewrite lookup_alter_is_Some. eauto.
  - intros t' Hne. split; simpl; try done. intros u0 up0 Hu0 Et.
    rewrite lookup_alter_ne; [done|]. intros <-. apply Hne. congruence.
Qed.

(** ** The operations *)

Section Operations.
Context (cfg : Cfg) (iter : gmap Z nat -> list Z) (ResolveUDPAddr : string -> option string).
Context (Hiter : forall m, iter m ≡ₚ map fst (map_to_list m)).

(** [downloadFor] returns a channel of the session, and some channel if there is one. *)
Lemma downloadFor_Some s connID ch :
  downloadFor iter s connID = Some ch -> exists i, s_downs s !! i = Some ch.
Proof.
  unfold downloadFor. case_decide; [done|]. cbv zeta.
  destruct (s_downs s !! u16 _) eqn:E; [intros [= <-]; eauto|].
  intros Hh. destruct (head (iter (s_downs s))) as [i|]; simpl in Hh; [eauto|done].
Qed.

Lemma downloadFor_None s connID : downloadFor iter s connID = None -> s_downs s = ∅.
Proof.
  unfold downloadFor. case_decide as Hs; [by apply map_size_empty_inv in Hs|]. cbv zeta.
  destruct (s_downs s !! u16 _) eqn:E; [done|].
  destruct (iter (s_downs s)) as [|i l] eqn:El; simpl.
  - pose proof (Hiter (s_downs s)) as Hp. rewrite El in Hp.
    apply Permutation_nil, map_eq_nil in Hp. by apply map_to_list_empty_iff in Hp.
  - intros Hn. exfalso. assert (i ∈ iter (s_downs s)) as Hi by (rewrite El; apply list_elem_of_here).
    rewrite Hiter in Hi. apply list_elem_of_In, in_map_iff in Hi as ([j x] & <- & Hi).
    apply list_elem_of_In, elem_of_map_to_list in Hi. simpl in Hn. congruence.
Qed.

Lemma op_writeDown t fs w : wf w -> step_ok (eq t) w (writeDown iter t fs w).2.
Proof.
  intros Hw. unfold writeDown, getSession. st_run.
  destruct (sessions w !! t) as [s|] eqn:Hs; [|by apply step_ok_refl].
  destruct (downloadFor iter s _) as [ch|] eqn:Hd; [|by apply step_ok_refl].
  simpl. destruct (chans w !! ch) as [c|] eqn:Hc; [|by apply step_ok_refl].
  destruct (ch_write fs c) as [err c'] eqn:Ew.
  pose proof (ch_write_dir fs c) as E1. pose proof (ch_write_idx fs c) as E2.
  rewrite Ew in E1, E2. simpl in E1, E2.
  assert (step_ok (eq t) w (set_chans (<[ch:=c']> (chans w)) w)) as Hso.
  { apply (so_chan t ch c); [done..|]. intros t' s' Hs' Hh. symmetry.
    apply (wf_owner _ Hw t t' s s' ch); [done..| |done].
    right. by eapply downloadFor_Some. }
  destruct err; simpl; [done|]. eapply step_ok_trans; [done|]. apply so_metrics, Hso.
Qed.

Lemma op_tcpRemove t c w : wf w -> step_ok (eq t) w (tcpRemove (connKey t c) w).2.
Proof.
  intros Hw. unfold tcpRemove. st_run.
  destruct (tcpUps w !! connKey t c) as [u|] eqn:Hu; [|by apply step_ok_refl]. simpl.
  destruct (wf_tcp _ Hw _ _ Hu) as (up & Hup & Ek).
  destruct (wf_up _ Hw _ _ Hup) as [Ek' _]. rewrite Ek in Ek'.
  apply connKey_inj in Ek' as [-> ->].
  unfold close_up, conn_of_up. rewrite Hup. simpl. unfold close_conn.
  match goal with |- step_ok _ _ (set_tcpUps _ ?w1) =>
    assert (step_ok (eq (u_token up)) w w1) as H1 end.
  { apply so_conn; [done|]. intros u' up' Hu' E.
    by rewrite (wf_up_inj _ Hw u' u up' up Hu' Hup E), Hup in Hu'; simplify_eq. }
  eapply step_ok_trans; [exact H1|].
  exact (so_del_tcp (u_token up) (u_connID up) _ (so_wf _ _ _ H1)).
Qed.

Lemma op_udpRemove t c w : wf w -> step_ok (eq t) w (udpRemove (connKey t c) w).2.
Proof.
  intros Hw. unfold udpRemove. st_run.
  destruct (udpUps w !! connKey t c) as [v|] eqn:Hv; [|by apply step_ok_refl]. simpl.
  unfold close_sock. assert (step_ok (eq t) w
    (set_socks (alter (fun c0 => MkSock false (k_dgrams c0)) (v_conn v) (socks w)) w)) as Hso.
  { apply so_sock; [done|]. intros t' c' v' Hv' E.
    pose proof (wf_udp_inj _ Hw _ _ _ _ Hv' Hv E) as Ek. by apply connKey_inj in Ek as [-> _]. }
  eapply step_ok_trans; [exact Hso|]. exact (so_del_udp t c _ (so_wf _ _ _ Hso)).
Qed.

(** A connection just made, and the upstream on it. *)
Lemma op_fresh_upstream t c w :
  wf w ->
  let '(n, w1) := fresh_conn w in
  step_ok (eq t) w w1 /\ step_ok (eq t) w (new_upstream t c n w1).2.
Proof.
  intros Hw. unfold fresh_conn. assert (step_ok (eq t) w (fresh_conn w).2) as H1
    by (by apply so_new_conn).
  split; [done|]. eapply step_ok_trans; [done|]. apply so_new_upstream; [apply H1| |].
  - simpl. by rewrite lookup_insert_eq.
  - simpl. intros u up Hu E. destruct (wf_up _ Hw u up Hu) as [_ [x Hx]].
    pose proof (fresh_id_None (conns w)). congruence.
Qed.

Lemma op_tcpDial dial t c target w : wf w -> step_ok (eq t) w (tcpDial cfg dial t c target w).2.
Proof.
  intros Hw. unfold tcpDial. st_run.
  destruct (tcpUps w !! connKey t c) eqn:Hu; [by apply step_ok_refl|].
  destruct (dial _); [by apply step_ok_refl|].
  pose proof (op_fresh_upstream t c w Hw) as Hf.
  simpl in Hf |- *. exact (proj2 Hf).
Qed.

Lemma op_udpGetOrCreate l t c w :
  wf w ->
  let '(r, w') := udpGetOrCreate cfg ResolveUDPAddr l t c w in
  step_ok (eq t) w w' /\
  forall v, r = Ok v -> udpUps w' !! connKey t c = Some v /\ v_token v = t /\ v_connID v = c.
Proof.
  intros Hw. unfold udpGetOrCreate. st_run.
  destruct (udpUps w !! connKey t c) as [v|] eqn:Hv.
  { simpl. split; [by apply step_ok_refl|]. intros ? [= <-].
    destruct (wf_udp _ Hw _ _ Hv) as (_ & E & _). by apply connKey_inj in E as [<- <-]. }
  destruct l; [split; [by apply step_ok_refl|done]|].
  assert (step_ok (eq t) w (fresh_sock w).2) as H1 by (by apply so_new_sock).
  simpl in H1 |- *. set (n := fresh_id (socks w)) in *.
  set (w1 := set_socks _ w) in *.
  assert (forall target, let v := MkUdp (connKey t c) t c n target (now w) in
    step_ok (eq t) w (go (PumpUDP v) (set_udpUps (<[connKey t c:=v]> (udpUps w)) w1)) /\
    forall v', Ok v = Ok v' -> <[connKey t c:=v]> (udpUps w) !! connKey t c = Some v' /\
      v_token v' = t /\ v_connID v' = c) as Hadd.
  { intros target v. split; [|intros v' [= <-]; by rewrite lookup_insert_eq].
    assert (step_ok (eq t) w1 (set_udpUps (<[connKey t c:=v]> (udpUps w1)) w1)) as H2.
    { apply so_new_udp; try done; [apply H1| |].
      - simpl. by rewrite lookup_insert_eq.
      - simpl. intros key v' Hv' E. destruct (wf_udp _ Hw _ _ Hv') as (_ & _ & x & Hx).
        pose proof (fresh_id_None (socks w)). unfold n in *. congruence. }
    eapply step_ok_trans; [exact H1|]. eapply step_ok_trans; [exact H2|].
    apply so_go; [apply H2|done]. }
  destruct (String.eqb _ _); [apply Hadd|].
  destruct (ResolveUDPAddr _); [apply Hadd|]. simpl. split; [|done].
  eapply step_ok_trans; [exact H1|]. apply so_sock; [apply H1|]. simpl.
  intros t' c' v' Hv' E. destruct (wf_udp _ Hw _ _ Hv') as (_ & _ & x & Hx).
  pose proof (fresh_id_None (socks w)). unfold n in *. congruence.
Qed.

(** *** Composition *)

Lemma so_bind {A B} P (m : ST (World C) A) (f : A -> ST (World C) B) w :
  step_ok P w (m w).2 -> (forall a w', m w = (a, w') -> wf w' -> step_ok P w' (f a w').2) ->
  step_ok P w ((m ≫= f) w).2.
Proof.
  intros Hm Hf. unfold mbind, ST_bind. destruct (m w) as [a w'] eqn:E. simpl in *.
  eapply step_ok_trans; [exact Hm|]. apply Hf; [done|]. apply Hm.
Qed.

Lemma so_for_each {A} P (l : list A) (f : A -> ST (World C) unit) w :
  wf w -> (forall x w, x ∈ l -> wf w -> step_ok P w (f x w).2) -> step_ok P w (for_each l f w).2.
Proof.
  revert w. induction l as [|x l IH]; intros w Hw Hf; [by apply step_ok_refl|].
  cbn [for_each]. apply so_bind; [apply Hf; [apply list_elem_of_here|done]|].
  intros _ w' _ Hw'. apply IH; [done|]. intros y w0 Hy. apply Hf. by apply list_elem_of_further.
Qed.

(** The sessions that the teardown of [token] touches. *)
Definition below (token t : string) : Prop := t = token \/ HasPrefix t (token +:+ ":") = true.

Lemma below_eq token t : token = t -> below token t.
Proof. by left. Qed.

(** A key of the map that has the prefix of [token] belongs to a session below it. *)
Lemma op_removeAll token (keys : list string) (rm : string -> ST (World C) unit) w :
  wf w -> (forall key, key ∈ keys -> exists t c, key = connKey t c) ->
  (forall t c w, wf w -> step_ok (eq t) w (rm (connKey t c) w).2) ->
  step_ok (below token) w
    (for_each keys (fun key => if HasPrefix key (token +:+ ":") then rm key else mret tt) w).2.
Proof.
  intros Hw Hk Hrm. apply so_for_each; [done|]. intros key w0 Hin Hw0.
  destruct (Hk key Hin) as (t & c & ->).
  destruct (HasPrefix (connKey t c) _) eqn:E; [|by apply step_ok_refl].
  apply HasPrefix_connKey in E. eapply step_ok_weaken; [|by apply Hrm].
  by intros t' <-.
Qed.

Lemma op_tcpRemoveAll token w : wf w -> step_ok (below token) w (tcpRemoveAll token w).2.
Proof.
  intros Hw. unfold tcpRemoveAll. apply so_bind; [by apply step_ok_refl|].
  intros keys w' [= <- <-] _. apply so_bind.
  - apply (op_removeAll token _ tcpRemove); [done| |by intros; apply op_tcpRemove].
    intros key Hkey. apply list_elem_of_In, in_map_iff in Hkey as ([k u] & <- & Hin).
    apply list_elem_of_In, elem_of_map_to_list in Hin.
    destruct (wf_tcp _ Hw _ _ Hin) as (up & Hu & <-). destruct (wf_up _ Hw _ _ Hu) as [-> _].
    eauto.
  - intros _ w' _ Hw'. unfold udpRemoveAll. apply so_bind; [by apply step_ok_refl|].
    intros keys w2 [= <- <-] _.
    apply (op_removeAll token _ udpRemove); [done| |by intros; apply op_udpRemove].
    intros key Hkey. apply list_elem_of_In, in_map_iff in Hkey as ([k v] & <- & Hin).
    apply list_elem_of_In, elem_of_map_to_list in Hin.
    destruct (wf_udp _ Hw' _ _ Hin) as (_ & -> & _). eauto.
Qed.

(** What writeDown leaves alone. *)
Lemma writeDown_fields t fs w :
  ups (writeDown iter t fs w).2 = ups w /\ tcpUps (writeDown iter t fs w).2 = tcpUps w /\
  sessions (writeDown iter t fs w).2 = sessions w /\ conns (writeDown iter t fs w).2 = conns w /\
  udpUps (writeDown iter t fs w).2 = udpUps w /\ socks (writeDown iter t fs w).2 = socks w.
Proof.
  unfold writeDown, getSession. st_run.
  destruct (sessions w !! t) as [s|]; [|done].
  destruct (downloadFor iter s _) as [ch|]; [|done]. simpl.
  destruct (chans w !! ch) as [c|]; [|done].
  by destruct (ch_write fs c) as [[err|] c'].
Qed.

(** The upstream keeps its identity through [pump_down]. *)
Definition bumped (up : tcpUpstream) : tcpUpstream :=
  MkTcp (u_key up) (u_token up) (u_connID up) (u_conn up) (u32 (u_sendSeq up + 1)).

Lemma op_pump_down u up up0 ty d w :
  wf w -> ups w !! u = Some up0 -> u_token up0 = u_token up ->
  step_ok (eq (u_token up)) w (pump_down iter u up ty d w).2 /\
  ups (pump_down iter u up ty d w).2 !! u = Some (bumped up0).
Proof.
  intros Hw Hu Et. unfold pump_down. st_run.
  pose proof (so_bump u up0 w Hw Hu) as H1. rewrite Et in H1.
  destruct (writeDown iter (u_token up) _ (bump u w)) as [[] w'] eqn:E.
  match type of E with writeDown _ ?t ?fs _ = _ =>
    pose proof (op_writeDown t fs _ (so_wf _ _ _ H1)) as H2;
    destruct (writeDown_fields t fs (bump u w)) as (Hups & _) end.
  rewrite E in H2, Hups. simpl in *. split; [by eapply step_ok_trans|].
  rewrite Hups. by rewrite lookup_alter_eq, Hu.
Qed.

Lemma op_pumpTCP u up data err w :
  wf w -> ups w !! u = Some up -> step_ok (eq (u_token up)) w (pumpTCP iter u data err w).2.
Proof.
  intros Hw Hu. unfold pumpTCP.
  apply so_bind; [by apply step_ok_refl|]. intros ou w0 [= <- <-] _. rewrite Hu.
  destruct (wf_up _ Hw _ _ Hu) as [Ek _].
  set (m := match data with [] => _ | _ => _ end).
  assert (step_ok (eq (u_token up)) w (m w).2 /\ exists up1, ups (m w).2 !! u = Some up1 /\
    u_token up1 = u_token up) as [Hm (up1 & Hu1 & Et1)].
  { unfold m. destruct data as [|b data]; [split; [by apply step_ok_refl|by exists up]|].
    st_run. set (w1 := add_metrics _ _ _ _ w).
    assert (step_ok (eq (u_token up)) w w1) as H1 by (by apply so_metrics).
    destruct (op_pump_down u up up TypeData (b :: data) w1) as [H2 H3]; [apply H1|done|done|].
    split; [by eapply step_ok_trans|]. by exists (bumped up). }
  apply so_bind; [done|]. intros [] w1 E Hw1. rewrite E in Hu1. simpl in Hu1.
  destruct err; [|by apply step_ok_refl].
  destruct (op_pump_down u up up1 TypeClose [] w1) as [H2 H3]; [done..|].
  apply so_bind; [done|]. intros [] w2 _ Hw2.
  apply so_bind; [rewrite Ek; by apply op_tcpRemove|]. intros; by apply step_ok_refl.
Qed.

Lemma op_pumpUDP v r w :
  wf w -> v_key v = connKey (v_token v) (v_connID v) ->
  step_ok (eq (v_token v)) w (pumpUDP iter v r w).2.
Proof.
  intros Hw Hk. unfold pumpUDP. destruct r as [[raddr d]|e|s|];
    try (apply so_bind; [rewrite Hk; by apply op_udpRemove|]; intros; by apply step_ok_refl).
  apply so_bind; [by apply so_touch|]. intros [] w1 _ Hw1.
  apply so_bind; [by apply so_metrics|]. intros [] w2 _ Hw2.
  apply so_bind; [by apply op_writeDown|]. intros; by apply step_ok_refl.
Qed.

Lemma op_write_conn t n d w :
  wf w -> (forall u up, ups w !! u = Some up -> u_conn up = n -> u_token up = t) ->
  step_ok (eq t) w (write_conn n d w).2.
Proof.
  intros Hw Ho. unfold write_conn. destruct (conns w !! n) as [c|] eqn:Hc;
    [|by apply step_ok_refl].
  destruct (n_open c); [|by apply step_ok_refl].
  destruct (n_werr c); [by apply step_ok_refl|]. simpl.
  replace (<[n:=MkNet true (n_tx c ++ d) None]> (conns w)) with
    (alter (fun _ => MkNet true (n_tx c ++ d) None) n (conns w)); [by apply so_conn|].
  apply map_eq. intros i. destruct (decide (n = i)) as [<-|].
  - by rewrite lookup_alter_eq, Hc, lookup_insert_eq.
  - by rewrite lookup_alter_ne, lookup_insert_ne.
Qed.

Lemma op_processFrame o t f w :
  wf w -> step_ok (eq t) w (processFrame cfg iter ResolveUDPAddr o t f w).2.
Proof.
  intros Hw. unfold processFrame.
  apply so_bind; [by apply so_metrics|]. intros [] w1 _ Hw1. clear w Hw.
  repeat match goal with
    |- step_ok _ _ ((if (FType f =? _) then _ else _) _).2 => destruct (FType f =? _)
  end.
  - by apply so_go.
  - destruct (String.eqb _ "udp://").
    + destruct (cfgSkipUDP cfg); [by apply op_writeDown|].
      apply so_bind; [|intros; by apply step_ok_refl].
      pose proof (op_udpGetOrCreate (o_listen o) t (ConnID f) w1 Hw1) as Hu.
      destruct (udpGetOrCreate _ _ _ _ _ _). apply Hu.
    + apply so_bind; [by apply op_tcpDial|]. intros r w2 _ Hw2.
      destruct r; try (by apply op_writeDown). by apply step_ok_refl.
  - apply so_bind; [by apply step_ok_refl|]. intros on w2 [= <- <-] _.
    destruct (tcpUps w1 !! _) as [u|] eqn:Hu; [|by apply step_ok_refl].
    destruct (wf_tcp _ Hw1 _ _ Hu) as (up & Hup & Ek). simpl.
    unfold conn_of_up. rewrite Hup. simpl. destruct (wf_up _ Hw1 _ _ Hup) as [Ek' _].
    rewrite Ek in Ek'. apply connKey_inj in Ek' as [Et _].
    assert (forall u' up', ups w1 !! u' = Some up' -> u_conn up' = u_conn up -> u_token up' = t)
      as Ho.
    { intros u' up' Hu' E. rewrite (wf_up_inj _ Hw1 u' u up' up Hu' Hup E), Hup in Hu'.
      by simplify_eq. }
    apply so_bind; [by apply so_metrics|]. intros [] w2 [= <-] Hw2.
    apply so_bind; [by apply op_write_conn|]. intros err w3 _ Hw3.
    destruct err; [by apply op_tcpRemove|by apply step_ok_refl].
  - destruct (DecodeUDPData _) as [[addr payload]|?|?|]; try (by apply step_ok_refl).
    pose proof (op_udpGetOrCreate (o_listen o) t (ConnID f) w1 Hw1) as Hu.
    destruct (udpGetOrCreate _ _ _ _ _ _) as [r w2] eqn:Eu. destruct Hu as [Hu1 Hu2].
    apply so_bind; [by rewrite Eu|]. intros r' w2' E Hw2. rewrite Eu in E. injection E as <- <-.
    destruct r as [v|?|?|]; try (by apply step_ok_refl).
    destruct (Hu2 v eq_refl) as (Hv & Et & Ec).
    assert (v_key v = connKey (v_token v) (v_connID v)) as Hk.
    { destruct (wf_udp _ Hw2 _ _ Hv) as (E & E' & _). congruence. }
    assert (forall w, wf w -> udpUps w !! connKey t (ConnID f) = Some v ->
      forall t' c' v', udpUps w !! connKey t' c' = Some v' -> v_conn v' = v_conn v -> t' = t)
      as Ho.
    { intros w0 Hw0 Hv0 t' c' v' Hv' E.
      pose proof (wf_udp_inj _ Hw0 _ _ _ _ Hv' Hv0 E) as Ek. by apply connKey_inj in Ek as [-> _]. }
    apply so_bind; [rewrite <- Et; by apply so_touch|]. intros [] w3 [= <-] Hw3.
    destruct (match v_target v with Some _ => _ | None => _ end); [|by apply step_ok_refl].
    apply so_bind; [by apply so_metrics|]. intros [] w4 [= <-] Hw4.
    unfold write_dgram. apply so_sock; [done|]. simpl.
    intros t' c' v' Hv' E. apply lookup_alter_Some in Hv' as [(Ek & v0 & Hv0 & ->)|[_ Hv']].
    + rewrite Hk, Et in Ek. by apply connKey_inj in Ek as [-> _].
    + by apply (Ho w2 Hw2 Hv t' c' v').
  - apply so_bind; [by apply op_tcpRemove|]. intros [] w2 _ Hw2. by apply op_udpRemove.
  - by apply op_writeDown.
  - by apply so_go.
  - by apply step_ok_refl.
Qed.

Lemma op_getOrCreateSession t w :
  wf w ->
  step_ok (eq t) w (getOrCreateSession t w).2 /\
  sessions (getOrCreateSession t w).2 !! t = Some (getOrCreateSession t w).1.
Proof.
  intros Hw. unfold getOrCreateSession. destruct (sessions w !! t) as [s|] eqn:Hs; simpl.
  - split; [by apply step_ok_refl|done].
  - split; [by apply so_new_session|]. by rewrite lookup_insert_eq.
Qed.

Lemma so_close_chan t ch w :
  wf w -> (forall t' s', sessions w !! t' = Some s' -> has_chan s' ch -> t' = t) ->
  step_ok (eq t) w (close_chan ch w).
Proof.
  intros Hw Ho. unfold close_chan. destruct (chans w !! ch) as [c|] eqn:Hc.
  - replace (alter ch_close ch (chans w)) with (<[ch := ch_close c]> (chans w)).
    + apply (so_chan t ch c); [done..|apply ch_close_idx|apply ch_close_dir|done].
    + apply map_eq. intros i. destruct (decide (ch = i)) as [<-|].
      * by rewrite lookup_alter_eq, Hc, lookup_insert_eq.
      * by rewrite lookup_alter_ne, lookup_insert_ne.
  - assert (alter ch_close ch (chans w) = chans w) as ->.
    { apply map_eq. intros i. destruct (decide (ch = i)) as [<-|].
      - by rewrite lookup_alter_eq, Hc.
      - by rewrite lookup_alter_ne. }
    destruct w; simpl. by apply step_ok_refl.
Qed.

(** Closing the old channel of a slot, if there is one. *)
Lemma op_close_old t s (m : gmap Z nat) i w :
  wf w -> sessions w !! t = Some s -> (forall j ch, m !! j = Some ch -> has_chan s ch) ->
  let w' := (close_slot m i w).2 in
  step_ok (eq t) w w' /\ sessions w' = sessions w /\ tasks w' = tasks w /\
  forall ch c, chans w !! ch = Some c -> (forall j, m !! j <> Some ch) -> chans w' !! ch = Some c.
Proof.
  intros Hw Hs Hm. unfold close_slot. destruct (m !! i) as [old|] eqn:E; simpl.
  - split_and!; [|done..|].
    + apply so_close_chan; [done|]. intros t' s' Hs' Hh. symmetry.
      apply (wf_owner _ Hw t t' s s' old); [done..| |done]. by eapply Hm.
    + intros ch c Hc Hn. rewrite lookup_alter_ne; [done|]. intros <-. by destruct (Hn i).
  - split_and!; [by apply step_ok_refl|done..].
Qed.

Lemma op_bind t s ch c i w :
  wf w -> sessions w !! t = Some s -> chans w !! ch = Some c -> ch_idx c = i ->
  (ch_dir c = DirUpload \/ ch_dir c = DirDownload) ->
  (forall t' s', sessions w !! t' = Some s' -> ~ has_chan s' ch) ->
  (forall t', ReadUpload t' ch ∉ tasks w) ->
  let w' := (bind s ch (ch_dir c) i w).2 in
  step_ok (eq t) w w' /\ is_Some (chans w' !! ch) /\
  exists s', sessions w' !! t = Some s' /\ has_chan s' ch.
Proof.
  intros Hw Hs Hc Hi Hd Hno Hnt. pose proof (wf_sess _ Hw _ _ Hs) as Et. unfold bind.
  assert (forall m : gmap Z nat, (forall j ch0, m !! j = Some ch0 -> has_chan s ch0) ->
    forall j, m !! j <> Some ch) as Hnm.
  { intros m Hm j E. by apply (Hno t s Hs), (Hm j). }
  destruct (Z.eqb_spec (ch_dir c) DirUpload) as [Ed|Ed].
  - assert (forall j ch0, s_ups s !! j = Some ch0 -> has_chan s ch0) as Hm by (left; eauto).
    destruct (op_close_old t s (s_ups s) i w Hw Hs Hm) as (H1 & H2 & H3 & H4).
    unfold mbind, ST_bind.
    destruct (close_slot (s_ups s) i w) as [[] w1]. simpl in *.
    assert (step_ok (eq t) w1 (put_session (set_s_ups (<[i:=ch]> (s_ups s)) s) w1)) as H5.
    { apply (so_slot_up t s i ch c); try done; [apply H1|by rewrite H2|by apply H4, Hnm| |];
        rewrite ?H2, ?H3; done. }
    split; [by eapply step_ok_trans|]. simpl. split; [rewrite (H4 ch c); eauto|].
    exists (set_s_ups (<[i:=ch]> (s_ups s)) s). unfold put_session. simpl.
    rewrite Et, lookup_insert_eq. split; [done|]. left. exists i. simpl. by rewrite lookup_insert_eq.
  - destruct Hd as [|Hd]; [done|].
    assert (forall j ch0, s_downs s !! j = Some ch0 -> has_chan s ch0) as Hm by (right; eauto).
    destruct (op_close_old t s (s_downs s) i w Hw Hs Hm) as (H1 & H2 & H3 & H4).
    unfold mbind, ST_bind.
    destruct (close_slot (s_downs s) i w) as [[] w1]. simpl in *.
    assert (step_ok (eq t) w1 (put_session (set_s_downs (<[i:=ch]> (s_downs s)) s) w1)) as H5.
    { apply (so_slot_down t s i ch c); try done; [apply H1|by rewrite H2|by apply H4, Hnm| |];
        rewrite ?H2, ?H3; done. }
    split; [by eapply step_ok_trans|]. simpl. split; [rewrite (H4 ch c); eauto|].
    exists (set_s_downs (<[i:=ch]> (s_downs s)) s). unfold put_session. simpl.
    rewrite Et, lookup_insert_eq. split; [done|]. right. exists i. simpl. by rewrite lookup_insert_eq.
Qed.

(** The session a hello is for. *)
Definition hello_token (h : result Hello) : string :=
  match h with Ok h => Token h | _ => "" end.

Lemma op_handleDataConn h (mk : Z -> Z -> C) w :
  wf w -> (forall d i, ch_dir (mk d i) = d /\ ch_idx (mk d i) = i) ->
  step_ok (eq (hello_token h)) w (handleDataConn h mk w).2.
Proof.
  intros Hw Hmk. unfold handleDataConn. destruct h as [[tok d i]|?|?|]; try (by apply step_ok_refl).
  cbn [Token Dir HIndex hello_token].
  destruct (negb (d =? DirUpload) && negb (d =? DirDownload)) eqn:Ed; [by apply step_ok_refl|].
  assert (d = DirUpload \/ d = DirDownload) as Hd.
  { apply andb_false_iff in Ed as [E|E]; apply negb_false_iff, Z.eqb_eq in E; auto. }
  destruct (String.eqb tok ""); [by apply step_ok_refl|].
  destruct (Hmk d i) as [Hdir Hidx].
  set (ch := fresh_id (chans w)). pose proof (fresh_id_None (chans w)) as Hfr. fold ch in Hfr.
  apply so_bind; [by apply so_new_chan|]. intros ch' w1 [= <- <-] Hw1. fold ch in Hw1 |- *.
  assert (forall t' s', sessions w !! t' = Some s' -> ~ has_chan s' ch) as Hno.
  { intros t' s' Hs' [[j Hj]|[j Hj]].
    - destruct (wf_slot_up _ Hw _ _ _ _ Hs' Hj) as (? & ? & _). congruence.
    - destruct (wf_slot_down _ Hw _ _ _ _ Hs' Hj) as (? & ? & _). congruence. }
  assert (forall t', ReadUpload t' ch ∉ tasks w) as Hnt.
  { intros t' Ht. destruct (wf_task_read _ Hw _ _ Ht) as [[x Hx] _]. congruence. }
  set (w1 := set_chans _ w) in *.
  destruct (op_getOrCreateSession tok w1 Hw1) as [Hg1 Hg2].
  apply so_bind; [done|]. intros s w2 E Hw2. rewrite E in Hg2. simpl in Hg2.
  assert (chans w2 = chans w1 /\ tasks w2 = tasks w1 /\
    forall t' s', sessions w2 !! t' = Some s' -> ~ has_chan s' ch) as (Ec & Etk & Hno2).
  { unfold getOrCreateSession in E.
    destruct (sessions w1 !! tok); injection E as <- <-; (split; [done|split; [done|]]);
      [exact Hno|]. simpl. intros t' s'. rewrite lookup_insert_Some. intros [[_ <-]|[_ ?]]; [|by eapply Hno].
    intros [[j Hj]|[j Hj]]; simpl in Hj; by rewrite lookup_empty in Hj. }
  assert (chans w2 !! ch = Some (mk d i)) as Hch by (rewrite Ec; simpl; by rewrite lookup_insert_eq).
  destruct (op_bind tok s ch (mk d i) i w2) as (Hb1 & Hb2 & s' & Hb3 & Hb4); try done.
  { by rewrite Hdir. }
  { intros t'. rewrite Etk. apply Hnt. }
  rewrite Hdir in Hb1, Hb2, Hb3.
  apply so_bind; [done|]. intros [] w3 E3 Hw3. rewrite E3 in Hb2, Hb3. simpl in Hb2, Hb3.
  destruct (d =? DirUpload); [|by apply step_ok_refl]. apply so_go; [done|].
  split; [done|]. intros t' s'' Hs'' Hh. symmetry. by apply (wf_owner _ Hw3 tok t' s' s'' ch).
Qed.

(** What one turn of an upload loop may touch: its session, and on its end, when the last
    upload channel goes, the sessions below its token. *)
Lemma op_readUploadLoop o t ch r w :
  wf w -> ReadUpload t ch ∈ tasks w ->
  step_ok (match r with Ok _ => eq t | _ => below t end) w
    (readUploadLoop cfg iter ResolveUDPAddr o t ch r w).2.
Proof.
  intros Hw Ht. destruct (wf_task_read _ Hw _ _ Ht) as [_ Ho].
  assert (forall r, match r with Ok _ => False | _ => True end ->
    step_ok (below t) w (readUploadLoop cfg iter ResolveUDPAddr o t ch r w).2) as Herr.
  { clear r. intros r Hr. unfold readUploadLoop. destruct r as [?|e|s|]; [done|..].
    all: apply so_bind; [by apply step_ok_refl|]; intros i w1 [= <- <-] _.
    all: apply so_bind;
      [eapply step_ok_weaken; [apply below_eq|by apply so_close_chan]|];
      intros [] w1 E1 Hw1; injection E1 as <-.
    all: apply so_bind; [by apply step_ok_refl|]; intros os w2 [= <- <-] _.
    all: destruct (sessions _ !! t) as [s0|] eqn:Hs; [|by apply step_ok_refl].
    all: simpl in Hs; pose proof (wf_sess _ Hw _ _ Hs) as Et.
    all: match goal with |- context [put_session ?s1] => set (s1' := s1);
      assert (s_token s1' = t /\ s_ups s1' ⊆ s_ups s0 /\ s_downs s1' ⊆ s_downs s0)
        as (A1 & A2 & A3) by
        (unfold s1'; case_decide; simpl; split_and!; done || apply delete_subseteq);
      clearbody s1' end.
    all: apply so_bind;
      [eapply step_ok_weaken; [apply below_eq|by apply (so_put_session t s0)]|].
    all: intros [] w3 _ Hw3; apply so_bind; [|intros; by apply step_ok_refl].
    all: destruct (decide _); [by apply op_tcpRemoveAll|by apply step_ok_refl]. }
  destruct r as [fs|e|s|]; try (by apply Herr).
  unfold readUploadLoop. apply so_bind; [|intros; by apply step_ok_refl].
  apply so_for_each; [done|]. intros f w1 _ Hw1. by apply op_processFrame.
Qed.

Lemma op_dns_answer t c q r w : wf w -> step_ok (eq t) w (dns_answer iter t c q r w).2.
Proof. intros Hw. by apply op_writeDown. Qed.

Lemma op_ftpRunReverse t b w : wf w -> step_ok (eq t) w (ftpRunReverse t b w).2.
Proof.
  intros Hw. unfold ftpRunReverse. destruct (op_getOrCreateSession t w Hw) as [H1 H2].
  apply so_bind; [done|]. intros s w1 E Hw1. rewrite E in H2. simpl in H2.
  pose proof (wf_sess _ Hw1 _ _ H2) as Et.
  assert (forall (o : option nat) w, wf w -> let w' := ((match o with
    | Some n => modify (close_ln n) | None => mret tt end : ST (World C) unit) w).2 in
    step_ok (eq t) w w' /\ sessions w' = sessions w) as Hln.
  { intros o w0 Hw0. destruct o; simpl; split; [by apply so_lns|done|by apply step_ok_refl|done]. }
  destruct (Hln (s_revLn s) w1 Hw1) as [A1 A2].
  apply so_bind; [done|]. intros [] w2 E2 Hw2. rewrite E2 in A2. simpl in A2.
  destruct (Hln (s_revUDP s) w2 Hw2) as [B1 B2].
  apply so_bind; [done|]. intros [] w3 E3 Hw3. rewrite E3 in B2. simpl in B2.
  assert (sessions w3 !! t = Some s) as Hs3 by congruence.
  apply so_bind; [by apply (so_put_session t s)|]. intros [] w4 [= <-] Hw4.
  destruct b as [udp|?|?|]; try (by apply step_ok_refl).
  apply so_bind; [by apply so_lns|]. intros ln w5 [= <- <-] Hw5.
  apply so_bind.
  { destruct udp; [|by apply step_ok_refl]. apply so_bind; [by apply so_lns|].
    intros; by apply step_ok_refl. }
  intros u w6 E6 Hw6. apply so_bind; [|intros; by apply step_ok_refl].
  apply (so_put_session t (set_s_rev (s_revConnID s) None None s)); [done| |done|done|done].
  assert (sessions w6 = <[t := set_s_rev (s_revConnID s) None None s]> (sessions w3)) as ->.
  { unfold put_session in E6. simpl in E6. rewrite Et in E6.
    destruct udp; by injection E6 as <- <-. }
  by rewrite lookup_insert_eq.
Qed.

Lemma op_reverse_accept t w : wf w -> step_ok (eq t) w (reverse_accept iter t w).2.
Proof.
  intros Hw. unfold reverse_accept.
  set (n := fresh_id (conns w)).
  apply so_bind; [by apply so_new_conn|]. intros n' w1 [= <- <-] Hw1. fold n in Hw1 |- *.
  set (w1 := set_conns _ w) in *.
  assert (is_Some (conns w1 !! n) /\ forall u up, ups w1 !! u = Some up -> u_conn up <> n) as Hn.
  { simpl. rewrite lookup_insert_eq. split; [done|]. intros u up Hu E.
    destruct (wf_up _ Hw u up Hu) as [_ [x Hx]].
    pose proof (fresh_id_None (conns w)). unfold n in *. congruence. }
  destruct (op_getOrCreateSession t w1 Hw1) as [H1 H2].
  apply so_bind; [done|]. intros s w2 E Hw2. rewrite E in H2. simpl in H2.
  assert (conns w2 = conns w1 /\ ups w2 = ups w1) as [Ec Eu].
  { unfold getOrCreateSession in E. by destruct (sessions w1 !! t); injection E as <- <-. }
  rewrite <- Ec, <- Eu in Hn.
  pose proof (wf_sess _ Hw2 _ _ H2) as Et.
  apply so_bind; [by apply (so_put_session t s)|]. intros [] w3 [= <-] Hw3.
  apply so_bind; [by apply op_writeDown|]. intros [] w4 E4 Hw4.
  match type of E4 with writeDown _ ?a ?b ?c = _ =>
    destruct (writeDown_fields a b c) as (F1 & _ & _ & F2 & _) end.
  rewrite E4 in F1, F2. simpl in F1, F2. rewrite <- F1, <- F2 in Hn. destruct Hn as [Hn1 Hn2].
  apply so_bind; [by apply so_new_upstream|]. intros u w5 E5 Hw5.
  apply so_bind; [|intros; by apply step_ok_refl]. apply so_conn; [done|].
  injection E5 as <- <-. simpl. intros u0 up0.
  rewrite lookup_insert_Some. intros [[_ <-]|[_ Hu]] E0; [done|]. by apply Hn2 in Hu.
Qed.

(** ** The server as a transition system *)

(** The steps of the server's goroutines, with the sessions that a step works for.  [mk] is
    WrapChannel of the new connection. *)
Inductive step (w : World C) : (string -> Prop) -> World C -> Prop :=
  | step_data h mk : (forall d i, ch_dir (mk d i) = d /\ ch_idx (mk d i) = i) ->
      step w (eq (hello_token h)) (handleDataConn h mk w).2
  | step_upload o t ch r : ReadUpload t ch ∈ tasks w ->
      step w (match r with Ok _ => eq t | _ => below t end)
        (readUploadLoop cfg iter ResolveUDPAddr o t ch r w).2
  | step_pump u up data err : PumpTCP u ∈ tasks w -> ups w !! u = Some up ->
      step w (eq (u_token up)) (pumpTCP iter u data err w).2
  | step_pump_udp v r : PumpUDP v ∈ tasks w -> step w (eq (v_token v)) (pumpUDP iter v r w).2
  | step_reverse t l b : ReverseRun t l ∈ tasks w -> step w (eq t) (ftpRunReverse t b w).2
  | step_rev_udp t l from d : ReverseRun t l ∈ tasks w ->
      step w (eq t) (reverse_udp iter t from d w).2
  | step_rev_accept t l : ReverseRun t l ∈ tasks w -> step w (eq t) (reverse_accept iter t w).2
  | step_dns t c q h r : LookupDNS t c q h ∈ tasks w ->
      step w (eq t) (dns_answer iter t c q r w).2
  | step_time n : step w (eq ""%string) (set_now n w).

Definition any_step (w w' : World C) : Prop := exists P, step w P w'.
Definition reachable (w : World C) : Prop := rtc any_step init_world w.

Lemma step_step_ok w P w' : wf w -> step w P w' -> step_ok P w w'.
Proof.
  intros Hw []; [by apply op_handleDataConn|by apply op_readUploadLoop|by apply op_pumpTCP| |
    by apply op_ftpRunReverse|by apply op_writeDown|by apply op_reverse_accept|
    by apply op_dns_answer|by apply so_set_now].
  apply op_pumpUDP; [done|]. by apply (wf_task_udp _ Hw).
Qed.

Lemma wf_init : wf (init_world (C := C)).
Proof.
  split; simpl; intros *; rewrite ?lookup_empty; try done; by intros ?%not_elem_of_nil.
Qed.

Lemma reachable_wf w : reachable w -> wf w.
Proof.
  intros H'. unfold reachable in H'. remember init_world as w0 eqn:E.
  assert (wf w0) as Hw by (subst; apply wf_init). clear E.
  induction H' as [|w1 w2 w3 [P HP] _ IH]; [done|]. apply IH. by apply (step_step_ok w1 P).
Qed.
End Operations.
End Steps.
