(* ===== verification/FtpServerThms.v ===== *)
(** The FTP server's tunnel: the properties.

    The theorems on FtpServer.v, proved with the invariant and the lemmas of
    FtpServerFacts.v, and witnesses on the channels of FtpLink.v. *)

From S2P Require Import Prelude GoLib Aead FtpProtocol FtpReorder FtpChannel FtpServer FtpLink FtpServerFacts.
From Stdlib Require Import ZArith Lia Strings.Byte Strings.Ascii Strings.String.
From stdpp Require Import gmap strings list fin_maps.

#[local] Open Scope Z_scope.

(** ** Lemmas *)

Section Lemmas.
Context {C : Type} `{ChannelLaws C}.
Context (cfg : Cfg) (iter : gmap Z nat -> list Z) (ResolveUDPAddr : string -> option string).
Context (Hiter : forall m, iter m ≡ₚ map fst (map_to_list m)).
Implicit Types w : World C.

(** *** Teardown *)

(** The connection under a key is gone from the map, and was closed if it was there. *)
Definition gone (w0 w : World C) (key : string) : Prop :=
  tcpUps w !! key = None /\
  forall u up, tcpUps w0 !! key = Some u -> ups w0 !! u = Some up ->
    exists c, conns w !! u_conn up = Some c /\ n_open c = false.

Definition closed_conn (w : World C) (n : nat) : Prop :=
  exists c, conns w !! n = Some c /\ n_open c = false.

Lemma tcpRemove_gone t c w : wf w -> gone w (tcpRemove (connKey t c) w).2 (connKey t c).
Proof.
  intros Hw. unfold tcpRemove. st_run.
  destruct (tcpUps w !! connKey t c) as [u|] eqn:Hu; simpl.
  - split; simpl; [by rewrite lookup_delete_eq|]. rewrite Hu. intros ? up [= <-] Hup.
    unfold close_up, conn_of_up. rewrite Hup. simpl.
    destruct (wf_up _ Hw _ _ Hup) as [_ [x Hx]]. rewrite lookup_alter_eq, Hx. simpl. eauto.
  - split; [done|]. congruence.
Qed.

(** tcpRemove only removes its key and closes connections. *)
Lemma tcpRemove_mono key w :
  ups (tcpRemove key w).2 = ups w /\ tcpUps (tcpRemove key w).2 = delete key (tcpUps w) /\
  forall n, closed_conn w n -> closed_conn (tcpRemove key w).2 n.
Proof.
  unfold tcpRemove. st_run. destruct (tcpUps w !! key) as [u|] eqn:Hu; simpl.
  2:{ by rewrite delete_id. }
  unfold close_up. destruct (conn_of_up w u) as [m|]; simpl; [|done].
  split_and!; [done..|]. intros n (x & Hx & Hc).
  unfold closed_conn. simpl. destruct (decide (m = n)) as [<-|].
  - rewrite lookup_alter_eq, Hx. simpl. eauto.
  - rewrite lookup_alter_ne by done. eauto.
Qed.

Lemma gone_mono w0 w w' key :
  gone w0 w key -> tcpUps w' ⊆ tcpUps w -> (forall n, closed_conn w n -> closed_conn w' n) ->
  gone w0 w' key.
Proof.
  intros [H1 H2] Hs Hc. split.
  - destruct (tcpUps w' !! key) eqn:E; [|done]. eapply lookup_weaken in E; [|done]. congruence.
  - intros u up Hu Hup. apply Hc. by eapply H2.
Qed.

Lemma removeAll_gone token keys w :
  wf w -> (forall key, key ∈ keys -> exists t c, key = connKey t c) ->
  let w' := (for_each keys (fun key => if HasPrefix key (token +:+ ":") then tcpRemove key
                                       else mret tt) w).2 in
  ups w' = ups w /\ tcpUps w' ⊆ tcpUps w /\ (forall n, closed_conn w n -> closed_conn w' n) /\
  forall key, key ∈ keys -> HasPrefix key (token +:+ ":") = true -> gone w w' key.
Proof.
  revert w. induction keys as [|key keys IH]; intros w Hw Hk; cbn [for_each].
  { split_and!; try done. by intros key ?%not_elem_of_nil. }
  destruct (Hk key) as (t & c & ->); [apply list_elem_of_here|].
  assert (forall key0, key0 ∈ keys -> exists t c, key0 = connKey t c) as Hk'
    by (intros; apply Hk; by apply list_elem_of_further).
  unfold mbind, ST_bind. destruct (HasPrefix (connKey t c) (token +:+ ":")) eqn:Ep.
  - pose proof (op_tcpRemove t c w Hw) as [Hw1 _]. pose proof (tcpRemove_gone t c w Hw) as Hg.
    destruct (tcpRemove_mono (connKey t c) w) as (A1 & A2 & A3).
    destruct (tcpRemove (connKey t c) w) as [[] w1]. simpl in *.
    destruct (IH w1 Hw1 Hk') as (B1 & B2 & B3 & B4). rewrite A2 in B2.
    split_and!; [congruence|etrans; [done|apply delete_subseteq]|by eauto|].
    intros k Hin Hp. destruct (decide (k = connKey t c)) as [->|Hne].
    { eapply gone_mono; [done| |done]. by rewrite A2. }
    apply elem_of_cons in Hin as [->|Hin]; [done|].
    destruct (B4 k Hin Hp) as [C1 C2]. split; [done|]. intros u up Hu Hup.
    apply (C2 u up); [by rewrite A2, lookup_delete_ne|by rewrite A1].
  - simpl. destruct (IH w Hw Hk') as (B1 & B2 & B3 & B4). split_and!; [done..|].
    intros k Hin Hp. apply elem_of_cons in Hin as [->|Hin]; [congruence|eauto].
Qed.

(** udpRemoveAll and the TCP maps. *)
Lemma udpRemove_fields key w :
  ups (udpRemove key w).2 = ups w /\ tcpUps (udpRemove key w).2 = tcpUps w /\
  conns (udpRemove key w).2 = conns w /\ udpUps (udpRemove key w).2 = delete key (udpUps w).
Proof.
  unfold udpRemove. st_run. destruct (udpUps w !! key) as [v|] eqn:Hv; simpl; [done|].
  by rewrite delete_id.
Qed.

Lemma udpRemoveAll_fields token keys w :
  let w' := (for_each keys (fun key => if HasPrefix key (token +:+ ":") then udpRemove key
                                       else mret tt) w).2 in
  ups w' = ups w /\ tcpUps w' = tcpUps w /\ conns w' = conns w /\ udpUps w' ⊆ udpUps w /\
  forall key, key ∈ keys -> HasPrefix key (token +:+ ":") = true -> udpUps w' !! key = None.
Proof.
  revert w. induction keys as [|key keys IH]; intros w; cbn [for_each].
  { split_and!; try done. by intros key ?%not_elem_of_nil. }
  unfold mbind, ST_bind. destruct (HasPrefix key (token +:+ ":")) eqn:Ep.
  - destruct (udpRemove_fields key w) as (A1 & A2 & A3 & A4).
    destruct (udpRemove key w) as [[] w1]. simpl in *.
    destruct (IH w1) as (B1 & B2 & B3 & B4 & B5).
    split_and!; [congruence..|rewrite A4 in B4; etrans; [done|apply delete_subseteq]|].
    intros k Hin Hp. apply elem_of_cons in Hin as [->|Hin]; [|by eauto].
    destruct (udpUps _ !! key) eqn:E; [|done]. eapply lookup_weaken in E; [|done].
    by rewrite A4, lookup_delete_eq in E.
  - simpl. destruct (IH w) as (B1 & B2 & B3 & B4 & B5). split_and!; [done..|].
    intros k Hin Hp. apply elem_of_cons in Hin as [->|Hin]; [congruence|eauto].
Qed.

(** *** Open connections *)

(** The connection of every registered upstream is open. *)
Definition live (w : World C) : Prop :=
  forall key u up, tcpUps w !! key = Some u -> ups w !! u = Some up ->
    exists c, conns w !! u_conn up = Some c /\ n_open c = true.

Definition keeps {A} (m : ST (World C) A) : Prop := forall w, wf w -> live w -> live (m w).2.

(** A step that leaves the maps of upstreams and their connections alone. *)
Lemma live_same w w' :
  live w -> tcpUps w' = tcpUps w -> ups w' = ups w -> conns w' = conns w -> live w'.
Proof. unfold live. by intros Hl -> -> ->. Qed.

Ltac by_same w := refine (live_same w _ _ _ _ _); [assumption|first [done|congruence]..].

Lemma live_tcpRemove t c w : wf w -> live w -> live (tcpRemove (connKey t c) w).2.
Proof.
  intros Hw Hl. unfold tcpRemove. st_run.
  destruct (tcpUps w !! connKey t c) as [u|] eqn:Hu; simpl; [|done].
  destruct (wf_tcp _ Hw _ _ Hu) as (up & Hup & Ek).
  unfold close_up, conn_of_up. rewrite Hup. simpl.
  intros key u' up'. simpl. rewrite lookup_delete_Some. intros [Hne Hk] Hup'.
  destruct (Hl key u' up' Hk Hup') as (x & Hx & Ho). exists x.
  rewrite lookup_alter_ne; [done|]. intros E.
  pose proof (wf_up_inj _ Hw _ _ _ _ Hup Hup' E) as ->.
  destruct (wf_tcp _ Hw _ _ Hk) as (up1 & Hup1 & <-). congruence.
Qed.

Lemma live_udpRemove key w : live w -> live (udpRemove key w).2.
Proof. intros Hl. destruct (udpRemove_fields key w) as (A & B & D & _). by_same w. Qed.

Lemma live_writeDown t fs w : live w -> live (writeDown iter t fs w).2.
Proof.
  intros Hl. destruct (writeDown_fields iter t fs w) as (A & B & _ & D & _).
  by_same w.
Qed.

Lemma live_bump u w : live w -> live (bump u w).
Proof.
  intros Hl key u' up' Hk. unfold bump. simpl in *.
  destruct (decide (u = u')) as [<-|].
  - rewrite lookup_alter_eq. intros (up & Hup & ->)%fmap_Some. simpl. by eapply (Hl key).
  - rewrite lookup_alter_ne by done. by apply (Hl key).
Qed.

Lemma live_write_conn n d w : live w -> live (write_conn n d w).2.
Proof.
  intros Hl. unfold write_conn. destruct (conns w !! n) as [c|] eqn:Hc; [|done].
  destruct (n_open c); [|done]. destruct (n_werr c); [done|].
  intros key u up Hk Hu. simpl in *. destruct (Hl key u up Hk Hu) as (x & Hx & Ho).
  destruct (decide (n = u_conn up)) as [->|].
  - rewrite lookup_insert_eq. eauto.
  - rewrite lookup_insert_ne by done. eauto.
Qed.

Lemma live_fresh_conn w : wf w -> live w -> live (fresh_conn w).2.
Proof.
  intros Hw Hl key u up Hk Hu. simpl in *. destruct (Hl key u up Hk Hu) as (x & Hx & Ho).
  exists x. pose proof (fresh_id_None (conns w)). by rewrite lookup_insert_ne by congruence.
Qed.

Lemma live_new_upstream t c n w :
  wf w -> live w -> (exists x, conns w !! n = Some x /\ n_open x = true) ->
  live (new_upstream t c n w).2.
Proof.
  intros Hw Hl Hn key u up. unfold new_upstream. simpl. intros Hk Hu.
  apply lookup_insert_Some in Hu as [[<- <-]|[Hne Hu]]; [done|].
  apply lookup_insert_Some in Hk as [[_ Hk]|[_ Hk]]; [congruence|by eapply (Hl key)].
Qed.

Lemma live_tcpDial dial t c target w : wf w -> live w -> live (tcpDial cfg dial t c target w).2.
Proof.
  intros Hw Hl. unfold tcpDial. st_run. destruct (tcpUps w !! _); [done|].
  destruct (dial _); [done|].
  pose proof (live_fresh_conn w Hw Hl) as H1. destruct (op_fresh_upstream t c w Hw) as [[Hw1 _] _].
  pose proof (live_new_upstream t c (fresh_id (conns w)) (fresh_conn w).2 Hw1 H1) as H2.
  apply H2. simpl. rewrite lookup_insert_eq. eauto.
Qed.

Lemma live_udpGetOrCreate l t c w : live w -> live (udpGetOrCreate cfg ResolveUDPAddr l t c w).2.
Proof.
  intros Hl. unfold udpGetOrCreate. st_run. destruct (udpUps w !! _); [done|].
  destruct l; [done|]. simpl. destruct (String.eqb _ _); [by_same w|].
  destruct (ResolveUDPAddr _); by_same w.
Qed.

Lemma live_for_each {A} (l : list A) (f : A -> ST (World C) unit) w :
  (forall x w, x ∈ l -> wf w -> wf (f x w).2) ->
  (forall x w, x ∈ l -> wf w -> live w -> live (f x w).2) ->
  wf w -> live w -> live (for_each l f w).2.
Proof.
  revert w. induction l as [|x l IH]; intros w Hwf Hf Hw Hl; cbn [for_each]; [done|].
  unfold mbind, ST_bind. pose proof (Hwf x w (list_elem_of_here _ _) Hw) as Hw1.
  pose proof (Hf x w (list_elem_of_here _ _) Hw Hl) as Hl1.
  destruct (f x w) as [[] w1]. apply IH; [| |done..];
    intros y w0 Hy; [apply Hwf|apply Hf]; by apply list_elem_of_further.
Qed.

Lemma live_removeAll token w : wf w -> live w -> live (tcpRemoveAll token w).2.
Proof.
  intros Hw Hl. unfold tcpRemoveAll, udpRemoveAll. st_run.
  set (keys := map fst (map_to_list (tcpUps w))).
  assert (forall key, key ∈ keys -> exists t c, key = connKey t c) as Hkeys.
  { intros key Hkey. apply list_elem_of_In, in_map_iff in Hkey as ([k u] & <- & Hin).
    apply list_elem_of_In, elem_of_map_to_list in Hin.
    destruct (wf_tcp _ Hw _ _ Hin) as (up & Hu & <-). destruct (wf_up _ Hw _ _ Hu) as [-> _].
    eauto. }
  assert (live (for_each keys (fun key => if HasPrefix key (token +:+ ":") then tcpRemove key
                                          else mret tt) w).2) as H1.
  { apply live_for_each; [..|done|done]; intros key w0 Hin Hw0;
      destruct (Hkeys key Hin) as (t & c & ->); destruct (HasPrefix _ _); try done.
    - by destruct (op_tcpRemove t c w0 Hw0).
    - by apply live_tcpRemove. }
  unfold mret, ST_ret in H1. destruct (for_each keys _ w) as [[] w1]. simpl in *.
  destruct (udpRemoveAll_fields token (map fst (map_to_list (udpUps w1))) w1)
    as (A & B & D & _). by_same w1.
Qed.

Lemma live_pump_down u up ty d w : live w -> live (pump_down iter u up ty d w).2.
Proof. intros Hl. unfold pump_down. st_run. by apply live_writeDown, live_bump. Qed.

(** The two invariants together, through a composition of calls. *)
Definition good (w : World C) : Prop := wf w /\ live w.

Lemma good_bind {A B} (m : ST (World C) A) (f : A -> ST (World C) B) w :
  good (m w).2 -> (forall a w', m w = (a, w') -> good w' -> good (f a w').2) ->
  good ((m ≫= f) w).2.
Proof.
  intros Hm Hf. unfold mbind, ST_bind. destruct (m w) as [a w'] eqn:E. simpl in *. by apply Hf.
Qed.

Lemma good_for_each {A} (l : list A) (f : A -> ST (World C) unit) w :
  (forall x w, x ∈ l -> good w -> good (f x w).2) -> good w -> good (for_each l f w).2.
Proof.
  revert w. induction l as [|x l IH]; intros w Hf Hw; cbn [for_each]; [done|].
  apply good_bind; [apply Hf; [apply list_elem_of_here|done]|].
  intros [] w' _ Hw'. apply IH; [|done]. intros y w0 Hy. apply Hf. by apply list_elem_of_further.
Qed.

Lemma good_same P w w' :
  step_ok P w w' -> live w -> tcpUps w' = tcpUps w -> ups w' = ups w -> conns w' = conns w ->
  good w'.
Proof. intros [Hw _] Hl A B D. split; [done|]. by_same w. Qed.

Lemma good_metrics a b c d w : good w -> good (add_metrics a b c d w).
Proof. intros [Hw Hl]. by eapply (good_same (fun _ => True)); [apply so_metrics|..]. Qed.

Lemma good_go t w : good w -> task_ok w t -> good (go t w).
Proof. intros [Hw Hl] Ht. by eapply (good_same (fun _ => True)); [apply so_go|..]. Qed.

Lemma good_writeDown t fs w : good w -> good (writeDown iter t fs w).2.
Proof. intros [Hw Hl]. split; [by eapply op_writeDown|by apply live_writeDown]. Qed.

Lemma good_tcpRemove t c w : good w -> good (tcpRemove (connKey t c) w).2.
Proof. intros [Hw Hl]. split; [by apply (op_tcpRemove t c)|by apply live_tcpRemove]. Qed.

Lemma good_udpRemove t c w : good w -> good (udpRemove (connKey t c) w).2.
Proof. intros [Hw Hl]. split; [by apply (op_udpRemove t c)|by apply live_udpRemove]. Qed.

Lemma good_tcpDial dial t c target w : good w -> good (tcpDial cfg dial t c target w).2.
Proof. intros [Hw Hl]. split; [by eapply op_tcpDial|by apply live_tcpDial]. Qed.

Lemma good_udpGetOrCreate l t c w :
  good w -> good (udpGetOrCreate cfg ResolveUDPAddr l t c w).2.
Proof.
  intros [Hw Hl]. split; [|by apply live_udpGetOrCreate].
  pose proof (op_udpGetOrCreate cfg ResolveUDPAddr l t c w Hw) as Hu.
  destruct (udpGetOrCreate _ _ _ _ _ w). apply Hu.
Qed.

Lemma good_tcpRemoveAll token w : good w -> good (tcpRemoveAll token w).2.
Proof. intros [Hw Hl]. split; [by eapply op_tcpRemoveAll|by apply live_removeAll]. Qed.

Lemma good_pumpTCP u up data err w :
  good w -> ups w !! u = Some up -> good (pumpTCP iter u data err w).2.
Proof.
  intros [Hw Hl] Hu. split; [by eapply op_pumpTCP|]. destruct (wf_up _ Hw _ _ Hu) as [Ek _].
  unfold pumpTCP.
  refine (proj2 (good_bind (gets (fun w => ups w !! u)) _ w (conj Hw Hl) _)).
  intros ou w0 [= <- <-] _. rewrite Hu.
  assert (forall ty d w1, good w1 -> (exists up1, ups w1 !! u = Some up1 /\ u_token up1 = u_token up)
    -> good (pump_down iter u up ty d w1).2 /\
       (exists up1, ups (pump_down iter u up ty d w1).2 !! u = Some up1 /\
          u_token up1 = u_token up)) as Hdown.
  { intros ty d w1 [Hw1 Hl1] (up1 & Hu1 & Et).
    destruct (op_pump_down iter u up up1 ty d w1) as [[H1 _] H2]; [done..|].
    split; [split; [done|by apply live_pump_down]|]. by exists (bumped up1). }
  set (m := match data with [] => _ | _ => _ end).
  assert (good (m w).2 /\ (exists up1, ups (m w).2 !! u = Some up1 /\ u_token up1 = u_token up))
    as [Hg1 Hu1].
  { unfold m. destruct data as [|b data]; [split; [done|by exists up]|].
    apply Hdown; [by apply good_metrics|by exists up]. }
  apply good_bind; [done|]. intros [] w1 E _. rewrite E in Hg1, Hu1. simpl in *.
  destruct err; [|done]. destruct (Hdown TypeClose [] w1 Hg1 Hu1) as [Hg2 _].
  apply good_bind; [done|]. intros [] w2 _ Hg3.
  apply good_bind; [rewrite Ek; by apply good_tcpRemove|]. by intros.
Qed.

Lemma good_touch v w :
  good w -> v_key v = connKey (v_token v) (v_connID v) -> good (touch v w).
Proof. intros [Hw Hl] Hk. by eapply good_same; [apply so_touch|..]. Qed.

Lemma good_pumpUDP v r w :
  good w -> v_key v = connKey (v_token v) (v_connID v) -> good (pumpUDP iter v r w).2.
Proof.
  intros Hg Hk. unfold pumpUDP. destruct r as [[raddr d]|e|s|];
    try (apply good_bind; [rewrite Hk; by apply good_udpRemove|]; by intros).
  apply good_bind; [by apply good_touch|]. intros [] w1 _ Hg1.
  apply good_bind; [by apply good_metrics|]. intros [] w2 _ Hg2.
  apply good_bind; [by apply good_writeDown|]. by intros.
Qed.

Lemma good_write_conn n d w : good w -> good (write_conn n d w).2.
Proof.
  intros [Hw Hl]. split; [|by apply live_write_conn]. unfold write_conn.
  destruct (conns w !! n) as [c|] eqn:Hc; [|done]. destruct (n_open c); [|done].
  destruct (n_werr c); [done|]. pose proof Hw as []. split; same_fields; simpl.
  intros u up Hu. destruct (wf_up u up Hu) as [A B]. split; [done|].
  destruct (decide (n = u_conn up)) as [->|].
  - by rewrite lookup_insert_eq.
  - by rewrite lookup_insert_ne.
Qed.

Lemma good_write_dgram n a d w : good w -> good (write_dgram n a d w).2.
Proof.
  intros [Hw Hl]. split; [|by by_same w]. pose proof Hw as []. split; same_fields; simpl.
  intros key v Hv. destruct (wf_udp key v Hv) as (A & B & D). split_and!; [done..|].
  by rewrite lookup_alter_is_Some.
Qed.

Lemma good_processFrame o t f w :
  good w -> good (processFrame cfg iter ResolveUDPAddr o t f w).2.
Proof.
  intros Hg. split; [by apply (op_processFrame cfg iter ResolveUDPAddr o t f), Hg|].
  unfold processFrame.
  refine (proj2 (good_bind (modify (add_metrics 1 0 0 0)) _ w _ _)); [by apply good_metrics|].
  intros [] w1 _ Hg1. clear w Hg.
  repeat match goal with
    |- good ((if (FType f =? _) then _ else _) _).2 => destruct (FType f =? _)
  end.
  - by apply good_go.
  - destruct (String.eqb _ "udp://").
    + destruct (cfgSkipUDP cfg); [by apply good_writeDown|].
      apply good_bind; [by apply good_udpGetOrCreate|by intros].
    + apply good_bind; [by apply good_tcpDial|]. intros r w2 _ Hg2.
      destruct r; try (by apply good_writeDown). done.
  - apply good_bind; [done|]. intros on w2 E _. injection E as _ <-.
    destruct on as [n|]; [|done].
    apply good_bind; [by apply good_metrics|]. intros [] w2 _ Hg2.
    apply good_bind; [by apply good_write_conn|]. intros err w3 _ Hg3.
    destruct err; [by apply good_tcpRemove|done].
  - destruct (DecodeUDPData _) as [[addr payload]|?|?|]; try done.
    pose proof (op_udpGetOrCreate cfg ResolveUDPAddr (o_listen o) t (ConnID f) w1 (proj1 Hg1))
      as Hu.
    apply good_bind; [by apply good_udpGetOrCreate|]. intros r w2 E Hg2. rewrite E in Hu.
    destruct Hu as [_ Hu]. destruct r as [v|?|?|]; try done.
    destruct (Hu v eq_refl) as (Hv & Et & Ec). destruct (wf_udp _ (proj1 Hg2) _ _ Hv) as (Ek & _).
    apply good_bind; [apply good_touch; [done|congruence]|]. intros [] w3 _ Hg3.
    destruct (match v_target v with Some _ => _ | None => _ end); [|done].
    apply good_bind; [by apply good_metrics|]. intros [] w4 _ Hg4. by apply good_write_dgram.
  - apply good_bind; [by apply good_tcpRemove|]. intros [] w2 _ Hg2. by apply good_udpRemove.
  - by apply good_writeDown.
  - by apply good_go.
  - done.
Qed.

Lemma live_handleDataConn h (mk : Z -> Z -> C) w : live w -> live (handleDataConn h mk w).2.
Proof.
  intros Hl. unfold handleDataConn. destruct h as [h|?|?|]; try done.
  destruct (_ && _); [done|]. destruct (String.eqb _ _); [done|].
  unfold getOrCreateSession, bind, close_slot. st_run.
  assert (forall w', tcpUps w' = tcpUps w -> ups w' = ups w -> conns w' = conns w -> live w')
    as Hs by (intros; by_same w).
  destruct (sessions w !! Token h); simpl; destruct (Dir h =? DirUpload); simpl;
    destruct (_ !! HIndex h); simpl; by apply Hs.
Qed.

Lemma good_readUploadLoop o t ch r w :
  ReadUpload t ch ∈ tasks w -> good w ->
  good (readUploadLoop cfg iter ResolveUDPAddr o t ch r w).2.
Proof.
  intros Ht Hg. split; [by eapply op_readUploadLoop; [apply Hg|]|].
  unfold readUploadLoop. destruct r as [fs|e|s|].
  { refine (proj2 (good_bind _ _ w _ _)); [|by intros].
    apply good_for_each; [|done]. intros f w0 _ Hg0. by apply good_processFrame. }
  all: st_run; destruct (sessions w !! t) as [s0|] eqn:Hs0;
    [|destruct Hg as [_ Hl]; by by_same w].
  all: set (s1 := if decide _ then set_s_ups _ s0 else s0).
  all: set (w1 := close_chan ch w).
  all: assert (step_ok (eq t) w w1) as [Hw1 _] by
    (apply so_close_chan; [apply Hg|]; by apply (wf_task_read _ (proj1 Hg) _ _ Ht)).
  all: assert (step_ok (eq t) w1 (put_session s1 w1)) as [Hw2 _] by
    (pose proof (wf_sess _ (proj1 Hg) _ _ Hs0);
     apply (so_put_session t s0); [done|done|..]; unfold s1; case_decide; simpl;
       try done; apply delete_subseteq).
  all: assert (live (put_session s1 w1)) as Hl2 by (destruct Hg as [_ Hl]; by_same w).
  all: case_decide; [|done].
  all: pose proof (good_tcpRemoveAll t _ (conj Hw2 Hl2)) as [_ H3];
    by destruct (tcpRemoveAll t (put_session s1 w1)).
Qed.

Lemma live_ftpRunReverse t b w : live w -> live (ftpRunReverse t b w).2.
Proof.
  intros Hl. unfold ftpRunReverse, getOrCreateSession. st_run.
  assert (forall w', tcpUps w' = tcpUps w -> ups w' = ups w -> conns w' = conns w -> live w')
    as Hs by (intros; by_same w).
  destruct (sessions w !! t) as [s|]; simpl;
    [destruct (s_revLn s), (s_revUDP s)|]; simpl;
    destruct b as [[]|?|?|]; simpl; by apply Hs.
Qed.

(** Every step but the acceptance of a reverse connection keeps the connections of the
    registered upstreams open. *)
Lemma step_live w P w' :
  wf w -> live w -> step cfg iter ResolveUDPAddr w P w' ->
  live w' \/ exists t, w' = (reverse_accept iter t w).2.
Proof.
  intros Hw Hl Hstep. destruct Hstep; [left|left|left|left|left|left|right|left|left].
  - by apply live_handleDataConn.
  - by apply good_readUploadLoop.
  - by eapply good_pumpTCP.
  - apply good_pumpUDP; [done|]. by apply (wf_task_udp _ Hw).
  - by apply live_ftpRunReverse.
  - by apply live_writeDown.
  - eauto.
  - by apply live_writeDown.
  - by_same w.
Qed.

(** *** What the client sees *)

(** A frame written down on a channel that works. *)
Lemma writeDown_good t f s ch c w :
  sessions w !! t = Some s -> downloadFor iter s (ConnID f) = Some ch ->
  chans w !! ch = Some c -> ch_good c -> ch_batch [f] ->
  exists c', writeDown iter t [f] w =
      (tt, add_metrics 0 1 0 0 (set_chans (<[ch := c']> (chans w)) w)) /\
    ch_good c' /\ ch_seen c' = ch_seen c ++ [f].
Proof.
  intros Hs Hd Hc Hg Hb. destruct (ch_write_good [f] c Hg Hb) as (c' & E & Hg' & Hs').
  exists c'. split; [|done]. unfold writeDown, getSession. st_run.
  by rewrite Hs, Hd, Hc, E.
Qed.

(** The frames of a pump whose last number was [n]. *)
Fixpoint down_frames (cid n : Z) (reads : list (list byte)) : list Frame :=
  match reads with
  | [] => [MkFrame cid TypeClose (n + 1) []]
  | d :: reads => MkFrame cid TypeData (n + 1) d :: down_frames cid (n + 1) reads
  end.

(** A pump on the reads [reads], and then on the end of the upstream's stream. *)
Definition pump_all (u : nat) (reads : list (list byte)) : ST (World C) bool :=
  _ ← for_each reads (fun d => _ ← pumpTCP iter u d None; mret tt);
  pumpTCP iter u [] (Some EOF).

(** The state of a pump between its turns. *)
Definition pumping u up s ch (n : Z) (c : C) (w : World C) : Prop :=
  ups w !! u = Some (MkTcp (u_key up) (u_token up) (u_connID up) (u_conn up) n) /\
  sessions w !! u_token up = Some s /\ chans w !! ch = Some c /\ ch_good c.

Lemma pump_down_frame u up s ch n c w ty d :
  pumping u up s ch n c w -> downloadFor iter s (u_connID up) = Some ch ->
  0 <= u_connID up < 2 ^ 32 -> 0 <= n < 2 ^ 32 - 1 -> 0 <= ty < 256 -> len d <= MaxFrameData ->
  exists c', pumping u up s ch (n + 1) c' (pump_down iter u up ty d w).2 /\
    ch_seen c' = ch_seen c ++ [MkFrame (u_connID up) ty (n + 1) d].
Proof.
  intros (Hu & Hs & Hc & Hg) Hd Hid Hn Hty Hlen. unfold pump_down. st_run.
  rewrite lookup_alter_eq, Hu. simpl.
  rewrite (u32_small (n + 1)) by (change (2 ^ 32) with 4294967296 in *; lia).
  destruct (writeDown_good (u_token up) (MkFrame (u_connID up) ty (n + 1) d) s ch c (bump u w))
    as (c' & E & Hg' & Hs'); try done.
  { apply ch_batch_single; [|done]. unfold frame_ok; simpl.
    unfold MaxFrameData in *. pose proof (len_nonneg d). lia. }
  rewrite E. exists c'. split; [|done]. split_and!; simpl; [|done| |done].
  - rewrite lookup_alter_eq, Hu. simpl.
    by rewrite (u32_small (n + 1)) by (change (2 ^ 32) with 4294967296 in *; lia).
  - by rewrite lookup_insert_eq.
Qed.

Lemma pumping_metrics u up s ch n c w a b d e :
  pumping u up s ch n c w -> pumping u up s ch n c (add_metrics a b d e w).
Proof. done. Qed.

Lemma tcpRemove_chans key w : chans (tcpRemove key w).2 = chans w.
Proof.
  unfold tcpRemove. st_run. destruct (tcpUps w !! key) as [u|]; simpl; [|done].
  unfold close_up. by destruct (conn_of_up w u).
Qed.

(** A turn of the pump that read data, and the last turn. *)
Lemma pumpTCP_data u up s ch n c w d :
  pumping u up s ch n c w -> downloadFor iter s (u_connID up) = Some ch ->
  0 <= u_connID up < 2 ^ 32 -> 0 <= n < 2 ^ 32 - 1 -> d <> [] -> len d <= MaxFrameData ->
  exists c', pumping u up s ch (n + 1) c' (pumpTCP iter u d None w).2 /\
    ch_seen c' = ch_seen c ++ [MkFrame (u_connID up) TypeData (n + 1) d].
Proof.
  intros Hp Hd Hid Hn Hne Hlen. pose proof Hp as (Hu & _).
  destruct (pump_down_frame u up s ch n c (add_metrics 0 0 0 (len d) w) TypeData d)
    as (c' & Hp' & Hs'); [done..|]. exists c'. split; [|done].
  unfold pumpTCP. st_run. rewrite Hu. destruct d as [|b d]; [done|].
  match goal with |- context [pump_down iter u ?r TypeData (b :: d)] =>
    change (pump_down iter u r TypeData (b :: d)) with
      (pump_down iter u up TypeData (b :: d)) end.
  by destruct (pump_down iter u up TypeData (b :: d) _) as [[] w1].
Qed.

Lemma pumpTCP_eof u up s ch n c w e :
  pumping u up s ch n c w -> downloadFor iter s (u_connID up) = Some ch ->
  0 <= u_connID up < 2 ^ 32 -> 0 <= n < 2 ^ 32 - 1 ->
  exists c', chans (pumpTCP iter u [] (Some e) w).2 !! ch = Some c' /\
    ch_seen c' = ch_seen c ++ [MkFrame (u_connID up) TypeClose (n + 1) []].
Proof.
  intros Hp Hd Hid Hn. pose proof Hp as (Hu & _).
  destruct (pump_down_frame u up s ch n c w TypeClose [])
    as (c' & Hp' & Hs'); [done..|]. exists c'. split; [|done].
  unfold pumpTCP. st_run. rewrite Hu.
  match goal with |- context [pump_down iter u ?r TypeClose []] =>
    change (pump_down iter u r TypeClose []) with (pump_down iter u up TypeClose []) end.
  destruct (pump_down iter u up TypeClose [] w) as [[] w1]. destruct Hp' as (_ & _ & Hc & _).
  simpl in *. pose proof (tcpRemove_chans (u_key up) w1) as E.
  destruct (tcpRemove (u_key up) w1) as [[] w2]. simpl in *. congruence.
Qed.

Lemma pump_all_frames reads u up s ch n c w :
  pumping u up s ch n c w -> downloadFor iter s (u_connID up) = Some ch ->
  0 <= u_connID up < 2 ^ 32 -> 0 <= n -> n + len reads < 2 ^ 32 - 1 ->
  Forall (fun d => d <> [] /\ len d <= MaxFrameData) reads ->
  exists c', chans (pump_all u reads w).2 !! ch = Some c' /\
    ch_seen c' = ch_seen c ++ down_frames (u_connID up) n reads.
Proof.
  intros Hp Hd Hid Hn Hlt Hr. revert n c w Hp Hn Hlt.
  induction Hr as [|d reads [Hne Hlen] Hr IH]; intros n c w Hp Hn Hlt.
  - rewrite len_nil in Hlt. apply (pumpTCP_eof u up s ch n c w EOF); [done..|lia].
  - rewrite len_cons in Hlt. pose proof (len_nonneg reads).
    destruct (pumpTCP_data u up s ch n c w d) as (c1 & Hp1 & Hs1); [done..|lia|done|done|].
    destruct (IH (n + 1) c1 (pumpTCP iter u d None w).2) as (c' & Hc' & Hs'); [done|lia|lia|].
    exists c'. split; [|by rewrite Hs', Hs1, <- app_assoc]. revert Hc'.
    unfold pump_all. cbn [for_each]. st_run. by destruct (pumpTCP iter u d None w).
Qed.

Lemma down_frames_seqs cid n reads :
  map Seq (down_frames cid n reads) = seqZ (n + 1) (len reads + 1) /\
  Forall (fun f => ConnID f = cid) (down_frames cid n reads) /\
  map FType (down_frames cid n reads) = replicate (length reads) TypeData ++ [TypeClose] /\
  concat (map Data (down_frames cid n reads)) = concat reads.
Proof.
  revert n. induction reads as [|d reads IH]; intros n; cbn [down_frames].
  - split_and!; try done. by repeat constructor.
  - destruct (IH (n + 1)) as (A & B & D & E). pose proof (len_nonneg reads).
    cbn [map concat Seq FType Data]. rewrite A, D, E. split_and!; [|by constructor|done|done].
    rewrite len_cons, (seqZ_cons (n + 1)) by lia. f_equal. f_equal; lia.
Qed.

(** What reverse_accept does: it registers a connection, and closes it. *)
Lemma reverse_accept_eq t w :
  exists id n w4 x, conns w4 !! n = Some x /\
    reverse_accept iter t w = (id, close_conn n (new_upstream t id n w4).2).
Proof.
  unfold reverse_accept, fresh_conn, tcpAttach. unfold mbind, ST_bind, mret, ST_ret, modify.
  destruct (getOrCreateSession t _) as [s w2] eqn:E2.
  assert (conns w2 !! fresh_id (conns w) = Some (MkNet true [] None)) as Hc.
  { unfold getOrCreateSession in E2. simpl in E2.
    destruct (sessions w !! t); injection E2 as <- <-; simpl; by rewrite lookup_insert_eq. }
  cbv zeta. match goal with |- context [writeDown iter t ?fs ?w3] =>
    destruct (writeDown_fields iter t fs w3) as (_ & _ & _ & F & _);
    destruct (writeDown iter t fs w3) as [[] w4] end.
  simpl in F. eexists _, (fresh_id (conns w)), w4, _. split; [by rewrite F|].
  reflexivity.
Qed.

Lemma processFrame_data_closed o t id d u up w :
  tcpUps w !! connKey t id = Some u -> ups w !! u = Some up -> closed_conn w (u_conn up) ->
  tcpUps (processFrame cfg iter ResolveUDPAddr o t (MkFrame id TypeData 1 d) w).2
    !! connKey t id = None.
Proof.
  intros Hk Hu (x & Hx & Hcl). unfold processFrame. cbn [FType ConnID Data].
  change (TypeData =? TypeReverseBind) with false. change (TypeData =? TypeOpen) with false.
  change (TypeData =? TypeData) with true. cbv iota zeta. st_run.
  rewrite Hk. unfold conn_of_up. simpl. rewrite Hu. simpl. unfold write_conn. simpl.
  rewrite Hx, Hcl. simpl.
  match goal with |- context [tcpRemove (connKey t id) ?w1] =>
    destruct (tcpRemove_mono (connKey t id) w1) as (_ & -> & _) end.
  by rewrite lookup_delete_eq.
Qed.
End Lemmas.

(** ** The properties *)

Section Properties.
Context {C : Type} `{ChannelLaws C}.
Context (cfg : Cfg) (iter : gmap Z nat -> list Z) (ResolveUDPAddr : string -> option string).
Context (Hiter : forall m, iter m ≡ₚ map fst (map_to_list m)).
Implicit Types w : World C.

(** Downlink.  Let an upstream of a session read [reads] (any number of non-empty reads of
    at most MaxFrameData bytes) and then the end of its stream, while the download channel
    chosen for it works.  Then the client sees on this channel a list of frames for the
    connection such that, in whatever order they reach the client's reorder buffer, it
    delivers one data frame for each read and then the close, and the data are the bytes read,
    in order. *)
Theorem Downlink_stream (u : nat) (up : tcpUpstream) (s : session) (ch : nat) (c : C)
    (reads : list (list byte)) (w : World C) :
  ups w !! u = Some up -> u_sendSeq up = 0 -> 0 <= u_connID up < 2 ^ 32 ->
  sessions w !! u_token up = Some s -> downloadFor iter s (u_connID up) = Some ch ->
  chans w !! ch = Some c -> ch_good c ->
  Forall (fun d => d <> [] /\ len d <= MaxFrameData) reads -> len reads < 2 ^ 32 - 2 ->
  exists c' fs, chans (pump_all iter u reads w).2 !! ch = Some c' /\
    ch_seen c' = ch_seen c ++ fs /\ Forall (fun f => ConnID f = u_connID up) fs /\
    forall ps, ps ≡ₚ fs ->
      let o := out (run (map CPush ps) NewReorderBuffer) in
      map FType o = replicate (length reads) TypeData ++ [TypeClose] /\
      concat (map Data o) = concat reads.
Proof.
  intros Hu Hq Hid Hs Hd Hc Hg Hr Hl.
  destruct (pump_all_frames iter reads u up s ch 0 c w) as (c' & Hc' & Hs'); try done.
  { split_and!; try done. rewrite Hu. by destruct up; simpl in *; subst. }
  { lia. }
  destruct (down_frames_seqs (u_connID up) 0 reads) as (A & B & D & E).
  exists c', (down_frames (u_connID up) 0 reads). split_and!; [done..|].
  intros ps Hps. cbv zeta.
  assert (len (down_frames (u_connID up) 0 reads) = len reads + 1) as Hlen.
  { pose proof (f_equal length A) as L. rewrite length_map, length_seqZ in L. unfold len in *. lia. }
  destruct (run_restores (down_frames (u_connID up) 0 reads) ps) as [Ho _]; [|lia|done|].
  - by rewrite Hlen.
  - by rewrite Ho.
Qed.

(** C7: Invariant.  In every reachable state of the server, under any interleaving of its
    goroutines, the maps fit together: a session's slot holds a channel with that index and
    direction, and no channel is in two sessions; each registered upstream is registered under
    the key of its session and connection id; no two upstreams share a connection or socket. *)
Theorem Server_invariant (w : World C) :
  reachable cfg iter ResolveUDPAddr w -> wf w.
Proof. by apply reachable_wf. Qed.


(** Teardown.  tcpRemoveAll removes the upstreams of the session, TCP and UDP, and closes
    the removed TCP connections; it removes those of another session exactly when that
    session's token starts with this token and a colon. *)
Theorem tcpRemoveAll_exact (token t : string) (c : Z) (w : World C) :
  wf w ->
  let w' := (tcpRemoveAll token w).2 in
  (t = token \/ HasPrefix t (token +:+ ":") = true ->
     gone w w' (connKey t c) /\ udpUps w' !! connKey t c = None) /\
  (~ (t = token \/ HasPrefix t (token +:+ ":") = true) ->
     tcpUps w' !! connKey t c = tcpUps w !! connKey t c /\
     udpUps w' !! connKey t c = udpUps w !! connKey t c).
Proof.
  intros Hw. cbv zeta. split.
  - intros Hb. apply (HasPrefix_connKey token t c) in Hb. unfold tcpRemoveAll, udpRemoveAll. st_run.
    set (keys := map fst (map_to_list (tcpUps w))).
    destruct (removeAll_gone token keys w Hw) as (A1 & A2 & A3 & A4).
    { intros key Hkey. apply list_elem_of_In, in_map_iff in Hkey as ([k u] & <- & Hin).
      apply list_elem_of_In, elem_of_map_to_list in Hin.
      destruct (wf_tcp _ Hw _ _ Hin) as (up & Hu & <-).
      destruct (wf_up _ Hw _ _ Hu) as [-> _]. eauto. }
    unfold mret, ST_ret in A1, A2, A3, A4.
    destruct (for_each keys _ w) as [[] w1]. simpl in *.
    destruct (udpRemoveAll_fields token (map fst (map_to_list (udpUps w1))) w1)
      as (B1 & B2 & B3 & B4 & B5). unfold mret, ST_ret in B1, B2, B3, B4, B5.
    set (w2 := (for_each _ _ w1).2) in *. split.
    + apply (gone_mono w w1); [|by rewrite B2|].
      * destruct (decide (connKey t c ∈ keys)) as [Hin|Hin]; [by apply A4|].
        assert (tcpUps w !! connKey t c = None) as Hn.
        { destruct (tcpUps w !! connKey t c) as [u|] eqn:E; [|done]. exfalso. apply Hin.
          apply list_elem_of_In, in_map_iff. exists (connKey t c, u). split; [done|].
          by apply list_elem_of_In, elem_of_map_to_list. }
        split; [|congruence].
        destruct (tcpUps w1 !! connKey t c) eqn:E; [|done].
        eapply lookup_weaken in E; [|done]. congruence.
      * intros n. unfold closed_conn. by rewrite B3.
    + destruct (udpUps w1 !! connKey t c) as [v|] eqn:E.
      * apply B5; [|done]. apply list_elem_of_In, in_map_iff. exists (connKey t c, v).
        split; [done|]. by apply list_elem_of_In, elem_of_map_to_list.
      * destruct (udpUps w2 !! connKey t c) eqn:E'; [|done].
        eapply lookup_weaken in E'; [|done]. congruence.
  - intros Hb. destruct (op_tcpRemoveAll token w Hw) as [_ Hs].
    destruct (Hs t Hb) as [_ _ H1 _ H2 _]. by rewrite H1, H2.
Qed.

(** Live upstreams.  A step of the server keeps the connections of all registered upstreams
    open, unless it accepts a reverse connection.  That step leaves the connection it has just
    accepted and registered closed, so that the first data the client sends on it is lost and
    removes the upstream. *)
Theorem Live_upstreams (w : World C) :
  wf w ->
  (forall mine w', live w -> step cfg iter ResolveUDPAddr w mine w' ->
     live w' \/ exists t, w' = (reverse_accept iter t w).2) /\
  (forall t, let '(id, w') := reverse_accept iter t w in
     exists u up, tcpUps w' !! connKey t id = Some u /\ ups w' !! u = Some up /\
       closed_conn w' (u_conn up) /\
       forall o d, tcpUps (processFrame cfg iter ResolveUDPAddr o t (MkFrame id TypeData 1 d) w').2
         !! connKey t id = None).
Proof.
  intros Hw. split; [intros mine w' Hl Hs; by eapply step_live|].
  intros t. destruct (reverse_accept_eq iter t w) as (id & n & w4 & x & Hx & ->).
  set (u := fresh_id (ups w4)). set (up := MkTcp (connKey t id) t id n 0).
  set (w' := close_conn n (new_upstream t id n w4).2).
  assert (tcpUps w' !! connKey t id = Some u) as Hk by (simpl; by rewrite lookup_insert_eq).
  assert (ups w' !! u = Some up) as Hu by (simpl; by rewrite lookup_insert_eq).
  assert (closed_conn w' (u_conn up)) as Hc.
  { unfold closed_conn. simpl. rewrite lookup_alter_eq, Hx. simpl. eauto. }
  exists u, up. split_and!; [done..|]. intros o d. by eapply processFrame_data_closed.
Qed.

(** Dial failures.  When the dial for an open frame fails, the server keeps its state but
    for the metrics and one close frame with sequence number 0 on the session's download
    channel.  Every reorder buffer of a client drops that frame, whatever it has received: the
    client is never told that its connection was refused. *)
Theorem Dial_failure_unseen (o : oracle) (t target : string) (cid q : Z) (s : session)
    (ch : nat) (c : C) (e : goerr) (w : World C) :
  tcpUps w !! connKey t cid = None -> target <> "udp://"%string ->
  (forall a, o_dial o a = Some e) -> 0 <= cid < 2 ^ 32 ->
  sessions w !! t = Some s -> downloadFor iter s cid = Some ch ->
  chans w !! ch = Some c -> ch_good c ->
  let f := MkFrame cid TypeOpen q (bytes_of target) in
  let close := MkFrame cid TypeClose 0 [] in
  (exists c', processFrame cfg iter ResolveUDPAddr o t f w =
     (tt, add_metrics 0 1 0 0 (set_chans (<[ch := c']> (chans w)) (add_metrics 1 0 0 0 w))) /\
     ch_seen c' = ch_seen c ++ [close]) /\
  forall cs, Forall seq_ok (pushed cs) -> NoDup (map Seq (pushed cs)) ->
    Push close (run cs NewReorderBuffer) = run cs NewReorderBuffer.
Proof.
  intros Hk Ht Ho Hid Hs Hd Hc Hg. cbv zeta. split.
  - unfold processFrame. cbn [FType ConnID Data].
    change (TypeOpen =? TypeReverseBind) with false. change (TypeOpen =? TypeOpen) with true.
    cbv iota zeta. rewrite string_of_bytes_of.
    rewrite (proj2 (String.eqb_neq _ _)) by done. unfold tcpDial. st_run.
    rewrite Hk, Ho.
    destruct (writeDown_good iter t (MkFrame cid TypeClose 0 []) s ch c (add_metrics 1 0 0 0 w))
      as (c' & E & _ & Hs'); try done.
    { apply ch_batch_single; [|done]. unfold frame_ok, TypeClose, len. simpl. lia. }
    exists c'. by rewrite E.
  - intros cs Hok Hd'. destruct (run_inv cs Hok Hd') as [[Hn _ _ _ _ _] _].
    unfold Push. cbn [Seq]. by rewrite (proj2 (Z.ltb_lt 0 _)) by lia.
Qed.

(** A pump outlives its connection.  When the pump of an upstream that is no longer
    registered ends, it removes and closes the connection that has since been opened under
    the same connection id. *)
Theorem Stale_pump_closes (u0 u1 : nat) (up0 : tcpUpstream) (e : goerr) (w : World C) :
  wf w -> ups w !! u0 = Some up0 -> tcpUps w !! u_key up0 = Some u1 -> u1 <> u0 ->
  let w' := (pumpTCP iter u0 [] (Some e) w).2 in
  tcpUps w' !! u_key up0 = None /\
  forall up1, ups w !! u1 = Some up1 -> closed_conn w' (u_conn up1).
Proof.
  intros Hw Hu0 Hk Hne. cbv zeta.
  destruct (wf_up _ Hw _ _ Hu0) as [Ek _]. unfold pumpTCP. st_run. rewrite Hu0.
  destruct (op_pump_down iter u0 up0 up0 TypeClose [] w Hw Hu0 eq_refl) as [[Hw1 _] _].
  assert (tcpUps (pump_down iter u0 up0 TypeClose [] w).2 = tcpUps w /\
    ups (pump_down iter u0 up0 TypeClose [] w).2 !! u1 = ups w !! u1) as [E1 E2].
  { unfold pump_down. st_run. match goal with |- context [writeDown iter ?t ?fs ?w3] =>
      destruct (writeDown_fields iter t fs w3) as (-> & -> & _) end. simpl.
    by rewrite lookup_alter_ne. }
  destruct (pump_down iter u0 up0 TypeClose [] w) as [[] w1]. simpl in *.
  pose proof (tcpRemove_gone (u_token up0) (u_connID up0) w1 Hw1) as [G1 G2].
  rewrite <- Ek in G1, G2. destruct (tcpRemove (u_key up0) w1) as [[] w2]. simpl in *.
  split; [done|]. intros up1 Hu1. apply (G2 u1 up1); [by rewrite E1|by rewrite E2].
Qed.

(** Dialing.  tcpDial never opens a second connection for a connection id: it returns the
    registered upstream and leaves the server as it is.  Otherwise it dials the configured
    target, if there is one, and the client's target if not; a failure changes nothing, and a
    success registers a new upstream with an open connection, numbered from 0, and starts its
    pump. *)
Theorem tcpDial_branches (dial : string -> option goerr) (t : string) (cid : Z)
    (target : string) (w : World C) :
  let ext := TrimSpace (cfgTarget cfg) in
  let addr := if String.eqb ext "" then target else ext in
  let '(r, w') := tcpDial cfg dial t cid target w in
  match tcpUps w !! connKey t cid with
  | Some u => r = Ok u /\ w' = w
  | None =>
      match dial addr with
      | Some e => r = Err e /\ w' = w
      | None =>
          exists u n, r = Ok u /\ ups w !! u = None /\ conns w !! n = None /\
            tcpUps w' = <[connKey t cid := u]> (tcpUps w) /\
            ups w' !! u = Some (MkTcp (connKey t cid) t cid n 0) /\
            conns w' !! n = Some (MkNet true [] None) /\
            tasks w' = tasks w ++ [PumpTCP u]
      end
  end.
Proof.
  cbv zeta. unfold tcpDial. st_run.
  destruct (tcpUps w !! connKey t cid) as [u|]; [done|].
  destruct (dial _); [done|]. simpl.
  exists (fresh_id (ups w)), (fresh_id (conns w)).
  split_and!; [done|apply fresh_id_None|apply fresh_id_None|done| | |done];
    by rewrite lookup_insert_eq.
Qed.

(** Channel affinity.  When a session has its download channels under the indices 0 to
    n - 1, the frames of a connection go to the channel with the index connID mod n; and
    whatever the indices are, some channel is chosen if there is one. *)
Theorem downloadFor_affinity (s : session) (cid : Z) :
  (s_downs s <> ∅ -> exists i ch, downloadFor iter s cid = Some ch /\ s_downs s !! i = Some ch) /\
  (forall n, 0 < n <= 65536 -> Z.of_nat (size (s_downs s)) = n ->
     (forall i, 0 <= i < n -> is_Some (s_downs s !! i)) ->
     downloadFor iter s cid = s_downs s !! (cid mod n)).
Proof.
  split.
  - intros Hne. destruct (downloadFor iter s cid) as [ch|] eqn:E.
    + destruct (downloadFor_Some iter s cid ch E) as [i Hi]. eauto.
    + by apply (downloadFor_None iter Hiter) in E.
  - intros n Hn Hs Hi. unfold downloadFor. rewrite decide_False by lia. cbv zeta.
    rewrite Hs, (u32_small n) by lia. pose proof (Z.mod_pos_bound cid n ltac:(lia)).
    rewrite u16_small by lia. destruct (Hi (cid mod n)) as [ch Hch]; [lia|]. by rewrite Hch.
Qed.
End Properties.

(** ** Witnesses *)

(** A server with one session, its two channels and one upstream. *)
Definition demo_key : list byte := replicate 32 Byte.x42.
Definition demo_mk (d i : Z) : link :=
  MkLink (WrapChannel (conn_of []) demo_key d i) (fun _ => ([], replicate 12 Byte.x07)) 0.
Definition demo_iter (m : gmap Z nat) : list Z := map fst (map_to_list m).
Definition demo_cfg : Cfg := MkCfg "" false.
Definition demo_resolve (_ : string) : option string := None.
Definition demo_oracle : oracle := MkOracle (fun _ => None) None.
Definition demo_open : Frame := MkFrame 7 TypeOpen 0 (bytes_of "example.org:80").

Definition demo1 : World link :=
  (handleDataConn (Ok (MkHello "aa" DirDownload 0)) demo_mk init_world).2.
Definition demo2 : World link :=
  (handleDataConn (Ok (MkHello "aa" DirUpload 0)) demo_mk demo1).2.
Definition demo3 : World link :=
  (readUploadLoop demo_cfg demo_iter demo_resolve demo_oracle "aa" 2 (Ok [demo_open]) demo2).2.
Definition demo_up : tcpUpstream := MkTcp "aa:7" "aa" 7 1 0.
Definition demo_session : session := MkSession "aa" {[ 0 := 2%nat ]} {[ 0 := 1%nat ]} 0 None None.

Lemma demo_iter_perm m : demo_iter m ≡ₚ map fst (map_to_list m).
Proof. done. Qed.

Lemma demo_mk_ok d i : ch_dir (demo_mk d i) = d /\ ch_idx (demo_mk d i) = i.
Proof. done. Qed.

Lemma demo_mk_good d i : link_good (demo_mk d i).
Proof. apply link_new_good; [done|]. intros _. split; [by vm_compute|done]. Qed.

Lemma demo_tasks : tasks demo2 = [ReadUpload "aa" 2].
Proof. by vm_compute. Qed.

Lemma demo2_reachable : reachable demo_cfg demo_iter demo_resolve demo2.
Proof.
  eapply rtc_l; [eexists; apply step_data, demo_mk_ok|].
  eapply rtc_l; [eexists; apply step_data, demo_mk_ok|]. apply rtc_refl.
Qed.

Lemma demo3_step : step demo_cfg demo_iter demo_resolve demo2 (eq "aa"%string) demo3.
Proof.
  apply (step_upload demo_cfg demo_iter demo_resolve demo2 demo_oracle "aa" 2 (Ok [demo_open])).
  rewrite demo_tasks. apply list_elem_of_here.
Qed.

Lemma demo3_reachable : reachable demo_cfg demo_iter demo_resolve demo3.
Proof. eapply rtc_r; [apply demo2_reachable|]. eexists. apply demo3_step. Qed.

Lemma demo3_wf : wf demo3.
Proof. apply (reachable_wf demo_cfg demo_iter demo_resolve), demo3_reachable. Qed.

Lemma demo3_facts :
  ups demo3 !! 1%nat = Some demo_up /\ sessions demo3 !! "aa"%string = Some demo_session /\
  chans demo3 !! 1%nat = Some (demo_mk DirDownload 0) /\
  tcpUps demo3 !! "aa:7"%string = Some 1%nat.
Proof. split_and!; by vm_compute. Qed.

Lemma Downlink_stream_witness :
  exists c' fs,
    chans (pump_all demo_iter 1 [[Byte.x61; Byte.x62]; [Byte.x63]] demo3).2 !! 1%nat = Some c' /\
    ch_seen c' = fs /\
    forall ps, ps ≡ₚ fs ->
      concat (map Data (out (run (map CPush ps) NewReorderBuffer))) = [Byte.x61; Byte.x62; Byte.x63].
Proof.
  destruct demo3_facts as (Hu & Hs & Hc & _).
  destruct (Downlink_stream demo_iter 1 demo_up demo_session 1 (demo_mk DirDownload 0)
    [[Byte.x61; Byte.x62]; [Byte.x63]] demo3 Hu) as (c' & fs & H1 & H2 & _ & H4); try done.
  - apply demo_mk_good.
  - repeat constructor; by vm_compute.
  - exists c', fs. split; [done|]. split; [done|]. intros ps Hps. by destruct (H4 ps Hps).
Defined.

Lemma Server_invariant_witness : wf demo3.
Proof. exact (Server_invariant demo_cfg demo_iter demo_resolve demo3 demo3_reachable). Defined.


Lemma tcpRemoveAll_exact_witness :
  wf demo3 /\ gone demo3 (tcpRemoveAll "aa" demo3).2 (connKey "aa" 7) /\
  tcpUps (tcpRemoveAll "bb" demo3).2 !! connKey "aa" 7 = Some 1%nat.
Proof.
  split; [exact demo3_wf|]. split.
  - exact (proj1 (proj1 (tcpRemoveAll_exact "aa" "aa" 7 demo3 demo3_wf) (or_introl eq_refl))).
  - refine (eq_trans (proj1 (proj2 (tcpRemoveAll_exact "bb" "aa" 7 demo3 demo3_wf) _)) _).
    + intros [?|?]; discriminate.
    + apply demo3_facts.
Defined.

Lemma Live_upstreams_witness :
  let '(id, w') := reverse_accept demo_iter "aa" demo3 in
  exists u up, tcpUps w' !! connKey "aa" id = Some u /\ ups w' !! u = Some up /\
    closed_conn w' (u_conn up).
Proof.
  pose proof (proj2 (Live_upstreams demo_cfg demo_iter demo_resolve demo3 demo3_wf) "aa"%string)
    as H. destruct (reverse_accept demo_iter "aa" demo3) as [id w'].
  destruct H as (u & up & H1 & H2 & H3 & _). by exists u, up.
Defined.

Lemma Dial_failure_unseen_witness :
  let o := MkOracle (fun _ => Some (Errorf "connection refused")) None in
  let f := MkFrame 8 TypeOpen 0 (bytes_of "example.org:81") in
  exists c', chans (processFrame demo_cfg demo_iter demo_resolve o "aa" f demo3).2 !! 1%nat
    = Some c' /\ ch_seen c' = [MkFrame 8 TypeClose 0 []] /\
    Push (MkFrame 8 TypeClose 0 []) NewReorderBuffer = NewReorderBuffer.
Proof.
  destruct demo3_facts as (_ & Hs & Hc & _).
  destruct (Dial_failure_unseen demo_cfg demo_iter demo_resolve
    (MkOracle (fun _ => Some (Errorf "connection refused")) None) "aa" "example.org:81" 8 0
    demo_session 1 (demo_mk DirDownload 0) (Errorf "connection refused") demo3)
    as [(c' & E & Hseen) Hdrop]; try done.
  - apply demo_mk_good.
  - exists c'. rewrite E. split; [apply lookup_insert_eq|]. split; [exact Hseen|].
    apply (Hdrop []); constructor.
Defined.

(** The upstream of connection 7 is closed and opened again while its pump still runs. *)
Definition demo4 : World link :=
  (readUploadLoop demo_cfg demo_iter demo_resolve demo_oracle "aa" 2
     (Ok [MkFrame 7 TypeClose 0 []; demo_open]) demo3).2.

Lemma demo4_wf : wf demo4.
Proof.
  apply (reachable_wf demo_cfg demo_iter demo_resolve).
  eapply rtc_r; [apply demo3_reachable|]. eexists.
  apply (step_upload demo_cfg demo_iter demo_resolve demo3 demo_oracle "aa" 2
    (Ok [MkFrame 7 TypeClose 0 []; demo_open])).
  assert (tasks demo3 = [ReadUpload "aa" 2; PumpTCP 1]) as -> by (by vm_compute).
  apply list_elem_of_here.
Qed.

Lemma Stale_pump_closes_witness :
  tcpUps demo4 !! "aa:7"%string = Some 2%nat /\
  tcpUps (pumpTCP demo_iter 1 [] (Some EOF) demo4).2 !! "aa:7"%string = None.
Proof.
  split; [by vm_compute|].
  refine (proj1 (Stale_pump_closes demo_iter 1 2 demo_up EOF demo4 demo4_wf _ _ _)).
  - by vm_compute.
  - by vm_compute.
  - discriminate.
Defined.

Lemma downloadFor_affinity_witness :
  downloadFor demo_iter (MkSession "aa" ∅ {[ 0 := 4%nat; 1 := 9%nat ]} 0 None None) 7 = Some 9%nat.
Proof.
  refine (proj2 (downloadFor_affinity demo_iter demo_iter_perm
    (MkSession "aa" ∅ {[ 0 := 4%nat; 1 := 9%nat ]} 0 None None) 7) 2 _ _ _).
  - lia.
  - by vm_compute.
  - intros i Hi. assert (i = 0 \/ i = 1) as [->| ->] by lia; vm_compute; eauto.
Defined.
