(* ===== verification/FtpClient.v ===== *)
(** The FTP tunnel client: ftp/client/client.go, its virtual connections.

    Local connections are piped over virtual connections: the bytes read locally become
    numbered frames that go to an upload channel, the frames of a download channel are
    dispatched to the reorder buffer of their virtual connection and written to the local
    connection.  As in FtpServer.v the package variables, sockets and channels are fields of a
    [World], the server's side of a channel is the class [ChannelOps], and each goroutine is
    the sequence of its steps.  A [go sendFrames(...)] waits in [sends] until it runs: nothing
    orders the goroutines that send. *)

From S2P Require Import Prelude GoLib FtpProtocol FtpReorder FtpChannel FtpServer.
From Stdlib Require Import ZArith Lia Strings.Byte Strings.Ascii Strings.String.
From stdpp Require Import gmap strings list fin_maps.

#[local] Open Scope Z_scope.

(** ** Data *)

(** A virtual TCP connection: its reorder buffer, whose [out] is what was sent to the channel
    [raw], and how many of these frames were received from it. *)
Record tcpVConn : Type := MkVConn { vc_id : Z; vc_reorder : ReorderBuffer; vc_read : nat }.

(** A virtual UDP connection: its SOCKS reply socket, its raw socket. *)
Record udpSession : Type := MkUdpSession {
  us_id : Z; us_local : option nat; us_pc : option nat; us_raw : bool;
  us_last : option string; us_seen : Z
}.

(** The queue of the batcher; whether its signal and its timer are pending. *)
Record batcher : Type := MkBatcher { b_q : list Frame; b_sig : bool; b_timer : bool }.

(** The two goroutines of pipeExisting: the local connection, the virtual connection, the
    reader's next number, whether it has sent data, whether reader and writer run, and whether
    the caller closes the local connection. *)
Record pipe : Type := MkPipe {
  pp_conn : nat; pp_id : Z; pp_vc : nat; pp_seq : Z; pp_first : bool; pp_up : bool;
  pp_main : bool; pp_closes : bool
}.

Record metrics : Type := MkMetrics {
  BytesUp : Z; BytesDown : Z; ActiveTCP : Z; ActiveUDP : Z; FramesSent : Z; FramesRecv : Z;
  Reconnects : Z
}.
Definition m_add (a b : metrics) : metrics :=
  MkMetrics (BytesUp a + BytesUp b) (BytesDown a + BytesDown b) (ActiveTCP a + ActiveTCP b)
    (ActiveUDP a + ActiveUDP b) (FramesSent a + FramesSent b) (FramesRecv a + FramesRecv b)
    (Reconnects a + Reconnects b).

Record World (C : Type) : Type := MkWorld {
  connIDGen : Z;
  tcpMap : gmap Z nat;
  vcs : gmap nat tcpVConn;
  udpMap : gmap Z nat;
  uss : gmap nat udpSession;
  uploads : list (option nat);
  downloads : list (option nat);
  chans : gmap nat C;
  bat : batcher;
  sends : list (list Frame);
  retries : list (list Frame);
  reconns : list Z;
  dloops : list (option nat * Z);
  pipes : gmap nat pipe;
  conns : gmap nat netconn;
  socks : gmap nat udpsock;
  opens : list Z;
  now : Z;
  lastHBAck : Z;
  met : metrics
}.
Arguments MkWorld {C}.
Arguments connIDGen {C}.
Arguments tcpMap {C}.
Arguments vcs {C}.
Arguments udpMap {C}.
Arguments uss {C}.
Arguments uploads {C}.
Arguments downloads {C}.
Arguments chans {C}.
Arguments bat {C}.
Arguments sends {C}.
Arguments retries {C}.
Arguments reconns {C}.
Arguments dloops {C}.
Arguments pipes {C}.
Arguments conns {C}.
Arguments socks {C}.
Arguments opens {C}.
Arguments now {C}.
Arguments lastHBAck {C}.
Arguments met {C}.

Definition init_world {C} (g : Z) : World C :=
  MkWorld g ∅ ∅ ∅ ∅ [] [] ∅ (MkBatcher [] false false) [] [] [] [] ∅ ∅ ∅ [] 0 0
    (MkMetrics 0 0 0 0 0 0 0).

Section Client.
Context {C : Type} `{ChannelOps C}.

#[local] Abbreviation ST_ := (ST (World C)).

(** *** Updates *)

Definition set_connIDGen (x : Z) (w : World C) : World C :=
  MkWorld x (tcpMap w) (vcs w) (udpMap w) (uss w) (uploads w) (downloads w) (chans w)
      (bat w) (sends w) (retries w) (reconns w) (dloops w) (pipes w) (conns w) (socks w)
      (opens w) (now w) (lastHBAck w) (met w).
Definition set_tcpMap (x : gmap Z nat) (w : World C) : World C :=
  MkWorld (connIDGen w) x (vcs w) (udpMap w) (uss w) (uploads w) (downloads w) (chans w)
      (bat w) (sends w) (retries w) (reconns w) (dloops w) (pipes w) (conns w) (socks w)
      (opens w) (now w) (lastHBAck w) (met w).
Definition set_vcs (x : gmap nat tcpVConn) (w : World C) : World C :=
  MkWorld (connIDGen w) (tcpMap w) x (udpMap w) (uss w) (uploads w) (downloads w)
      (chans w) (bat w) (sends w) (retries w) (reconns w) (dloops w) (pipes w) (conns w)
      (socks w) (opens w) (now w) (lastHBAck w) (met w).
Definition set_udpMap (x : gmap Z nat) (w : World C) : World C :=
  MkWorld (connIDGen w) (tcpMap w) (vcs w) x (uss w) (uploads w) (downloads w) (chans w)
      (bat w) (sends w) (retries w) (reconns w) (dloops w) (pipes w) (conns w) (socks w)
      (opens w) (now w) (lastHBAck w) (met w).
Definition set_uss (x : gmap nat udpSession) (w : World C) : World C :=
  MkWorld (connIDGen w) (tcpMap w) (vcs w) (udpMap w) x (uploads w) (downloads w)
      (chans w) (bat w) (sends w) (retries w) (reconns w) (dloops w) (pipes w) (conns w)
      (socks w) (opens w) (now w) (lastHBAck w) (met w).
Definition set_uploads (x : list (option nat)) (w : World C) : World C :=
  MkWorld (connIDGen w) (tcpMap w) (vcs w) (udpMap w) (uss w) x (downloads w) (chans w)
      (bat w) (sends w) (retries w) (reconns w) (dloops w) (pipes w) (conns w) (socks w)
      (opens w) (now w) (lastHBAck w) (met w).
Definition set_downloads (x : list (option nat)) (w : World C) : World C :=
  MkWorld (connIDGen w) (tcpMap w) (vcs w) (udpMap w) (uss w) (uploads w) x (chans w)
      (bat w) (sends w) (retries w) (reconns w) (dloops w) (pipes w) (conns w) (socks w)
      (opens w) (now w) (lastHBAck w) (met w).
Definition set_chans (x : gmap nat C) (w : World C) : World C :=
  MkWorld (connIDGen w) (tcpMap w) (vcs w) (udpMap w) (uss w) (uploads w) (downloads w) x
      (bat w) (sends w) (retries w) (reconns w) (dloops w) (pipes w) (conns w) (socks w)
      (opens w) (now w) (lastHBAck w) (met w).
Definition set_bat (x : batcher) (w : World C) : World C :=
  MkWorld (connIDGen w) (tcpMap w) (vcs w) (udpMap w) (uss w) (uploads w) (downloads w)
      (chans w) x (sends w) (retries w) (reconns w) (dloops w) (pipes w) (conns w) (socks w)
      (opens w) (now w) (lastHBAck w) (met w).
Definition set_sends (x : list (list Frame)) (w : World C) : World C :=
  MkWorld (connIDGen w) (tcpMap w) (vcs w) (udpMap w) (uss w) (uploads w) (downloads w)
      (chans w) (bat w) x (retries w) (reconns w) (dloops w) (pipes w) (conns w) (socks w)
      (opens w) (now w) (lastHBAck w) (met w).
Definition set_retries (x : list (list Frame)) (w : World C) : World C :=
  MkWorld (connIDGen w) (tcpMap w) (vcs w) (udpMap w) (uss w) (uploads w) (downloads w)
      (chans w) (bat w) (sends w) x (reconns w) (dloops w) (pipes w) (conns w) (socks w)
      (opens w) (now w) (lastHBAck w) (met w).
Definition set_reconns (x : list Z) (w : World C) : World C :=
  MkWorld (connIDGen w) (tcpMap w) (vcs w) (udpMap w) (uss w) (uploads w) (downloads w)
      (chans w) (bat w) (sends w) (retries w) x (dloops w) (pipes w) (conns w) (socks w)
      (opens w) (now w) (lastHBAck w) (met w).
Definition set_dloops (x : list (option nat * Z)) (w : World C) : World C :=
  MkWorld (connIDGen w) (tcpMap w) (vcs w) (udpMap w) (uss w) (uploads w) (downloads w)
      (chans w) (bat w) (sends w) (retries w) (reconns w) x (pipes w) (conns w) (socks w)
      (opens w) (now w) (lastHBAck w) (met w).
Definition set_pipes (x : gmap nat pipe) (w : World C) : World C :=
  MkWorld (connIDGen w) (tcpMap w) (vcs w) (udpMap w) (uss w) (uploads w) (downloads w)
      (chans w) (bat w) (sends w) (retries w) (reconns w) (dloops w) x (conns w) (socks w)
      (opens w) (now w) (lastHBAck w) (met w).
Definition set_conns (x : gmap nat netconn) (w : World C) : World C :=
  MkWorld (connIDGen w) (tcpMap w) (vcs w) (udpMap w) (uss w) (uploads w) (downloads w)
      (chans w) (bat w) (sends w) (retries w) (reconns w) (dloops w) (pipes w) x (socks w)
      (opens w) (now w) (lastHBAck w) (met w).
Definition set_socks (x : gmap nat udpsock) (w : World C) : World C :=
  MkWorld (connIDGen w) (tcpMap w) (vcs w) (udpMap w) (uss w) (uploads w) (downloads w)
      (chans w) (bat w) (sends w) (retries w) (reconns w) (dloops w) (pipes w) (conns w) x
      (opens w) (now w) (lastHBAck w) (met w).
Definition set_opens (x : list Z) (w : World C) : World C :=
  MkWorld (connIDGen w) (tcpMap w) (vcs w) (udpMap w) (uss w) (uploads w) (downloads w)
      (chans w) (bat w) (sends w) (retries w) (reconns w) (dloops w) (pipes w) (conns w)
      (socks w) x (now w) (lastHBAck w) (met w).
Definition set_now (x : Z) (w : World C) : World C :=
  MkWorld (connIDGen w) (tcpMap w) (vcs w) (udpMap w) (uss w) (uploads w) (downloads w)
      (chans w) (bat w) (sends w) (retries w) (reconns w) (dloops w) (pipes w) (conns w)
      (socks w) (opens w) x (lastHBAck w) (met w).
Definition set_lastHBAck (x : Z) (w : World C) : World C :=
  MkWorld (connIDGen w) (tcpMap w) (vcs w) (udpMap w) (uss w) (uploads w) (downloads w)
      (chans w) (bat w) (sends w) (retries w) (reconns w) (dloops w) (pipes w) (conns w)
      (socks w) (opens w) (now w) x (met w).
Definition set_met (x : metrics) (w : World C) : World C :=
  MkWorld (connIDGen w) (tcpMap w) (vcs w) (udpMap w) (uss w) (uploads w) (downloads w)
      (chans w) (bat w) (sends w) (retries w) (reconns w) (dloops w) (pipes w) (conns w)
      (socks w) (opens w) (now w) (lastHBAck w) x.

(** The configuration the virtual connections read: the reverse target and the listen address. *)
Context (cfgReverse cfgListen : string).

Definition m0 : metrics := MkMetrics 0 0 0 0 0 0 0.
Definition count (m : metrics) (w : World C) : World C := set_met (m_add (met w) m) w.

Definition close_chan (ch : nat) (w : World C) : World C :=
  set_chans (alter ch_close ch (chans w)) w.
Definition close_conn (n : nat) (w : World C) : World C :=
  set_conns (alter (fun c => MkNet false (n_tx c) (n_werr c)) n (conns w)) w.
Definition close_sock (n : nat) (w : World C) : World C :=
  set_socks (alter (fun c => MkSock false (k_dgrams c)) n (socks w)) w.

(** ** Sending *)

Definition sendNow (f : Frame) (w : World C) : World C := set_sends (sends w ++ [[f]]) w.

(** [b.add(f)]: the signal channel has room for one signal. *)
Definition sendBatched (f : Frame) (w : World C) : World C :=
  set_bat (MkBatcher (b_q (bat w) ++ [f]) true (b_timer (bat w))) w.

Definition flush (w : World C) : World C :=
  match b_q (bat w) with
  | [] => w
  | frames => set_sends (sends w ++ [frames])
                (set_bat (MkBatcher [] (b_sig (bat w)) (b_timer (bat w))) w)
  end.

(** The two cases of the batcher's loop. *)
Definition batch_signal (w : World C) : World C :=
  if b_sig (bat w) then set_bat (MkBatcher (b_q (bat w)) false true) w else w.
Definition batch_timer (w : World C) : World C :=
  if b_timer (bat w)
  then flush (set_bat (MkBatcher (b_q (bat w)) (b_sig (bat w)) false) w) else w.

Definition uploadChannel (connID : Z) (w : World C) : option nat :=
  match uploads w with
  | [] => None
  | l => mjoin (l !! Z.to_nat (connID mod u32 (len l)))
  end.

(** The first connection id of a batch that is not 0. *)
Fixpoint batch_conn (frames : list Frame) : Z :=
  match frames with
  | [] => 0
  | f :: fs => if ConnID f =? 0 then batch_conn fs else ConnID f
  end.

(** WriteFrames on the channel for a connection id: whether it failed, and on which index;
    [None] when there is no channel. *)
Definition write_up (frames : list Frame) : ST_ (option (bool * Z)) := fun w =>
  match uploadChannel (batch_conn frames) w with
  | None => (None, w)
  | Some ch =>
      match chans w !! ch with
      | None => (None, w)
      | Some c =>
          let '(err, c') := ch_write frames c in
          (Some (match err with Some _ => true | None => false end, ch_idx c),
           set_chans (<[ch := c']> (chans w)) w)
      end
  end.

(** sendFrames up to its sleep, and after it. *)
Definition sendFrames (frames : list Frame) : ST_ unit :=
  match frames with
  | [] => mret tt
  | _ =>
      r ← write_up frames;
      match r with
      | None => mret tt
      | Some (false, _) => modify (count (MkMetrics 0 0 0 0 (len frames) 0 0))
      | Some (true, idx) =>
          _ ← modify (fun w => set_reconns (reconns w ++ [idx]) w);
          _ ← modify (count (MkMetrics 0 0 0 0 0 0 1));
          modify (fun w => set_retries (retries w ++ [frames]) w)
      end
  end.

Definition sendFrames_retry (frames : list Frame) : ST_ unit :=
  r ← write_up frames;
  match r with
  | Some (false, _) => modify (count (MkMetrics 0 0 0 0 (len frames) 0 0))
  | _ => mret tt
  end.

(** ** Channels *)

Definition new_chan (c : C) : ST_ nat := fun w =>
  let n := fresh_id (chans w) in (n, set_chans (<[n := c]> (chans w)) w).

Definition closeChannels (chs : list nat) : ST_ unit :=
  for_each chs (fun ch => modify (close_chan ch)).

(** A loop of openAllChannels over [k] more channels from index [i] on: the channels dialed, and
    the error that ended it.  A download channel starts its read loop.  [dial] is
    dialTunnelChannel, which ends with an error or a channel (its panics end the program). *)
Fixpoint open_loop (dial : Z -> Z -> goerr + C) (dir : Z) (k : nat) (i : Z) (acc : list nat) :
    ST_ (list nat * option goerr) :=
  match k with
  | O => mret (acc, None)
  | S k =>
      match dial dir (u16 i) with
      | inr c =>
          ch ← new_chan c;
          _ ← (if dir =? DirDownload
               then modify (fun w => set_dloops (dloops w ++ [(Some ch, u16 i)]) w) else mret tt);
          open_loop dial dir k (i + 1) (acc ++ [ch])
      | inl _ =>
          mret (acc, Some (Errorf (if dir =? DirDownload then "download[%d]: %w"
                                   else "upload[%d]: %w")))
      end
  end.

Definition openAllChannels (cfgUpChans cfgDownChans : Z) (dial : Z -> Z -> goerr + C) :
    ST_ (option goerr) :=
  let nUp := if cfgUpChans <? 1 then 1 else cfgUpChans in
  let nDown := if cfgDownChans <? 1 then 1 else cfgDownChans in
  r ← open_loop dial DirUpload (Z.to_nat nUp) 0 [];
  match r with
  | (ups, Some e) => _ ← closeChannels ups; mret (Some e)
  | (ups, None) =>
      r ← open_loop dial DirDownload (Z.to_nat nDown) 0 [];
      match r with
      | (downs, Some e) => _ ← closeChannels ups; _ ← closeChannels downs; mret (Some e)
      | (downs, None) =>
          _ ← modify (set_uploads (map Some ups));
          _ ← modify (set_downloads (map Some downs));
          mret None
      end
  end.

(** What a reconnected channel sends first when the client is reversed. *)
Definition announce (w : World C) : World C :=
  if String.eqb cfgReverse "" then w
  else sendNow (MkFrame 0 TypeReverseBind 0 (bytes_of cfgListen)) w.

(** The end of reconnectUpload for an index, with its new channel. *)
Definition reconnectUpload (idx : Z) (c : C) : ST_ unit :=
  ch ← new_chan c;
  _ ← modify (fun w =>
    if idx <? len (uploads w) then
      let w := match mjoin (uploads w !! Z.to_nat idx) with
               | Some old => close_chan old w | None => w end in
      set_uploads (<[Z.to_nat idx := Some ch]> (uploads w)) w
    else w);
  modify announce.

(** ** Virtual connections *)

Definition registerTCP (vc : nat) (id : Z) (w : World C) : World C :=
  count (MkMetrics 0 0 1 0 0 0 0) (set_tcpMap (<[id := vc]> (tcpMap w)) w).
Definition unregisterTCP (id : Z) (w : World C) : World C :=
  count (MkMetrics 0 0 (-1) 0 0 0 0) (set_tcpMap (delete id (tcpMap w)) w).

Definition newTCPVConn (id : Z) : ST_ nat := fun w =>
  let n := fresh_id (vcs w) in
  (n, set_vcs (<[n := MkVConn id NewReorderBuffer 0]> (vcs w)) w).

Definition registerUDP (u : nat) (id : Z) (w : World C) : World C :=
  count (MkMetrics 0 0 0 1 0 0 0) (set_udpMap (<[id := u]> (udpMap w)) w).
Definition unregisterUDP (id : Z) (w : World C) : World C :=
  let w := match udpMap w !! id with
           | Some u =>
               let w := match (s ← uss w !! u; us_local s) with
                        | Some n => close_sock n w | None => w end in
               set_udpMap (delete id (udpMap w)) w
           | None => w
           end in
  count (MkMetrics 0 0 0 (-1) 0 0 0) w.

Definition write_conn (n : nat) (data : list byte) : ST_ (option goerr) := fun w =>
  match conns w !! n with
  | Some c =>
      if n_open c then
        match n_werr c with
        | Some e => (Some e, w)
        | None => (None, set_conns (<[n := MkNet true (n_tx c ++ data) None]> (conns w)) w)
        end
      else (Some (Errorf "use of closed network connection"), w)
  | None => (Some (Errorf "use of closed network connection"), w)
  end.
Definition write_dgram (n : nat) (addr : string) (data : list byte) (w : World C) : World C :=
  set_socks (alter (fun c =>
    if k_open c then MkSock true (k_dgrams c ++ [(addr, data)]) else c) n (socks w)) w.

Definition push (vc : nat) (f : Frame) (w : World C) : World C :=
  set_vcs (alter (fun v => MkVConn (vc_id v) (Push f (vc_reorder v)) (vc_read v)) vc (vcs w)) w.

Definition seen (u : nat) (last : option string) (w : World C) : World C :=
  set_uss (alter (fun s => MkUdpSession (us_id s) (us_local s) (us_pc s) (us_raw s)
    (match last with Some a => Some a | None => us_last s end) (now w)) u (uss w)) w.

(** dispatch.  The reply to a SOCKS session is written to an unconnected socket without a
    destination, so that it is not sent. *)
Definition dispatch (f : Frame) (w : World C) : World C :=
  let w := count (MkMetrics 0 0 0 0 0 1 0) w in
  if (FType f =? TypeData) || (FType f =? TypeClose) then
    match tcpMap w !! ConnID f with Some vc => push vc f w | None => w end
  else if FType f =? TypeUDPData then
    match udpMap w !! ConnID f with
    | None => w
    | Some u =>
        match DecodeUDPData (Data f) with
        | Ok (addr, payload) =>
            let w := seen u None w in
            let w := count (MkMetrics 0 (len payload) 0 0 0 0 0) w in
            match uss w !! u with
            | Some s =>
                if us_raw s then
                  match us_last s, us_pc s with
                  | Some dst, Some pc => write_dgram pc dst payload w
                  | _, _ => w
                  end
                else w
            | None => w
            end
        | _ => w
        end
    end
  else if FType f =? TypeDNSResp then
    match tcpMap w !! ConnID f with Some vc => push vc f w | None => w end
  else if FType f =? TypeHBAck then set_lastHBAck (now w) w
  else if FType f =? TypeReverseOpen then set_opens (opens w ++ [ConnID f]) w
  else w.

(** One turn of downloadReadLoop number [k]: ReadFrames returned [r]. *)
Definition downloadReadLoop (k : nat) (r : result (list Frame)) (w : World C) : World C :=
  match dloops w !! k with
  | Some (Some ch, index) =>
      match r with
      | Ok frames => fold_left (fun w f => dispatch f w) frames w
      | _ =>
          let w := count (MkMetrics 0 0 0 0 0 0 1) w in
          let w := close_chan ch w in
          set_dloops (<[k := (None, index)]> (dloops w)) w
      end
  | _ => w
  end.

(** The redial inside the loop. *)
Definition downloadRedial (k : nat) (r : result C) : ST_ unit := fun w =>
  match dloops w !! k, r with
  | Some (None, index), Ok c =>
      let '(ch, w) := new_chan c w in
      let w := if index <? len (downloads w)
               then set_downloads (<[Z.to_nat index := Some ch]> (downloads w)) w else w in
      let w := set_dloops (<[k := (Some ch, index)]> (dloops w)) w in
      (tt, announce w)
  | _, _ => (tt, w)
  end.

(** ** Pipes *)

Definition fresh_conn : ST_ nat := fun w =>
  let n := fresh_id (conns w) in (n, set_conns (<[n := MkNet true [] None]> (conns w)) w).

Definition new_pipe (p : pipe) : ST_ nat := fun w =>
  let n := fresh_id (pipes w) in (n, set_pipes (<[n := p]> (pipes w)) w).

Definition socks_ok : list byte := [x05; x00; x00; x01; x00; x00; x00; x00; x00; x00]%byte.

(** pipeExisting up to its loops; [closes] says whether the caller has deferred conn.Close. *)
Definition pipeExisting (conn : nat) (connID : Z) (target : string) (socksReply closes : bool) :
    ST_ nat :=
  vc ← newTCPVConn connID;
  _ ← modify (registerTCP vc connID);
  _ ← (if String.eqb target "" then mret tt
       else modify (sendNow (MkFrame connID TypeOpen 0 (bytes_of target))));
  _ ← (if socksReply : bool then _ ← write_conn conn socks_ok; mret tt else mret tt);
  new_pipe (MkPipe conn connID vc 1 true true true closes).

Definition pipeTCP (conn : nat) (target : string) (socksReply : bool) : ST_ nat :=
  _ ← modify (fun w => set_connIDGen (u32 (connIDGen w + 1)) w);
  id ← gets connIDGen;
  pipeExisting conn id target socksReply true.

(** A connection accepted by serveTCPForward. *)
Definition handleTCPForward : ST_ nat :=
  conn ← fresh_conn; pipeTCP conn "127.0.0.1:0" false.

(** The goroutine of handleReverseOpen number [k]: net.Dial ends with or without error. *)
Definition handleReverseOpen (k : nat) (ok : bool) : ST_ unit := fun w =>
  match opens w !! k with
  | None => (tt, w)
  | Some connID =>
      let w := set_opens (delete k (opens w)) w in
      if String.eqb cfgReverse "" then (tt, w)
      else if ok then
        let '(conn, w) := fresh_conn w in
        let '(_, w) := pipeExisting conn connID "" false false w in (tt, w)
      else (tt, w)
  end.

Definition set_pipe (p : nat) (x : pipe) (w : World C) : World C :=
  set_pipes (<[p := x]> (pipes w)) w.

(** One turn of the reader of pipe [p]: a Read that returned [data] and [err]. *)
Definition pipe_read (p : nat) (data : list byte) (err : option goerr) (w : World C) : World C :=
  match pipes w !! p with
  | Some x =>
      if pp_up x then
        let '(x, w) :=
          match data with
          | [] => (x, w)
          | _ =>
              let w := count (MkMetrics (len data) 0 0 0 0 0 0) w in
              let f := MkFrame (pp_id x) TypeData (pp_seq x) data in
              let w := if pp_first x then sendNow f w else sendBatched f w in
              (MkPipe (pp_conn x) (pp_id x) (pp_vc x) (u32 (pp_seq x + 1)) false true
                 (pp_main x) (pp_closes x), w)
          end in
        match err with
        | None => set_pipe p x w
        | Some _ =>
            let w := sendNow (MkFrame (pp_id x) TypeClose (pp_seq x) []) w in
            set_pipe p (MkPipe (pp_conn x) (pp_id x) (pp_vc x) (pp_seq x) (pp_first x) false
                          (pp_main x) (pp_closes x)) w
        end
      else w
  | None => w
  end.

(** The return of pipeExisting and of its caller. *)
Definition pipe_return (p : nat) (x : pipe) (w : World C) : World C :=
  let w := unregisterTCP (pp_id x) w in
  let w := if pp_closes x then close_conn (pp_conn x) w else w in
  set_pipe p (MkPipe (pp_conn x) (pp_id x) (pp_vc x) (pp_seq x) (pp_first x) (pp_up x) false
                (pp_closes x)) w.

(** One turn of the main loop of pipe [p]: select takes the end of the reader ([done]), or a
    frame. *)
Definition pipe_main (p : nat) (done : bool) (w : World C) : World C :=
  match pipes w !! p with
  | Some x =>
      if pp_main x then
        if done then if pp_up x then w else pipe_return p x w
        else
          match vcs w !! pp_vc x with
          | Some v =>
              match out (vc_reorder v) !! vc_read v with
              | Some f =>
                  let w := set_vcs (<[pp_vc x := MkVConn (vc_id v) (vc_reorder v) (S (vc_read v))]>
                                      (vcs w)) w in
                  if FType f =? TypeClose then pipe_return p x w
                  else if FType f =? TypeData then
                    match Data f with
                    | [] => w
                    | d =>
                        let w := count (MkMetrics 0 (len d) 0 0 0 0 0) w in
                        match write_conn (pp_conn x) d w with
                        | (None, w) => w
                        | (Some _, w) => pipe_return p x w
                        end
                    end
                  else w
              | None => w
              end
          | None => w
          end
      else w
  | None => w
  end.

(** ** UDP *)

Definition new_udp (s : udpSession) : ST_ nat := fun w =>
  let n := fresh_id (uss w) in (n, set_uss (<[n := s]> (uss w)) w).

Definition next_id : ST_ Z :=
  _ ← modify (fun w => set_connIDGen (u32 (connIDGen w + 1)) w); gets connIDGen.

(** handleUDPRaw on the socket [pc], a datagram on it, and its end. *)
Definition handleUDPRaw (pc : nat) : ST_ nat :=
  id ← next_id;
  t ← gets now;
  u ← new_udp (MkUdpSession id None (Some pc) true None t);
  _ ← modify (registerUDP u id);
  _ ← modify (sendNow (MkFrame id TypeOpen 0 (bytes_of "udp://")));
  mret u.
Definition udp_raw_datagram (u : nat) (from : string) (d : list byte) (w : World C) : World C :=
  match uss w !! u with
  | Some s => sendNow (MkFrame (us_id s) TypeUDPData 0 (EncodeUDPData from d)) (seen u (Some from) w)
  | None => w
  end.
Definition udp_raw_end (u : nat) (w : World C) : World C :=
  match uss w !! u with Some s => unregisterUDP (us_id s) w | None => w end.

(** udpTimeout, in nanoseconds, and one tick of the reaper; [order] is the order in which Go
    ranges over the map. *)
Definition udpTimeout : Z := 180 * 1000000000.

Definition expired (w : World C) (id : Z) : bool :=
  match (u ← udpMap w !! id; uss w !! u) with
  | Some s => now w - us_seen s >? udpTimeout
  | None => false
  end.

Definition udpReaper (order : list Z) (w : World C) : World C :=
  let exp := filter (fun id => expired w id = true) order in
  fold_left (fun w id => unregisterUDP id (sendNow (MkFrame id TypeClose 0 []) w)) exp w.

(** heartbeatLoop, for its tick number [seq]. *)
Definition heartbeat (seq : Z) (w : World C) : World C := sendNow (MkFrame 0 TypeHB seq []) w.

End Client.
