(* ===== verification/FtpClientThms.v ===== *)
(** Theorems about the FTP tunnel client (FtpClient.v), alone and against the server
    (FtpServer.v).  Names of the server's model are qualified. *)

From S2P Require Import Prelude GoLib Aead FtpProtocol FtpReorder FtpChannel FtpServer FtpLink FtpServerFacts FtpServerThms FtpClient.
From Stdlib Require Import ZArith Lia Strings.Byte Strings.Ascii Strings.String.
From stdpp Require Import gmap strings list fin_maps.

#[local] Open Scope Z_scope.

(** ** The reorder buffer only appends *)

Lemma flush_loop_out hs r : exists l, out (flush_loop hs r) = out r ++ l.
Proof.
  revert r. induction hs as [|h hs IH]; intros r; cbn [flush_loop]; [exists []; by rewrite app_nil_r|].
  destruct (Seq h =? nextExpected r); [|exists []; by rewrite app_nil_r].
  destruct (IH (set_held hs (deliver h r))) as [l ->]. exists (h :: l).
  simpl. by rewrite <- app_assoc.
Qed.

Lemma Push_out f r : exists l, out (Push f r) = out r ++ l.
Proof.
  unfold Push. destruct (Seq f <? nextExpected r); [exists []; by rewrite app_nil_r|].
  destruct (Seq f =? nextExpected r).
  - unfold flushContiguous. destruct (flush_loop_out (held (deliver f r)) (deliver f r)) as [l E].
    exists (f :: l). cbv zeta. destruct (timer _ && _); cbn [set_timer out]; rewrite E; simpl;
      by rewrite <- app_assoc.
  - exists []. rewrite app_nil_r. cbv zeta. by destruct (timer _).
Qed.

Lemma run_out fs r : exists l, out (run (map CPush fs) r) = out r ++ l.
Proof.
  revert r. induction fs as [|f fs IH]; intros r; [exists []; by rewrite app_nil_r|].
  cbn [map run fold_left]. destruct (IH (Push f r)) as [l E]. destruct (Push_out f r) as [l' E'].
  exists (l' ++ l). unfold run in E. cbn [FtpReorder.step]. by rewrite E, E', <- app_assoc.
Qed.

(** ** Downlink: dispatch and the main loop of a pipe *)

Section Downlink.
Context {C : Type} `{ChannelOps C}.
Implicit Types w : World C.

(** What the client does on the way down: it dispatches a frame, or the main loop of pipe [p]
    takes its next frame. *)
Inductive act : Type := ADispatch (f : Frame) | AMain.

Definition run_act (p : nat) (a : act) (w : World C) : World C :=
  match a with ADispatch f => dispatch f w | AMain => pipe_main p false w end.
Definition run_acts (p : nat) (acts : list act) (w : World C) : World C :=
  fold_left (fun w a => run_act p a w) acts w.

(** The frames among the acts that go to the virtual connection [id]. *)
Definition for_vconn (id : Z) (f : Frame) : bool :=
  (ConnID f =? id) &&
  ((FType f =? TypeData) || (FType f =? TypeClose) || (FType f =? TypeDNSResp)).
Definition dispatched (id : Z) (acts : list act) : list Frame :=
  omap (fun a => match a with ADispatch f => if for_vconn id f then Some f else None | AMain => None end)
    acts.

(** Pipe [x] works: it is registered, and it has written the data of the first [k] frames that
    its reorder buffer [r] has delivered. *)
Record works (p : nat) (x : pipe) (pre : list byte) (r : ReorderBuffer) (k : nat) (w : World C) :
    Prop := {
  wk_pipe : pipes w !! p = Some x;
  wk_main : pp_main x = true;
  wk_vc : vcs w !! pp_vc x = Some (MkVConn (pp_id x) r k);
  wk_tcp : tcpMap w !! pp_id x = Some (pp_vc x);
  wk_alias id : tcpMap w !! id = Some (pp_vc x) -> id = pp_id x;
  wk_conn : conns w !! pp_conn x = Some (MkNet true (pre ++ concat (map Data (take k (out r)))) None)
}.

(** Pipe [x] has returned, with [data] written. *)
Record returned (p : nat) (x : pipe) (data : list byte) (w : World C) : Prop := {
  rt_pipe : exists y, pipes w !! p = Some y /\ pp_main y = false;
  rt_tcp : tcpMap w !! pp_id x = None;
  rt_conn : conns w !! pp_conn x = Some (MkNet (negb (pp_closes x)) data None)
}.

(** What dispatch leaves alone. *)
Lemma dispatch_frame f w :
  pipes (dispatch f w) = pipes w /\ conns (dispatch f w) = conns w /\
  tcpMap (dispatch f w) = tcpMap w /\
  vcs (dispatch f w) =
    match tcpMap w !! ConnID f with
    | Some vc => if (FType f =? TypeData) || (FType f =? TypeClose) || (FType f =? TypeDNSResp)
                 then vcs (push vc f w) else vcs w
    | None => vcs w
    end.
Proof.
  unfold dispatch. cbv zeta. change (tcpMap (count _ w)) with (tcpMap w).
  change (udpMap (count _ w)) with (udpMap w).
  destruct ((FType f =? TypeData) || (FType f =? TypeClose)) eqn:E1; cbn [orb].
  { by destruct (tcpMap w !! ConnID f). }
  destruct (FType f =? TypeUDPData) eqn:E2.
  { apply Z.eqb_eq in E2. rewrite E2. change (TypeUDPData =? TypeDNSResp) with false.
    assert (forall A (a b : A), match tcpMap w !! ConnID f with Some _ => a | None => a end = a) as Em
      by (intros; by destruct (tcpMap w !! ConnID f)).
    destruct (udpMap w !! ConnID f) as [u|]; [|split_and!; try done; by destruct (tcpMap w !! ConnID f)].
    destruct (DecodeUDPData (Data f)) as [[addr payload]| | |];
      try (split_and!; try done; by destruct (tcpMap w !! ConnID f)).
    destruct (uss _ !! u) as [s|]; [|split_and!; try done; by destruct (tcpMap w !! ConnID f)].
    destruct (us_raw s), (us_last s), (us_pc s);
      (split_and!; try done; by destruct (tcpMap w !! ConnID f)). }
  destruct (FType f =? TypeDNSResp); [by destruct (tcpMap w !! ConnID f)|].
  destruct (FType f =? TypeHBAck), (FType f =? TypeReverseOpen);
    (split_and!; try done; by destruct (tcpMap w !! ConnID f)).
Qed.

Lemma works_dispatch p x pre r k f w :
  works p x pre r k w -> (k <= length (out r))%nat ->
  works p x pre (if for_vconn (pp_id x) f then Push f r else r) k (dispatch f w).
Proof.
  intros [H1 H2 H3 H4 H5 H6] Hk. destruct (dispatch_frame f w) as (E1 & E2 & E3 & E4).
  split; rewrite ?E1, ?E2, ?E3; try done.
  - rewrite E4. unfold for_vconn. destruct (Z.eqb_spec (ConnID f) (pp_id x)) as [->|Hne]; cbn [andb].
    + rewrite H4. destruct (_ || _ || _); [|done]. simpl. by rewrite lookup_alter_eq, H3.
    + destruct (tcpMap w !! ConnID f) as [vc|] eqn:Ev; [|done]. destruct (_ || _ || _); [|done].
      simpl. rewrite lookup_alter_ne; [done|]. intros ->. by apply Hne, H5.
  - destruct (for_vconn _ f); [|done]. destruct (Push_out f r) as [l ->]. rewrite take_app_le by lia. done.
Qed.

Lemma returned_dispatch p x d f w : returned p x d w -> returned p x d (dispatch f w).
Proof.
  intros [H1 H2 H3]. destruct (dispatch_frame f w) as (E1 & E2 & E3 & _).
  split; by rewrite ?E1, ?E2, ?E3.
Qed.

Lemma returned_main p x d w : returned p x d w -> pipe_main p false w = w.
Proof. intros [(y & Hy & Hm) _ _]. unfold pipe_main. by rewrite Hy, Hm. Qed.

(** The main loop takes a data frame. *)
Lemma works_main_data p x pre r k f w :
  works p x pre r k w -> out r !! k = Some f -> FType f = TypeData -> Data f <> [] ->
  works p x pre r (S k) (pipe_main p false w).
Proof.
  intros [H1 H2 H3 H4 H5 H6] Hf Ht Hd. unfold pipe_main. rewrite H1, H2, H3.
  cbn [vc_reorder vc_read vc_id]. rewrite Hf, Ht.
  change (TypeData =? TypeClose) with false. change (TypeData =? TypeData) with true. cbv iota.
  destruct (Data f) as [|b d] eqn:Ed; [done|]. rewrite <- Ed.
  unfold write_conn. simpl. rewrite H6. cbn [n_open n_werr n_tx].
  split; simpl; try done.
  - by rewrite lookup_insert_eq.
  - rewrite lookup_insert_eq. do 2 f_equal. rewrite (take_S_r _ _ _ Hf), map_app, concat_app.
    simpl. by rewrite app_nil_r, app_assoc.
Qed.

(** The main loop takes the close frame. *)
Lemma works_main_close p x pre r k f w :
  works p x pre r k w -> out r !! k = Some f -> FType f = TypeClose ->
  returned p x (pre ++ concat (map Data (take k (out r)))) (pipe_main p false w).
Proof.
  intros [H1 H2 H3 H4 H5 H6] Hf Ht. unfold pipe_main. rewrite H1, H2, H3.
  cbn [vc_reorder vc_read vc_id]. rewrite Hf, Ht. change (TypeClose =? TypeClose) with true. cbv iota.
  unfold pipe_return. cbv zeta. split.
  - eexists. simpl. rewrite lookup_insert_eq. by split.
  - destruct (pp_closes x); simpl; by rewrite lookup_delete_eq.
  - destruct (pp_closes x); simpl; [|done]. by rewrite lookup_alter_eq, H6.
Qed.

(** The main loop waits. *)
Lemma works_main_wait p x pre r k w :
  works p x pre r k w -> out r !! k = None -> pipe_main p false w = w.
Proof.
  intros [H1 H2 H3 H4 H5 H6] Hf. unfold pipe_main. rewrite H1, H2, H3.
  cbn [vc_reorder vc_read]. by rewrite Hf.
Qed.

(** The frames [fs] are data frames and a close. *)
Definition stream (fs : list Frame) : Prop :=
  exists ds z, fs = ds ++ [z] /\ Forall (fun f => FType f = TypeData /\ Data f <> []) ds /\
    FType z = TypeClose /\ Data z = [].

Lemma stream_data fs : stream fs ->
  forall k f, fs !! k = Some f ->
    (FType f = TypeData /\ Data f <> [] /\ (S k < length fs)%nat) \/
    (FType f = TypeClose /\ concat (map Data (take k fs)) = concat (map Data fs)).
Proof.
  intros (ds & z & -> & Hd & Hz & Hz') k f Hf. apply lookup_app_Some in Hf as [Hf|[Hk Hf]].
  - left. pose proof (lookup_lt_Some _ _ _ Hf). rewrite length_app. simpl.
    eapply Forall_lookup_1 in Hd as [? ?]; [|done]. split_and!; try done. lia.
  - right. apply list_lookup_singleton_Some in Hf as [Hk' <-]. split; [done|].
    rewrite take_app_le, take_ge by lia. rewrite map_app, concat_app. simpl. by rewrite Hz', app_nil_r.
Qed.

(** The state after some acts, when the frames [ps1] of the stream [fs] are dispatched. *)
Definition phase p x pre (fs : list Frame) (ps1 : list Frame) (k : nat) w : Prop :=
  (works p x pre (run (map CPush ps1) NewReorderBuffer) k w /\
   (k <= length (out (run (map CPush ps1) NewReorderBuffer)))%nat /\ (k < length fs)%nat) \/
  returned p x (pre ++ concat (map Data fs)) w.

(** One turn of the main loop advances, waits or returns. *)
Lemma phase_main p x pre fs ps1 ps2 k w :
  stream fs -> out (run (map CPush (ps1 ++ ps2)) NewReorderBuffer) = fs ->
  phase p x pre fs ps1 k w ->
  exists k', phase p x pre fs ps1 k' (pipe_main p false w) /\
    (ps2 = [] -> k' = S k \/ returned p x (pre ++ concat (map Data fs)) (pipe_main p false w)).
Proof.
  intros Hst Ho [(Hw & Hk & Hlt)|Hr].
  2:{ exists k. rewrite (returned_main _ _ _ _ Hr). split; [by right|]. by right. }
  set (r := run (map CPush ps1) NewReorderBuffer) in *.
  assert (exists l, fs = out r ++ l) as [l Hl].
  { destruct (run_out ps2 r) as [l E]. exists l. rewrite <- Ho, <- E.
    rewrite map_app. unfold run. by rewrite fold_left_app. }
  destruct (out r !! k) as [f|] eqn:Ef.
  - assert (fs !! k = Some f) as Hf by (rewrite Hl; by apply lookup_app_l_Some).
    destruct (stream_data fs Hst k f Hf) as [(Ht & Hd & Hl')|[Ht Hd]].
    + exists (S k). split; [|by left]. left.
      split; [by eapply works_main_data|]. apply lookup_lt_Some in Ef. fold r. lia.
    + exists k. assert (returned p x (pre ++ concat (map Data fs)) (pipe_main p false w)) as Hret.
      { pose proof (works_main_close p x pre r k f w Hw Ef Ht) as Hc. rewrite <- Hd.
        rewrite Hl, take_app_le; [done|]. apply lookup_lt_Some in Ef. lia. }
      split; [by right|]. by right.
  - exists k. rewrite (works_main_wait _ _ _ _ _ _ Hw Ef). split; [by left|].
    intros ->. apply lookup_ge_None in Ef. rewrite app_nil_r in Ho. fold r in Ho.
    rewrite Ho in Ef. lia.
Qed.

Lemma phase_acts p x pre fs acts ps1 k w :
  stream fs -> out (run (map CPush (ps1 ++ dispatched (pp_id x) acts)) NewReorderBuffer) = fs ->
  phase p x pre fs ps1 k w ->
  exists k', phase p x pre fs (ps1 ++ dispatched (pp_id x) acts) k' (run_acts p acts w).
Proof.
  intros Hst. revert ps1 k w. induction acts as [|a acts IH]; intros ps1 k w Ho Hp.
  { exists k. by rewrite app_nil_r. }
  cbn [run_acts fold_left]. destruct a as [f|].
  - cbn [run_act]. cbn [dispatched omap list_omap] in *.
    set (qs := if for_vconn (pp_id x) f then [f] else []).
    assert (forall l, match (if for_vconn (pp_id x) f then Some f else None) with
                 | Some y => y :: l | None => l end = qs ++ l) as Eq
      by (intros l; unfold qs; by destruct (for_vconn (pp_id x) f)).
    rewrite Eq in Ho |- *. rewrite app_assoc in Ho |- *. apply (IH (ps1 ++ qs) k); [done|].
    destruct Hp as [(Hw & Hk & Hlt)|Hr]; [left|right; by apply returned_dispatch].
    pose proof (works_dispatch p x pre _ k f w Hw Hk) as Hw'.
    rewrite map_app. unfold run. rewrite fold_left_app. fold (run (map CPush ps1) NewReorderBuffer).
    unfold qs. destruct (for_vconn (pp_id x) f); cbn [map fold_left FtpReorder.step]; [|by split].
    split; [done|]. split; [|done].
    destruct (Push_out f (run (map CPush ps1) NewReorderBuffer)) as [l ->]. rewrite length_app. lia.
  - destruct (phase_main p x pre fs ps1 (dispatched (pp_id x) acts) k w Hst Ho Hp) as (k' & Hp' & _).
    by apply (IH ps1 k').
Qed.

Lemma phase_rest p x pre fs ps k n w :
  stream fs -> out (run (map CPush ps) NewReorderBuffer) = fs ->
  phase p x pre fs ps k w -> (length fs <= k + n)%nat ->
  returned p x (pre ++ concat (map Data fs)) (run_acts p (replicate n AMain) w).
Proof.
  intros Hst Ho. revert k w.
  induction n as [|n IH]; intros k w Hp Hn; cbn [replicate run_acts fold_left run_act].
  { destruct Hp as [(_ & _ & Hlt)|Hr]; [lia|done]. }
  destruct (phase_main p x pre fs ps [] k w Hst) as (k' & Hp' & Hk'); [by rewrite app_nil_r|done|].
  destruct (Hk' eq_refl) as [->|Hr]; [apply (IH (S k)); [done|lia]|].
  clear -Hr. unfold run_acts. induction n as [|n IH]; [done|]. cbn [replicate fold_left run_act].
  by rewrite (returned_main _ _ _ _ Hr).
Qed.
End Downlink.

Lemma down_frames_stream cid n reads :
  Forall (fun d => d <> []) reads -> stream (down_frames cid n reads).
Proof.
  intros Hr. revert n. induction Hr as [|d reads Hd Hr IH]; intros n; cbn [down_frames].
  - by exists [], (MkFrame cid TypeClose (n + 1) []).
  - destruct (IH (n + 1)) as (ds & z & -> & Hds & Hz). exists (MkFrame cid TypeData (n + 1) d :: ds), z.
    split; [done|]. split; [by constructor|done].
Qed.

Section EndToEnd.
Context {S C : Type} `{HS : !ChannelOps S, !ChannelLaws S, HC : !ChannelOps C}.
Context (iter : gmap Z nat -> list Z).

End EndToEnd.

(** ** Uplink: the reader of a pipe and the goroutines that send *)

Section Uplink.
Context {C : Type} `{ChannelLaws C}.
Implicit Types w : World C.

(** The frame for a read of [x], and [x] after it. *)
Definition data_frame (x : pipe) (d : list byte) : Frame := MkFrame (pp_id x) TypeData (pp_seq x) d.
Definition advance (x : pipe) : pipe :=
  MkPipe (pp_conn x) (pp_id x) (pp_vc x) (u32 (pp_seq x + 1)) false true (pp_main x) (pp_closes x).

(** What the steps of the uplink leave alone. *)
Definition same_up (w w' : World C) : Prop := uploads w' = uploads w /\ chans w' = chans w.

Lemma pipe_read_data p x d w :
  pipes w !! p = Some x -> pp_up x = true -> d <> [] ->
  let w' := pipe_read p d None w in
  pipes w' !! p = Some (advance x) /\ same_up w w' /\
  sends w' = sends w ++ (if pp_first x then [[data_frame x d]] else []) /\
  b_q (bat w') = b_q (bat w) ++ (if pp_first x then [] else [data_frame x d]) /\
  (pp_first x = false -> b_sig (bat w') = true).
Proof.
  intros Hx Hu Hd. unfold pipe_read. rewrite Hx, Hu. destruct d as [|b d]; [done|].
  destruct (pp_first x); cbn [set_pipe set_pipes pipes]; rewrite lookup_insert_eq;
    split_and!; try done; simpl; by rewrite app_nil_r.
Qed.

Lemma pipe_read_eof p x e w :
  pipes w !! p = Some x -> pp_up x = true ->
  let w' := pipe_read p [] (Some e) w in
  same_up w w' /\ sends w' = sends w ++ [[MkFrame (pp_id x) TypeClose (pp_seq x) []]] /\
  b_q (bat w') = b_q (bat w) /\ b_sig (bat w') = b_sig (bat w).
Proof. intros Hx Hu. unfold pipe_read. by rewrite Hx, Hu. Qed.

(** The batcher takes its signal, waits, and flushes. *)
Definition batch (w : World C) : World C := batch_timer (batch_signal w).

Lemma batch_facts w :
  same_up w (batch w) /\ pipes (batch w) = pipes w /\
  (b_q (bat w) = [] -> sends (batch w) = sends w /\ b_q (bat (batch w)) = []) /\
  (b_sig (bat w) = true -> b_q (bat w) <> [] -> sends (batch w) = sends w ++ [b_q (bat w)] /\
     b_q (bat (batch w)) = []).
Proof.
  unfold batch, batch_timer, batch_signal, flush.
  destruct (b_sig (bat w)) eqn:Es; simpl.
  - destruct (b_q (bat w)) eqn:Eq; simpl; (split_and!; [done|done|..]); intros; by rewrite ?Eq.
  - destruct (b_timer (bat w)) eqn:Et; simpl; [|split_and!; [done|done|..]; done].
    destruct (b_q (bat w)) eqn:Eq; simpl; (split_and!; [done|done|..]); intros; by rewrite ?Eq.
Qed.

(** The data frames of [reads], numbered from [n] on. *)
Fixpoint up_data (cid n : Z) (reads : list (list byte)) : list Frame :=
  match reads with
  | [] => []
  | d :: reads => MkFrame cid TypeData n d :: up_data cid (u32 (n + 1)) reads
  end.
Fixpoint up_seq (n : Z) (k : nat) : Z :=
  match k with O => n | S k => up_seq (u32 (n + 1)) k end.

Lemma up_seq_small n k : 0 <= n -> n + Z.of_nat k < 2 ^ 32 -> up_seq n k = n + Z.of_nat k.
Proof.
  revert n. induction k as [|k IH]; intros n Hn Hk; cbn [up_seq]; [lia|].
  rewrite u32_small, IH by lia. lia.
Qed.

(** The reader of pipe [p] reads [reads]; [slow] says whether the batcher runs after each. *)
Fixpoint read_all (slow : bool) (p : nat) (reads : list (list byte)) (w : World C) : World C :=
  match reads with
  | [] => w
  | d :: reads =>
      let w := pipe_read p d None w in
      read_all slow p reads (if slow then batch w else w)
  end.

Lemma read_all_slow p x reads w :
  pipes w !! p = Some x -> pp_up x = true -> Forall (fun d => d <> []) reads -> b_q (bat w) = [] ->
  let w' := read_all true p reads w in
  same_up w w' /\ b_q (bat w') = [] /\
  sends w' = sends w ++ map (fun f => [f]) (up_data (pp_id x) (pp_seq x) reads) /\
  exists x', pipes w' !! p = Some x' /\ pp_up x' = true /\ pp_id x' = pp_id x /\
    pp_seq x' = up_seq (pp_seq x) (length reads).
Proof.
  intros Hx Hu Hr. revert x w Hx Hu.
  induction Hr as [|d reads Hd Hr IH]; intros x w Hx Hu Hq; cbn [read_all up_data map].
  { rewrite app_nil_r. split_and!; try done. by exists x. }
  destruct (pipe_read_data p x d w Hx Hu Hd) as (E1 & E2 & E3 & E4 & E5).
  set (w1 := pipe_read p d None w) in *. rewrite Hq, app_nil_l in E4.
  destruct (batch_facts w1) as (B1 & B2 & B3 & B4).
  assert (sends (batch w1) = sends w ++ [[data_frame x d]] /\ b_q (bat (batch w1)) = []) as [F1 F2].
  { destruct (pp_first x).
    - destruct (B3 E4) as [-> ->]. by rewrite E3.
    - destruct (B4 (E5 eq_refl)) as [-> ->]; [by rewrite E4|]. by rewrite E3, E4, app_nil_r. }
  destruct (IH (advance x) (batch w1)) as (G1 & G2 & G3 & (x' & Gx)); [by rewrite B2|done|done|].
  split; [unfold same_up in *; intuition congruence|]. split; [done|].
  split; [|by exists x']. by rewrite G3, F1, <- app_assoc.
Qed.

(** Without the batcher, all reads but the first wait in its queue. *)
Lemma read_all_fast p x reads w :
  pipes w !! p = Some x -> pp_up x = true -> pp_first x = false -> Forall (fun d => d <> []) reads ->
  let w' := read_all false p reads w in
  same_up w w' /\ sends w' = sends w /\
  b_q (bat w') = b_q (bat w) ++ up_data (pp_id x) (pp_seq x) reads /\
  (reads <> [] -> b_sig (bat w') = true) /\
  exists x', pipes w' !! p = Some x' /\ pp_up x' = true /\ pp_id x' = pp_id x /\
    pp_seq x' = up_seq (pp_seq x) (length reads).
Proof.
  intros Hx Hu Hf Hr. revert x w Hx Hu Hf.
  induction Hr as [|d reads Hd Hr IH]; intros x w Hx Hu Hf; cbn [read_all up_data].
  { rewrite app_nil_r. split_and!; try done. by exists x. }
  destruct (pipe_read_data p x d w Hx Hu Hd) as (E1 & E2 & E3 & E4 & E5). rewrite Hf in *.
  set (w1 := pipe_read p d None w) in *. rewrite app_nil_r in E3.
  destruct (IH (advance x) w1) as (G1 & G2 & G3 & G4 & (x' & Gx)); [done..|].
  split; [unfold same_up in *; intuition congruence|]. split; [congruence|].
  split; [by rewrite G3, E4, <- app_assoc|]. split; [|by exists x'].
  intros _. destruct reads; [by apply E5|by apply G4].
Qed.

(** Goroutines that send over a channel that works. *)
Lemma send_all ch c cid l w :
  uploadChannel cid w = Some ch -> chans w !! ch = Some c -> ch_good c ->
  Forall (fun fs => fs <> [] /\ batch_conn fs = cid /\ ch_batch fs) l ->
  exists c', chans (for_each l sendFrames w).2 !! ch = Some c' /\
    ch_seen c' = ch_seen c ++ concat l.
Proof.
  intros Hch Hc Hg Hl. revert c w Hch Hc Hg.
  induction Hl as [|fs l (Hne & Hid & Hb) Hl IH]; intros c w Hch Hc Hg; cbn [for_each concat].
  { exists c. by rewrite app_nil_r. }
  destruct (ch_write_good fs c Hg Hb) as (c1 & E1 & Hg1 & Hs1). st_run.
  assert (sendFrames fs w = (tt, count (MkMetrics 0 0 0 0 (len fs) 0 0)
    (set_chans (<[ch := c1]> (chans w)) w))) as ->.
  { assert (write_up fs w = (Some (false, ch_idx c), set_chans (<[ch := c1]> (chans w)) w)) as Ew
      by (unfold write_up; by rewrite Hid, Hch, Hc, E1).
    unfold sendFrames, mbind, ST_bind. destruct fs as [|f fs]; [done|]. by rewrite Ew. }
  destruct (IH c1 (count (MkMetrics 0 0 0 0 (len fs) 0 0) (set_chans (<[ch := c1]> (chans w)) w)))
    as (c' & Hc' & Hs'); [done|simpl; by rewrite lookup_insert_eq|done|].
  exists c'. split; [done|]. by rewrite Hs', Hs1, app_assoc.
Qed.
End Uplink.

(** *** The server on the frames of an upload channel *)

Section Server.
Context {S : Type} `{ChannelOps S}.
Context (cfg : Cfg) (iter : gmap Z nat -> list Z) (ResolveUDPAddr : string -> option string).
Context (o : oracle) (t : string) (cid : Z).
Implicit Types ws : FtpServer.World S.

Definition process_all (fs : list Frame) : ST (FtpServer.World S) unit :=
  for_each fs (processFrame cfg iter ResolveUDPAddr o t).

Lemma process_all_cons f fs ws :
  (process_all (f :: fs) ws).2 = (process_all fs (processFrame cfg iter ResolveUDPAddr o t f ws).2).2.
Proof.
  unfold process_all. cbn [for_each]. st_run. by destruct (processFrame _ _ _ _ _ _ ws) as [[] w'].
Qed.
Lemma process_all_app fs gs ws :
  (process_all (fs ++ gs) ws).2 = (process_all gs (process_all fs ws).2).2.
Proof.
  revert ws. induction fs as [|f fs IH]; intros ws; [done|].
  by rewrite <- app_comm_cons, !process_all_cons, IH.
Qed.

(** The connection [n] is registered for the id and has been sent [data]. *)
Definition serving (n : nat) (data : list byte) ws : Prop :=
  exists u up, tcpUps ws !! connKey t cid = Some u /\ ups ws !! u = Some up /\ u_conn up = n /\
    FtpServer.conns ws !! n = Some (MkNet true data None).

Definition served (n : nat) (data : list byte) ws : Prop :=
  tcpUps ws !! connKey t cid = None /\ FtpServer.conns ws !! n = Some (MkNet false data None).

Lemma srv_open target q ws :
  tcpUps ws !! connKey t cid = None -> target <> "udp://"%string -> (forall a, o_dial o a = None) ->
  serving (fresh_id (FtpServer.conns ws)) []
    (processFrame cfg iter ResolveUDPAddr o t (MkFrame cid TypeOpen q (bytes_of target)) ws).2.
Proof.
  intros Hk Ht Ho. unfold processFrame. cbn [FType ConnID Data].
  change (TypeOpen =? TypeReverseBind) with false. change (TypeOpen =? TypeOpen) with true. cbv iota.
  rewrite string_of_bytes_of, (proj2 (String.eqb_neq _ _)) by done.
  unfold tcpDial. st_run. rewrite Hk. rewrite Ho. simpl.
  exists (fresh_id (ups ws)), (MkTcp (connKey t cid) t cid (fresh_id (FtpServer.conns ws)) 0).
  split_and!; simpl; by rewrite ?lookup_insert_eq.
Qed.

Lemma srv_data n data q d ws :
  serving n data ws ->
  serving n (data ++ d) (processFrame cfg iter ResolveUDPAddr o t (MkFrame cid TypeData q d) ws).2.
Proof.
  intros (u & up & H1 & H2 & H3 & H4). unfold processFrame. cbn [FType ConnID Data].
  change (TypeData =? TypeReverseBind) with false. change (TypeData =? TypeOpen) with false.
  change (TypeData =? TypeData) with true. cbv iota. st_run. rewrite H1. simpl.
  unfold conn_of_up. simpl. rewrite H2. simpl. rewrite H3.
  unfold FtpServer.write_conn. simpl. rewrite H4. simpl.
  exists u, up. split_and!; try done. simpl. by rewrite lookup_insert_eq.
Qed.

Lemma srv_all n data reads q ws :
  serving n data ws -> serving n (data ++ concat reads) (process_all (up_data cid q reads) ws).2.
Proof.
  revert data q ws. induction reads as [|d reads IH]; intros data q ws Hs; cbn [up_data concat].
  { by rewrite app_nil_r. }
  rewrite process_all_cons, app_assoc. by apply IH, srv_data.
Qed.

Lemma srv_close n data q ws :
  serving n data ws ->
  served n data (processFrame cfg iter ResolveUDPAddr o t (MkFrame cid TypeClose q []) ws).2.
Proof.
  intros (u & up & H1 & H2 & H3 & H4). unfold processFrame. cbn [FType ConnID Data].
  change (TypeClose =? TypeReverseBind) with false. change (TypeClose =? TypeOpen) with false.
  change (TypeClose =? TypeData) with false. change (TypeClose =? TypeUDPData) with false.
  change (TypeClose =? TypeClose) with true. cbv iota. st_run.
  unfold tcpRemove. st_run. rewrite H1. simpl. unfold close_up, conn_of_up. simpl. rewrite H2. simpl.
  unfold udpRemove. st_run. rewrite H3.
  assert (forall w' : FtpServer.World S, served n data w' -> forall o',
    served n data (match o' with
      | Some u0 => (tt, set_udpUps (delete (connKey t cid) (FtpServer.udpUps w')) (FtpServer.close_sock (v_conn u0) w'))
      | None => (tt, w') end).2) as Hrest by (intros w' [A B] []; by split).
  match goal with |- served _ _ (match ?x with _ => _ end ?w').2 =>
    assert (served n data w') as Hw'; [|destruct x; [by destruct Hw'|done]] end.
  split; simpl; [by rewrite lookup_delete_eq|]. by rewrite lookup_alter_eq, H4.
Qed.

(** Data for a connection that is gone is dropped. *)
Lemma srv_gone n data q d ws :
  served n data ws ->
  served n data (processFrame cfg iter ResolveUDPAddr o t (MkFrame cid TypeData q d) ws).2.
Proof.
  intros [H1 H2]. unfold processFrame. cbn [FType ConnID Data].
  change (TypeData =? TypeReverseBind) with false. change (TypeData =? TypeOpen) with false.
  change (TypeData =? TypeData) with true. cbv iota. st_run. rewrite H1. by split.
Qed.

Lemma srv_gone_all n data reads q ws :
  served n data ws -> served n data (process_all (up_data cid q reads) ws).2.
Proof.
  revert q ws. induction reads as [|d reads IH]; intros q ws Hs; [done|].
  cbn [up_data]. rewrite process_all_cons. by apply IH, srv_gone.
Qed.
End Server.

(** *** The uplink, end to end *)

Section Pipes.
Context {C : Type} `{ChannelOps C}.
Implicit Types w : World C.

(** The connection id and the pipe of the next local connection. *)
Definition next_conn_id w : Z := u32 (connIDGen w + 1).
Definition new_pipe_of (conn : nat) w : pipe :=
  MkPipe conn (next_conn_id w) (fresh_id (vcs w)) 1 true true true true.

Lemma write_conn_frame n d w :
  let w' := (write_conn n d w).2 in
  same_up w w' /\ sends w' = sends w /\ bat w' = bat w /\ pipes w' = pipes w /\ vcs w' = vcs w /\
  tcpMap w' = tcpMap w.
Proof.
  unfold write_conn. destruct (conns w !! n) as [[[] tx [e|]]|]; simpl; by split_and!.
Qed.

Lemma pipeTCP_opens conn target socks w :
  target <> ""%string ->
  let '(p, w') := pipeTCP conn target socks w in
  pipes w' !! p = Some (new_pipe_of conn w) /\ same_up w w' /\ bat w' = bat w /\
  sends w' = sends w ++ [[MkFrame (next_conn_id w) TypeOpen 0 (bytes_of target)]].
Proof.
  intros Ht. unfold pipeTCP, pipeExisting. st_run.
  rewrite (proj2 (String.eqb_neq _ _) Ht). simpl.
  destruct socks; simpl.
  - match goal with |- context[write_conn conn socks_ok ?w1] =>
      pose proof (write_conn_frame conn socks_ok w1) as Hw;
      destruct (write_conn conn socks_ok w1) as [r w2] end.
    destruct Hw as ([E1 E2] & E3 & E4 & _). simpl in *. rewrite lookup_insert_eq.
    split_and!; try done; congruence.
  - rewrite lookup_insert_eq. by split_and!.
Qed.
End Pipes.

Lemma concat_singletons {A} (l : list A) : concat (map (fun x => [x]) l) = l.
Proof. induction l as [|x l IH]; [done|]. simpl. by rewrite IH. Qed.

Lemma up_data_sends cid n reads :
  0 <= cid < 2 ^ 32 -> 0 <= n < 2 ^ 32 ->
  Forall (fun d => d <> [] /\ len d <= MaxFrameData) reads ->
  forall C `{ChannelLaws C},
  Forall (fun fs => fs <> [] /\ batch_conn fs = cid /\ ch_batch fs)
    (map (fun f => [f]) (up_data cid n reads)).
Proof.
  intros Hc Hn Hr C O L. revert n Hn. induction Hr as [|d reads [Hd Hl] Hr IH]; intros n Hn;
    cbn [up_data map]; constructor.
  - split; [done|]. split; [simpl; by destruct (Z.eqb_spec cid 0)|].
    apply ch_batch_single; [|done]. unfold frame_ok, TypeData, MaxFrameData in *. simpl. lia.
  - apply IH. unfold u32. zdiv.
Qed.

Lemma single_batch {C} `{ChannelLaws C} cid ty q d :
  0 <= cid < 2 ^ 32 -> 0 <= ty < 256 -> 0 <= q < 2 ^ 32 -> len d <= MaxFrameData ->
  [MkFrame cid ty q d] <> [] /\ batch_conn [MkFrame cid ty q d] = cid /\
  ch_batch [MkFrame cid ty q d].
Proof.
  intros. split; [done|]. split; [simpl; by destruct (Z.eqb_spec cid 0)|].
  apply ch_batch_single; [|done]. unfold frame_ok, MaxFrameData in *. simpl. lia.
Qed.

Section UplinkEnd.
Context {C S : Type} `{HC : !ChannelOps C, !ChannelLaws C, HS : !ChannelOps S}.
Context (cfg : Cfg) (iter : gmap Z nat -> list Z) (ResolveUDPAddr : string -> option string).

(** A local connection, piped to [target]: it is accepted, it sends [reads] and closes. *)
Definition local_conn (slow : bool) (conn : nat) (target : string) (socks : bool)
    (reads : list (list byte)) (w : World C) : World C :=
  let '(p, w) := pipeTCP conn target socks w in
  pipe_read p [] (Some EOF) (read_all slow p reads w).

Lemma up_seq_range n k : 0 <= n < 2 ^ 32 -> 0 <= up_seq n k < 2 ^ 32.
Proof.
  revert n. induction k as [|k IH]; intros n Hn; cbn [up_seq]; [done|]. apply IH. unfold u32. zdiv.
Qed.


(** C13: The end of a connection overtakes its data.  A local connection sends [d] and [rest] and
    closes before the batcher runs, all goroutines that send run in the order in which they were
    started, over an upload channel that works.  The server receives every byte, but the close
    frame comes before the frames of [rest]: the connection it dialed is closed with [d] alone
    written, although no error has occurred anywhere. *)
Theorem Uplink_overtaken (conn : nat) (target : string) (socks : bool) (d : list byte)
    (rest : list (list byte)) (ch : nat) (c : C) (w : World C)
    (o : oracle) (t : string) (ws : FtpServer.World S) :
  target <> ""%string -> target <> "udp://"%string -> len (bytes_of target) <= MaxFrameData ->
  d <> [] -> len d <= MaxFrameData -> rest <> [] -> Forall (fun d => d <> []) rest ->
  ch_batch (C:=C) (up_data (next_conn_id w) 2 rest) ->
  sends w = [] -> b_q (bat w) = [] ->
  uploadChannel (next_conn_id w) w = Some ch -> chans w !! ch = Some c -> ch_good c ->
  tcpUps ws !! connKey t (next_conn_id w) = None -> (forall a, o_dial o a = None) ->
  let w1 := batch (local_conn false conn target socks (d :: rest) w) in
  exists c' fs, chans (for_each (sends w1) sendFrames w1).2 !! ch = Some c' /\
    ch_seen c' = ch_seen c ++ fs /\
    concat (map Data (filter (fun f => FType f = TypeData) fs)) = d ++ concat rest /\
    served t (next_conn_id w) (fresh_id (FtpServer.conns ws)) d
      (process_all cfg iter ResolveUDPAddr o t fs ws).2.
Proof.
  intros Ht Hu Hlt Hd Hld Hne Hr Hcb Hs Hq Hch Hc Hg Hk Ho. unfold local_conn.
  pose proof (pipeTCP_opens conn target socks w Ht) as Hp.
  destruct (pipeTCP conn target socks w) as [p wa]. destruct Hp as (Hp & Hup & Hb & Hse).
  rewrite Hs in Hse. cbn [app] in Hse.
  assert (0 <= next_conn_id w < 2 ^ 32) as Hid by (unfold next_conn_id, u32; zdiv).
  set (cid := next_conn_id w) in *. cbn [read_all].
  destruct (pipe_read_data p (new_pipe_of conn w) d wa Hp eq_refl Hd) as (Hx & Hup2 & Hse2 & Hq2 & _).
  set (wb := pipe_read p d None wa) in *. cbn [new_pipe_of pp_first] in Hse2, Hq2.
  rewrite Hb, Hq, app_nil_l in Hq2.
  destruct (read_all_fast p _ rest wb Hx eq_refl eq_refl Hr) as
    (Hup3 & Hse3 & Hq3 & Hsig & x' & Hx' & Hu' & Hi' & Hs').
  specialize (Hsig Hne). rewrite Hq2, app_nil_l in Hq3.
  destruct (pipe_read_eof p x' EOF _ Hx' Hu') as (Hup4 & Hse4 & Hq4 & Hsig4).
  set (wc := pipe_read p [] (Some EOF) _) in *.
  destruct (batch_facts wc) as (Hup5 & _ & _ & Hfl).
  destruct Hfl as [Hse5 _]; [congruence| |].
  { rewrite Hq4, Hq3. by destruct rest. }
  cbv zeta. set (w1 := batch wc) in *.
  assert (same_up w w1) as [U1 U2] by (unfold same_up in *; intuition congruence).
  cbn [advance new_pipe_of pp_id pp_seq] in *. change (u32 (1 + 1)) with 2 in *. fold cid in Hq3, Hi'.
  set (q := up_seq 2 (length rest)) in *.
  assert (0 <= q < 2 ^ 32) as Hqr by (apply up_seq_range; lia).
  assert (sends w1 = [[MkFrame cid TypeOpen 0 (bytes_of target)]; [MkFrame cid TypeData 1 d];
    [MkFrame cid TypeClose q []]; up_data cid 2 rest]) as Hall.
  { by rewrite Hse5, Hse4, Hse3, Hse2, Hse, Hq4, Hq3, Hi', Hs'. }
  destruct (send_all ch c cid (sends w1) w1) as (c' & Hc' & Hseen).
  { unfold uploadChannel. by rewrite U1. }
  { by rewrite U2. }
  { done. }
  { rewrite Hall. constructor; [by apply single_batch|]. constructor; [by apply single_batch|].
    constructor; [by apply single_batch|]. constructor; [|done]. split; [by destruct rest|].
    split; [|done]. destruct rest; [done|]. simpl. destruct (Z.eqb_spec cid 0) as [E|]; [|done].
    rewrite E. clear. generalize (u32 (2 + 1)). induction rest; intros z; [done|]. simpl. done. }
  exists c', (concat (sends w1)). split; [done|]. split; [done|].
  rewrite Hall. cbn [concat app]. rewrite app_nil_r. split.
  - rewrite !filter_cons. cbn [FType]. repeat (case_decide; try done). cbn [map concat Data]. f_equal.
    clear. generalize 2. induction rest as [|e rest IH]; intros n; [done|]. cbn [up_data].
    rewrite filter_cons. case_decide; [|done]. cbn [map concat Data]. by rewrite IH.
  - rewrite !process_all_cons. apply srv_gone_all, srv_close.
    rewrite <- (app_nil_l d). by apply srv_data, srv_open.
Qed.
End UplinkEnd.

(** ** Opening the channels *)

Section Open.
Context {C : Type} `{ChannelLaws C}.
Implicit Types w : World C.
Context (dial : Z -> Z -> goerr + C).

(** The channels [chs] were dialed for the indices from [i] on, and are in the state [w]. *)
Definition dialed (dir i : Z) (chs : list nat) w : Prop :=
  forall m ch, chs !! m = Some ch ->
    exists c, dial dir (u16 (i + Z.of_nat m)) = inr c /\ chans w !! ch = Some c.

(** The read loops of the download channels [chs]. *)
Definition loops_of (dir i : Z) (chs : list nat) : list (option nat * Z) :=
  if dir =? DirDownload then imap (fun m ch => (Some ch, u16 (i + Z.of_nat m))) chs else [].

(** [w'] has the channels of [w], and others. *)
Definition more_chans w w' : Prop := forall ch c, chans w !! ch = Some c -> chans w' !! ch = Some c.

Lemma open_loop_spec dir k i acc w :
  let '((chs, e), w') := open_loop dial dir k i acc w in
  exists new, chs = acc ++ new /\ dialed dir i new w' /\ more_chans w w' /\
    Forall (fun ch => chans w !! ch = None) new /\
    (forall ch c, chans w' !! ch = Some c -> chans w !! ch = Some c \/ ch ∈ new) /\
    uploads w' = uploads w /\ downloads w' = downloads w /\
    dloops w' = dloops w ++ loops_of dir i new /\
    match e with
    | None => length new = k
    | Some _ => (length new < k)%nat /\ exists x, dial dir (u16 (i + Z.of_nat (length new))) = inl x
    end.
Proof.
  revert i acc w. induction k as [|k IH]; intros i acc w; cbn [open_loop].
  { exists []. unfold loops_of. rewrite !app_nil_r. destruct (dir =? DirDownload); simpl; rewrite ?app_nil_r.
    all: split_and!; try done; [intros [] ?|by left]; done. }
  destruct (dial dir (u16 i)) as [x|c] eqn:Ed.
  { exists []. unfold loops_of. destruct (dir =? DirDownload); simpl; rewrite ?app_nil_r.
    all: split_and!; try done; try (intros [] ?; done); try (by left); try lia; exists x; by rewrite Z.add_0_r. }
  st_run. set (n := fresh_id (chans w)).
  match goal with |- context [(if dir =? DirDownload then ?A else ?B) ?x] =>
    set (w1 := (if dir =? DirDownload then A else B) x) end.
  assert (exists w2, w1 = (tt, w2) /\ chans w2 = <[n := c]> (chans w) /\ uploads w2 = uploads w /\
    downloads w2 = downloads w /\
    dloops w2 = dloops w ++ (if dir =? DirDownload then [(Some n, u16 i)] else [])) as
    (w2 & E1 & E2 & E3 & E4 & E5).
  { unfold w1. destruct (dir =? DirDownload); eexists; split_and!; try done. simpl. by rewrite app_nil_r. }
  match goal with |- context [let '(_, w0) := ?X in _] => change X with w1 end.
  rewrite E1. clear w1 E1.
  specialize (IH (i + 1) (acc ++ [n]) w2).
  destruct (open_loop dial dir k (i + 1) (acc ++ [n]) w2) as [[chs e] w'].
  destruct IH as (new & -> & Hd & Hm & Hf & Ho & Hu & Hdn & Hl & He).
  assert (chans w !! n = None) as Hn by apply fresh_id_None.
  exists (n :: new). rewrite <- app_assoc. split; [done|]. split_and!.
  - intros [|m] ch; simpl.
    + intros [= <-]. exists c. rewrite Z.add_0_r. split; [done|]. apply Hm. by rewrite E2, lookup_insert_eq.
    + intros Hc. destruct (Hd m ch Hc) as (c' & Hc1 & Hc2). exists c'. split; [|done].
      rewrite <- Hc1. do 2 f_equal. lia.
  - intros ch c' Hc. apply Hm. rewrite E2, lookup_insert_ne; [done|]. intros <-. congruence.
  - constructor; [done|]. eapply Forall_impl; [exact Hf|]. intros ch Hch. simpl in Hch.
    rewrite E2 in Hch. by apply lookup_insert_None in Hch as [? _].
  - intros ch c' Hc. destruct (Ho ch c' Hc) as [Hc'|Hc'].
    + rewrite E2 in Hc'. apply lookup_insert_Some in Hc' as [[<- _]|[_ ?]]; [right; left|by left].
    + right. by right.
  - congruence.
  - congruence.
  - rewrite Hl, E5, <- app_assoc. f_equal. unfold loops_of. destruct (dir =? DirDownload); [|done].
    simpl. rewrite Z.add_0_r. f_equal. apply imap_ext. intros m ch _. simpl. do 2 f_equal. lia.
  - destruct e as [e|]; simpl; [|by rewrite He]. destruct He as (He & x & Hx). split; [lia|].
    exists x. rewrite <- Hx. do 2 f_equal. lia.
Qed.
(** closeChannels closes these channels, and does nothing else. *)
Lemma closeChannels_spec chs w :
  let w' := (closeChannels chs w).2 in
  uploads w' = uploads w /\ downloads w' = downloads w /\ dloops w' = dloops w /\
  forall ch c', chans w' !! ch = Some c' ->
    (ch ∈ chs /\ ch_open c' = false) \/ (ch ∉ chs /\ chans w !! ch = Some c').
Proof.
  revert w. induction chs as [|n chs IH]; intros w.
  { simpl. split_and!; try done. intros ch c' Hc. right. split; [|done]. by apply not_elem_of_nil. }
  unfold closeChannels. cbn [for_each]. st_run. specialize (IH (close_chan n w)).
  unfold closeChannels, modify in IH. destruct IH as (E1 & E2 & E3 & E4). split_and!; try done.
  intros ch c' Hc. destruct (E4 ch c' Hc) as [[Hin Hcl]|[Hnin Hc']]; [left; split; [by right|done]|].
  simpl in Hc'. destruct (decide (n = ch)) as [->|Hne].
  - rewrite lookup_alter_eq in Hc'. left. split; [left|].
    destruct (chans w !! ch) as [c0|]; simpl in Hc'; [|done]. injection Hc' as <-. apply ch_close_open.
  - rewrite lookup_alter_ne in Hc' by done. right. split; [|done].
    rewrite not_elem_of_cons. by split.
Qed.

Lemma u32_of_upchans n : 1 <= n <= 65536 -> u32 n = n.
Proof. intros. apply u32_small. lia. Qed.

(** openAllChannels.  It dials one upload channel per index from 0 on, and then the download
    channels.  If all succeed, every virtual connection goes to the upload channel dialed for the
    index [connID mod nUp], and every download channel has its read loop.  If a dial fails, the
    channels in use are the ones from before, and every channel it has dialed is closed; but the
    read loops of the download channels that it has already dialed stay, each on its closed
    channel. *)
Theorem OpenAll_exact (nUp nDown : Z) (w : World C) :
  1 <= nUp <= 65536 -> 1 <= nDown <= 65536 ->
  let '(e, w') := openAllChannels nUp nDown dial w in
  match e with
  | None =>
      (forall cid, 0 <= cid -> exists ch c, uploadChannel cid w' = Some ch /\
         chans w' !! ch = Some c /\ dial DirUpload (cid mod nUp) = inr c) /\
      len (downloads w') = nDown /\
      exists downs, downloads w' = map Some downs /\
        dloops w' = dloops w ++ loops_of DirDownload 0 downs
  | Some _ =>
      uploads w' = uploads w /\ downloads w' = downloads w /\
      (forall ch c, chans w' !! ch = Some c -> chans w !! ch = Some c \/ ch_open c = false) /\
      exists downs, dloops w' = dloops w ++ loops_of DirDownload 0 downs /\
        (forall ch, ch ∈ downs -> chans w !! ch = None) /\
        forall m, 0 <= m < nDown -> (exists x, dial DirDownload m = inl x) ->
          (forall i, 0 <= i < nUp -> exists c, dial DirUpload i = inr c) ->
          (forall i, 0 <= i < m -> exists c, dial DirDownload i = inr c) -> len downs = m
  end.
Proof.
  intros Hu Hd. unfold openAllChannels. rewrite !(proj2 (Z.ltb_ge _ 1)) by lia. st_run.
  pose proof (open_loop_spec DirUpload (Z.to_nat nUp) 0 [] w) as HU.
  destruct (open_loop dial DirUpload (Z.to_nat nUp) 0 [] w) as [[ups eu] w1].
  destruct HU as (? & -> & Ud & Um & Uf & Uo & Uu & Udn & Ul & Ue). cbn [app] in *.
  assert (forall k m, (m < k)%nat -> Z.of_nat k <= 65536 -> u16 (0 + Z.of_nat m) = Z.of_nat m) as H16
    by (intros; rewrite u16_small; lia).
  destruct eu as [e|].
  { pose proof (closeChannels_spec x w1) as (C1 & C2 & C3 & C4).
    destruct (closeChannels x w1) as [[] w2]. cbn [snd] in *. split_and!; [congruence|congruence|..].
    - intros ch c Hc. destruct (C4 ch c Hc) as [[_ ?]|[Hn Hc']]; [by right|].
      destruct (Uo ch c Hc') as [?|?]; [by left|done].
    - exists []. split; [by rewrite C3, Ul|]. split; [by intros ? ?%elem_of_nil|].
      intros m Hm _ Hall _. exfalso. destruct Ue as (Hl & y & Hy).
      rewrite (H16 (Z.to_nat nUp)) in Hy by lia.
      destruct (Hall (Z.of_nat (length x))) as [c Hc]; [lia|]. congruence. }
  pose proof (open_loop_spec DirDownload (Z.to_nat nDown) 0 [] w1) as HD.
  destruct (open_loop dial DirDownload (Z.to_nat nDown) 0 [] w1) as [[downs ed] w2].
  destruct HD as (y & -> & Dd & Dm & Df & Do & Du & Ddn & Dl & De). cbn [app] in *.
  assert (dloops w2 = dloops w ++ loops_of DirDownload 0 y) as Hloops
    by (rewrite Dl, Ul; unfold loops_of at 1; simpl; by rewrite app_nil_r).
  destruct ed as [e|].
  - pose proof (closeChannels_spec x w2) as (C1 & C2 & C3 & C4).
    destruct (closeChannels x w2) as [[] w3]. cbn [snd] in *.
    pose proof (closeChannels_spec y w3) as (C1' & C2' & C3' & C4').
    destruct (closeChannels y w3) as [[] w4]. cbn [snd] in *. split_and!; [congruence|congruence|..].
    + intros ch c Hc. destruct (C4' ch c Hc) as [[_ ?]|[Hn Hc']]; [by right|].
      destruct (C4 ch c Hc') as [[_ ?]|[Hn' Hc'']]; [by right|].
      destruct (Do ch c Hc'') as [Hc3|?]; [|done]. by destruct (Uo ch c Hc3) as [?|?]; [left|].
    + exists y. split; [by rewrite C3', C3|]. split.
      * intros ch Hch. rewrite Forall_forall in Df. specialize (Df ch Hch). simpl in Df.
        destruct (chans w !! ch) as [c|] eqn:E; [|done]. apply Um in E. congruence.
      * intros m Hm [z Hz] _ Hall. destruct De as (Hl & v & Hv).
        rewrite (H16 (Z.to_nat nDown)) in Hv by lia. unfold len.
        destruct (Z.lt_trichotomy (Z.of_nat (length y)) m) as [Hlt|[->|Hgt]]; [|done|].
        -- destruct (Hall (Z.of_nat (length y))) as [c Hc]; [lia|]. congruence.
        -- destruct (lookup_lt_is_Some_2 y (Z.to_nat m)) as [ch Hch]; [lia|].
           destruct (Dd _ _ Hch) as (c & Hc & _). rewrite (H16 (length y)) in Hc by lia.
           rewrite Z2Nat.id in Hc by lia. congruence.
  - cbn [modify]. simpl. split; [|split].
    + intros cid Hc. unfold uploadChannel. cbn [set_downloads set_uploads uploads chans].
      assert (len (map Some x) = nUp) as Hlen by (unfold len; rewrite length_map, Ue; lia).
      destruct (map Some x) as [|o l] eqn:Ex; [unfold len in Hlen; simpl in Hlen; lia|].
      rewrite <- Ex in *. rewrite Hlen, u32_of_upchans by done.
      pose proof (Z.mod_pos_bound cid nUp ltac:(lia)) as Hb.
      destruct (lookup_lt_is_Some_2 x (Z.to_nat (cid mod nUp))) as [ch Hch]; [lia|].
      destruct (Ud _ _ Hch) as (c & Hc1 & Hc2). exists ch, c.
      rewrite list_lookup_fmap, Hch. split; [done|]. split; [by apply Dm|].
      rewrite <- Hc1, (H16 (length x)) by lia. f_equal. lia.
    + unfold len. rewrite length_map, De. lia.
    + exists y. by split.
Qed.
End Open.

(** ** Witnesses *)

Definition demo_reads : list (list byte) := [[Byte.x61; Byte.x62]; [Byte.x63]].

(** A client with one upload channel, before connection 7. *)
Definition demo_client : World link :=
  set_uploads [Some 1%nat] (set_chans {[ 1%nat := demo_mk DirUpload 0 ]} (init_world 6)).
Definition demo_piped : World link := (handleTCPForward demo_client).2.
Definition demo_pipe : pipe := MkPipe 1 7 1 1 true true true true.

Lemma demo_piped_facts :
  pipes demo_piped !! 1%nat = Some demo_pipe /\
  vcs demo_piped !! 1%nat = Some (MkVConn 7 NewReorderBuffer 0) /\
  tcpMap demo_piped = {[ 7 := 1%nat ]} /\
  conns demo_piped !! 1%nat = Some (MkNet true [] None).
Proof. split_and!; by vm_compute. Qed.

Lemma demo_works : works 1 demo_pipe [] NewReorderBuffer 0 demo_piped.
Proof.
  destruct demo_piped_facts as (H1 & H2 & H3 & H4). split; try done.
  rewrite H3. intros id Hid. by apply lookup_singleton_Some in Hid as [<- _].
Qed.

Lemma demo_reads_ok : Forall (fun d => d <> [] /\ len d <= MaxFrameData) demo_reads.
Proof. repeat constructor; (done || by vm_compute). Qed.


Lemma demo_client_facts :
  sends demo_client = [] /\ b_q (bat demo_client) = [] /\
  uploadChannel (next_conn_id demo_client) demo_client = Some 1%nat /\
  chans demo_client !! 1%nat = Some (demo_mk DirUpload 0) /\
  tcpUps demo2 !! connKey "aa" (next_conn_id demo_client) = None.
Proof. split_and!; by vm_compute. Qed.


Lemma Uplink_overtaken_witness :
  let w1 := batch (local_conn false 1 "127.0.0.1:0" false demo_reads demo_client) in
  exists c' fs, chans (for_each (sends w1) sendFrames w1).2 !! 1%nat = Some c' /\
    ch_seen c' = fs /\
    concat (map Data (filter (fun f => FType f = TypeData) fs)) = [Byte.x61; Byte.x62; Byte.x63] /\
    served "aa" 7 (fresh_id (FtpServer.conns demo2)) [Byte.x61; Byte.x62]
      (process_all demo_cfg demo_iter demo_resolve demo_oracle "aa" fs demo2).2.
Proof.
  destruct demo_client_facts as (H1 & H2 & H3 & H4 & H5).
  destruct (Uplink_overtaken demo_cfg demo_iter demo_resolve 1 "127.0.0.1:0" false
    [Byte.x61; Byte.x62] [[Byte.x63]] 1
    (demo_mk DirUpload 0) demo_client demo_oracle "aa" demo2) as (c' & fs & E1 & E2 & E3 & E4);
    try done; try discriminate.
  - by constructor.
  - apply (ch_batch_single (C:=link) (MkFrame 7 TypeData 2 [Byte.x63])); [|done].
    unfold frame_ok. split_and!; done.
  - apply demo_mk_good.
  - exists c', fs. split; [exact E1|]. split; [exact E2|]. split; [exact E3|exact E4].
Defined.

(** The second download channel cannot be dialed: the read loop of the first stays. *)
Definition demo_dial (dir i : Z) : goerr + link :=
  if (dir =? DirDownload) && (i =? 1) then inl (Errorf "hello: %w") else inr (demo_mk dir i).

Lemma OpenAll_exact_witness :
  let '(e, w') := openAllChannels 1 2 demo_dial demo_client in
  e <> None /\ uploads w' = uploads demo_client /\
  (forall ch c, chans w' !! ch = Some c -> chans demo_client !! ch = Some c \/ ch_open c = false) /\
  length (dloops w') = 1%nat.
Proof.
  pose proof (OpenAll_exact demo_dial 1 2 demo_client ltac:(lia) ltac:(lia)) as H.
  assert ((openAllChannels 1 2 demo_dial demo_client).1 = Some (Errorf "download[%d]: %w")) as E
    by (by vm_compute).
  destruct (openAllChannels 1 2 demo_dial demo_client) as [e w']. simpl in E. subst e.
  destruct H as (H1 & _ & H3 & downs & H4 & _ & H5). split_and!; [done|exact H1|exact H3|].
  assert (len downs = 1) as Hd.
  { apply H5; [lia|by eexists| |].
    - intros i Hi. assert (i = 0) as -> by lia. by eexists.
    - intros i Hi. assert (i = 0) as -> by lia. by eexists. }
  rewrite H4, length_app. unfold loops_of. simpl. rewrite length_imap. unfold len in Hd. simpl. lia.
Defined.
