(* ===== verification/DpiWire.v ===== *)
(** The DPI wire format: dpi/common/protocol.go, serialize.go, crypto.go and errors.go.

    A message is a ten-byte header and its payload, encrypted as a whole under the shared key;
    on a stream it is preceded by its length.  Decoders return [result]s: the decoder of a
    connect request computes an offset in 16 bits and can panic. *)

From S2P Require Import Prelude GoLib Aead.
From Stdlib Require Import ZArith Lia Strings.Byte Strings.String.
From stdpp Require Import gmap strings list fin_maps.

#[local] Open Scope Z_scope.

(** ** Constants *)

Definition Version : Z := 1.
Definition MaxEncryptedFrame : Z := 256 * 1024.

Definition MsgConnect : Z := 0x01.
Definition MsgData : Z := 0x02.
Definition MsgClose : Z := 0x03.
Definition MsgUDPAssoc : Z := 0x04.
Definition MsgUDPPacket : Z := 0x05.
Definition MsgReverseBind : Z := 0x07.
Definition MsgReverseOpen : Z := 0x09.

Definition UplinkPostAsync : string := "post-async".
Definition UplinkStream : string := "stream".

Definition ErrInvalidCiphertext : goerr := Errorf "invalid ciphertext".

(** ** Stream headers *)

Record StreamHeader : Type := MkHeader {
  h_Version : Z; MsgType : Z; ConnID : Z; PayloadLen : Z
}.

Definition StreamHeaderSize : nat := 10.

(** [msgType] is a byte, [connID] and [payloadLen] are 32-bit. *)
Definition BuildStreamHeader (msgType connID payloadLen : Z) : list byte :=
  byte_of_Z Version :: byte_of_Z msgType :: PutUint32 connID ++ PutUint32 payloadLen.

Definition ParseStreamHeader (decrypted : list byte) : result (StreamHeader * list byte) :=
  if decide (length decrypted < StreamHeaderSize)%nat
  then Err (Errorf "payload too short for header")
  else Ok (MkHeader (be_get (sub decrypted 0 1)) (be_get (sub decrypted 1 2))
             (be_get (sub decrypted 2 6)) (be_get (sub decrypted 6 10)),
           drop StreamHeaderSize decrypted).

Definition WriteStreamHeader (msgType connID payloadLen : Z) : IO unit :=
  Write_ (BuildStreamHeader msgType connID payloadLen).

Definition ReadStreamHeader : IO StreamHeader :=
  buf ← ReadFull StreamHeaderSize;
  lift (r ← ParseStreamHeader buf; mret r.1).

(** ** Length-prefixed frames *)

Definition WriteLengthPrefixed (data : list byte) : IO unit :=
  _ ← Write_ (PutUint32 (u32 (len data)));
  Write_ data.

Definition ReadLengthPrefixed : IO (list byte) :=
  lenBuf ← ReadFull 4;
  let n := be_get lenBuf in
  if (n =? 0) || (n >? MaxEncryptedFrame) then throw (Errorf "invalid frame length %d")
  else ReadFull (Z.to_nat n).

(** ** Connect requests *)

Record ConnectRequest : Type := MkConnect { Network : string; Address : string }.

Definition EncodeConnectRequest (req : ConnectRequest) : list byte :=
  PutUint16 (u16 (slen (Network req))) ++ bytes_of (Network req) ++
  PutUint16 (u16 (slen (Address req))) ++ bytes_of (Address req).

(** [2 + netLen] is computed in 16 bits. *)
Definition DecodeConnectRequest (data : list byte) : result ConnectRequest :=
  if len data <? 4 then Err (Errorf "payload too short")
  else
    let netLen := be_get (sub data 0 2) in
    if len data <? 4 + netLen then Err (Errorf "invalid network length")
    else
      let off := u16 (2 + netLen) in
      if off <? 2 then Panic "slice bounds out of range"
      else
        let network := string_of (sub data 2 (Z.to_nat off)) in
        let addrLen := be_get (sub data (Z.to_nat off) (Z.to_nat off + 2)) in
        let off := off + 2 in
        if len data <? off + addrLen then Err (Errorf "invalid address length")
        else Ok (MkConnect network
                   (string_of (sub data (Z.to_nat off) (Z.to_nat (off + addrLen))))).

(** ** Encryption *)

(** sha256.Sum256. *)
Class SHA256 := { Sum256 : list byte -> list byte }.
Class SHA256Laws `{SHA256} : Prop := { length_Sum256 m : length (Sum256 m) = 32%nat }.

(** A hash for the examples. *)
#[export] Instance toy_sha : SHA256 := {| Sum256 m := take 32 (m ++ replicate 32 Byte.x00) |}.
#[export] Instance toy_sha_laws : SHA256Laws.
Proof. split. intros m. unfold Sum256, toy_sha. rewrite length_take, length_app, length_replicate. lia. Qed.

Section Crypto.
Context `{AEAD}.

(** An Encryptor is the AES-GCM instance of its key. *)
Definition Encryptor : Type := list byte.

Definition NewEncryptor `{SHA256} (key : list byte) : result Encryptor :=
  let hash := Sum256 key in _ ← NewCipher hash; Ok hash.

(** [nonce] is what rand.Reader gave. *)
Definition Encrypt (e : Encryptor) (nonce plaintext : list byte) : list byte :=
  nonce ++ Seal e nonce plaintext.

Definition Decrypt (e : Encryptor) (data : list byte) : result (list byte) :=
  if decide (length data < NonceSize + Overhead)%nat then Err ErrInvalidCiphertext
  else match Open e (take NonceSize data) (drop NonceSize data) with
       | Some p => Ok p
       | None => Err (Errorf "cipher: message authentication failed")
       end.

Definition EncryptStream := Encrypt.
Definition DecryptStream := Decrypt.
End Crypto.

(** ** Lemmas *)

Lemma length_header m c n : length (BuildStreamHeader m c n) = StreamHeaderSize.
Proof. done. Qed.

(** A header whose fields fit their widths. *)
Definition header_ok (h : StreamHeader) : Prop :=
  0 <= h_Version h < 256 /\ 0 <= MsgType h < 256 /\ 0 <= ConnID h < 2 ^ 32 /\
  0 <= PayloadLen h < 2 ^ 32.

Lemma parse_cons v m c1 c2 c3 c4 n1 n2 n3 n4 p :
  ParseStreamHeader (v :: m :: c1 :: c2 :: c3 :: c4 :: n1 :: n2 :: n3 :: n4 :: p) =
    Ok (MkHeader (byte_to_Z v) (byte_to_Z m) (be_get [c1; c2; c3; c4]) (be_get [n1; n2; n3; n4]), p).
Proof.
  unfold ParseStreamHeader. rewrite decide_False by (simpl; unfold StreamHeaderSize; lia).
  unfold sub. simpl. by rewrite !be_get_1, drop_0.
Qed.

Lemma parse_build m c n p :
  0 <= m < 256 -> 0 <= c < 2 ^ 32 -> 0 <= n < 2 ^ 32 ->
  ParseStreamHeader (BuildStreamHeader m c n ++ p) = Ok (MkHeader Version m c n, p).
Proof.
  intros Hm Hc Hn. unfold BuildStreamHeader.
  pose proof (be_get_put32 c) as Ec. pose proof (be_get_put32 n) as En.
  rewrite u32_small in Ec, En by lia. cbn [be_put app] in *.
  rewrite parse_cons, Ec, En, !byte_to_of_Z_small by (done || lia). done.
Qed.

(** Parsing is exact: a header has ten bytes, and its fields are these bytes. *)
Lemma parse_exact d h p :
  ParseStreamHeader d = Ok (h, p) ->
  header_ok h /\
  d = byte_of_Z (h_Version h) :: byte_of_Z (MsgType h) :: PutUint32 (ConnID h) ++
      PutUint32 (PayloadLen h) ++ p.
Proof.
  intros E. assert (10 <= length d)%nat as Hd.
  { unfold ParseStreamHeader in E. case_decide as Hd; [done|]. unfold StreamHeaderSize in Hd. lia. }
  destruct d as [|v [|m [|c1 [|c2 [|c3 [|c4 [|n1 [|n2 [|n3 [|n4 d]]]]]]]]]]; simpl in Hd; try lia.
  rewrite parse_cons in E. injection E as <- <-. cbn [h_Version MsgType ConnID PayloadLen]. split.
  - unfold header_ok. cbn [h_Version MsgType ConnID PayloadLen].
    pose proof (be_get_range [c1; c2; c3; c4]) as R1. pose proof (be_get_range [n1; n2; n3; n4]) as R2.
    change (8 * len [c1; c2; c3; c4]) with 32 in R1. change (8 * len [n1; n2; n3; n4]) with 32 in R2.
    pose proof (byte_to_Z_range v). pose proof (byte_to_Z_range m). by split; [|split; [|split]].
  - rewrite !byte_of_to_Z. do 2 f_equal.
    rewrite (be_put_get_n 4 [c1; c2; c3; c4]), (be_put_get_n 4 [n1; n2; n3; n4]) by done. done.
Qed.

(** *** Frames *)

Lemma ReadLengthPrefixed_frame data q e t r w :
  0 < len data <= MaxEncryptedFrame ->
  ReadLengthPrefixed (Conn (PutUint32 (u32 (len data)) ++ data ++ q) e t r w) =
    (Ok data, Conn q e t r w).
Proof.
  intros Hl. unfold ReadLengthPrefixed, MaxEncryptedFrame in *.
  rewrite (bind_Ok _ _ _ _ _ (ReadFull_exact 4 (PutUint32 (u32 (len data))) _ _ _ _ _ eq_refl)). cbv zeta.
  rewrite be_get_put32, (u32_small (len data)), u32_small by lia.
  rewrite (proj2 (Z.eqb_neq _ 0)) by lia. rewrite Z.gtb_ltb, (proj2 (Z.ltb_ge _ _)) by lia.
  rewrite to_nat_len. apply ReadFull_app.
Qed.

Lemma ReadLengthPrefixed_sound c data c' :
  ReadLengthPrefixed c = (Ok data, c') ->
  0 < len data <= MaxEncryptedFrame /\ rx c = PutUint32 (len data) ++ data ++ rx c'.
Proof.
  unfold ReadLengthPrefixed, MaxEncryptedFrame. rewrite IO_bind_eq.
  destruct (ReadFull 4 c) as [[hdr|e|s|] c1] eqn:E1; try done.
  apply ReadFull_Ok_inv in E1 as (L1 & E1 & ->). cbv zeta.
  destruct (Z.eqb_spec (be_get hdr) 0) as [|Hz]; [done|]. cbn [orb].
  rewrite Z.gtb_ltb. destruct (Z.ltb_spec (256 * 1024) (be_get hdr)) as [|Hm]; [done|].
  intros E2. apply ReadFull_Ok_inv in E2 as (L2 & E2 & ->). simpl in E2.
  pose proof (be_get_range hdr).
  assert (len data = be_get hdr) as Hl by (unfold len; lia). split; [lia|].
  by rewrite E1, E2, Hl, (be_put_get_n 4 hdr).
Qed.

(** *** Encryption *)

Section CryptoLemmas.
Context `{AEADLaws}.

Lemma Decrypt_sealed e nonce p :
  length nonce = NonceSize -> Decrypt e (Encrypt e nonce p) = Ok p.
Proof.
  intros Hn. unfold Decrypt, Encrypt.
  rewrite decide_False by (rewrite length_app, length_Seal; lia).
  rewrite take_app_length', drop_app_length' by done. by rewrite Open_Seal.
Qed.

Lemma len_Encrypt e nonce p :
  length nonce = NonceSize -> len (Encrypt e nonce p) = 28 + len p.
Proof.
  intros Hn. unfold Encrypt, len. rewrite length_app, length_Seal, Hn. unfold NonceSize, Overhead. lia.
Qed.

Lemma Decrypt_Ok e d p :
  Decrypt e d = Ok p -> exists nonce, length nonce = NonceSize /\ d = Encrypt e nonce p.
Proof.
  unfold Decrypt. case_decide as Hd; [done|].
  destruct (Open _ _ _) as [q|] eqn:E; [|done]. intros [= ->]. apply Open_inv in E.
  exists (take NonceSize d). split; [rewrite length_take; lia|].
  unfold Encrypt. by rewrite <- E, take_drop.
Qed.
End CryptoLemmas.

(** *** Connect requests *)

(** The decoder on a request whose two length fields are [a] and [b]. *)
Lemma decode_fields a n b x rest :
  a = len n -> b = len x -> 0 <= a < 65534 -> 0 <= b < 65536 ->
  DecodeConnectRequest (PutUint16 a ++ n ++ PutUint16 b ++ x ++ rest) =
    Ok (MkConnect (string_of n) (string_of x)).
Proof.
  intros Ea Eb Ha Hb. unfold DecodeConnectRequest.
  set (d := PutUint16 a ++ n ++ PutUint16 b ++ x ++ rest).
  assert (len d = 4 + a + b + len rest) as Hd
    by (unfold d; autorewrite with go_len; lia).
  pose proof (len_nonneg rest). rewrite (proj2 (Z.ltb_ge _ _)) by lia.
  assert (be_get (sub d 0 2) = a) as -> by
    (unfold d, sub; rewrite drop_0, take_app_length' by done; rewrite be_get_put16; apply u16_small; lia).
  rewrite (proj2 (Z.ltb_ge _ _)) by lia. cbv zeta. rewrite u16_small by lia.
  rewrite (proj2 (Z.ltb_ge _ _)) by lia.
  assert (sub d 2 (Z.to_nat (2 + a)) = n) as ->
    by (unfold d; apply sub_app; [done|unfold len in *; lia]).
  assert (be_get (sub d (Z.to_nat (2 + a)) (Z.to_nat (2 + a) + 2)) = b) as ->.
  { unfold d. rewrite (app_assoc (PutUint16 a)), sub_app.
    - rewrite be_get_put16. apply u16_small. lia.
    - rewrite length_app, length_be_put. unfold len in *. lia.
    - rewrite length_be_put. lia. }
  rewrite (proj2 (Z.ltb_ge _ _)) by lia. do 2 f_equal. f_equal.
  unfold d. rewrite (app_assoc (PutUint16 a)), (app_assoc (_ ++ n)), sub_app; [done|..].
  - rewrite !length_app, !length_be_put. unfold len in *. lia.
  - unfold len in *. lia.
Qed.

Lemma connect_roundtrip r :
  slen (Network r) < 65534 -> slen (Address r) < 65536 ->
  DecodeConnectRequest (EncodeConnectRequest r) = Ok r.
Proof.
  intros Hn Ha. pose proof (slen_nonneg (Network r)). pose proof (slen_nonneg (Address r)).
  unfold EncodeConnectRequest. rewrite <- (app_nil_r (bytes_of (Address r))).
  rewrite !u16_small, decode_fields by (rewrite ?len_bytes_of; lia).
  rewrite !string_of_bytes_of. by destruct r.
Qed.

(** C38: The header codec.  The headers that ParseStreamHeader returns are exactly those whose
    fields fit their widths, and header and payload determine the ten bytes and the rest that
    they were parsed from: what was built with the header's fields, up to the version byte, which
    is not checked. *)
Theorem Header_typed (d : list byte) (h : StreamHeader) (p : list byte) :
  ParseStreamHeader d = Ok (h, p) <->
  header_ok h /\ exists r, d = byte_of_Z (h_Version h) :: r /\
    BuildStreamHeader (MsgType h) (ConnID h) (PayloadLen h) ++ p = byte_of_Z Version :: r.
Proof.
  split.
  - intros E. apply parse_exact in E as [Hh ->]. split; [done|]. eexists. split; [done|].
    unfold BuildStreamHeader. cbn [app]. by rewrite <- app_assoc.
  - intros (Hh & r & -> & E). injection E as <-. destruct h as [v m c n].
    unfold header_ok in Hh. cbn [h_Version MsgType ConnID PayloadLen] in *.
    pose proof (be_get_put32 c) as Ec. pose proof (be_get_put32 n) as En.
    rewrite u32_small in Ec, En by lia. cbn [be_put app] in *.
    rewrite parse_cons, Ec, En, !byte_to_of_Z_small by lia. done.
Qed.

Lemma decode_sound data r :
  DecodeConnectRequest data = Ok r ->
  slen (Network r) < 65534 /\ slen (Address r) < 65536 /\
  exists rest, data = EncodeConnectRequest r ++ rest.
Proof.
  intros E.
  unfold DecodeConnectRequest in E. change (sub data 0 2) with (take 2 data) in E.
  destruct (Z.ltb_spec (len data) 4) as [|H4]; [done|]. set (a := be_get (take 2 data)) in *.
  destruct (Z.ltb_spec (len data) (4 + a)) as [|Hn]; [done|].
  assert (0 <= a < 65536) as Ha.
  { pose proof (be_get_range (take 2 data)) as R. fold a in R.
    rewrite len_take, Z.min_l in R by lia. exact R. }
  destruct (Z.ltb_spec (u16 (2 + a)) 2) as [|Hw]; [done|].
  assert (a < 65534) as Ha' by (unfold u16 in Hw; Z.to_euclidean_division_equations; lia).
  rewrite !u16_small in E by lia. set (o := Z.to_nat (2 + a)) in *.
  assert (Z.to_nat (2 + a + 2) = (o + 2)%nat) as Eo by lia.
  set (b := be_get (sub data o (o + 2))) in *.
  destruct (Z.ltb_spec (len data) (2 + a + 2 + b)) as [|Hb]; [done|].
  assert (len (sub data o (o + 2)) = 2) as L2
    by (unfold len; rewrite length_sub; unfold len in *; lia).
  assert (0 <= b < 65536) as Hbr.
  { pose proof (be_get_range (sub data o (o + 2))) as R. fold b in R. by rewrite L2 in R. }
  injection E as <-. cbn [Network Address].
  replace (Z.to_nat (2 + a + 2 + b)) with (o + 2 + Z.to_nat b)%nat by lia. rewrite Eo.
  set (n := sub data 2 o). set (x := sub data (o + 2) (o + 2 + Z.to_nat b)).
  assert (len n = a) as Ln by (unfold n, len; rewrite length_sub; unfold len in *; lia).
  assert (len x = b) as Lx by (unfold x, len; rewrite length_sub; unfold len in *; lia).
  assert (slen (string_of n) = a) as Sn by (by rewrite <- len_bytes_of, bytes_of_string_of).
  assert (slen (string_of x) = b) as Sx by (by rewrite <- len_bytes_of, bytes_of_string_of).
  rewrite Sn, Sx. split; [done|]. split; [lia|].
  exists (drop (o + 2 + Z.to_nat b) data). unfold EncodeConnectRequest. cbn [Network Address].
  rewrite Sn, Sx, !bytes_of_string_of, !u16_small by lia.
  assert (PutUint16 a = take 2 data) as ->
    by (apply be_put_get_n; rewrite length_take; unfold len in *; lia).
  assert (PutUint16 b = sub data o (o + 2)) as -> by (apply be_put_get_n; unfold len in *; lia).
  rewrite <- !app_assoc. unfold x, sub.
  replace (o + 2 + Z.to_nat b - (o + 2))%nat with (Z.to_nat b) by lia.
  assert (forall i j, drop (i + j) data = drop j (drop i data)) as Hdrop
    by (intros; by rewrite skipn_skipn, Nat.add_comm).
  rewrite (Hdrop (o + 2)%nat), take_drop, (Hdrop o).
  replace (o + 2 - o)%nat with 2%nat by lia. rewrite take_drop.
  unfold n, sub. replace (drop o data) with (drop (o - 2) (drop 2 data))
    by (rewrite <- Hdrop; f_equal; lia).
  by rewrite !take_drop.
Qed.

Lemma decode_panic data m :
  DecodeConnectRequest data = Panic m ->
  65534 <= be_get (take 2 data) < 65536 /\ 4 + be_get (take 2 data) <= len data.
Proof.
  intros E.
  unfold DecodeConnectRequest in E. change (sub data 0 2) with (take 2 data) in E.
  destruct (Z.ltb_spec (len data) 4) as [|H4]; [done|]. set (a := be_get (take 2 data)) in *.
  destruct (Z.ltb_spec (len data) (4 + a)) as [|Hn]; [done|].
  assert (0 <= a < 65536) as Ha.
  { pose proof (be_get_range (take 2 data)) as R. fold a in R.
    rewrite len_take, Z.min_l in R by lia. exact R. }
  destruct (Z.ltb_spec (u16 (2 + a)) 2) as [Hw|]; [|by case_match].
  split; [|lia]. unfold u16 in Hw. Z.to_euclidean_division_equations; lia.
Qed.

(** Connect requests.  DecodeConnectRequest accepts exactly the encodings, followed by
    anything, of the requests whose network is shorter than 65534 bytes and whose address is
    shorter than 65536.  It panics exactly when the length field of the network is 65534 or
    65535 and the data is that long, because the offset wraps around; otherwise it returns an
    error. *)
Theorem Connect_exact (data : list byte) :
  match DecodeConnectRequest data with
  | Ok r => slen (Network r) < 65534 /\ slen (Address r) < 65536 /\
      exists rest, data = EncodeConnectRequest r ++ rest
  | Err _ => forall r rest, slen (Network r) < 65534 -> slen (Address r) < 65536 ->
      data <> EncodeConnectRequest r ++ rest
  | Panic _ => 65534 <= be_get (take 2 data) < 65536 /\ 4 + be_get (take 2 data) <= len data
  | OutOfFuel => False
  end.
Proof.
  destruct (DecodeConnectRequest data) as [r|e|m|] eqn:E.
  4: { unfold DecodeConnectRequest in E. repeat (case_match; [done|]). done. }
  2: { intros r rest Hn Ha ->. unfold EncodeConnectRequest in E. pose proof (slen_nonneg (Network r)).
    pose proof (slen_nonneg (Address r)).
    rewrite <- !app_assoc, !u16_small, decode_fields in E by (rewrite ?len_bytes_of; lia). done. }
  - by apply decode_sound.
  - by apply decode_panic in E.
Qed.

(** ** A witness *)

(** A request of the maximal size field that the decoder panics on. *)
Definition demo_panic : list byte := Byte.xff :: Byte.xfe :: replicate 65536 Byte.x00.

Lemma Connect_exact_witness :
  DecodeConnectRequest demo_panic = Panic "slice bounds out of range" /\
  65534 <= be_get (take 2 demo_panic) < 65536.
Proof.
  assert (DecodeConnectRequest demo_panic = Panic "slice bounds out of range") as E by (by vm_compute).
  split; [exact E|]. pose proof (Connect_exact demo_panic) as H. rewrite E in H. exact (proj1 H).
Defined.
