(* ===== verification/DpiServer.v ===== *)
(** The DPI server: dpi/server/handler.go and the state of dpi/server/server.go.

    The server keeps its clients in a map keyed by the connection id alone, and its sessions
    in a map keyed by the id that the client chose.  A client connection has a remote socket
    and, in stream mode, a session on whose download body its frames go; otherwise a queue that
    its own download request drains.  Handlers run on the [World]; a goroutine is the sequence
    of its turns, with the socket's answers as arguments. *)

From S2P Require Import Prelude GoLib GoText Aead DpiWire.
From Stdlib Require Import ZArith Lia Strings.Byte Strings.Ascii Strings.String.
From stdpp Require Import gmap strings list fin_maps.

#[local] Open Scope Z_scope.

(** ** Data *)

(** The part of Config that the handlers read. *)
Record Config : Type := MkConfig {
  Target : string; SkipUDP : bool; RedirectURL : string; Backend : string; ServeDir : string;
  Protocol : string
}.

(** A socket to a target: what was written to it, and the error its writes return. *)
Record remote : Type := MkRemote { r_open : bool; r_tx : list byte; r_werr : option goerr }.

(** A session: the body of its download request once it is attached. *)
Record muxSession : Type := MkSess {
  ms_id : string; ms_writer : option conn; ms_ready : bool; ms_closed : bool
}.

(** A client connection: its remote socket, its queue (of 16 chunks) and whether it is closed,
    its session, whether it comes from the reverse listener, and whether its reader runs. *)
Record clientConn : Type := MkCC {
  cc_id : Z; cc_remote : nat; cc_addr : string; cc_data : list (list byte); cc_done : bool;
  cc_session : option nat; cc_reverse : bool; cc_run : bool
}.

Definition queue_cap : nat := 16.

Record World : Type := MkWorld {
  clients : gmap Z nat;
  ccs : gmap nat clientConn;
  remotes : gmap nat remote;
  sessions : gmap string nat;
  sess : gmap nat muxSession;
  nextConnID : Z;
  binds : list string;
  waits : list (nat * list byte * option nat);
  rnds : nat
}.

Definition init_world : World := MkWorld ∅ ∅ ∅ ∅ ∅ 0 [] [] 0.

Definition set_clients x w := MkWorld x (ccs w) (remotes w) (sessions w) (sess w) (nextConnID w)
  (binds w) (waits w) (rnds w).
Definition set_ccs x w := MkWorld (clients w) x (remotes w) (sessions w) (sess w) (nextConnID w)
  (binds w) (waits w) (rnds w).
Definition set_remotes x w := MkWorld (clients w) (ccs w) x (sessions w) (sess w) (nextConnID w)
  (binds w) (waits w) (rnds w).
Definition set_sessions x w := MkWorld (clients w) (ccs w) (remotes w) x (sess w) (nextConnID w)
  (binds w) (waits w) (rnds w).
Definition set_sess x w := MkWorld (clients w) (ccs w) (remotes w) (sessions w) x (nextConnID w)
  (binds w) (waits w) (rnds w).
Definition set_nextConnID x w := MkWorld (clients w) (ccs w) (remotes w) (sessions w) (sess w) x
  (binds w) (waits w) (rnds w).
Definition set_binds x w := MkWorld (clients w) (ccs w) (remotes w) (sessions w) (sess w)
  (nextConnID w) x (waits w) (rnds w).
Definition set_waits x w := MkWorld (clients w) (ccs w) (remotes w) (sessions w) (sess w)
  (nextConnID w) (binds w) x (rnds w).
Definition set_rnds x w := MkWorld (clients w) (ccs w) (remotes w) (sessions w) (sess w)
  (nextConnID w) (binds w) (waits w) x.

Definition set_run (b : bool) (c : clientConn) : clientConn :=
  MkCC (cc_id c) (cc_remote c) (cc_addr c) (cc_data c) (cc_done c) (cc_session c) (cc_reverse c) b.
Definition set_data (q : list (list byte)) (d : bool) (c : clientConn) : clientConn :=
  MkCC (cc_id c) (cc_remote c) (cc_addr c) q d (cc_session c) (cc_reverse c) (cc_run c).

(** An answer to a request, and the answers with a status in JSON. *)
Inductive reply : Type :=
  | Reply (status : Z) (body : string)
  | Redirect (url : string)
  | ByBackend
  | ByFileServer
  | Stream.

(** How a handler goes on: it returns with an answer, waits in a writeFrame, or panics, which
    net/http recovers by closing the connection. *)
Inductive outcome : Type := Returns (r : reply) | Waits | Panics.

Definition quoted (s : string) : string := String "034" (s +:+ String "034" EmptyString).
Definition json_status (s : string) : string := "{" +:+ quoted "status" +:+ ":" +:+ quoted s.
Definition status_ok : reply := Reply 200 (json_status "ok" +:+ "}").
Definition status_error (msg : string) : reply :=
  Reply 200 (json_status "error" +:+ "," +:+ quoted "msg" +:+ ":" +:+ quoted msg +:+ "}").
Definition status_conn (connID : Z) : reply :=
  Reply 200 (json_status "ok" +:+ "," +:+ quoted "conn_id" +:+ ":" +:+ Itoa connID +:+ "}").
Definition BadRequest : reply := Reply 400 "Bad Request".
Definition NotFound : reply := Reply 404 "Not Found".
Definition MethodNotAllowed : reply := Reply 405 "Method Not Allowed".

Section Server.
Context `{AEAD}.
Context (cfg : Config) (encryptor : Encryptor).
(** The nonces that rand.Reader gives. *)
Context (rnd : nat -> list byte).

(** ** Maps *)

Definition registerClient (connID : Z) (c : nat) (w : World) : World :=
  set_clients (<[connID := c]> (clients w)) w.
Definition unregisterClient (connID : Z) (w : World) : World :=
  set_clients (delete connID (clients w)) w.
Definition getClient (connID : Z) (w : World) : option nat := clients w !! connID.
Definition nextID : ST World Z := fun w =>
  let id := u32 (nextConnID w + 1) in (id, set_nextConnID id w).

Definition getOrCreateSession (id : string) : ST World nat := fun w =>
  match sessions w !! id with
  | Some s => (s, w)
  | None => let s := fresh_id (sess w) in
      (s, set_sessions (<[id := s]> (sessions w))
            (set_sess (<[s := MkSess id None false false]> (sess w)) w))
  end.
Definition removeSession (id : string) (w : World) : World :=
  set_sessions (delete id (sessions w)) w.

Definition put_sess (s : nat) (f : muxSession -> muxSession) (w : World) : World :=
  set_sess (alter f s (sess w)) w.
Definition put_cc (c : nat) (f : clientConn -> clientConn) (w : World) : World :=
  set_ccs (alter f c (ccs w)) w.
Definition close_remote (r : nat) (w : World) : World :=
  set_remotes (alter (fun x => MkRemote false (r_tx x) (r_werr x)) r (remotes w)) w.

Definition write_remote (r : nat) (data : list byte) : ST World (option goerr) := fun w =>
  match remotes w !! r with
  | Some x =>
      if r_open x then
        match r_werr x with
        | Some e => (Some e, w)
        | None => (None, set_remotes (<[r := MkRemote true (r_tx x ++ data) None]> (remotes w)) w)
        end
      else (Some (Errorf "use of closed network connection"), w)
  | None => (Some (Errorf "use of closed network connection"), w)
  end.

(** ** Sessions *)

Definition attach (body : conn) (ms : muxSession) : muxSession :=
  MkSess (ms_id ms) (Some body) true (ms_closed ms).
Definition close (ms : muxSession) : muxSession :=
  MkSess (ms_id ms) (ms_writer ms) (ms_ready ms) true.

(** writeFrame after [<-ms.ready]. *)
Definition writeFrame (s : nat) (plaintext : list byte) : ST World (option goerr) := fun w =>
  match sess w !! s with
  | None => (Some ErrClosedPipe, w)
  | Some ms =>
      match ms_closed ms, ms_writer ms with
      | false, Some body =>
          let encrypted := EncryptStream encryptor (rnd (rnds w)) plaintext in
          let w := set_rnds (S (rnds w)) w in
          let '(r, body) := WriteLengthPrefixed encrypted body in
          (match r with Ok _ => None | Err e => Some e | _ => Some ErrClosedPipe end,
           put_sess s (fun ms => MkSess (ms_id ms) (Some body) (ms_ready ms) (ms_closed ms)) w)
      | _, _ => (Some ErrClosedPipe, w)
      end
  end.

Definition is_ready (s : nat) (w : World) : bool :=
  match sess w !! s with Some ms => ms_ready ms | None => false end.

(** A writeFrame whose error is ignored, and after which the reader of the client connection
    [start] starts, if there is one: whether it returned; a frame that waits for its session is
    kept in [waits]. *)
Definition start_reader (start : option nat) (w : World) : World :=
  match start with Some c => put_cc c (set_run true) w | None => w end.

Definition writeFrame_ (s : nat) (plaintext : list byte) (start : option nat) : ST World bool :=
  fun w =>
  if is_ready s w then let '(_, w) := writeFrame s plaintext w in (true, start_reader start w)
  else (false, set_waits (waits w ++ [(s, plaintext, start)]) w).

(** The waiting writeFrame number [k] goes on. *)
Definition wake (k : nat) (w : World) : World :=
  match waits w !! k with
  | Some (s, p, start) =>
      if is_ready s w
      then start_reader start (writeFrame s p (set_waits (delete k (waits w)) w)).2 else w
  | None => w
  end.

Definition close_frame (connID : Z) : list byte := BuildStreamHeader MsgClose connID 0.
Definition data_frame (connID : Z) (data : list byte) : list byte :=
  BuildStreamHeader MsgData connID (u32 (len data)) ++ data.

(** ** Uplink *)

(** The end of a connect that failed. *)
Definition connect_failed (connID : Z) (sessionID msg : string) : ST World outcome :=
  if String.eqb sessionID "" then mret (Returns (status_error msg))
  else s ← getOrCreateSession sessionID;
       b ← writeFrame_ s (close_frame connID) None;
       mret (if b : bool then Returns (status_error msg) else Waits).

Definition dial_addr (req : ConnectRequest) : string :=
  let ext := TrimSpace (Target cfg) in if String.eqb ext "" then Address req else ext.

(** The session of a connection, in stream mode. *)
Definition session_of (sessionID : string) : ST World (option nat) :=
  if String.eqb sessionID "" then mret None
  else s ← getOrCreateSession sessionID; mret (Some s).

(** [dial network addr]: the error of net.Dialer, if any. *)
Definition handleConnect (dial : string -> string -> option goerr) (connID : Z)
    (req : ConnectRequest) (sessionID : string) : ST World outcome :=
  let dialAddr := dial_addr req in
  if negb (String.eqb (TrimSpace (Target cfg)) "") && (String.eqb (Network req) "udp" && SkipUDP cfg)
  then connect_failed connID sessionID "udp not supported in external mode"
  else
    match dial (Network req) dialAddr with
    | Some _ => connect_failed connID sessionID "connect failed"
    | None =>
        r ← (fun w => let r := fresh_id (remotes w) in
               (r, set_remotes (<[r := MkRemote true [] None]> (remotes w)) w));
        s ← session_of sessionID;
        c ← (fun w => let c := fresh_id (ccs w) in
               (c, set_ccs (<[c := MkCC connID r dialAddr [] false s false true]> (ccs w)) w));
        _ ← modify (registerClient connID c);
        mret (Returns (status_conn connID))
    end.

Definition remote_of (connID : Z) (w : World) : option nat :=
  c ← getClient connID w; cc_remote <$> (ccs w !! c).

(** dispatchPlain; only with [writeHTTP] is the answer sent. *)
Definition dispatchPlain (dial : string -> string -> option goerr) (decrypted : list byte)
    (sessionID : string) : ST World outcome :=
  match ParseStreamHeader decrypted with
  | Ok (hdr, payload) =>
      if PayloadLen hdr >? len payload then mret (Returns BadRequest)
      else
        let payload := take (Z.to_nat (PayloadLen hdr)) payload in
        let id := ConnID hdr in
        if MsgType hdr =? MsgReverseBind then
          _ ← modify (fun w => set_binds (binds w ++ [string_of payload]) w);
          mret (Returns status_ok)
        else if MsgType hdr =? MsgConnect then
          match DecodeConnectRequest payload with
          | Ok req => handleConnect dial id req sessionID
          | Panic _ => mret Panics
          | _ => mret (Returns BadRequest)
          end
        else if MsgType hdr =? MsgData then
          r ← gets (remote_of id);
          match r with
          | None => mret (Returns status_ok)
          | Some r =>
              err ← write_remote r payload;
              _ ← match err with
                  | Some _ => modify (fun w => unregisterClient id (close_remote r w))
                  | None => mret tt
                  end;
              mret (Returns status_ok)
          end
        else if MsgType hdr =? MsgClose then
          r ← gets (remote_of id);
          match r with
          | None => mret (Returns status_ok)
          | Some r => _ ← modify (fun w => unregisterClient id (close_remote r w));
                      mret (Returns status_ok)
          end
        else mret (Returns status_ok)
  | _ => mret (Returns BadRequest)
  end.

Definition is_post (m : string) : bool := String.eqb m "POST" || String.eqb m "PUT".
Definition is_get (m : string) : bool := String.eqb m "GET" || String.eqb m "HEAD".

(** handleTunnel; [body] is the outcome of io.ReadAll. *)
Definition handleTunnel (dial : string -> string -> option goerr) (method : string)
    (body : result (list byte)) : ST World outcome :=
  if negb (is_post method) then mret (Returns MethodNotAllowed)
  else
    match body with
    | Ok [] => mret (Returns status_ok)
    | Ok body =>
        match DecryptStream encryptor body with
        | Ok decrypted => dispatchPlain dial decrypted ""
        | _ => mret (Returns BadRequest)
        end
    | _ => mret (Returns BadRequest)
    end.

(** The loop of handleStreamUpload on the bytes of a body: how it goes on, and the rest of the
    body when it waits. *)
Fixpoint stream_loop (fuel : nat) (dial : string -> string -> option goerr) (sessionID : string)
    (body : conn) : ST World (result (outcome * conn)) :=
  match fuel with
  | O => mret OutOfFuel
  | S fuel =>
      match ReadLengthPrefixed body with
      | (Ok enc, body) =>
          match DecryptStream encryptor enc with
          | Ok decrypted =>
              o ← dispatchPlain dial decrypted sessionID;
              match o with
              | Returns _ => stream_loop fuel dial sessionID body
              | o => mret (Ok (o, body))
              end
          | _ => stream_loop fuel dial sessionID body
          end
      | (_, body) => mret (Ok (Returns Stream, body))
      end
  end.

Definition handleStreamUpload (dial : string -> string -> option goerr) (method sessionID : string)
    (body : conn) : ST World (result (outcome * conn)) :=
  if negb (is_post method) then mret (Ok (Returns MethodNotAllowed, body))
  else if String.eqb sessionID "" then mret (Ok (Returns BadRequest, body))
  else
    _ ← getOrCreateSession sessionID;
    stream_loop (S (length (rx body))) dial sessionID body.

(** ** Downlink *)

(** The deferred calls of a reader goroutine. *)
Definition reader_return (c : nat) (cc : clientConn) (w : World) : World :=
  unregisterClient (cc_id cc) (close_remote (cc_remote cc) (put_cc c (set_run false) w)).

(** The end of its loop: in stream mode a close frame, else the end of its queue. *)
Definition reader_end (c : nat) (cc : clientConn) : ST World unit :=
  _ ← match cc_session cc with
      | Some s => _ ← writeFrame s (close_frame (cc_id cc)); mret tt
      | None => modify (put_cc c (fun cc => set_data (cc_data cc) true cc))
      end;
  modify (reader_return c cc).

(** One turn of the reader of client connection [c]: a Read that returned [data] and [err].  A
    turn takes place when its frames need not wait: the session is attached, the queue has
    room. *)
Definition can_turn (cc : clientConn) (w : World) : bool :=
  match cc_session cc with
  | Some s => is_ready s w
  | None => bool_decide (length (cc_data cc) < queue_cap)%nat
  end.

Definition reader_turn (c : nat) (data : list byte) (err : option goerr) : ST World unit := fun w =>
  match ccs w !! c with
  | Some cc =>
      if cc_run cc && can_turn cc w then
        (werr ← match data, cc_session cc with
                | [], _ => mret None
                | _, Some s => writeFrame s (data_frame (cc_id cc) data)
                | _, None => _ ← modify (put_cc c (fun cc => set_data (cc_data cc ++ [data])
                                                              (cc_done cc) cc)); mret None
                end;
         match werr, err with
         | None, None => mret tt
         | Some _, _ => if cc_reverse cc then modify (reader_return c cc) else reader_end c cc
         | None, Some _ => reader_end c cc
         end) w
      else (tt, w)
  | None => (tt, w)
  end.

(** A reader whose queue is full, when the server stops. *)
Definition reader_stop (c : nat) (w : World) : World :=
  match ccs w !! c with
  | Some cc => reader_return c cc w
  | None => w
  end.

(** handleSessionDownload: its answer, and the session its body is attached to; and its end. *)
Definition handleSessionDownload (method path header : string) (body : conn) :
    ST World (reply * option nat) :=
  if negb (is_get method) then mret (MethodNotAllowed, None)
  else
    let sessionID := TrimPrefix path "/download/session/" in
    let sessionID := if String.eqb sessionID "" then header else sessionID in
    if String.eqb sessionID "" then mret (NotFound, None)
    else
      s ← getOrCreateSession sessionID;
      _ ← modify (put_sess s (attach body));
      mret (Stream, Some s).
Definition session_done (s : nat) (w : World) : World :=
  match sess w !! s with
  | Some ms => removeSession (ms_id ms) (put_sess s close w)
  | None => w
  end.

(** handleDownload: its answer, and the client connection whose queue it sends. *)
Definition handleDownload (method path : string) : ST World (reply * option nat) := fun w =>
  if negb (is_get method) then ((MethodNotAllowed, None), w)
  else
    let connIDStr := TrimPrefix path "/download/" in
    if String.eqb connIDStr "" then ((NotFound, None), w)
    else
      match Sscanf_u32 connIDStr with
      | None => ((NotFound, None), w)
      | Some connID =>
          match getClient connID w with
          | None => ((NotFound, None), w)
          | Some c => ((Stream, Some c), w)
          end
      end.

(** A turn of its loop on its body: whether it goes on; [None] when the queue is empty and it
    waits. *)
Definition download_turn (c : nat) (connID : Z) (body : conn) : ST World (option (bool * conn)) :=
  fun w =>
  match ccs w !! c with
  | Some cc =>
      match cc_data cc with
      | data :: q =>
          let w := put_cc c (set_data q (cc_done cc)) w in
          let encrypted := EncryptStream encryptor (rnd (rnds w)) (data_frame connID data) in
          let '(r, body) := WriteLengthPrefixed encrypted body in
          (Some (match r with Ok _ => true | _ => false end, body), set_rnds (S (rnds w)) w)
      | [] => (if cc_done cc then Some (false, body) else None, w)
      end
  | None => (None, w)
  end.

(** ** Reverse connections *)

(** firstSession: the first of the sessions in the order of the map's iteration. *)
Definition firstSession (iter : gmap string nat -> list nat) (w : World) : option nat :=
  head (iter (sessions w)).

(** A connection accepted on the reverse listener, from [addr]: its socket, and its client
    connection if a session takes it, whose reader starts once the open frame is written. *)
Definition attachReverseTCP (iter : gmap string nat -> list nat) (addr : string) :
    ST World (option nat) :=
  r ← (fun w => let r := fresh_id (remotes w) in
         (r, set_remotes (<[r := MkRemote true [] None]> (remotes w)) w));
  connID ← nextID;
  s ← gets (firstSession iter);
  match s with
  | None => _ ← modify (close_remote r); mret None
  | Some s =>
      c ← (fun w => let c := fresh_id (ccs w) in
             (c, set_ccs (<[c := MkCC connID r addr [] false (Some s) true false]> (ccs w)) w));
      _ ← modify (registerClient connID c);
      _ ← writeFrame_ s (BuildStreamHeader MsgReverseOpen connID 0) (Some c);
      mret (Some c)
  end.

(** A datagram on the reverse socket. *)
Definition reverseUDP (iter : gmap string nat -> list nat) (from : string) (d : list byte) :
    ST World unit :=
  s ← gets (firstSession iter);
  match s with
  | None => mret tt
  | Some s =>
      let payload := bytes_of from ++ [Byte.x00] ++ d in
      _ ← writeFrame_ s (BuildStreamHeader MsgUDPPacket 0 (u32 (len payload)) ++ payload) None;
      mret tt
  end.

(** ** The mux and the pages that are not tunnels *)

Inductive handler : Type := HTunnel | HStreamUpload | HSessionDownload | HDownload | HRoot.

Definition route (path : string) : handler :=
  if HasPrefix path "/.well-known/cdn-cache/" || String.eqb path "/api/v2/upload" then HTunnel
  else if String.eqb path "/api/v2/stream" then HStreamUpload
  else if HasPrefix path "/download/session/" then HSessionDownload
  else if HasPrefix path "/download/" then HDownload
  else HRoot.

Definition handleRoot : reply :=
  if negb (String.eqb (RedirectURL cfg) "") then Redirect (RedirectURL cfg)
  else if negb (String.eqb (Backend cfg) "") then ByBackend
  else if negb (String.eqb (ServeDir cfg) "") then ByFileServer
  else Reply 200 "<!DOCTYPE html><html><head><title>Service</title></head><body><h1>Service Unavailable</h1></body></html>".
End Server.

(** The application protocol, and the ALPN list; [acme] is the name of the ACME protocol. *)
Definition normalizeAppProtocol (protocol : string) : result string :=
  if String.eqb protocol "" || String.eqb protocol "auto" then Ok "auto"%string
  else if String.eqb protocol "h1" || String.eqb protocol "h2" then Ok protocol
  else if String.eqb protocol "h3" then Err (Errorf "protocol h3 is not implemented yet")
  else Err (Errorf "invalid protocol %q (expected auto, h1, h2, or h3)").

Definition tlsNextProtos (acme protocol : string) (withACME : bool) : list string :=
  (if String.eqb protocol "h1" then ["http/1.1"] else ["h2"; "http/1.1"])%string ++
  (if withACME then [acme] else []).

(** randomFilename, from the random bytes [b] (16) and [extBuf], whose length it chooses. *)
Definition letter (b : byte) : byte := byte_of_Z (97 + byte_to_Z b mod 26).
Definition randomFilename (b : list byte) (rand2 : nat -> list byte) : string :=
  let b := map letter b in
  let extLen := (2 + Z.to_nat (byte_to_Z (hd Byte.x00 b) mod 5))%nat in
  string_of b +:+ "." +:+ string_of (map letter (rand2 extLen)).
