(* ===== verification/DpiSession.v ===== *)
(** The DPI client's stream sessions: dpi/client/session.go, and the stream reader of
    dpi/client/transport.go.

    A session multiplexes the virtual connections of a client over one upload and one download
    request.  The download goroutine delivers each data frame to the queue (of 32 chunks) of
    its connection; a [demuxReader] drains it.  Queues are shared, so they live in a store.
    Where a select has several ready cases the choice is an argument. *)

From S2P Require Import Prelude GoLib Aead DpiWire.
From Stdlib Require Import ZArith Lia Strings.Byte Strings.Ascii Strings.String.
From stdpp Require Import gmap strings list fin_maps.

#[local] Open Scope Z_scope.

(** ** Data *)

(** connPipe: its queue [ch], and whether [closed] and [ch] are closed. *)
Record connPipe : Type := MkPipe { p_q : list (list byte); p_closed : bool }.
Definition pipe_cap : nat := 32.

Record muxSession : Type := MkSess {
  s_id : string; s_uplinkW : option conn; s_uplinkErr : option goerr; s_pinned : gset Z;
  s_readers : gmap Z nat; s_closed : bool
}.

(** The queues, the sessions, and the goroutines that the download loop has started: reverse
    connections, and reverse datagrams. *)
Record World : Type := MkWorld {
  pipes : gmap nat connPipe; sess : gmap nat muxSession; reverse : list Z;
  packets : list (list byte)
}.

Definition set_pipes x w := MkWorld x (sess w) (reverse w) (packets w).
Definition set_sess x w := MkWorld (pipes w) x (reverse w) (packets w).
Definition set_reverse x w := MkWorld (pipes w) (sess w) x (packets w).
Definition set_packets x w := MkWorld (pipes w) (sess w) (reverse w) x.

Definition put_sess (s : nat) (f : muxSession -> muxSession) (w : World) : World :=
  set_sess (alter f s (sess w)) w.
Definition put_pipe (p : nat) (f : connPipe -> connPipe) (w : World) : World :=
  set_pipes (alter f p (pipes w)) w.

Definition set_maps (pin : gset Z) (rd : gmap Z nat) (s : muxSession) : muxSession :=
  MkSess (s_id s) (s_uplinkW s) (s_uplinkErr s) pin rd (s_closed s).
Definition set_uplink (u : option conn) (s : muxSession) : muxSession :=
  MkSess (s_id s) u (s_uplinkErr s) (s_pinned s) (s_readers s) (s_closed s).

(** ** Pins *)

Definition isClosed (s : nat) (w : World) : bool :=
  match sess w !! s with Some x => s_closed x | None => true end.
Definition pinCount (s : nat) (w : World) : Z :=
  match sess w !! s with Some x => Z.of_nat (size (s_pinned x)) | None => 0 end.
Definition hasPin (s : nat) (connID : Z) (w : World) : bool :=
  match sess w !! s with Some x => bool_decide (connID ∈ s_pinned x) | None => false end.

Definition new_connPipe : ST World nat := fun w =>
  let p := fresh_id (pipes w) in (p, set_pipes (<[p := MkPipe [] false]> (pipes w)) w).

Definition pin (s : nat) (connID : Z) : ST World unit := fun w =>
  match sess w !! s with
  | None => (tt, w)
  | Some x =>
      let pinned := {[connID]} ∪ s_pinned x in
      match s_readers x !! connID with
      | Some _ => (tt, put_sess s (set_maps pinned (s_readers x)) w)
      | None => let '(p, w) := new_connPipe w in
                (tt, put_sess s (set_maps pinned (<[connID := p]> (s_readers x))) w)
      end
  end.

Definition close_pipe (p : nat) (w : World) : World :=
  put_pipe p (fun x => MkPipe (p_q x) true) w.

Definition unpin (s : nat) (connID : Z) (w : World) : World :=
  match sess w !! s with
  | None => w
  | Some x =>
      let w := match s_readers x !! connID with Some p => close_pipe p w | None => w end in
      put_sess s (set_maps (s_pinned x ∖ {[connID]}) (delete connID (s_readers x))) w
  end.

(** close: all queues are closed and forgotten, and the upload ends. *)
Definition close (s : nat) (w : World) : World :=
  match sess w !! s with
  | None => w
  | Some x =>
      if s_closed x then w
      else
        let w := foldr close_pipe w (map snd (map_to_list (s_readers x))) in
        put_sess s (fun x => MkSess (s_id x) None (s_uplinkErr x) ∅ ∅ true) w
  end.

Definition fail (s : nat) (err : goerr) (w : World) : World :=
  close s (put_sess s (fun x => MkSess (s_id x) (s_uplinkW x) (Some err) (s_pinned x) (s_readers x)
                                  (s_closed x)) w).

(** ** Data *)

Definition writeEncrypted (s : nat) (encrypted : list byte) : ST World (option goerr) := fun w =>
  match sess w !! s with
  | None => (Some ErrClosedPipe, w)
  | Some x =>
      match s_uplinkErr x, s_closed x, s_uplinkW x with
      | Some err, _, _ => (Some err, w)
      | None, false, Some u =>
          let '(r, u) := WriteLengthPrefixed encrypted u in
          (match r with Ok _ => None | Err e => Some e | _ => Some ErrClosedPipe end,
           put_sess s (set_uplink (Some u)) w)
      | None, _, _ => (Some ErrClosedPipe, w)
      end
  end.

(** demuxReader.  Its field [closed] only makes Close idempotent, and Close does nothing else. *)
Record demuxReader : Type := MkReader { d_pipe : nat; d_buf : list byte }.

Definition openConnReader (s : nat) (connID : Z) : ST World demuxReader := fun w =>
  match sess w !! s with
  | None => (MkReader 0 [], w)
  | Some x =>
      match s_readers x !! connID with
      | Some p => (MkReader p [], w)
      | None => let '(p, w) := new_connPipe w in
                (MkReader p [],
                 put_sess s (set_maps ({[connID]} ∪ s_pinned x) (<[connID := p]> (s_readers x))) w)
      end
  end.

(** deliver: the lookup under the lock, and the select after it.  When the queue has been closed
    in between, the select has two ready cases, the send that panics and [p.closed]. *)
Definition deliver_lookup (s : nat) (connID : Z) (w : World) : option nat :=
  x ← sess w !! s; s_readers x !! connID.
Definition deliver_send (p : nat) (data : list byte) (take_closed : bool) (w : World) :
    result World :=
  match pipes w !! p with
  | None => Ok w
  | Some x =>
      if p_closed x then if take_closed then Ok w else Panic "send on closed channel"
      else if decide (length (p_q x) < pipe_cap)%nat
           then Ok (put_pipe p (fun x => MkPipe (p_q x ++ [data]) (p_closed x)) w)
           else Ok w
  end.
Definition deliver (s : nat) (connID : Z) (data : list byte) (w : World) : result World :=
  match deliver_lookup s connID w with
  | None => Ok w
  | Some p => deliver_send p data true w
  end.

(** The Read of a demuxReader on a buffer of [n] bytes; [pick_data] is the choice of the select
    when both its cases are ready.  [None] when it blocks. *)
Definition Read (d : demuxReader) (n : nat) (pick_data : bool) (w : World) :
    option (result (list byte)) * demuxReader * World :=
  match d_buf d with
  | _ :: _ => (Some (Ok (take n (d_buf d))), MkReader (d_pipe d) (drop n (d_buf d)), w)
  | [] =>
      match pipes w !! d_pipe d with
      | None => (None, d, w)
      | Some x =>
          match p_q x with
          | data :: q =>
              if p_closed x && negb pick_data then (Some (Err EOF), d, w)
              else (Some (Ok (take n data)), MkReader (d_pipe d) (drop n data),
                    put_pipe (d_pipe d) (fun x => MkPipe q (p_closed x)) w)
          | [] => (if p_closed x then Some (Err EOF) else None, d, w)
          end
      end
  end.

(** ** The download goroutine *)

Section Crypto.
Context `{AEAD}.
Context (encryptor : Encryptor).

(** What it does with a frame. *)
Definition demux (s : nat) (hdr : StreamHeader) (payload : list byte) (w : World) : result World :=
  if MsgType hdr =? MsgReverseOpen then
    let '(_, w) := pin s (ConnID hdr) w in Ok (set_reverse (reverse w ++ [ConnID hdr]) w)
  else if MsgType hdr =? MsgUDPPacket then
    if PayloadLen hdr >? len payload then Ok w
    else Ok (set_packets (packets w ++ [take (Z.to_nat (PayloadLen hdr)) payload]) w)
  else if MsgType hdr =? MsgData then
    if PayloadLen hdr >? len payload then Ok w
    else deliver s (ConnID hdr) (take (Z.to_nat (PayloadLen hdr)) payload) w
  else if MsgType hdr =? MsgClose then Ok (unpin s (ConnID hdr) w)
  else Ok w.

(** One turn of its loop on the body of the response: whether it goes on. *)
Definition down_turn (s : nat) (body : conn) (w : World) : result (bool * conn * World) :=
  match ReadLengthPrefixed body with
  | (Ok enc, body) =>
      match Decrypt encryptor enc with
      | Ok dec =>
          match ParseStreamHeader dec with
          | Ok (hdr, payload) => w ← demux s hdr payload w; Ok (true, body, w)
          | _ => Ok (true, body, w)
          end
      | _ => Ok (true, body, w)
      end
  | (_, body) => Ok (false, body, close s w)
  end.

Fixpoint down_loop (fuel : nat) (s : nat) (body : conn) (w : World) : result World :=
  match fuel with
  | O => OutOfFuel
  | S fuel =>
      r ← down_turn s body w;
      let '(go, body, w) := r in
      if go : bool then down_loop fuel s body w else Ok w
  end.

(** ** The stream reader of post-async downloads *)

Record streamReader : Type := MkStream { sr_body : conn; sr_decrypted : list byte; sr_off : nat }.

Definition sr_available (sr : streamReader) : list byte := drop (sr_off sr) (sr_decrypted sr).

Fixpoint sr_read (fuel : nat) (n : nat) (sr : streamReader) : result (list byte) * streamReader :=
  if decide (sr_off sr < length (sr_decrypted sr))%nat
  then let p := take n (sr_available sr) in
       (Ok p, MkStream (sr_body sr) (sr_decrypted sr) (sr_off sr + length p))
  else
    match fuel with
    | O => (OutOfFuel, sr)
    | S fuel =>
        match ReadLengthPrefixed (sr_body sr) with
        | (Ok enc, body) =>
            match Decrypt encryptor enc with
            | Ok dec =>
                match ParseStreamHeader dec with
                | Ok (hdr, payload) =>
                    sr_read fuel n
                      (MkStream body
                         (if (MsgType hdr =? MsgData) && (PayloadLen hdr <=? len payload)
                          then take (Z.to_nat (PayloadLen hdr)) payload else []) 0)
                | Err e => (Err e, MkStream body [] 0)
                | Panic m => (Panic m, MkStream body [] 0)
                | OutOfFuel => (OutOfFuel, MkStream body [] 0)
                end
            | Err e => (Err e, MkStream body [] 0)
            | Panic m => (Panic m, MkStream body [] 0)
            | OutOfFuel => (OutOfFuel, MkStream body [] 0)
            end
        | (Err e, body) => (Err e, MkStream body [] 0)
        | (Panic m, body) => (Panic m, MkStream body [] 0)
        | (OutOfFuel, body) => (OutOfFuel, MkStream body [] 0)
        end
    end.

(** streamReader.Read on a buffer of [n] bytes. *)
Definition stream_Read (n : nat) (sr : streamReader) : result (list byte) * streamReader :=
  sr_read (S (length (rx (sr_body sr)))) n sr.
End Crypto.
