(* ===== verification/DpiTransport.v ===== *)
(** The DPI client's transport: dpi/client/transport.go, tunnel_conn.go, and the choice of a
    session in session.go.

    Two uplinks: in stream mode a frame is written to the session its connection is pinned to;
    in post-async mode each frame is a POST of its own, whose end the sender awaits for five
    milliseconds only, so that up to eight are in flight.  The HTTP client is an oracle. *)

From S2P Require Import Prelude GoLib Aead DpiWire DpiSession.
From Stdlib Require Import ZArith Lia Strings.Byte Strings.Ascii Strings.String.
From stdpp Require Import gmap strings list fin_maps.

#[local] Open Scope Z_scope.

Definition postAsyncWindow : nat := 8.
Definition maxSessions : nat := 2.

Definition i32 (z : Z) : Z := (z + 2 ^ 31) mod 2 ^ 32 - 2 ^ 31.

(** The transport; [posts] are the requests in flight, with their URLs. *)
Record Transport : Type := MkTransport {
  baseURL : string; scheme : string; host : string; uplink : string; connIDGen : Z;
  sessions : list nat; active : Z; posts : list (string * list byte); sw : World; rnds : nat
}.

Definition set_baseURL x t := MkTransport x (scheme t) (host t) (uplink t) (connIDGen t)
  (sessions t) (active t) (posts t) (sw t) (rnds t).
Definition set_connIDGen x t := MkTransport (baseURL t) (scheme t) (host t) (uplink t) x
  (sessions t) (active t) (posts t) (sw t) (rnds t).
Definition set_sessions x t := MkTransport (baseURL t) (scheme t) (host t) (uplink t)
  (connIDGen t) x (active t) (posts t) (sw t) (rnds t).
Definition add_active d t := MkTransport (baseURL t) (scheme t) (host t) (uplink t) (connIDGen t)
  (sessions t) (i32 (active t + d)) (posts t) (sw t) (rnds t).
Definition set_posts x t := MkTransport (baseURL t) (scheme t) (host t) (uplink t) (connIDGen t)
  (sessions t) (active t) x (sw t) (rnds t).
Definition set_sw x t := MkTransport (baseURL t) (scheme t) (host t) (uplink t) (connIDGen t)
  (sessions t) (active t) (posts t) x (rnds t).
Definition set_rnds x t := MkTransport (baseURL t) (scheme t) (host t) (uplink t) (connIDGen t)
  (sessions t) (active t) (posts t) (sw t) x.

(** A call on the sessions of the transport. *)
Definition on_sw {A} (m : ST World A) : ST Transport A := fun t =>
  let '(a, w) := m (sw t) in (a, set_sw w t).

(** ** Configuration *)

Definition normalizeAppProtocol (protocol : string) : result string :=
  if String.eqb protocol "" || String.eqb protocol "auto" then Ok "auto"%string
  else if String.eqb protocol "h1" || String.eqb protocol "h2" then Ok protocol
  else if String.eqb protocol "h3" then Err (Errorf "protocol h3 is not implemented yet")
  else Err (Errorf "invalid protocol %q (expected auto, h1, h2, or h3)").

(** NewTransport's checks of the configuration, for a URL parsed to a scheme and a host: the
    uplink and the protocol in use. *)
Definition check_config (url : result (string * string)) (dialIP protocol uplink : string) :
    result (string * string) :=
  match url with
  | Ok (scheme, _) =>
      if negb (String.eqb scheme "http") && negb (String.eqb scheme "https")
      then Err (Errorf "URL scheme must be http or https")
      else if String.eqb dialIP "" then Err (Errorf "dial IP is required (from address host)")
      else
        proto ← normalizeAppProtocol protocol;
        let uplink := TrimSpace uplink in
        let uplink := if String.eqb uplink "" then UplinkPostAsync else uplink in
        if negb (String.eqb uplink UplinkPostAsync) && negb (String.eqb uplink UplinkStream)
        then Err (Errorf "invalid uplink %q (expected post-async or stream)")
        else Ok (uplink, if String.eqb uplink UplinkStream then "h1"%string else proto)
  | Err _ => Err (Errorf "parse server URL: %w")
  | Panic m => Panic m
  | OutOfFuel => OutOfFuel
  end.

(** DialContext's address: requests to the server's host go to the dial IP, with the same port. *)
Definition dial_addr (hostname urlScheme dialIP addr : string) : string :=
  if Contains addr hostname then
    let port := match SplitHostPort addr with
                | Ok (_, port) => port
                | _ => if String.eqb urlScheme "https" then "443"%string else "80"%string
                end in
    JoinHostPort dialIP port
  else addr.

Section Transport.
Context `{AEAD}.
Context (encryptor : Encryptor) (rnd : nat -> list byte).

(** ** Sessions *)

(** startSession: the session, or the error of the download request. *)
Definition start_session (id : string) (r : option goerr) : ST Transport (result nat) := fun t =>
  match r with
  | Some e => (Err e, t)
  | None =>
      let s := fresh_id (sess (sw t)) in
      (Ok s, set_sw (set_sess (<[s := MkSess id (Some (conn_of [])) None ∅ ∅ false]> (sess (sw t)))
                       (sw t)) t)
  end.

Definition is_open (t : Transport) (s : nat) : bool := negb (isClosed s (sw t)).

(** The first session for which [f] holds. *)
Definition first_session (f : nat -> bool) (l : list nat) : option nat := snd <$> list_find f l.

Definition pickSession (id : string) (start : option goerr) : ST Transport (result nat) := fun t =>
  let needSecond := (8 <=? active t) && bool_decide (length (sessions t) < maxSessions)%nat in
  let fits s := is_open t s &&
                (negb needSecond || (pinCount s (sw t) <? Z.quot (active t) 2 + 1)) in
  match first_session fits (sessions t) with
  | Some s => (Ok s, t)
  | None =>
      match (if bool_decide (maxSessions <= length (sessions t))%nat
             then first_session (is_open t) (sessions t) else None) with
      | Some s => (Ok s, t)
      | None =>
          let '(r, t) := start_session id start t in
          match r with
          | Ok s =>
              match (if bool_decide (maxSessions <= length (sessions t))%nat
                     then first_session (is_open t) (sessions t) else None) with
              | Some existing => (Ok existing, set_sw (close s (sw t)) t)
              | None => (Ok s, set_sessions (sessions t ++ [s]) t)
              end
          | r => (r, t)
          end
      end
  end.

Definition sessionFor (connID : Z) (t : Transport) : option nat :=
  first_session (fun s => hasPin s connID (sw t)) (sessions t).

(** maybeShrinkSessions: the loop over the sessions from index [i] on. *)
Fixpoint shrink_loop (i : nat) (l kept : list nat) (w : World) : list nat * World :=
  match l with
  | [] => (kept, w)
  | s :: l =>
      if isClosed s w then shrink_loop (S i) l kept w
      else if bool_decide (0 < i)%nat && (pinCount s w =? 0)
           then shrink_loop (S i) l kept (close s w)
           else shrink_loop (S i) l (kept ++ [s]) w
  end.
Definition maybeShrinkSessions (t : Transport) : Transport :=
  if bool_decide (length (sessions t) <= 1)%nat then t
  else let '(kept, w) := shrink_loop 0 (sessions t) [] (sw t) in set_sessions kept (set_sw w t).

Definition HasLiveSession : ST Transport bool := fun t =>
  let kept := filter (fun s => is_open t s = true) (sessions t) in
  (bool_decide (kept <> []), set_sessions kept t).

(** ** Requests *)

Definition NextConnID : ST Transport Z := fun t =>
  let id := connIDGen t in
  let next := u32 (id + 1) in
  (id, set_connIDGen (if next =? 0 then 1 else next) t).

Definition buildPlain (msgType connID : Z) (payload : list byte) : list byte :=
  BuildStreamHeader msgType connID (u32 (len payload)) ++ payload.

Definition encrypt (plain : list byte) : ST Transport (list byte) := fun t =>
  (Encrypt encryptor (rnd (rnds t)) plain, set_rnds (S (rnds t)) t).

(** An HTTP response: its status, its Location header, its body. *)
Record response : Type := MkResp { status : Z; location : string; body : list byte }.

(** [url.Parse] where pathFromURL falls back to it. *)
Definition pathFromURL (parse : string -> result string) (full : string) : string :=
  let i := Index full "/." in
  if 0 <=? i then drop_s (Z.to_nat i) full
  else
    let i := Index full "/api/" in
    if 0 <=? i then drop_s (Z.to_nat i) full
    else match parse full with Ok path => path | _ => "/api/v2/upload"%string end.

Definition slash : ascii := "/"%char.

(** doPost: it follows redirects by calling itself, without a bound. *)
Fixpoint doPost (fuel : nat) (parse : string -> result string)
    (http : string -> list byte -> result response) (uploadURL : string) (encrypted : list byte)
    (readBody : bool) : RS Transport (list byte * Z) := fun t =>
  match fuel with
  | O => (OutOfFuel, t)
  | S fuel =>
      match http uploadURL encrypted with
      | Ok resp =>
          if (300 <=? status resp) && (status resp <? 400) && negb (String.eqb (location resp) "")
          then
            let redirectURL := location resp in
            let redirectURL := if HasPrefix redirectURL "/"
                               then scheme t +:+ "://" +:+ host t +:+ redirectURL
                               else redirectURL in
            let t := set_baseURL (TrimRight redirectURL "/") t in
            doPost fuel parse http (baseURL t +:+ pathFromURL parse uploadURL) encrypted readBody t
          else if readBody : bool then (Ok (body resp, status resp), t)
          else (Ok ([], status resp), t)
      | Err e => (Err e, t)
      | Panic m => (Panic m, t)
      | OutOfFuel => (OutOfFuel, t)
      end
  end.

(** What postAsyncFire and its callers return: an error or nil, or that they wait for room in
    the window. *)
Inductive sent : Type := Sent (e : option goerr) | Full.

(** postAsyncFire: [fast] is the error of a request that fails within five milliseconds; other
    requests are in flight when it returns. *)
Definition postAsyncFire (fast : option goerr) (uploadURL : string) (encrypted : list byte) :
    ST Transport sent := fun t =>
  if decide (length (posts t) < postAsyncWindow)%nat
  then match fast with
       | Some e => (Sent (Some e), t)
       | None => (Sent None, set_posts (posts t ++ [(uploadURL, encrypted)]) t)
       end
  else (Full, t).

(** Request number [k] has reached the server. *)
Definition post_arrives (k : nat) : ST Transport (option (string * list byte)) := fun t =>
  (posts t !! k, set_posts (delete k (posts t)) t).

(** ** Connections *)

Definition ok_status : string :=
  String "034" ("status" +:+ String "034" (":" +:+ String "034" ("ok" +:+ String "034" ""))).

(** Connect; [post] is doPost on the connect URL, [id] and [start] serve pickSession. *)
Definition Connect (post : string -> list byte -> RS Transport (list byte * Z)) (id : string)
    (start : option goerr) (network address : string) : RS Transport Z := fun t =>
  let payload := EncodeConnectRequest (MkConnect network address) in
  let '(connID, t) := NextConnID t in
  let '(encrypted, t) := encrypt (buildPlain MsgConnect connID payload) t in
  if String.eqb (uplink t) UplinkStream then
    match pickSession id start t with
    | (Ok s, t) =>
        let '(_, t) := on_sw (pin s connID) t in
        match on_sw (writeEncrypted s encrypted) t with
        | (Some e, t) => (Err e, set_sw (unpin s connID (sw t)) t)
        | (None, t) => (Ok connID, add_active 1 t)
        end
    | (Err e, t) => (Err e, t)
    | (Panic m, t) => (Panic m, t)
    | (OutOfFuel, t) => (OutOfFuel, t)
    end
  else
    match post (baseURL t +:+ "/.well-known/cdn-cache/upload") encrypted t with
    | (Ok (body, status), t) =>
        if negb (status =? 200) then (Err (Errorf "connect failed: %s"), t)
        else if negb (Contains (string_of body) ok_status) then (Err (Errorf "connect failed: %s"), t)
        else (Ok connID, add_active 1 t)
    | (Err e, t) => (Err e, t)
    | (Panic m, t) => (Panic m, t)
    | (OutOfFuel, t) => (OutOfFuel, t)
    end.

Definition SendData (fast : option goerr) (connID : Z) (data : list byte) : ST Transport sent :=
  encrypted ← encrypt (buildPlain MsgData connID data);
  mode ← gets uplink;
  if String.eqb mode UplinkStream then
    s ← gets (sessionFor connID);
    match s with
    | None => mret (Sent (Some (Errorf "no stream session for connID %d")))
    | Some s => e ← on_sw (writeEncrypted s encrypted); mret (Sent e)
    end
  else
    url ← gets baseURL;
    postAsyncFire fast (url +:+ "/api/v2/upload") encrypted.

Definition CloseConn (fast : option goerr) (connID : Z) : ST Transport sent :=
  encrypted ← encrypt (buildPlain MsgClose connID []);
  mode ← gets uplink;
  if String.eqb mode UplinkStream then
    s ← gets (sessionFor connID);
    e ← match s with
        | None => mret None
        | Some s => e ← on_sw (writeEncrypted s encrypted);
                    _ ← modify (fun t => set_sw (unpin s connID (sw t)) t);
                    mret e
        end;
    _ ← modify (fun t => maybeShrinkSessions (add_active (-1) t));
    mret (Sent e)
  else
    url ← gets baseURL;
    r ← postAsyncFire fast (url +:+ "/api/v2/upload") encrypted;
    match r with
    | Sent e => _ ← modify (fun t => maybeShrinkSessions (add_active (-1) t)); mret (Sent e)
    | Full => mret Full
    end.

(** DownloadStream in stream mode, and in post-async mode for the answer to its request. *)
Definition DownloadStream_mux (id : string) (start : option goerr) (connID : Z) :
    RS Transport demuxReader := fun t =>
  match sessionFor connID t with
  | Some s => let '(d, t) := on_sw (openConnReader s connID) t in (Ok d, t)
  | None =>
      match pickSession id start t with
      | (Ok s, t) =>
          let '(_, t) := on_sw (pin s connID) t in
          let '(d, t) := on_sw (openConnReader s connID) t in (Ok d, t)
      | (Err e, t) => (Err e, t)
      | (Panic m, t) => (Panic m, t)
      | (OutOfFuel, t) => (OutOfFuel, t)
      end
  end.
Definition download_url (base : string) (connID : Z) : string :=
  base +:+ "/download/" +:+ Itoa connID.
Definition DownloadStream_post (resp : result (Z * conn)) : result streamReader :=
  match resp with
  | Ok (status, body) =>
      if negb (status =? 200) then Err (Errorf "download failed: %d") else Ok (MkStream body [] 0)
  | Err e => Err e
  | Panic m => Panic m
  | OutOfFuel => OutOfFuel
  end.

Definition SendReverseBind (post : string -> list byte -> RS Transport (list byte * Z))
    (id : string) (start : option goerr) (listen : string) : RS Transport unit := fun t =>
  match pickSession id start t with
  | (Ok s, t) =>
      let '(encrypted, t) := encrypt (buildPlain MsgReverseBind 0 (bytes_of listen)) t in
      match on_sw (writeEncrypted s encrypted) t with
      | (None, t) => (Ok tt, t)
      | (Some _, t) =>
          match post (baseURL t +:+ "/.well-known/cdn-cache/upload") encrypted t with
          | (Ok _, t) => (Ok tt, t)
          | (Err e, t) => (Err e, t)
          | (Panic m, t) => (Panic m, t)
          | (OutOfFuel, t) => (OutOfFuel, t)
          end
      end
  | (Err e, t) => (Err e, t)
  | (Panic m, t) => (Panic m, t)
  | (OutOfFuel, t) => (OutOfFuel, t)
  end.

(** The start of handleReverseOpen, for the outcome of its dial: whether it goes on to open the
    tunnel; [None] when it waits for the window. *)
Definition handleReverseOpen (fast : option goerr) (ReverseLocal : string)
    (dialed : option goerr) (connID : Z) : ST Transport (option bool) :=
  if String.eqb ReverseLocal "" then mret (Some false)
  else
    _ ← modify (add_active 1);
    match dialed with
    | Some _ => r ← CloseConn fast connID;
                mret (match r with Sent _ => Some false | Full => None end)
    | None => mret (Some true)
    end.

(** handleReverseUDPPacket: the datagram it sends to ReverseLocal, if it can. *)
Definition handleReverseUDPPacket (ReverseLocal : string) (payload : list byte) :
    option (list byte) :=
  if String.eqb ReverseLocal "" then None
  else
    match list_find (fun b => b = Byte.x00) payload with
    | Some (i, _) => if decide (length payload <= i + 1)%nat then None
                     else Some (drop (i + 1) payload)
    | None => None
    end.

(** ** TunnelConn *)

Record TunnelConn : Type := MkTunnel { tc_connID : Z; tc_closed : bool; tc_local_open : bool }.

(** Close, which acts once; [None] when it waits for the window. *)
Definition tunnel_close (fast : option goerr) (tc : TunnelConn) :
    ST Transport (option TunnelConn) :=
  if tc_closed tc then mret (Some tc)
  else
    r ← CloseConn fast (tc_connID tc);
    mret (match r with Sent _ => Some (MkTunnel (tc_connID tc) true false) | Full => None end).

(** One turn of pumpLocalToServer: a Read of the local connection that returned [data] and
    [err]; whether it goes on, or [None] when it waits for the window. *)
Definition pumpLocalToServer (fast : option goerr) (tc : TunnelConn) (data : list byte)
    (err : option goerr) : ST Transport (option (bool * TunnelConn)) :=
  if tc_closed tc then mret (Some (false, tc))
  else
    e ← match data with
        | [] => mret (Sent None)
        | _ => SendData fast (tc_connID tc) data
        end;
    match e, err with
    | Full, _ => mret None
    | Sent None, None => mret (Some (true, tc))
    | _, _ => tc ← tunnel_close fast tc; mret (pair false <$> tc)
    end.
End Transport.
