(* ===== verification/DpiSessionThms.v ===== *)
(** Theorems about the DPI client's stream reader and its sessions (DpiSession.v). *)

From S2P Require Import Prelude GoLib Aead DpiWire DpiSession.
From Stdlib Require Import ZArith Lia Strings.Byte Strings.Ascii Strings.String.
From stdpp Require Import gmap strings list fin_maps.

#[local] Open Scope Z_scope.

(** ** The stream reader *)

Section Reader.
Context `{AEADLaws}.
Context (encryptor : Encryptor).

(** The reference: all data of a body at once, and the error at its end. *)
Definition data_of (hdr : StreamHeader) (payload : list byte) : list byte :=
  if (MsgType hdr =? MsgData) && (PayloadLen hdr <=? len payload)
  then take (Z.to_nat (PayloadLen hdr)) payload else [].

Definition next_frame (c : conn) : result (list byte) * conn :=
  match ReadLengthPrefixed c with
  | (Ok enc, c) =>
      match Decrypt encryptor enc with
      | Ok dec => match ParseStreamHeader dec with
                  | Ok (hdr, payload) => (Ok (data_of hdr payload), c)
                  | Err e => (Err e, c)
                  | Panic m => (Panic m, c)
                  | OutOfFuel => (OutOfFuel, c)
                  end
      | Err e => (Err e, c)
      | Panic m => (Panic m, c)
      | OutOfFuel => (OutOfFuel, c)
      end
  | (Err e, c) => (Err e, c)
  | (Panic m, c) => (Panic m, c)
  | (OutOfFuel, c) => (OutOfFuel, c)
  end.

Fixpoint decode_loop (fuel : nat) (c : conn) : list byte * goerr :=
  match fuel with
  | O => ([], EOF)
  | S fuel =>
      match next_frame c with
      | (Ok d, c) => let '(rest, e) := decode_loop fuel c in (d ++ rest, e)
      | (Err e, _) => ([], e)
      | _ => ([], EOF)
      end
  end.
Definition decode_body (c : conn) : list byte * goerr := decode_loop (S (length (rx c))) c.

(** Reads with the buffer sizes [ns], until one fails. *)
Fixpoint read_sizes (ns : list nat) (sr : streamReader) : list byte * option (result (list byte)) :=
  match ns with
  | [] => ([], None)
  | n :: ns =>
      match stream_Read encryptor n sr with
      | (Ok p, sr) => let '(ps, r) := read_sizes ns sr in (p ++ ps, r)
      | (r, _) => ([], Some r)
      end
  end.

(** A frame is read from the front of the stream. *)
Lemma RLP_shrinks c r c' :
  ReadLengthPrefixed c = (Ok r, c') -> (length (rx c') < length (rx c))%nat.
Proof.
  intros E. apply ReadLengthPrefixed_sound in E as [Hl ->].
  rewrite !length_app, length_be_put. lia.
Qed.

Lemma RLP_no_panic c : match (ReadLengthPrefixed c).1 with Ok _ | Err _ => True | _ => False end.
Proof.
  unfold ReadLengthPrefixed. rewrite IO_bind_eq. unfold ReadFull. case_decide; [|done].
  cbv zeta. destruct (_ || _); [done|]. by case_decide.
Qed.

Lemma next_frame_shrinks c d c' :
  next_frame c = (Ok d, c') -> (length (rx c') < length (rx c))%nat.
Proof.
  unfold next_frame. destruct (ReadLengthPrefixed c) as [[enc|e|m|] c1] eqn:E; try done.
  destruct (Decrypt encryptor enc) as [dec| | |]; try done.
  destruct (ParseStreamHeader dec) as [[hdr payload]| | |]; try done.
  intros [= _ <-]. by eapply RLP_shrinks.
Qed.

Lemma next_frame_no_panic c : match (next_frame c).1 with Ok _ | Err _ => True | _ => False end.
Proof.
  unfold next_frame. pose proof (RLP_no_panic c) as Hr.
  destruct (ReadLengthPrefixed c) as [[enc|e|m|] c1]; try done.
  unfold Decrypt. case_decide; [done|]. destruct (Open _ _ _) as [dec|]; [|done].
  unfold ParseStreamHeader. by case_decide.
Qed.

Lemma decode_loop_enough f g c :
  (length (rx c) < f)%nat -> (length (rx c) < g)%nat -> decode_loop f c = decode_loop g c.
Proof.
  revert g c. induction f as [|f IH]; intros [|g] c Hf Hg; [lia..|]. cbn [decode_loop].
  destruct (next_frame c) as [[d|e|m|] c1] eqn:E; try done.
  apply next_frame_shrinks in E. by rewrite (IH g c1) by lia.
Qed.

Lemma decode_body_step c :
  decode_body c = match next_frame c with
                  | (Ok d, c) => (d ++ (decode_body c).1, (decode_body c).2)
                  | (Err e, _) => ([], e)
                  | _ => ([], EOF)
                  end.
Proof.
  unfold decode_body at 1. cbn [decode_loop]. destruct (next_frame c) as [[d|e|m|] c1] eqn:E; try done.
  apply next_frame_shrinks in E. unfold decode_body.
  rewrite (decode_loop_enough (length (rx c)) (S (length (rx c1)))) by lia.
  by destruct (decode_loop _ _).
Qed.

(** What is left for the reader. *)
Definition left (sr : streamReader) : list byte * goerr :=
  (sr_available sr ++ (decode_body (sr_body sr)).1, (decode_body (sr_body sr)).2).

(** The reader between two reads: its offset is within its buffer. *)
Definition sr_ok (sr : streamReader) : Prop := (sr_off sr <= length (sr_decrypted sr))%nat.

Lemma sr_read_spec fuel n sr :
  sr_ok sr -> (0 < n)%nat -> (length (rx (sr_body sr)) < fuel)%nat ->
  match sr_read encryptor fuel n sr with
  | (Ok p, sr') => p <> [] /\ sr_ok sr' /\ left sr = (p ++ (left sr').1, (left sr').2)
  | (Err e, _) => left sr = ([], e)
  | _ => False
  end.
Proof.
  revert sr. induction fuel as [|fuel IH]; intros sr Hok Hn Hf; [lia|]. cbn [sr_read].
  unfold sr_ok in *. case_decide as Hlt.
  { unfold left, sr_available; cbn [sr_body sr_decrypted sr_off].
    assert (length (take n (drop (sr_off sr) (sr_decrypted sr))) =
      Nat.min n (length (sr_decrypted sr) - sr_off sr)) as L
      by (by rewrite length_take, length_drop).
    split; [intros E; rewrite E in L; simpl in L; lia|]. split; [rewrite L; lia|].
    cbn [fst snd]. f_equal. rewrite app_assoc. f_equal. rewrite <- (take_drop n (drop _ _)) at 1. f_equal.
    rewrite drop_drop. rewrite L. destruct (decide (n <= length (sr_decrypted sr) - sr_off sr)%nat).
    - by rewrite Nat.min_l by lia.
    - rewrite Nat.min_r by lia. rewrite !drop_ge by lia. done. }
  assert (left sr = match next_frame (sr_body sr) with
                    | (Ok d, c) => (d ++ (decode_body c).1, (decode_body c).2)
                    | (Err e, _) => ([], e)
                    | _ => ([], EOF)
                    end) as ->.
  { unfold left. rewrite decode_body_step.
    assert (sr_available sr = []) as -> by (unfold sr_available; rewrite drop_ge; [done|lia]).
    by destruct (next_frame (sr_body sr)) as [[]]. }
  pose proof (next_frame_no_panic (sr_body sr)) as Hp. pose proof (next_frame_shrinks (sr_body sr)) as Hs.
  unfold next_frame in *.
  destruct (ReadLengthPrefixed (sr_body sr)) as [[enc|e|m|] c1]; try done.
  destruct (Decrypt encryptor enc) as [dec|e|m|]; try done.
  destruct (ParseStreamHeader dec) as [[hdr payload]|e|m|]; try done.
  specialize (Hs _ _ eq_refl).
  fold (data_of hdr payload).
  specialize (IH (MkStream c1 (data_of hdr payload) 0)). cbn [sr_body sr_decrypted sr_off] in IH.
  specialize (IH ltac:(lia) Hn ltac:(lia)).
  destruct (sr_read encryptor fuel n _) as [[p|e|m|] sr']; try done.
Qed.

(** C35: The stream reader.  However a caller chooses its buffer sizes, what streamReader.Read
    returns is what decoding the whole body at once gives: the reads return its bytes, in order
    and without gaps, an error comes only after all of them and is the error at which decoding
    stops, and enough reads get there.  Frames that are not data are skipped. *)
Theorem stream_Read_equiv (ns : list nat) (body : conn) :
  Forall (fun n => (0 < n)%nat) ns ->
  let '(bytes, r) := read_sizes ns (MkStream body [] 0) in
  match r with
  | Some r => decode_body body = (bytes, match r with Err e => e | _ => EOF end) /\
      exists e, r = Err e
  | None => (exists rest, (decode_body body).1 = bytes ++ rest) /\
      (length ns <= length (decode_body body).1)%nat
  end.
Proof.
  intros Hns.
  assert (forall sr, sr_ok sr -> let '(bytes, r) := read_sizes ns sr in
    match r with
    | Some r => left sr = (bytes, match r with Err e => e | _ => EOF end) /\ exists e, r = Err e
    | None => (exists rest, (left sr).1 = bytes ++ rest) /\ (length ns <= length (left sr).1)%nat
    end) as Hall.
  { induction Hns as [|n ns Hn Hns IH]; intros sr Hok; cbn [read_sizes].
    { split; [by eexists|simpl; lia]. }
    unfold stream_Read. pose proof (sr_read_spec (S (length (rx (sr_body sr)))) n sr Hok Hn ltac:(lia)) as Hs.
    destruct (sr_read _ _ _ _) as [[p|e|m|] sr']; try done.
    - destruct Hs as (Hp & Hok' & ->). specialize (IH sr' Hok').
      destruct (read_sizes ns sr') as [bytes [r|]]; cbn [fst snd].
      + destruct IH as [-> [e ->]]. split; [done|by eexists].
      + destruct IH as [[rest ->] Hl]. split; [exists rest; by rewrite app_assoc|].
        rewrite !length_app in *. destruct p; [done|]. simpl. lia.
    - rewrite Hs. split; [done|by eexists]. }
  specialize (Hall (MkStream body [] 0) ltac:(by unfold sr_ok)). unfold left in Hall.
  cbn [sr_available sr_off sr_decrypted sr_body drop app] in Hall.
  destruct (read_sizes ns (MkStream body [] 0)) as [bytes [r|]].
  - destruct Hall as [Hl Hr]. split; [|done]. by destruct (decode_body body).
  - done.
Qed.
End Reader.

(** ** The queues of a session *)

Section Sessions.
Implicit Types w : World.

(** What happens to a session: its download loop gets a frame, or the reader of the connection
    under consideration reads. *)
Inductive ev : Type := EFrame (hdr : StreamHeader) (payload : list byte) | ERead (n : nat) (pick : bool).

Definition ev_state : Type := World * demuxReader * list byte.

Definition step_ev (s : nat) (st : ev_state) (e : ev) : ev_state :=
  let '(w, d, got) := st in
  match e with
  | EFrame hdr payload => match demux s hdr payload w with Ok w => (w, d, got) | _ => st end
  | ERead n pick =>
      match Read d n pick w with
      | (Some (Ok p), d, w) => (w, d, got ++ p)
      | (_, d, w) => (w, d, got)
      end
  end.
Definition run_evs (s : nat) (es : list ev) (st : ev_state) : ev_state := fold_left (step_ev s) es st.

(** The bytes that a frame has for the connection [cid], and whether a frame ends it. *)
Definition bytes_for (cid : Z) (e : ev) : list byte :=
  match e with
  | EFrame hdr payload => if ConnID hdr =? cid then data_of hdr payload else []
  | ERead _ _ => []
  end.
Definition ends (cid : Z) (e : ev) : Prop :=
  match e with EFrame hdr _ => MsgType hdr = MsgClose /\ ConnID hdr = cid | ERead _ _ => False end.

(** A frame with data for [cid] comes when the queue has room. *)
Fixpoint fits (s : nat) (cid : Z) (es : list ev) (st : ev_state) : Prop :=
  match es with
  | [] => True
  | e :: es =>
      (match e with
       | EFrame hdr _ => MsgType hdr = MsgData -> ConnID hdr = cid ->
           forall x, pipes st.1.1 !! d_pipe st.1.2 = Some x -> (length (p_q x) < pipe_cap)%nat
       | ERead _ _ => True
       end) /\ fits s cid es (step_ev s st e)
  end.

(** The connection [cid] of session [s] is served by the queue [p] alone, which holds [q]. *)
Record served (s : nat) (cid : Z) (p : nat) (q : list (list byte)) w : Prop := {
  sv_sess : exists x, sess w !! s = Some x /\ s_readers x !! cid = Some p /\
    forall c, s_readers x !! c = Some p -> c = cid;
  sv_pipe : pipes w !! p = Some (MkPipe q false)
}.

Lemma served_pin s cid p q c w : served s cid p q w -> served s cid p q (pin s c w).2.
Proof.
  intros [(x & Hx & Hr & Hinj) Hp]. unfold pin. rewrite Hx.
  destruct (s_readers x !! c) as [p'|] eqn:Ec.
  { split; [|done]. simpl. rewrite lookup_alter_eq, Hx. by eexists. }
  unfold new_connPipe. simpl. set (n := fresh_id (pipes w)).
  assert (n <> p) as Hn by (intros <-; unfold n in Hp; by rewrite fresh_id_None in Hp).
  assert (c <> cid) as Hc by (intros ->; congruence).
  split; simpl.
  - rewrite lookup_alter_eq, Hx. eexists. split; [done|]. cbn [set_maps s_readers].
    rewrite lookup_insert_ne by done. split; [done|]. intros c' Hc'.
    apply lookup_insert_Some in Hc' as [[_ ?]|[_ ?]]; [done|]. by apply Hinj.
  - by rewrite lookup_insert_ne.
Qed.

Lemma served_unpin s cid p q c w : served s cid p q w -> c <> cid -> served s cid p q (unpin s c w).
Proof.
  intros [(x & Hx & Hr & Hinj) Hp] Hc. unfold unpin. rewrite Hx.
  assert (forall w', sess w' = sess w -> pipes w' !! p = pipes w !! p ->
    served s cid p q (put_sess s (set_maps (s_pinned x ∖ {[c]}) (delete c (s_readers x))) w')) as Hw.
  { intros w' E1 E2. split; simpl.
    - rewrite E1, lookup_alter_eq, Hx. eexists. split; [done|]. cbn [set_maps s_readers].
      rewrite lookup_delete_ne by done. split; [done|]. intros c' Hc'.
      apply lookup_delete_Some in Hc' as [_ ?]. by apply Hinj.
    - by rewrite E2. }
  cbv zeta. destruct (s_readers x !! c) as [p'|] eqn:Ec; [|by apply Hw].
  apply Hw; [done|]. simpl. rewrite lookup_alter_ne; [done|]. intros ->. by apply Hc, Hinj.
Qed.

Lemma served_deliver_other s cid p q c d w :
  served s cid p q w -> c <> cid ->
  exists w', deliver s c d w = Ok w' /\ served s cid p q w'.
Proof.
  intros [(x & Hx & Hr & Hinj) Hp] Hc. unfold deliver, deliver_lookup. rewrite Hx. simpl.
  destruct (s_readers x !! c) as [p'|] eqn:Ec; [|eexists; split; [done|]; split; eauto].
  assert (p' <> p) as Hne by (intros ->; by apply Hc, Hinj).
  unfold deliver_send. destruct (pipes w !! p') as [y|]; [|eexists; split; [done|]; split; eauto].
  destruct (p_closed y); [eexists; split; [done|]; split; eauto|].
  case_decide; [|eexists; split; [done|]; split; eauto].
  eexists. split; [done|]. split; [by eauto|]. simpl. by rewrite lookup_alter_ne.
Qed.

Lemma served_deliver s cid p q d w :
  served s cid p q w -> (length q < pipe_cap)%nat ->
  exists w', deliver s cid d w = Ok w' /\ served s cid p (q ++ [d]) w'.
Proof.
  intros [(x & Hx & Hr & Hinj) Hp] Hq. unfold deliver, deliver_lookup. rewrite Hx. simpl.
  rewrite Hr. unfold deliver_send. rewrite Hp. cbn [p_closed p_q]. rewrite decide_True by done.
  eexists. split; [done|]. split; [by eauto|]. simpl. by rewrite lookup_alter_eq, Hp.
Qed.

Lemma served_other s cid p q w w' :
  sess w' = sess w -> pipes w' = pipes w -> served s cid p q w -> served s cid p q w'.
Proof. intros E1 E2 [H1 H2]. split; by rewrite ?E1, ?E2. Qed.

(** One frame. *)
Lemma served_demux s cid p q hdr payload w :
  served s cid p q w -> ~ ends cid (EFrame hdr payload) ->
  (MsgType hdr = MsgData -> ConnID hdr = cid -> (length q < pipe_cap)%nat) ->
  exists w' q', demux s hdr payload w = Ok w' /\ served s cid p q' w' /\
    concat q' = concat q ++ bytes_for cid (EFrame hdr payload).
Proof.
  intros Hs He Hq. unfold demux, bytes_for, data_of. unfold ends in He.
  destruct (Z.eqb_spec (MsgType hdr) MsgReverseOpen) as [E|E].
  { rewrite E. change (MsgReverseOpen =? MsgData) with false. cbn [andb].
    pose proof (served_pin s cid p q (ConnID hdr) w Hs) as Hp.
    destruct (pin s (ConnID hdr) w) as [[] w']. eexists _, q. split; [done|].
    split; [by eapply served_other; [..|exact Hp]|]. destruct (_ =? cid); by rewrite app_nil_r. }
  destruct (Z.eqb_spec (MsgType hdr) MsgUDPPacket) as [E1|E1].
  { rewrite E1. change (MsgUDPPacket =? MsgData) with false. cbn [andb].
    exists (if PayloadLen hdr >? len payload then w else
      set_packets (packets w ++ [take (Z.to_nat (PayloadLen hdr)) payload]) w), q.
    split; [by destruct (_ >? _)|]. split; [|destruct (_ =? cid); by rewrite app_nil_r].
    destruct (_ >? _); [done|]. by eapply served_other; [..|exact Hs]. }
  destruct (Z.eqb_spec (MsgType hdr) MsgData) as [E2|E2].
  { rewrite Z.gtb_ltb, Z.leb_antisym. destruct (len payload <? PayloadLen hdr); cbn [negb andb].
    { exists w, q. split; [done|]. split; [done|]. destruct (_ =? cid); by rewrite app_nil_r. }
    destruct (Z.eqb_spec (ConnID hdr) cid) as [Ec|Ec].
    - rewrite Ec. destruct (served_deliver s cid p q (take (Z.to_nat (PayloadLen hdr)) payload) w Hs)
        as (w' & E' & Hs'); [by apply Hq|]. exists w', (q ++ [take (Z.to_nat (PayloadLen hdr)) payload]).
      split; [done|]. split; [done|]. rewrite concat_app. simpl. by rewrite app_nil_r.
    - destruct (served_deliver_other s cid p q (ConnID hdr) (take (Z.to_nat (PayloadLen hdr)) payload) w Hs Ec)
        as (w' & E' & Hs'). exists w', q. by rewrite app_nil_r. }
  cbn [andb].
  assert (concat q = concat q ++ (if ConnID hdr =? cid then @nil byte else [])) as Hc
    by (destruct (_ =? cid); by rewrite app_nil_r).
  destruct (Z.eqb_spec (MsgType hdr) MsgClose) as [E3|E3].
  - eexists _, q. split; [done|]. split; [|done]. apply served_unpin; [done|]. intros Hid. by apply He.
  - by exists w, q.
Qed.

(** One read. *)
Lemma served_Read s cid p q n pick d w :
  served s cid p q w -> d_pipe d = p ->
  exists r d' w' q', Read d n pick w = (r, d', w') /\ d_pipe d' = p /\ served s cid p q' w' /\
    match r with
    | Some (Ok b) => d_buf d ++ concat q = b ++ d_buf d' ++ concat q'
    | Some _ => False
    | None => d' = d /\ q' = q
    end.
Proof.
  intros [H1 Hp] Hd. destruct d as [dp buf]. simpl in Hd. subst dp. unfold Read. cbn [d_buf d_pipe].
  destruct buf as [|b buf].
  - rewrite Hp. cbn [p_q p_closed]. destruct q as [|x q].
    + do 4 eexists. split; [done|]. split; [done|]. split; [by split|done].
    + cbn [andb]. eexists _, (MkReader p (drop n x)), _, q. split; [done|]. split; [done|].
      split; [split; [done|]; simpl; by rewrite lookup_alter_eq, Hp|].
      cbn [d_buf app concat]. by rewrite app_assoc, take_drop.
  - eexists _, (MkReader p (drop n (b :: buf))), w, q. split; [done|]. split; [done|].
    split; [by split|]. cbn [d_buf]. by rewrite app_assoc, take_drop.
Qed.

Lemma session_run s cid p es q d got w :
  served s cid p q w -> d_pipe d = p ->
  Forall (fun e => ~ ends cid e) es -> fits s cid es (w, d, got) ->
  let '(w', d', got') := run_evs s es (w, d, got) in
  exists q', d_pipe d' = p /\ served s cid p q' w' /\
    got' ++ d_buf d' ++ concat q' = got ++ d_buf d ++ concat q ++ concat (map (bytes_for cid) es).
Proof.
  intros Hs Hd He. revert q d got w Hs Hd. induction He as [|e es Hn He IH]; intros q d got w Hs Hd Hf.
  { simpl. exists q. rewrite app_nil_r. by split_and!. }
  cbn [run_evs fold_left map concat]. destruct Hf as [Hf1 Hf2].
  destruct e as [hdr payload|n pick]; cbn [step_ev] in *.
  - destruct (served_demux s cid p q hdr payload w Hs Hn) as (w' & q' & E & Hs' & Hq').
    { intros Ht Hid. apply (Hf1 Ht Hid (MkPipe q false)). simpl. rewrite Hd. apply Hs. }
    rewrite E in Hf2 |- *. specialize (IH q' d got w' Hs' Hd Hf2).
    unfold run_evs in IH. destruct (fold_left _ es _) as [[w2 d2] got2].
    destruct IH as (q2 & H1 & H2 & H3). exists q2. split; [done|]. split; [done|].
    by rewrite H3, Hq', <- !app_assoc.
  - destruct (served_Read s cid p q n pick d w Hs Hd) as (r & d' & w' & q' & E & Hd' & Hs' & Hr).
    rewrite E in Hf2 |- *.
    destruct r as [[b|e|m|]|]; try done.
    + specialize (IH q' d' (got ++ b) w' Hs' Hd' Hf2). unfold run_evs in IH.
      destruct (fold_left _ es _) as [[w2 d2] got2].
      destruct IH as (q2 & H1 & H2 & H3). exists q2. split; [done|]. split; [done|].
      rewrite H3. cbn [bytes_for app]. rewrite <- !app_assoc. f_equal.
      rewrite !(app_assoc (d_buf d)), Hr. by rewrite <- !app_assoc.
    + destruct Hr as [-> ->]. specialize (IH q d got w' Hs' Hd Hf2). unfold run_evs in IH.
      destruct (fold_left _ es _) as [[w2 d2] got2].
      destruct IH as (q2 & H1 & H2 & H3). by exists q2.
Qed.
End Sessions.

(** C9: Demultiplexing.  While the connection [cid] is served by a queue of its own, no frame
    ends it and its queue has room whenever data for it comes, its reader gets exactly its
    bytes: what was read, what the reader has buffered and what its queue holds are together the
    bytes of the data frames for [cid], in order, however its reads, whatever their sizes,
    interleave with the frames, and whatever the frames of the other connections, their closes
    and the reverse connections do.  No read reports an end. *)
Theorem Session_stream (s : nat) (cid : Z) (p : nat) (es : list ev) (w : World) :
  served s cid p [] w -> Forall (fun e => ~ ends cid e) es ->
  fits s cid es (w, MkReader p [], []) ->
  let '(w', d', got) := run_evs s es (w, MkReader p [], []) in
  exists q, served s cid p q w' /\ got ++ d_buf d' ++ concat q = concat (map (bytes_for cid) es).
Proof.
  intros Hs He Hf. pose proof (session_run s cid p es [] (MkReader p []) [] w Hs eq_refl He Hf) as Hr.
  destruct (run_evs s es _) as [[w' d'] got]. destruct Hr as (q & _ & H1 & H2). by exists q.
Qed.

(** C17: What a session loses.  A data frame that finds the queue of its connection full is
    dropped: the queue stays as it is and the download loop goes on.  And when a close frame
    comes while data is still queued, the next read may report the end of the stream, and so
    may every read after it, with the data never read; whether it does is the choice of the
    select. *)
Theorem Session_losses (s : nat) (cid : Z) (p n : nat) (q : list (list byte)) (hdr : StreamHeader)
    (payload : list byte) (w : World) :
  served s cid p q w -> ConnID hdr = cid -> PayloadLen hdr <= len payload ->
  (MsgType hdr = MsgData -> length q = pipe_cap -> demux s hdr payload w = Ok w) /\
  (MsgType hdr = MsgClose -> exists w', demux s hdr payload w = Ok w' /\
     Read (MkReader p []) n false w' = (Some (Err EOF), MkReader p [], w') /\
     forall x q', q = x :: q' -> exists w'', Read (MkReader p []) n true w' =
       (Some (Ok (take n x)), MkReader p (drop n x), w'')).
Proof.
  intros [(x & Hx & Hr & Hinj) Hp] Hid Hl. split; intros Ht.
  - intros Hq. unfold demux. rewrite Ht, Hid. change (MsgData =? MsgReverseOpen) with false.
    change (MsgData =? MsgUDPPacket) with false. change (MsgData =? MsgData) with true. cbv iota.
    rewrite Z.gtb_ltb, (proj2 (Z.ltb_ge _ _)) by lia.
    unfold deliver, deliver_lookup. rewrite Hx. simpl. rewrite Hr. unfold deliver_send. rewrite Hp.
    cbn [p_closed p_q]. by rewrite decide_False by lia.
  - unfold demux. rewrite Ht, Hid. change (MsgClose =? MsgReverseOpen) with false.
    change (MsgClose =? MsgUDPPacket) with false. change (MsgClose =? MsgData) with false.
    change (MsgClose =? MsgClose) with true. cbv iota. eexists. split; [done|].
    assert (pipes (unpin s cid w) !! p = Some (MkPipe q true)) as Hp'
      by (unfold unpin; rewrite Hx, Hr; simpl; by rewrite lookup_alter_eq, Hp).
    unfold Read. cbn [d_buf d_pipe]. rewrite Hp'. cbn [p_q p_closed]. split; [by destruct q|].
    intros y q' ->. cbn [andb negb]. by eexists.
Qed.

(** A send on a closed queue.  deliver looks its queue up under the session's lock and sends
    after it: when the local side closes the connection in between, the send can panic, which
    nothing recovers. *)
Theorem Deliver_close_race (s : nat) (cid : Z) (p : nat) (q : list (list byte)) (d : list byte)
    (w : World) :
  served s cid p q w ->
  deliver_lookup s cid w = Some p /\
  deliver_send p d false (unpin s cid w) = Panic "send on closed channel" /\
  deliver_lookup s cid (unpin s cid w) = None.
Proof.
  intros [(x & Hx & Hr & Hinj) Hp]. unfold deliver_lookup, deliver_send, unpin. rewrite Hx. simpl.
  rewrite Hr. simpl. split; [done|]. rewrite lookup_alter_eq, Hp. split; [done|].
  rewrite lookup_alter_eq, Hx. simpl. by rewrite lookup_delete_eq.
Qed.

(** ** Witnesses *)

Definition demo_enc : Encryptor := replicate 32 Byte.x42.
Definition demo_frame (m cid : Z) (d : list byte) : list byte :=
  let enc := Encrypt demo_enc (replicate 12 Byte.x07) (BuildStreamHeader m cid (len d) ++ d) in
  PutUint32 (u32 (len enc)) ++ enc.
Definition demo_body : conn :=
  conn_of (demo_frame MsgData 1 [Byte.x61; Byte.x62; Byte.x63] ++ demo_frame MsgClose 1 [] ++
           demo_frame MsgData 1 [Byte.x64]).

Lemma stream_Read_equiv_witness :
  read_sizes demo_enc [2; 2; 5; 1]%nat (MkStream demo_body [] 0) =
    ([Byte.x61; Byte.x62; Byte.x63; Byte.x64], Some (Err EOF)) /\
  decode_body demo_enc demo_body = ([Byte.x61; Byte.x62; Byte.x63; Byte.x64], EOF).
Proof.
  pose proof (stream_Read_equiv demo_enc [2; 2; 5; 1]%nat demo_body) as H.
  assert (read_sizes demo_enc [2; 2; 5; 1]%nat (MkStream demo_body [] 0) =
    ([Byte.x61; Byte.x62; Byte.x63; Byte.x64], Some (Err EOF))) as E by (by vm_compute).
  split; [exact E|]. rewrite E in H. apply H. repeat constructor.
Defined.

Definition demo_world : World :=
  MkWorld {[ 4%nat := MkPipe [] false ]}
    {[ 1%nat := MkSess "ab" None None {[ 7 ]} {[ 7 := 4%nat ]} false ]} [] [].

Lemma demo_world_served : served 1 7 4 [] demo_world.
Proof.
  split; [|done]. exists (MkSess "ab" None None {[ 7 ]} {[ 7 := 4%nat ]} false).
  split; [done|]. split; [done|]. intros c Hc. cbn [s_readers] in Hc. by apply lookup_singleton_Some in Hc as [<- _].
Qed.

Definition demo_evs : list ev :=
  [EFrame (MkHeader 1 MsgReverseOpen 8 0) []; EFrame (MkHeader 1 MsgData 7 2) [Byte.x61; Byte.x62];
   ERead 1 false; EFrame (MkHeader 1 MsgData 8 1) [Byte.x7a]; EFrame (MkHeader 1 MsgClose 8 0) [];
   EFrame (MkHeader 1 MsgData 7 1) [Byte.x63]; ERead 9 false].

Lemma Session_stream_witness :
  let '(w', d', got) := run_evs 1 demo_evs (demo_world, MkReader 4 [], []) in
  exists q, served 1 7 4 q w' /\ got ++ d_buf d' ++ concat q = [Byte.x61; Byte.x62; Byte.x63].
Proof.
  apply (Session_stream 1 7 4 demo_evs demo_world demo_world_served).
  - unfold demo_evs. repeat constructor; simpl; intros H; try exact H; destruct H as [H1 H2];
      (discriminate H1 || discriminate H2).
  - simpl. split_and!; try done; intros _ Hc x Hx; try discriminate Hc; vm_compute in Hx;
      injection Hx as <-; unfold pipe_cap; simpl; lia.
Defined.

Lemma Session_losses_witness :
  exists w w', served 1 7 4 [[Byte.x61]] w /\
    demux 1 (MkHeader 1 MsgClose 7 0) [] w = Ok w' /\
    Read (MkReader 4 []) 5 false w' = (Some (Err EOF), MkReader 4 [], w').
Proof.
  destruct (served_deliver 1 7 4 [] [Byte.x61] demo_world demo_world_served) as (w & _ & Hw);
    [simpl; unfold pipe_cap; lia|].
  exists w. destruct (Session_losses 1 7 4 5 [[Byte.x61]] (MkHeader 1 MsgClose 7 0) [] w Hw) as [_ H].
  - done.
  - by vm_compute.
  - destruct (H eq_refl) as (w' & H1 & H2 & _). exists w'. split; [exact Hw|]. split; [exact H1|exact H2].
Defined.
