(* ===== verification/DpiThms.v ===== *)
(** The DPI client against the DPI server: streams end to end, and what crosses between
    clients.  Names of the server's model are qualified. *)

From S2P Require Import Prelude GoLib GoText Aead DpiWire DpiServer DpiSession DpiTransport DpiSessionThms.
From Stdlib Require Import ZArith Lia Strings.Byte Strings.Ascii Strings.String.
From stdpp Require Import gmap strings list fin_maps pretty.

#[local] Open Scope Z_scope.

(** ** Frames on a stream *)

Section Wire.
Context `{AEADLaws}.
Context (e : Encryptor) (rnd : nat -> list byte).
Context (Hrnd : forall n, length (rnd n) = NonceSize).

Definition frame_wire (n : nat) (plain : list byte) : list byte :=
  let enc := Encrypt e (rnd n) plain in PutUint32 (u32 (len enc)) ++ enc.

Fixpoint wires (n : nat) (plains : list (list byte)) : list byte :=
  match plains with
  | [] => []
  | p :: ps => frame_wire n p ++ wires (S n) ps
  end.

Lemma wires_app n ps qs : wires n (ps ++ qs) = wires n ps ++ wires (n + length ps) qs.
Proof.
  revert n. induction ps as [|p ps IH]; intros n; simpl; [by rewrite Nat.add_0_r|].
  by rewrite IH, <- app_assoc, Nat.add_succ_r.
Qed.

(** A payload that fits a frame. *)
Definition plain_ok (p : list byte) : Prop := len p + 28 <= MaxEncryptedFrame.

Lemma WriteLengthPrefixed_wire n p (c : conn) :
  tx_room c = None ->
  WriteLengthPrefixed (Encrypt e (rnd n) p) c = (Ok tt, set_tx (tx c ++ frame_wire n p) None c).
Proof.
  intros Hc. unfold WriteLengthPrefixed. rewrite (bind_Ok _ _ _ _ _ (Write__room_None _ c Hc)).
  rewrite Write__room_None by done. cbn [set_tx tx]. by rewrite <- app_assoc.
Qed.

Lemma ReadLengthPrefixed_wire n p q er t r x :
  plain_ok p ->
  ReadLengthPrefixed (Conn (frame_wire n p ++ q) er t r x) =
    (Ok (Encrypt e (rnd n) p), Conn q er t r x).
Proof.
  intros Hp. unfold frame_wire. cbv zeta. rewrite <- app_assoc. apply ReadLengthPrefixed_frame.
  rewrite len_Encrypt by done. unfold plain_ok, MaxEncryptedFrame in *. pose proof (len_nonneg p). lia.
Qed.
End Wire.

(** ** Queues that are closed *)

Section Queues.
Implicit Types w : World.

Lemma close_pipes_keeps p q l w :
  pipes w !! p = Some (MkPipe q true) -> pipes (foldr close_pipe w l) !! p = Some (MkPipe q true).
Proof.
  intros Hw. induction l as [|p' l IH]; [done|]. simpl. destruct (decide (p' = p)) as [->|Hne].
  - by rewrite lookup_alter_eq, IH.
  - by rewrite lookup_alter_ne.
Qed.

Lemma close_keeps s p q w :
  pipes w !! p = Some (MkPipe q true) -> pipes (close s w) !! p = Some (MkPipe q true).
Proof.
  intros Hw. unfold close. destruct (sess w !! s) as [x|]; [|done].
  destruct (s_closed x); [done|]. by apply close_pipes_keeps.
Qed.

Lemma unpin_queue s cid p q w :
  served s cid p q w -> pipes (unpin s cid w) !! p = Some (MkPipe q true).
Proof.
  intros [(x & Hx & Hr & _) Hp]. unfold unpin. rewrite Hx, Hr. simpl. by rewrite lookup_alter_eq, Hp.
Qed.

(** A reader that takes all chunks of a closed queue. *)
Lemma drain s p l got w :
  pipes w !! p = Some (MkPipe l true) ->
  exists w', fold_left (step_ev s) (map (fun d => ERead (length d) true) l) (w, MkReader p [], got)
    = (w', MkReader p [], got ++ concat l) /\ pipes w' !! p = Some (MkPipe [] true).
Proof.
  revert got w. induction l as [|d l IH]; intros got w Hp; cbn [map fold_left concat].
  { exists w. by rewrite app_nil_r. }
  cbn [step_ev]. unfold Read at 1. cbn [d_buf d_pipe]. rewrite Hp. cbn [p_q p_closed andb negb].
  rewrite take_ge, drop_ge by lia. edestruct IH as (w2 & E & Hp2).
  2:{ exists w2. rewrite E, <- app_assoc. by split. }
  simpl. by rewrite lookup_alter_eq, Hp.
Qed.
End Queues.

(** ** Downlink: the server's reader and the client's download loop *)

Section Down.
Context `{AEADLaws}.
Context (e : Encryptor) (rnd : nat -> list byte).
Context (Hrnd : forall n, length (rnd n) = NonceSize).
Implicit Types ws : DpiServer.World.

(** The reader of client connection [c] runs, for the remote socket [r] and the id [cid]; its
    session [s] is attached to a body that has [tx] written. *)
Record reading (c : nat) (cid : Z) (r s : nat) (tx0 : list byte) ws : Prop := {
  rd_cc : exists cc, ccs ws !! c = Some cc /\ cc_id cc = cid /\ cc_remote cc = r /\
    cc_session cc = Some s /\ cc_run cc = true;
  rd_sess : exists ms b, DpiServer.sess ws !! s = Some ms /\ ms_writer ms = Some b /\
    ms_ready ms = true /\ ms_closed ms = false /\ tx_room b = None /\ tx b = tx0
}.

Lemma writeFrame_wire s ms b p ws :
  DpiServer.sess ws !! s = Some ms -> ms_writer ms = Some b -> ms_closed ms = false ->
  tx_room b = None ->
  exists ws' ms' b', writeFrame e rnd s p ws = (None, ws') /\
    DpiServer.sess ws' !! s = Some ms' /\ ms_writer ms' = Some b' /\ ms_closed ms' = false /\
    ms_ready ms' = ms_ready ms /\ tx_room b' = None /\
    tx b' = tx b ++ frame_wire e rnd (DpiServer.rnds ws) p /\ DpiServer.rnds ws' = S (DpiServer.rnds ws) /\
    ccs ws' = ccs ws /\ clients ws' = clients ws /\ remotes ws' = remotes ws.
Proof.
  intros Hs Hw Hc Hr. unfold writeFrame. rewrite Hs, Hc, Hw. cbv zeta.
  unfold EncryptStream. rewrite (WriteLengthPrefixed_wire e rnd) by done.
  do 3 eexists. split; [done|]. simpl. rewrite lookup_alter_eq, Hs. by split_and!.
Qed.

Lemma reader_turn_data c cid r s tx0 d ws :
  reading c cid r s tx0 ws -> d <> [] ->
  let ws' := (reader_turn e rnd c d None ws).2 in
  reading c cid r s (tx0 ++ frame_wire e rnd (DpiServer.rnds ws) (DpiServer.data_frame cid d)) ws' /\
  DpiServer.rnds ws' = S (DpiServer.rnds ws).
Proof.
  intros [(cc & Hcc & Hid & Hr & Hse & Hrun) (ms & b & Hs & Hw & Hrdy & Hcl & Hroom & Htx)] Hd.
  unfold reader_turn. rewrite Hcc, Hrun. unfold can_turn. rewrite Hse. unfold is_ready.
  rewrite Hs, Hrdy. cbn [andb]. destruct d as [|x d]; [done|]. rewrite Hid.
  destruct (writeFrame_wire s ms b (DpiServer.data_frame cid (x :: d)) ws Hs Hw Hcl Hroom)
    as (ws' & ms' & b' & E & H1 & H2 & H3 & H4 & H5 & H6 & H7 & H8 & _).
  unfold mbind, ST_bind. rewrite E. cbv zeta. cbn [snd]. unfold mret, ST_ret. cbn [snd]. split; [|done].
  split; [exists cc; by rewrite H8|]. exists ms', b'. rewrite H4, H6, Htx. by split_and!.
Qed.

(** The end of the remote socket. *)
Lemma reader_turn_eof c cid r s tx0 ws :
  reading c cid r s tx0 ws ->
  let ws' := (reader_turn e rnd c [] (Some EOF) ws).2 in
  (exists ms b, DpiServer.sess ws' !! s = Some ms /\ ms_writer ms = Some b /\
     tx b = tx0 ++ frame_wire e rnd (DpiServer.rnds ws) (close_frame cid)) /\
  clients ws' !! cid = None /\
  forall x, remotes ws !! r = Some x -> remotes ws' !! r = Some (MkRemote false (r_tx x) (r_werr x)).
Proof.
  intros [(cc & Hcc & Hid & Hr & Hse & Hrun) (ms & b & Hs & Hw & Hrdy & Hcl & Hroom & Htx)].
  unfold reader_turn. rewrite Hcc, Hrun. unfold can_turn. rewrite Hse. unfold is_ready.
  rewrite Hs, Hrdy. cbn [andb]. unfold mbind, ST_bind, mret, ST_ret. unfold reader_end.
  rewrite Hse, Hid.
  destruct (writeFrame_wire s ms b (close_frame cid) ws Hs Hw Hcl Hroom)
    as (ws' & ms' & b' & E & H1 & H2 & H3 & H4 & H5 & H6 & H7 & H8 & H9 & H10).
  unfold mbind, ST_bind. rewrite E. simpl. rewrite Hid, Hr. split_and!.
  - exists ms', b'. by rewrite H6, Htx.
  - by rewrite lookup_delete_eq.
  - intros x Hx. by rewrite H10, lookup_alter_eq, Hx.
Qed.

(** The reader reads [reads] and then the end. *)
Fixpoint reader_all (c : nat) (reads : list (list byte)) ws : DpiServer.World :=
  match reads with
  | [] => (reader_turn e rnd c [] (Some EOF) ws).2
  | d :: reads => reader_all c reads (reader_turn e rnd c d None ws).2
  end.

Lemma reader_all_wires c cid r s tx0 reads ws :
  reading c cid r s tx0 ws -> Forall (fun d => d <> []) reads ->
  exists ms b, DpiServer.sess (reader_all c reads ws) !! s = Some ms /\ ms_writer ms = Some b /\
    tx b = tx0 ++ wires e rnd (DpiServer.rnds ws) (map (DpiServer.data_frame cid) reads ++ [close_frame cid]) /\
    clients (reader_all c reads ws) !! cid = None.
Proof.
  intros Hrd Hr. revert tx0 ws Hrd. induction Hr as [|d reads Hd Hr IH]; intros tx0 ws Hrd;
    cbn [reader_all map app wires].
  - destruct (reader_turn_eof c cid r s tx0 ws Hrd) as ((ms & b & H1 & H2 & H3) & H4 & _).
    exists ms, b. by rewrite app_nil_r.
  - destruct (reader_turn_data c cid r s tx0 d ws Hrd Hd) as [Hrd' Hn].
    destruct (IH _ _ Hrd') as (ms & b & H1 & H2 & H3 & H4). exists ms, b. split_and!; try done.
    by rewrite H3, Hn, <- app_assoc.
Qed.

(** The client's download loop on one frame. *)
Lemma down_turn_wire n m cid d q er t rm te s (w : World) :
  0 <= m < 256 -> 0 <= cid < 2 ^ 32 -> len d + 38 <= MaxEncryptedFrame ->
  down_turn e s (Conn (frame_wire e rnd n (BuildStreamHeader m cid (u32 (len d)) ++ d) ++ q) er t rm te) w =
    (w' ← demux s (MkHeader Version m cid (len d)) d w; Ok (true, Conn q er t rm te, w')).
Proof.
  intros Hm Hc Hd. unfold down_turn. unfold MaxEncryptedFrame in Hd. pose proof (len_nonneg d).
  rewrite ReadLengthPrefixed_wire.
  - rewrite Decrypt_sealed by done. rewrite u32_small, parse_build by lia. done.
  - done.
  - unfold plain_ok, MaxEncryptedFrame. rewrite len_app. unfold len at 1. rewrite length_header.
    unfold StreamHeaderSize. lia.
Qed.

Lemma down_turn_end s er t rm te (w : World) :
  down_turn e s (Conn [] er t rm te) w = Ok (false, Conn [] er t rm te, close s w).
Proof. unfold down_turn, ReadLengthPrefixed. rewrite IO_bind_eq. done. Qed.

Lemma demux_data s cid d (w : World) :
  demux s (MkHeader Version MsgData cid (len d)) d w = deliver s cid d w.
Proof.
  unfold demux. cbn [MsgType PayloadLen ConnID]. rewrite Z.gtb_ltb, Z.ltb_irrefl.
  rewrite to_nat_len, take_ge by lia. done.
Qed.

(** The loop on the frames of [reads]: all are queued. *)
Lemma down_loop_data reads n s cid p q rest fuel er t rm te (w : World) :
  served s cid p q w -> 0 <= cid < 2 ^ 32 ->
  Forall (fun d => len d + 38 <= MaxEncryptedFrame) reads -> (length q + length reads <= pipe_cap)%nat ->
  exists w', served s cid p (q ++ reads) w' /\
    down_loop e (length reads + fuel) s
      (Conn (wires e rnd n (map (DpiServer.data_frame cid) reads) ++ rest) er t rm te) w =
    down_loop e fuel s (Conn rest er t rm te) w'.
Proof.
  intros Hs Hc Hr. revert n q w Hs. induction Hr as [|d reads Hd Hr IH]; intros n q w Hs Hq.
  { exists w. by rewrite app_nil_r. }
  cbn [map wires length Nat.add down_loop]. rewrite <- app_assoc. unfold DpiServer.data_frame at 1.
  rewrite down_turn_wire by (done || unfold MsgData; lia). rewrite demux_data.
  simpl in Hq. destruct (served_deliver s cid p q d w Hs) as (w1 & E & Hs1); [lia|]. rewrite E.
  cbn [mbind result_bind]. destruct (IH (S n) (q ++ [d]) w1 Hs1) as (w2 & Hs2 & E2).
  { rewrite length_app. simpl. lia. }
  exists w2. split; [by rewrite <- app_assoc in Hs2|]. by rewrite <- E2.
Qed.

End Down.

(** ** Downlink in post-async mode *)

(** The number in a download path is read back. *)
Lemma skip_space_solid n s : Forall solid (bytes_of s) -> skip_space n (bytes_of s) = Some (bytes_of s).
Proof.
  intros Hs. destruct n; [done|]. destruct s as [|c s]; [done|].
  cbn [bytes_of skip_space]. cbn [list_byte_of_string] in *.
  inversion_clear Hs as [|? ? Hb _]. set (b := byte_of_ascii c) in *.
  destruct (list_find (fun p => take (length p) (b :: list_byte_of_string s) = p) spaces) as [[i p]|] eqn:E.
  - exfalso. apply list_find_Some in E as (Hp & Ht & _).
    apply list_elem_of_lookup_2 in Hp. pose proof spaces_not_solid as Hns.
    rewrite Forall_forall in Hns. destruct (Hns p Hp) as [Hne Hb'].
    destruct p as [|x p]; [done|]. injection Ht as -> _. by apply (Hb' x); [left|].
  - assert (b <> Byte.x0a /\ b <> Byte.x0d) as [H1 H2].
    { split; intros ->; revert Hb; apply (bool_decide_unpack _); by vm_compute. }
    change (list_byte_of_string (String c s)) with (b :: list_byte_of_string s).
    clearbody b. rewrite E. by destruct b.
Qed.

Lemma take_digits_all s : all_digits s -> take_digits s = s.
Proof.
  induction s as [|c s IH]; [done|]. intros [Hc Hs]. simpl. destruct (digit c); [|done].
  by rewrite IH.
Qed.

Lemma Sscanf_u32_Itoa n : 0 <= n < 2 ^ 32 -> Sscanf_u32 (Itoa n) = Some n.
Proof.
  intros Hn. unfold Sscanf_u32. rewrite Itoa_pos by lia.
  pose proof (all_digits_pretty_N (Z.to_N n)) as Hd.
  rewrite skip_space_solid by (by apply solid_digits). cbn [mbind option_bind].
  rewrite string_of_bytes_of, take_digits_all by done.
  pose proof (pretty_N_nonempty (Z.to_N n)) as Hne. pose proof (atoi_pretty_N (Z.to_N n)) as Ha.
  destruct (pretty (Z.to_N n)); [done|]. rewrite Ha. cbn [mbind option_bind].
  rewrite Z2N.id by lia. by rewrite (proj2 (Z.ltb_lt _ _)) by lia.
Qed.

Section Post.
Context `{AEADLaws}.
Context (e : Encryptor) (rnd : nat -> list byte).
Context (Hrnd : forall n, length (rnd n) = NonceSize).
Implicit Types ws : DpiServer.World.

(** The reader of client connection [c] runs, without a session; its queue holds [q]. *)
Definition queueing (c : nat) (cid : Z) (q : list (list byte)) ws : Prop :=
  exists cc, ccs ws !! c = Some cc /\ cc_id cc = cid /\ cc_session cc = None /\ cc_run cc = true /\
    cc_data cc = q /\ cc_done cc = false.

(** What the queue of [c] holds after the reader's end. *)
Definition queued (c : nat) (q : list (list byte)) ws : Prop :=
  exists cc, ccs ws !! c = Some cc /\ cc_data cc = q /\ cc_done cc = true.

Lemma queue_data c cid q d ws :
  queueing c cid q ws -> d <> [] -> (length q < queue_cap)%nat ->
  queueing c cid (q ++ [d]) (reader_turn e rnd c d None ws).2.
Proof.
  intros (cc & Hcc & Hid & Hs & Hr & Hq & Hdn) Hd Hl. unfold reader_turn. rewrite Hcc, Hr.
  unfold can_turn. rewrite Hs, Hq. rewrite bool_decide_true by done. cbn [andb].
  destruct d as [|x d]; [done|]. unfold mbind, ST_bind, modify, mret, ST_ret. cbn [snd].
  eexists. simpl. rewrite lookup_alter_eq, Hcc. split; [done|]. cbn [set_data cc_id cc_session cc_run cc_data cc_done].
  by rewrite Hq.
Qed.

Lemma queue_eof c cid q ws :
  queueing c cid q ws -> (length q < queue_cap)%nat ->
  let ws' := (reader_turn e rnd c [] (Some EOF) ws).2 in
  queued c q ws' /\ clients ws' !! cid = None.
Proof.
  intros (cc & Hcc & Hid & Hs & Hr & Hq & Hdn) Hl. unfold reader_turn. rewrite Hcc, Hr.
  unfold can_turn. rewrite Hs, Hq. rewrite bool_decide_true by done. cbn [andb].
  unfold mbind, ST_bind, modify, mret, ST_ret. unfold reader_end. rewrite Hs.
  unfold mbind, ST_bind, modify, mret, ST_ret. simpl. rewrite Hid. split; [|by rewrite lookup_delete_eq].
  eexists. simpl. rewrite !lookup_alter_eq, Hcc. split; [done|]. by cbn.
Qed.

Lemma queue_all c cid q reads ws :
  queueing c cid q ws -> Forall (fun d => d <> []) reads -> (length q + length reads < queue_cap)%nat ->
  queued c (q ++ reads) (reader_all e rnd c reads ws) /\ clients (reader_all e rnd c reads ws) !! cid = None.
Proof.
  intros Hq Hr. revert q ws Hq. induction Hr as [|d reads Hd Hr IH]; intros q ws Hq Hl; cbn [reader_all].
  { rewrite app_nil_r. apply queue_eof; [done|]. simpl in Hl. lia. }
  simpl in Hl. destruct (IH (q ++ [d]) (reader_turn e rnd c d None ws).2) as [A B].
  - apply queue_data; [done|done|lia].
  - rewrite length_app. simpl. lia.
  - by rewrite <- app_assoc in A.
Qed.

(** The turns of handleDownload until it returns. *)
Fixpoint download_all (fuel : nat) (c : nat) (cid : Z) (body : conn) : ST DpiServer.World (result conn) :=
  match fuel with
  | O => mret OutOfFuel
  | S fuel =>
      r ← download_turn e rnd c cid body;
      match r with
      | Some (true, body) => download_all fuel c cid body
      | Some (false, body) => mret (Ok body)
      | None => mret OutOfFuel
      end
  end.

Lemma download_all_wires c cid q body ws :
  queued c q ws -> tx_room body = None ->
  exists b, (download_all (S (length q)) c cid body ws).1 = Ok b /\
    tx b = tx body ++ wires e rnd (DpiServer.rnds ws) (map (DpiServer.data_frame cid) q).
Proof.
  revert body ws. induction q as [|d q IH]; intros body ws (cc & Hcc & Hq & Hdn) Hb.
  - cbn [length download_all]. unfold mbind, ST_bind, download_turn. rewrite Hcc, Hq, Hdn.
    exists body. by rewrite app_nil_r.
  - cbn [length]. cbn [download_all]. unfold mbind, ST_bind. unfold download_turn at 1. rewrite Hcc, Hq.
    unfold EncryptStream. rewrite (WriteLengthPrefixed_wire e rnd) by done.
    destruct (IH (set_tx (tx body ++ frame_wire e rnd (DpiServer.rnds (put_cc c (set_data q (cc_done cc)) ws)) (DpiServer.data_frame cid d)) None body)
      (DpiServer.set_rnds (S (DpiServer.rnds (put_cc c (set_data q (cc_done cc)) ws))) (put_cc c (set_data q (cc_done cc)) ws)))
      as (b & E & Htx).
    + eexists. simpl. rewrite lookup_alter_eq, Hcc. split; [done|]. by cbn.
    + done.
    + exists b. split; [exact E|]. rewrite Htx. simpl. by rewrite <- app_assoc.
Qed.

Lemma decode_wires cid q n :
  0 <= cid < 2 ^ 32 -> Forall (fun d => len d + 38 <= MaxEncryptedFrame) q ->
  decode_body e (conn_of (wires e rnd n (map (DpiServer.data_frame cid) q))) = (concat q, EOF).
Proof.
  intros Hc Hq. revert n. induction Hq as [|d q Hd Hq IH]; intros n; cbn [map wires concat].
  { rewrite decode_body_step. done. }
  rewrite decode_body_step. unfold next_frame, conn_of. unfold MaxEncryptedFrame in Hd.
  pose proof (len_nonneg d). unfold DpiServer.data_frame at 1.
  rewrite ReadLengthPrefixed_wire; [|done|].
  - rewrite Decrypt_sealed by done. rewrite u32_small, parse_build by (done || unfold MsgData; lia).
    specialize (IH (S n)). unfold conn_of in IH. rewrite IH. cbn [fst snd]. f_equal. f_equal.
    unfold data_of. cbn [MsgType PayloadLen]. change (MsgData =? MsgData) with true. cbn [andb].
    rewrite Z.leb_refl, to_nat_len. by rewrite take_ge by lia.
  - unfold plain_ok, MaxEncryptedFrame. rewrite len_app. unfold len at 1. rewrite length_header.
    unfold StreamHeaderSize. lia.
Qed.

(** Downlink in post-async mode.  The reader of a connection reads [reads], fewer chunks than
    its queue holds, and then its end.  A download request for the connection that comes before
    the end gets all of it: what the client decodes from its body is exactly the bytes read,
    followed by the end.  A request that comes after the end finds no connection and is answered
    404, with every byte still in the queue: a target that answers and closes before the client
    has asked for its data is lost. *)
Theorem Post_downlink (c : nat) (cid : Z) (reads : list (list byte)) (ws : DpiServer.World)
    (body : conn) :
  queueing c cid [] ws -> clients ws !! cid = Some c -> 0 <= cid < 2 ^ 32 ->
  Forall (fun d => d <> [] /\ len d <= 32 * 1024) reads -> (length reads < queue_cap)%nat ->
  tx body = [] -> tx_room body = None ->
  let path := download_url "" cid in
  let ws' := reader_all e rnd c reads ws in
  handleDownload "GET" path ws = ((Stream, Some c), ws) /\
  handleDownload "GET" path ws' = ((NotFound, None), ws') /\
  exists b, (download_all (S (length reads)) c cid body ws').1 = Ok b /\
    decode_body e (conn_of (tx b)) = (concat reads, EOF).
Proof.
  intros Hq Hcl Hc Hr Hl Hb Hroom. cbv zeta.
  destruct (queue_all c cid [] reads ws Hq) as [Hqd Hgone]; [|done|].
  { eapply Forall_impl; [done|]. by intros ? []. }
  cbn [app] in Hqd. set (ws' := reader_all e rnd c reads ws) in *.
  assert (forall w0, handleDownload "GET" (download_url "" cid) w0 =
    match clients w0 !! cid with Some c => ((Stream, Some c), w0) | None => ((NotFound, None), w0) end) as Hh.
  { intros w0. unfold handleDownload. change (negb (is_get "GET")) with false. cbv iota.
    assert (TrimPrefix (download_url "" cid) "/download/" = Itoa cid) as ->
      by (apply (TrimPrefix_app "/download/")).
    destruct (String.eqb_spec (Itoa cid) "") as [E|_].
    { rewrite Itoa_pos in E by lia. by apply pretty_N_nonempty in E. }
    rewrite Sscanf_u32_Itoa by done. unfold getClient. by destruct (clients w0 !! cid). }
  rewrite !Hh, Hcl, Hgone. split; [done|]. split; [done|].
  destruct (download_all_wires c cid reads body ws' Hqd Hroom) as (b & E & Htx). exists b.
  split; [done|]. rewrite Htx, Hb. apply decode_wires; [done|].
  eapply Forall_impl; [exact Hr|]. intros d [_ Hd]. simpl. unfold MaxEncryptedFrame. lia.
Qed.
End Post.

(** ** Uplink in stream mode *)

Section Up.
Context `{AEADLaws}.
Context (e : Encryptor) (rnd : nat -> list byte).

(** The session [s] of the transport takes frames: its upload has [tx0] written. *)
Record writing (s : nat) (tx0 : list byte) (t : Transport) : Prop := {
  wr_mode : uplink t = UplinkStream;
  wr_one : sessions t = [s];
  wr_sess : exists x u, sess (sw t) !! s = Some x /\ s_uplinkErr x = None /\ s_closed x = false /\
    s_uplinkW x = Some u /\ tx_room u = None /\ tx u = tx0
}.

Lemma writeEncrypted_wire s n p tx0 t :
  writing s tx0 t ->
  exists t', on_sw (writeEncrypted s (Encrypt e (rnd n) p)) t = (None, t') /\
    writing s (tx0 ++ frame_wire e rnd n p) t' /\ rnds t' = rnds t /\ active t' = active t /\
    forall cid, hasPin s cid (sw t) = true -> hasPin s cid (sw t') = true.
Proof.
  intros [Hm Ho (x & u & Hs & He & Hc & Hu & Hr & Htx)]. unfold on_sw, writeEncrypted.
  rewrite Hs, He, Hc, Hu. rewrite (WriteLengthPrefixed_wire e rnd) by done. eexists. split; [done|].
  split_and!; try done.
  - split; [done..|]. simpl. rewrite lookup_alter_eq, Hs. eexists _, _. split; [done|].
    cbn [set_uplink s_uplinkErr s_closed s_uplinkW]. split_and!; try done. simpl. by rewrite Htx.
  - intros cid. unfold hasPin. simpl. by rewrite lookup_alter_eq, Hs.
Qed.

Lemma encrypt_eq p t : encrypt e rnd p t = (Encrypt e (rnd (rnds t)) p, set_rnds (S (rnds t)) t).
Proof. done. Qed.

Lemma writing_rnds s tx0 n t : writing s tx0 t -> writing s tx0 (set_rnds n t).
Proof. by intros [? ? ?]. Qed.

Lemma sessionFor_one s tx0 cid t :
  writing s tx0 t -> hasPin s cid (sw t) = true -> sessionFor cid t = Some s.
Proof.
  intros [_ Ho _] Hp. unfold sessionFor, first_session. rewrite Ho. simpl. by rewrite Hp.
Qed.

Lemma SendData_wire s tx0 cid d t :
  writing s tx0 t -> hasPin s cid (sw t) = true ->
  exists t', SendData e rnd None cid d t = (Sent None, t') /\
    writing s (tx0 ++ frame_wire e rnd (rnds t) (buildPlain MsgData cid d)) t' /\
    rnds t' = S (rnds t) /\ active t' = active t /\ hasPin s cid (sw t') = true.
Proof.
  intros Hw Hp. unfold SendData, gets, mbind, mret, ST_bind, ST_ret. rewrite encrypt_eq. cbv beta iota.
  pose proof (writing_rnds _ _ (S (rnds t)) _ Hw) as Hw1.
  rewrite (wr_mode _ _ _ Hw1). change (String.eqb UplinkStream UplinkStream) with true. cbv beta iota.
  rewrite (sessionFor_one s tx0) by done.
  destruct (writeEncrypted_wire s (rnds t) (buildPlain MsgData cid d) tx0 _ Hw1)
    as (t' & E & Hw' & Hn & Ha & Hpin). rewrite E. exists t'. split_and!; try done.
  by apply Hpin.
Qed.

Lemma CloseConn_wire s tx0 cid t :
  writing s tx0 t -> hasPin s cid (sw t) = true ->
  exists t', CloseConn e rnd None cid t = (Sent None, t') /\
    writing s (tx0 ++ frame_wire e rnd (rnds t) (buildPlain MsgClose cid [])) t' /\
    hasPin s cid (sw t') = false.
Proof.
  intros Hw Hp. unfold CloseConn, gets, modify, mbind, mret, ST_bind, ST_ret. rewrite encrypt_eq. cbv beta iota.
  pose proof (writing_rnds _ _ (S (rnds t)) _ Hw) as Hw1.
  rewrite (wr_mode _ _ _ Hw1). change (String.eqb UplinkStream UplinkStream) with true. cbv beta iota.
  rewrite (sessionFor_one s tx0) by done.
  destruct (writeEncrypted_wire s (rnds t) (buildPlain MsgClose cid []) tx0 _ Hw1)
    as (t' & E & Hw' & Hn & Ha & Hpin). rewrite E.
  destruct Hw' as [Hm Ho (x & u & Hs & He & Hc & Hu & Hr & Htx)].
  eexists. split; [done|]. unfold maybeShrinkSessions, add_active. simpl. rewrite Ho.
  rewrite bool_decide_true by (simpl; lia). unfold unpin. rewrite Hs.
  split; [split; [done..|]|]; simpl.
  - destruct (s_readers x !! cid); simpl; rewrite lookup_alter_eq, Hs; eexists _, _; by split_and!.
  - unfold hasPin. destruct (s_readers x !! cid); simpl; rewrite lookup_alter_eq, Hs; simpl;
      apply bool_decide_false; intros [_ Hno]%elem_of_difference; by apply Hno, elem_of_singleton.
Qed.

Lemma Connect_wire post id start network address s tx0 t :
  writing s tx0 t -> active t < 8 ->
  let cid := connIDGen t in
  let plain := buildPlain MsgConnect cid (EncodeConnectRequest (MkConnect network address)) in
  exists t', Connect e rnd post id start network address t = (Ok cid, t') /\
    writing s (tx0 ++ frame_wire e rnd (rnds t) plain) t' /\
    rnds t' = S (rnds t) /\ hasPin s cid (sw t') = true.
Proof.
  intros Hw Ha. cbv zeta. unfold Connect. unfold NextConnID. rewrite encrypt_eq. cbv zeta.
  set (t1 := set_rnds _ _). set (plain := buildPlain _ _ _).
  assert (writing s tx0 t1) as Hw1 by (by destruct Hw).
  rewrite (wr_mode _ _ _ Hw1). change (String.eqb UplinkStream UplinkStream) with true. cbv beta iota.
  assert (pickSession id start t1 = (Ok s, t1)) as ->.
  { unfold pickSession. destruct Hw1 as [_ Ho (x & u & Hs & _ & Hc & _)]. rewrite Ho.
    assert (8 <=? active t1 = false) as -> by (apply Z.leb_gt; done). cbn [andb negb].
    unfold first_session. simpl. unfold is_open, isClosed. by rewrite Hs, Hc. }
  destruct Hw1 as [Hm Ho (x & u & Hs & He & Hc & Hu & Hr & Htx)].
  set (t2 := (on_sw (pin s (connIDGen t)) t1).2).
  assert (writing s tx0 t2 /\ hasPin s (connIDGen t) (sw t2) = true) as [Hw2 Hp2].
  { unfold t2, on_sw, pin. cbv beta. rewrite Hs. change (sess (sw t) !! s = Some x) in Hs. unfold hasPin.
    destruct (s_readers x !! connIDGen t); simpl;
      (split; [split; [done..|]|]); simpl; rewrite ?lookup_alter_eq, Hs; simpl;
      try (by apply bool_decide_true; set_solver); eexists _, _; by split_and!. }
  destruct (on_sw (pin s (connIDGen t)) t1) as [[] t2'] eqn:E2. cbn [snd] in t2. subst t2.
  destruct (writeEncrypted_wire s (rnds (set_connIDGen (if u32 (connIDGen t + 1) =? 0 then 1 else u32 (connIDGen t + 1)) t)) plain tx0 _ Hw2)
    as (t' & E & Hw' & Hn & _ & Hpin). rewrite E.
  eexists. split; [done|]. split_and!.
  - by destruct Hw'.
  - cbn [add_active rnds]. rewrite Hn. unfold on_sw in E2. destruct (pin _ _ _) in E2.
    injection E2 as _ <-. done.
  - by apply Hpin.
Qed.
End Up.

(** The server on the frames of an upload. *)
Section UpServer.
Context `{AEADLaws}.
Context (cfg : Config) (e : Encryptor) (rnd srnd : nat -> list byte).
Context (Hrnd : forall n, length (rnd n) = NonceSize).
Context (dial : string -> string -> option goerr) (sid : string).
Implicit Types ws : DpiServer.World.

(** The id [cid] is served by the remote socket [r], which has been sent [data]. *)
Definition attached (cid : Z) (r : nat) (data : list byte) ws : Prop :=
  remote_of cid ws = Some r /\ remotes ws !! r = Some (MkRemote true data None).
Definition detached (cid : Z) (r : nat) (data : list byte) ws : Prop :=
  clients ws !! cid = None /\ remotes ws !! r = Some (MkRemote false data None).

(** A message whose payload has the length that its header says. *)
Lemma dispatch_plain_eq m cid d ws :
  0 <= m < 256 -> 0 <= cid < 2 ^ 32 -> len d < 2 ^ 32 ->
  dispatchPlain cfg e srnd dial (buildPlain m cid d) sid ws =
    (if m =? MsgReverseBind then
       (Returns status_ok, set_binds (binds ws ++ [string_of d]) ws)
     else if m =? MsgConnect then
       match DecodeConnectRequest d with
       | Ok req => handleConnect cfg e srnd dial cid req sid ws
       | Panic _ => (Panics, ws)
       | _ => (Returns BadRequest, ws)
       end
     else if m =? MsgData then
       match remote_of cid ws with
       | None => (Returns status_ok, ws)
       | Some r => match write_remote r d ws with
                   | (Some _, ws) => (Returns status_ok, unregisterClient cid (close_remote r ws))
                   | (None, ws) => (Returns status_ok, ws)
                   end
       end
     else if m =? MsgClose then
       match remote_of cid ws with
       | None => (Returns status_ok, ws)
       | Some r => (Returns status_ok, unregisterClient cid (close_remote r ws))
       end
     else (Returns status_ok, ws)).
Proof.
  intros Hm Hc Hd. pose proof (len_nonneg d). unfold dispatchPlain, buildPlain.
  rewrite u32_small, parse_build by lia. cbn [PayloadLen MsgType DpiWire.ConnID].
  rewrite Z.gtb_ltb, Z.ltb_irrefl, to_nat_len, take_ge by lia.
  destruct (m =? MsgReverseBind); [done|]. destruct (m =? MsgConnect).
  { by destruct (DecodeConnectRequest d). }
  unfold gets, modify, mbind, mret, ST_bind, ST_ret. cbv beta iota.
  destruct (m =? MsgData).
  - destruct (remote_of cid ws); [|done]. by destruct (write_remote n d ws) as [[] ?].
  - destruct (m =? MsgClose); [|done]. by destruct (remote_of cid ws).
Qed.

Lemma session_of_same id ws :
  exists s ws', session_of id ws = (s, ws') /\ remotes ws' = remotes ws /\
    clients ws' = clients ws /\ ccs ws' = ccs ws.
Proof.
  unfold session_of. destruct (String.eqb id ""); [by eexists _, _|].
  unfold mbind, ST_bind, getOrCreateSession.
  destruct (DpiServer.sessions ws !! id); eexists _, _; by split_and!.
Qed.

Lemma handleConnect_ok cid req ws :
  TrimSpace (Target cfg) = ""%string -> (forall n a, dial n a = None) ->
  exists rep ws1, handleConnect cfg e srnd dial cid req sid ws = (Returns rep, ws1) /\
    attached cid (fresh_id (remotes ws)) [] ws1 /\
    (forall r x, remotes ws !! r = Some x -> remotes ws1 !! r = Some x) /\
    exists c cc, clients ws1 !! cid = Some c /\ ccs ws1 !! c = Some cc /\ cc_addr cc = Address req.
Proof.
  intros Ht Hd. unfold handleConnect, DpiServer.dial_addr. rewrite Ht.
  change (String.eqb "" "") with true. cbn [negb andb]. rewrite Hd.
  unfold mbind, ST_bind, mret, ST_ret, modify. cbv beta iota zeta.
  set (ws0 := set_remotes _ ws).
  destruct (session_of_same sid ws0) as (s & ws' & -> & Er & Ec & Ecc).
  eexists _, _. split; [reflexivity|].
  unfold attached, remote_of, getClient. simpl. rewrite lookup_insert_eq. simpl.
  rewrite !lookup_insert_eq. simpl. rewrite Er. unfold ws0. simpl. rewrite lookup_insert_eq.
  split; [done|]. split.
  - intros r x Hx. rewrite lookup_insert_ne; [done|]. intros <-. by rewrite fresh_id_None in Hx.
  - eexists _, _. split; [done|]. rewrite lookup_insert_eq. by split.
Qed.

Lemma dispatch_data cid r data d ws :
  attached cid r data ws -> 0 <= cid < 2 ^ 32 -> len d < 2 ^ 32 ->
  exists ws', dispatchPlain cfg e srnd dial (buildPlain MsgData cid d) sid ws = (Returns status_ok, ws') /\
    attached cid r (data ++ d) ws'.
Proof.
  intros [Hr Hx] Hc Hd. rewrite dispatch_plain_eq by (done || unfold MsgData; lia).
  change (MsgData =? MsgReverseBind) with false. change (MsgData =? MsgConnect) with false.
  change (MsgData =? MsgData) with true. cbv iota. rewrite Hr. unfold write_remote. rewrite Hx.
  cbn [r_open r_werr r_tx]. eexists. split; [done|]. split; [done|]. simpl. by rewrite lookup_insert_eq.
Qed.

Lemma dispatch_close cid r data ws :
  attached cid r data ws -> 0 <= cid < 2 ^ 32 ->
  exists ws', dispatchPlain cfg e srnd dial (buildPlain MsgClose cid []) sid ws = (Returns status_ok, ws') /\
    detached cid r data ws'.
Proof.
  intros [Hr Hx] Hc. rewrite dispatch_plain_eq by (done || unfold MsgClose; lia).
  change (MsgClose =? MsgReverseBind) with false. change (MsgClose =? MsgConnect) with false.
  change (MsgClose =? MsgData) with false. change (MsgClose =? MsgClose) with true. cbv iota.
  rewrite Hr. eexists. split; [done|]. split; simpl; [by rewrite lookup_delete_eq|].
  by rewrite lookup_alter_eq, Hx.
Qed.

(** The stream handler on one frame, and at the end of the body. *)
Lemma stream_loop_wire fuel n p q er t rm te ws ws' rep :
  plain_ok p -> dispatchPlain cfg e srnd dial p sid ws = (Returns rep, ws') ->
  stream_loop cfg e srnd (S fuel) dial sid (Conn (frame_wire e rnd n p ++ q) er t rm te) ws =
    stream_loop cfg e srnd fuel dial sid (Conn q er t rm te) ws'.
Proof.
  intros Hp Hd. cbn [stream_loop]. rewrite ReadLengthPrefixed_wire by done.
  unfold DecryptStream. rewrite Decrypt_sealed by done. unfold mbind, ST_bind. by rewrite Hd.
Qed.

Lemma stream_loop_end fuel er t rm te ws :
  stream_loop cfg e srnd (S fuel) dial sid (Conn [] er t rm te) ws =
    (Ok (Returns Stream, Conn [] er t rm te), ws).
Proof. cbn [stream_loop]. unfold ReadLengthPrefixed. rewrite IO_bind_eq. done. Qed.

Lemma plain_ok_build m c d : len d + 38 <= MaxEncryptedFrame -> plain_ok (buildPlain m c d).
Proof.
  intros Hd. unfold plain_ok, buildPlain. rewrite len_app. unfold len at 1. rewrite length_header.
  unfold StreamHeaderSize. lia.
Qed.

Lemma stream_loop_data reads n cid r data rest fuel er t rm te ws :
  attached cid r data ws -> 0 <= cid < 2 ^ 32 ->
  Forall (fun d => len d + 38 <= MaxEncryptedFrame) reads ->
  exists ws', attached cid r (data ++ concat reads) ws' /\
    stream_loop cfg e srnd (length reads + fuel) dial sid
      (Conn (wires e rnd n (map (buildPlain MsgData cid) reads) ++ rest) er t rm te) ws =
    stream_loop cfg e srnd fuel dial sid (Conn rest er t rm te) ws'.
Proof.
  intros Ha Hc Hr. revert n data ws Ha. induction Hr as [|d reads Hd Hr IH]; intros n data ws Ha.
  { exists ws. by rewrite app_nil_r. }
  cbn [map wires length Nat.add concat]. rewrite <- app_assoc.
  destruct (dispatch_data cid r data d ws Ha Hc) as (ws1 & E & Ha1).
  { unfold MaxEncryptedFrame in Hd. lia. }
  rewrite (stream_loop_wire _ _ _ _ _ _ _ _ _ _ _ (plain_ok_build MsgData cid d Hd) E).
  destruct (IH (S n) (data ++ d) ws1 Ha1) as (ws2 & Ha2 & E2).
  exists ws2. split; [by rewrite <- app_assoc in Ha2|done].
Qed.
End UpServer.

(** ** Uplink, end to end *)

Section Uplink.
Context `{AEADLaws}.
Context (cfg : Config) (e : Encryptor) (rnd srnd : nat -> list byte).
Context (Hrnd : forall n, length (rnd n) = NonceSize).
Context (dial : string -> string -> option goerr) (sid : string).

(** The transport sends [reads] on the connection [cid]. *)
Fixpoint send_reads (cid : Z) (reads : list (list byte)) (t : Transport) : Transport :=
  match reads with
  | [] => t
  | d :: reads => send_reads cid reads (SendData e rnd None cid d t).2
  end.

Lemma send_reads_wire s cid reads tx0 t :
  writing s tx0 t -> hasPin s cid (sw t) = true ->
  writing s (tx0 ++ wires e rnd (rnds t) (map (buildPlain MsgData cid) reads)) (send_reads cid reads t) /\
  hasPin s cid (sw (send_reads cid reads t)) = true /\
  rnds (send_reads cid reads t) = (rnds t + length reads)%nat.
Proof.
  revert tx0 t. induction reads as [|d reads IH]; intros tx0 t Hw Hp; cbn [send_reads map wires length].
  { rewrite app_nil_r, Nat.add_0_r. by split_and!. }
  destruct (SendData_wire e rnd s tx0 cid d t Hw Hp) as (t1 & -> & Hw1 & Hn & _ & Hp1).
  cbn [snd]. destruct (IH _ t1 Hw1 Hp1) as (A & B & D). rewrite Hn in A, D.
  rewrite <- app_assoc in A. split_and!; [done|done|lia].
Qed.

End Uplink.

(** ** What crosses *)

Section Cross.
Context `{AEADLaws}.
Context (cfg : Config) (e : Encryptor) (srnd : nat -> list byte).
Context (dial : string -> string -> option goerr).
Implicit Types ws : DpiServer.World.

(** C16: Clients share their ids.  The server knows a connection by its id alone, and every client
    counts its ids from 1.  When a second client connects under an id that a first client uses,
    whatever the target and the session of either, everything that the first client sends from
    then on goes to the target of the second, and nothing to its own. *)
Theorem Clients_collide (cid : Z) (r : nat) (data : list byte) (reqB : ConnectRequest)
    (sidA sidB : string) (d : list byte) (ws : DpiServer.World) :
  attached cid r data ws -> 0 <= cid < 2 ^ 32 -> len d < 2 ^ 32 ->
  TrimSpace (Target cfg) = ""%string -> (forall n a, dial n a = None) ->
  let ws1 := (handleConnect cfg e srnd dial cid reqB sidB ws).2 in
  exists ws2, dispatchPlain cfg e srnd dial (buildPlain MsgData cid d) sidA ws1 =
      (Returns status_ok, ws2) /\
    remotes ws2 !! r = Some (MkRemote true data None) /\
    remotes ws2 !! fresh_id (remotes ws) = Some (MkRemote true d None) /\
    exists c cc, clients ws2 !! cid = Some c /\ ccs ws2 !! c = Some cc /\ cc_addr cc = Address reqB.
Proof.
  intros [Hr Hx] Hc Hd Ht Hdial. cbv zeta.
  destruct (handleConnect_ok cfg e srnd dial sidB cid reqB ws Ht Hdial) as (rep & ws1 & -> & [Hr1 Hx1] & Hold & Hcc).
  cbn [snd].
  rewrite dispatch_plain_eq by (done || unfold MsgData; lia).
  change (MsgData =? MsgReverseBind) with false. change (MsgData =? MsgConnect) with false.
  change (MsgData =? MsgData) with true. cbv iota. rewrite Hr1. unfold write_remote. rewrite Hx1.
  cbn [r_open r_werr r_tx]. eexists. split; [done|]. cbn [set_remotes remotes clients ccs].
  split_and!; [|by rewrite lookup_insert_eq|done].
  rewrite lookup_insert_ne; [by apply Hold|]. intros E. rewrite <- E, fresh_id_None in Hx. done.
Qed.
End Cross.

Section PostAsync.
Context `{AEADLaws}.
Context (cfg : Config) (e : Encryptor) (rnd srnd : nat -> list byte).
Context (Hrnd : forall n, length (rnd n) = NonceSize).
Context (dial : string -> string -> option goerr).

Lemma SendData_post cid d t :
  uplink t = UplinkPostAsync -> (length (posts t) < postAsyncWindow)%nat ->
  exists t', SendData e rnd None cid d t = (Sent None, t') /\ uplink t' = UplinkPostAsync /\
    rnds t' = S (rnds t) /\ baseURL t' = baseURL t /\
    posts t' = posts t ++ [((baseURL t +:+ "/api/v2/upload")%string,
                            Encrypt e (rnd (rnds t)) (buildPlain MsgData cid d))].
Proof.
  intros Hm Hl. unfold SendData, gets, mbind, mret, ST_bind, ST_ret. rewrite encrypt_eq.
  cbv beta iota. cbn [set_rnds uplink]. rewrite Hm.
  change (String.eqb UplinkPostAsync UplinkStream) with false. cbv iota.
  unfold postAsyncFire. cbn [set_rnds posts]. rewrite decide_True by done.
  eexists. split; [done|]. by split_and!.
Qed.

Lemma handleTunnel_data n cid r data d (ws : DpiServer.World) :
  attached cid r data ws -> 0 <= cid < 2 ^ 32 -> len d < 2 ^ 32 ->
  exists ws', handleTunnel cfg e srnd dial "POST" (Ok (Encrypt e (rnd n) (buildPlain MsgData cid d))) ws
      = (Returns status_ok, ws') /\ attached cid r (data ++ d) ws'.
Proof.
  intros Ha Hc Hd. unfold handleTunnel. change (negb (is_post "POST")) with false. cbv iota.
  pose proof (Decrypt_sealed e (rnd n) (buildPlain MsgData cid d) (Hrnd n)) as Ed.
  destruct (Encrypt e (rnd n) (buildPlain MsgData cid d)) as [|b bs] eqn:E.
  - exfalso. unfold Encrypt in E. apply (f_equal length) in E. rewrite length_app, Hrnd in E. done.
  - unfold DecryptStream. rewrite Ed. by apply dispatch_data.
Qed.

(** Posts overtake each other.  In post-async mode two sends on a connection return without
    an error with both requests in flight, and nothing orders these: if the second arrives
    first, the server, which answers both with success, writes its bytes to the target before
    those of the first. *)
Theorem PostAsync_reorders (cid : Z) (a b data : list byte) (r : nat) (t : Transport)
    (ws : DpiServer.World) :
  uplink t = UplinkPostAsync -> posts t = [] -> attached cid r data ws -> 0 <= cid < 2 ^ 32 ->
  len a < 2 ^ 32 -> len b < 2 ^ 32 ->
  exists t1 t2 pa pb url, SendData e rnd None cid a t = (Sent None, t1) /\
    SendData e rnd None cid b t1 = (Sent None, t2) /\ posts t2 = [(url, pa); (url, pb)] /\
    (exists ws1 ws2,
       handleTunnel cfg e srnd dial "POST" (Ok pa) ws = (Returns status_ok, ws1) /\
       handleTunnel cfg e srnd dial "POST" (Ok pb) ws1 = (Returns status_ok, ws2) /\
       attached cid r (data ++ a ++ b) ws2) /\
    (exists ws1 ws2,
       handleTunnel cfg e srnd dial "POST" (Ok pb) ws = (Returns status_ok, ws1) /\
       handleTunnel cfg e srnd dial "POST" (Ok pa) ws1 = (Returns status_ok, ws2) /\
       attached cid r (data ++ b ++ a) ws2).
Proof.
  intros Hm Hp Ha Hc Hla Hlb.
  destruct (SendData_post cid a t Hm) as (t1 & E1 & Hm1 & Hn1 & Hb1 & Hp1); [rewrite Hp; simpl; unfold postAsyncWindow; lia|].
  destruct (SendData_post cid b t1 Hm1) as (t2 & E2 & _ & _ & _ & Hp2);
    [rewrite Hp1, Hp; simpl; unfold postAsyncWindow; lia|].
  rewrite Hp1, Hp, Hb1 in Hp2. exists t1, t2. do 3 eexists. split; [done|]. split; [done|].
  split; [exact Hp2|]. split.
  - destruct (handleTunnel_data (rnds t) cid r data a ws Ha Hc Hla) as (ws1 & F1 & A1).
    destruct (handleTunnel_data (rnds t1) cid r _ b ws1 A1 Hc Hlb) as (ws2 & F2 & A2).
    exists ws1, ws2. by rewrite <- app_assoc in A2.
  - destruct (handleTunnel_data (rnds t1) cid r data b ws Ha Hc Hlb) as (ws1 & F1 & A1).
    destruct (handleTunnel_data (rnds t) cid r _ a ws1 A1 Hc Hla) as (ws2 & F2 & A2).
    exists ws1, ws2. by rewrite <- app_assoc in A2.
Qed.
End PostAsync.

(** ** Witnesses *)

Definition demo_key : Encryptor := replicate 32 Byte.x42.
Definition demo_rnd (n : nat) : list byte := replicate 12 (byte_of_Z (Z.of_nat n)).
Definition demo_cfg : Config := MkConfig "" false "" "" "" "".
Definition demo_dial (network addr : string) : option goerr := None.
Definition demo_req : ConnectRequest := MkConnect "tcp" "example.org:80".
Definition demo_reads : list (list byte) := [[Byte.x61; Byte.x62]; [Byte.x63]].

Lemma demo_rnd_ok n : length (demo_rnd n) = NonceSize.
Proof. apply length_replicate. Qed.

(** A server whose session is attached, with connection 1 on it. *)
Definition demo_server : DpiServer.World :=
  (handleConnect demo_cfg demo_key demo_rnd demo_dial 1 demo_req "ab"
    (handleSessionDownload "GET" "/download/session/ab" "" (conn_of []) init_world).2).2.

(** A client's session, with connection 1 pinned to it. *)
Definition demo_session : World :=
  (pin 1 1 (MkWorld ∅ {[ 1%nat := MkSess "ab" (Some (conn_of [])) None ∅ ∅ false ]} [] [])).2.
Definition demo_transport (mode : string) : Transport :=
  MkTransport "http://a" "http" "a" mode 1 [1%nat] 0 [] demo_session 0.

Lemma demo_served : served 1 1 1 [] demo_session.
Proof.
  split; [|by vm_compute].
  exists (MkSess "ab" (Some (conn_of [])) None {[ 1 ]} {[ 1 := 1%nat ]} false).
  split; [by vm_compute|]. split; [by vm_compute|].
  intros c Hc. cbn [s_readers] in Hc. by apply lookup_singleton_Some in Hc as [<- _].
Qed.

Lemma demo_reading : reading 1 1 1 1 [] demo_server.
Proof.
  split.
  - exists (MkCC 1 1 "example.org:80" [] false (Some 1%nat) false true). split_and!; by vm_compute.
  - exists (DpiServer.MkSess "ab" (Some (conn_of [])) true false), (conn_of []).
    split_and!; by vm_compute.
Qed.

Lemma demo_writing : writing 1 [] (demo_transport UplinkStream).
Proof.
  split; [done..|].
  exists (MkSess "ab" (Some (conn_of [])) None {[ 1 ]} {[ 1 := 1%nat ]} false), (conn_of []).
  split; [by vm_compute|]. by split_and!.
Qed.

Lemma demo_attached : attached 1 1 [] demo_server.
Proof. split; by vm_compute. Qed.



Lemma Clients_collide_witness :
  let ws1 := (handleConnect demo_cfg demo_key demo_rnd demo_dial 1
                (MkConnect "tcp" "other.org:25") "cd" demo_server).2 in
  exists ws2, dispatchPlain demo_cfg demo_key demo_rnd demo_dial (buildPlain MsgData 1 [Byte.x61]) "ab" ws1
      = (Returns status_ok, ws2) /\
    remotes ws2 !! 1%nat = Some (MkRemote true [] None) /\
    remotes ws2 !! 2%nat = Some (MkRemote true [Byte.x61] None).
Proof.
  destruct (Clients_collide demo_cfg demo_key demo_rnd demo_dial 1 1 []
    (MkConnect "tcp" "other.org:25") "ab" "cd" [Byte.x61] demo_server) as (ws2 & H1 & H2 & H3 & _).
  - exact demo_attached.
  - lia.
  - by vm_compute.
  - by vm_compute.
  - done.
  - exists ws2. split; [exact H1|]. split; [exact H2|]. exact H3.
Defined.

Lemma PostAsync_reorders_witness :
  exists t2 pa pb url, posts t2 = [(url, pa); (url, pb)] /\
    exists ws1 ws2,
      handleTunnel demo_cfg demo_key demo_rnd demo_dial "POST" (Ok pb) demo_server =
        (Returns status_ok, ws1) /\
      handleTunnel demo_cfg demo_key demo_rnd demo_dial "POST" (Ok pa) ws1 =
        (Returns status_ok, ws2) /\
      attached 1 1 [Byte.x62; Byte.x61] ws2.
Proof.
  destruct (PostAsync_reorders demo_cfg demo_key demo_rnd demo_rnd demo_rnd_ok demo_dial 1
    [Byte.x61] [Byte.x62] [] 1 (demo_transport UplinkPostAsync) demo_server)
    as (t1 & t2 & pa & pb & url & _ & _ & H3 & _ & H4).
  - done.
  - done.
  - exact demo_attached.
  - lia.
  - by vm_compute.
  - by vm_compute.
  - exists t2, pa, pb, url. split; [exact H3|exact H4].
Defined.

(** A server with connection 1 of a client in post-async mode. *)
Definition demo_post : DpiServer.World :=
  (handleConnect demo_cfg demo_key demo_rnd demo_dial 1 demo_req "" init_world).2.

Lemma demo_queueing : queueing 1 1 [] demo_post.
Proof.
  exists (MkCC 1 1 "example.org:80" [] false None false true). split_and!; by vm_compute.
Qed.

Lemma Post_downlink_witness :
  let ws' := reader_all demo_key demo_rnd 1 demo_reads demo_post in
  handleDownload "GET" "/download/1" ws' = ((NotFound, None), ws') /\
  exists b, (download_all demo_key demo_rnd 3 1 1 (conn_of []) ws').1 = Ok b /\
    decode_body demo_key (conn_of (tx b)) = ([Byte.x61; Byte.x62; Byte.x63], EOF).
Proof.
  destruct (Post_downlink demo_key demo_rnd demo_rnd_ok 1 1 demo_reads demo_post (conn_of []))
    as (_ & H2 & H3).
  - exact demo_queueing.
  - by vm_compute.
  - lia.
  - repeat constructor; (done || by vm_compute).
  - simpl. unfold queue_cap. lia.
  - done.
  - done.
  - split; [exact H2|exact H3].
Defined.
