(* ===== verification/DpiTransportThms.v ===== *)
(** Theorems about the DPI client's transport alone (DpiTransport.v): connection ids, the pool of
    sessions, and redirects. *)

From S2P Require Import Prelude GoLib Aead DpiWire DpiSession DpiTransport.
From Stdlib Require Import ZArith Lia Strings.Byte Strings.Ascii Strings.String.
From stdpp Require Import gmap strings list fin_maps.

#[local] Open Scope Z_scope.

(** ** Connection ids *)

Fixpoint next_ids (n : nat) (t : Transport) : list Z * Transport :=
  match n with
  | O => ([], t)
  | S n => let '(id, t) := NextConnID t in let '(ids, t) := next_ids n t in (id :: ids, t)
  end.

(** The id [k] calls after [g]: ids run through 1 to 2^32 - 1. *)
Definition id_after (g : Z) (k : Z) : Z := (g - 1 + k) mod (2 ^ 32 - 1) + 1.

Lemma NextConnID_step t :
  0 < connIDGen t < 2 ^ 32 ->
  (NextConnID t).1 = connIDGen t /\ connIDGen (NextConnID t).2 = id_after (connIDGen t) 1 /\
  0 < connIDGen (NextConnID t).2 < 2 ^ 32.
Proof.
  intros Hg. unfold NextConnID, id_after. simpl. split; [done|].
  destruct (decide (connIDGen t = 2 ^ 32 - 1)) as [->|Hne]; [by vm_compute|].
  rewrite u32_small by lia. rewrite (proj2 (Z.eqb_neq _ 0)) by lia.
  rewrite Z.mod_small by lia. lia.
Qed.

Lemma id_after_add g j k : id_after (id_after g j) k = id_after g (j + k).
Proof.
  unfold id_after. f_equal. rewrite Z.add_simpl_r, Zplus_mod_idemp_l. f_equal. lia.
Qed.

Lemma next_ids_spec n t :
  0 < connIDGen t < 2 ^ 32 ->
  forall k id, (next_ids n t).1 !! k = Some id -> id = id_after (connIDGen t) (Z.of_nat k).
Proof.
  revert t. induction n as [|n IH]; intros t Hg k id; cbn [next_ids]; [done|].
  destruct (NextConnID_step t Hg) as (E1 & E2 & E3).
  destruct (NextConnID t) as [i t1]. cbn [fst snd] in *. specialize (IH t1 E3).
  destruct (next_ids n t1) as [ids t2]. cbn [fst] in *. subst i. destruct k as [|k]; simpl.
  - intros [= <-]. unfold id_after. rewrite Z.mod_small by lia. lia.
  - intros Hk. rewrite (IH k id Hk), E2, id_after_add. f_equal. lia.
Qed.

(** C39: Connection ids.  The ids that a transport gives out are never 0 and fit 32 bits, and any
    2^32 - 1 of them in a row are different; after these they repeat. *)
Theorem NextConnID_distinct (n : nat) (t : Transport) :
  0 < connIDGen t < 2 ^ 32 ->
  let ids := (next_ids n t).1 in
  Forall (fun id => 0 < id < 2 ^ 32) ids /\
  (forall i j a b, ids !! i = Some a -> ids !! j = Some b -> (i < j)%nat ->
     (a = b <-> (2 ^ 32 - 1 | Z.of_nat j - Z.of_nat i))).
Proof.
  intros Hg. cbv zeta. pose proof (next_ids_spec n t Hg) as Hs. split.
  - apply Forall_lookup. intros k id Hk. rewrite (Hs k id Hk). unfold id_after.
    pose proof (Z.mod_pos_bound (connIDGen t - 1 + Z.of_nat k) (2 ^ 32 - 1) ltac:(lia)). lia.
  - intros i j a b Hi Hj Hlt. rewrite (Hs i a Hi), (Hs j b Hj). unfold id_after.
    set (g := connIDGen t - 1). split.
    + intros E. exists ((g + Z.of_nat j) / (2 ^ 32 - 1) - (g + Z.of_nat i) / (2 ^ 32 - 1)).
      pose proof (Z.div_mod (g + Z.of_nat i) (2 ^ 32 - 1) ltac:(lia)).
      pose proof (Z.div_mod (g + Z.of_nat j) (2 ^ 32 - 1) ltac:(lia)). lia.
    + intros [q Hq]. f_equal. replace (g + Z.of_nat j) with (g + Z.of_nat i + q * (2 ^ 32 - 1)) by lia.
      by rewrite Z.mod_add by lia.
Qed.

(** ** The pool of sessions *)

(** The sessions that are open; the pool is well-formed when its sessions exist, are different
    and at most two of them are open. *)
Definition opens (t : Transport) : list nat := filter (fun s => is_open t s = true) (sessions t).

Record pool_ok (t : Transport) : Prop := {
  po_live : Forall (fun s => is_Some (sess (sw t) !! s)) (sessions t);
  po_nodup : NoDup (sessions t);
  po_two : (length (opens t) <= maxSessions)%nat
}.

Lemma first_session_Some f (l : list nat) s : first_session f l = Some s -> s ∈ l /\ f s = true.
Proof.
  unfold first_session. destruct (list_find f l) as [[i x]|] eqn:E; [|done]. intros [= <-].
  apply list_find_Some in E as (Hl & Hf & _). split; [by eapply list_elem_of_lookup_2|].
  by apply Is_true_eq_true.
Qed.

Lemma first_session_None f (l : list nat) : first_session f l = None -> forall s, s ∈ l -> f s = false.
Proof.
  unfold first_session. destruct (list_find f l) eqn:E; [done|]. intros _ s Hs.
  apply list_find_None in E. rewrite Forall_forall in E. specialize (E s Hs).
  destruct (f s); [|done]. exfalso. by apply E.
Qed.

(** A new session is open, and does not change the others. *)
Lemma start_session_facts id t :
  Forall (fun s => is_Some (sess (sw t) !! s)) (sessions t) ->
  let s := fresh_id (sess (sw t)) in
  let t' := (start_session id None t).2 in
  (start_session id None t).1 = Ok s /\ s ∉ sessions t /\ sessions t' = sessions t /\
  is_open t' s = true /\ is_Some (sess (sw t') !! s) /\
  forall s', s' ∈ sessions t -> is_open t' s' = is_open t s' /\ is_Some (sess (sw t') !! s').
Proof.
  intros Hl. cbv zeta. cbn [start_session fst snd]. rewrite Forall_forall in Hl.
  assert (fresh_id (sess (sw t)) ∉ sessions t) as Hn.
  { intros Hin. destruct (Hl _ Hin) as [x Hx]. by rewrite fresh_id_None in Hx. }
  unfold is_open, isClosed. cbn [set_sw set_sess sw sess sessions]. rewrite lookup_insert_eq.
  split_and!; try done. intros s' Hs'. rewrite lookup_insert_ne by (intros <-; done).
  split; [done|by apply Hl].
Qed.

Lemma opens_ext (l : list nat) t t' :
  (forall s, s ∈ l -> is_open t' s = is_open t s) ->
  filter (fun s => is_open t' s = true) l = filter (fun s => is_open t s = true) l.
Proof.
  intros He. induction l as [|s l IH]; [done|]. rewrite !filter_cons, He by left.
  rewrite IH; [done|]. intros s' Hs'. apply He. by right.
Qed.

Lemma no_opens (l : list nat) t :
  (forall s, s ∈ l -> is_open t s = false) -> filter (fun s => is_open t s = true) l = [].
Proof.
  induction l as [|s l IH]; intros Hl; [done|]. rewrite filter_cons, Hl by left.
  case_decide; [done|]. apply IH. intros s' Hs'. apply Hl. by right.
Qed.

(** The pool of sessions.  A pool with at most two open sessions keeps this under pickSession,
    which returns an open session of the pool, and fails only with the error of a session it had
    to start, leaving the pool as it was.  It starts one only if no session is open, or if the
    pool has room and at least eight connections are active. *)
Theorem pickSession_pool (id : string) (start : option goerr) (t : Transport) :
  pool_ok t ->
  let '(r, t') := pickSession id start t in
  match r with
  | Ok s => pool_ok t' /\ s ∈ sessions t' /\ is_open t' s = true /\
      (t' = t \/ (start = None /\ sessions t' = sessions t ++ [s]))
  | Err err => start = Some err /\ t' = t
  | _ => False
  end /\
  (t' <> t \/ (exists err, r = Err err) ->
     opens t = [] \/ (8 <= active t /\ (length (sessions t) < maxSessions)%nat)).
Proof.
  intros Hok. destruct Hok as [Hl Hn H2]. unfold pickSession.
  set (need := (8 <=? active t) && bool_decide (length (sessions t) < maxSessions)%nat).
  destruct (first_session _ (sessions t)) as [s|] eqn:E1.
  { apply first_session_Some in E1 as [Hin Hf]. apply andb_true_iff in Hf as [Ho _].
    split; [by split_and!; [|..|left]|]. intros [?|[? ?]]; done. }
  pose proof (first_session_None _ _ E1) as Hno.
  destruct (if bool_decide _ then _ else None) as [s|] eqn:E2.
  { case_bool_decide; [|done]. apply first_session_Some in E2 as [Hin Ho].
    split; [by split_and!; [|..|left]|]. intros [?|[? ?]]; done. }
  assert (opens t = [] \/ (8 <= active t /\ (length (sessions t) < maxSessions)%nat)) as Hwhy.
  { destruct need eqn:En.
    - right. unfold need in En. apply andb_true_iff in En as [Ha Hb]. apply bool_decide_eq_true in Hb.
      apply Z.leb_le in Ha. by split.
    - left. unfold opens. apply no_opens. intros s Hs. specialize (Hno s Hs). cbn beta in Hno.
      by destruct (is_open t s). }
  destruct start as [err|]; cbn [start_session].
  { split; [done|]. by intros _. }
  destruct (start_session_facts id t Hl) as (_ & Hnew & _ & Hopen & Hsome & Hrest).
  cbn [start_session fst snd] in *. set (s := fresh_id (sess (sw t))) in *.
  set (t1 := set_sw _ t) in *. cbn [set_sw sessions].
  assert ((if bool_decide (maxSessions <= length (sessions t1))%nat
           then first_session (is_open t1) (sessions t1) else None) = None) as ->.
  { change (sessions t1) with (sessions t). case_bool_decide; [|done].
    destruct (first_session (is_open t1) (sessions t)) as [s'|] eqn:E; [|done].
    apply first_session_Some in E as [Hin Ho]. destruct (Hrest s' Hin) as [Ho' _].
    pose proof (first_session_None _ _ E2 s' Hin) as Hf. congruence. }
  change (sessions t1) with (sessions t). split; [|by intros _]. split_and!.
  - split; cbn [set_sessions sessions sw].
    + apply Forall_app. split; [|by apply Forall_singleton].
      apply Forall_forall. intros s' Hs'. by destruct (Hrest s' Hs').
    + apply NoDup_app. split; [done|]. split; [|apply NoDup_singleton].
      intros s' Hs' Hin. apply list_elem_of_singleton in Hin. by subst.
    + unfold opens. cbn [set_sessions sessions]. rewrite filter_app, length_app.
      change (is_open (set_sessions (sessions t ++ [s]) t1)) with (is_open t1).
      rewrite (opens_ext (sessions t) t t1) by (intros s' Hs'; by destruct (Hrest s' Hs')).
      assert (length (filter (fun s => is_open t1 s = true) [s]) <= 1)%nat as H1
        by (rewrite filter_cons, filter_nil; destruct (decide _); simpl; lia).
      destruct Hwhy as [Hw|[_ Hlt]]; [unfold opens in Hw; rewrite Hw; simpl; unfold maxSessions; lia|].
      pose proof (length_filter (fun s => is_open t s = true) (sessions t)).
      unfold maxSessions in *. lia.
  - cbn [set_sessions sessions]. apply elem_of_app. right. by apply list_elem_of_singleton.
  - exact Hopen.
  - by right.
Qed.

(** ** Redirects *)

Section Redirects.
Context (parse : string -> result string).

(** Redirects.  doPost follows every redirect, without a limit: against a server that answers
    each request with a redirect it returns after no number of requests, whereas the first answer
    that is not a redirect ends it, with that answer's status. *)
Theorem doPost_redirects (http : string -> list byte -> result response) (url : string)
    (encrypted : list byte) (readBody : bool) (t : Transport) :
  let redirects u := exists r, http u encrypted = Ok r /\ 300 <= status r < 400 /\
    location r <> ""%string in
  ((forall u, redirects u) -> forall fuel, (doPost fuel parse http url encrypted readBody t).1 = OutOfFuel) /\
  (forall r fuel, http url encrypted = Ok r -> ~ redirects url -> (0 < fuel)%nat ->
     exists b, doPost fuel parse http url encrypted readBody t = (Ok (b, status r), t)).
Proof.
  cbv zeta. split.
  - intros Hr fuel. revert url t. induction fuel as [|fuel IH]; intros url t; [done|]. cbn [doPost].
    destruct (Hr url) as (r & -> & Hs & Hl).
    rewrite (proj2 (Z.leb_le _ _)), (proj2 (Z.ltb_lt _ _)), (proj2 (String.eqb_neq _ _)) by (done || lia).
    cbn [andb negb]. apply IH.
  - intros r fuel Hr Hn Hf. destruct fuel as [|fuel]; [lia|]. cbn [doPost]. rewrite Hr.
    assert ((300 <=? status r) && (status r <? 400) && negb (String.eqb (location r) "") = false) as ->.
    { destruct (Z.leb_spec 300 (status r)); [|done]. destruct (Z.ltb_spec (status r) 400); [|done].
      destruct (String.eqb_spec (location r) ""); [done|]. exfalso. apply Hn. by exists r. }
    destruct readBody; by eexists.
Qed.
End Redirects.

(** ** Witnesses *)

Definition demo_transport0 : Transport :=
  MkTransport "http://a" "http" "a" UplinkStream 1 [] 0 [] (MkWorld ∅ ∅ [] []) 0.

Lemma NextConnID_distinct_witness :
  (next_ids 3 demo_transport0).1 = [1; 2; 3] /\
  Forall (fun id => 0 < id < 2 ^ 32) (next_ids 3 demo_transport0).1.
Proof.
  split; [by vm_compute|]. refine (proj1 (NextConnID_distinct 3 demo_transport0 _)). by vm_compute.
Defined.

Lemma pickSession_pool_witness :
  let '(r, t') := pickSession "ab" None demo_transport0 in
  exists s, r = Ok s /\ pool_ok t' /\ is_open t' s = true /\ sessions t' = [s].
Proof.
  assert (pool_ok demo_transport0) as Hok.
  { split; [constructor|constructor|]. vm_compute. lia. }
  pose proof (pickSession_pool "ab" None demo_transport0 Hok) as H.
  assert ((pickSession "ab" None demo_transport0).1 = Ok 1%nat) as E by (by vm_compute).
  assert (sessions (pickSession "ab" None demo_transport0).2 = [1%nat]) as E2 by (by vm_compute).
  destruct (pickSession "ab" None demo_transport0) as [r t']. simpl in E, E2. subst r.
  destruct H as [(H1 & _ & H3 & _) _]. exists 1%nat. split; [done|]. split; [exact H1|].
  split; [exact H3|exact E2].
Defined.
