(* ===== verification/GoHeap.v ===== *)
(** Go's container/heap.

    The package works on any type with the five methods of heap.Interface: the class
    [HeapInterface].  [HeapLaws] says when such a type represents a list under a strict weak
    order; Push, Pop and Fix of any lawful instance keep the list a heap, return its least
    element, and lose nothing.  This file models the Go standard library and no file of
    src/; ClientMap.v has the instance of the program. *)

From S2P Require Import Prelude.
From Stdlib Require Import Lia.
From stdpp Require Import list strings.

#[local] Open Scope nat_scope.

(** ** The package *)

(** heap.Interface.  An index out of range, or a panic of the implementation, is a [Panic]. *)
Class HeapInterface (H X : Type) := {
  hLen : H -> result nat;
  hLess : H -> nat -> nat -> result bool;
  hSwap : H -> nat -> nat -> result H;
  hPush : H -> X -> result H;
  hPop : H -> result (X * H)
}.

Section heap.
Context {H X : Type} {HI : HeapInterface H X}.

(** The parent of an index: [(j - 1) / 2], which is 0 for 0 as in Go. *)
Definition parent (j : nat) : nat := (j - 1) / 2.

(** The loop of [up].  The index halves, so that [S j] turns are enough. *)
Fixpoint up_loop (fuel : nat) (h : H) (j : nat) : result H :=
  match fuel with
  | O => OutOfFuel
  | S fuel =>
      let i := parent j in
      if decide (i = j) then Ok h
      else less ← hLess h j i;
           if negb less then Ok h
           else h' ← hSwap h i j; up_loop fuel h' i
  end.

Definition up (h : H) (j : nat) : result H := up_loop (S j) h j.

(** The child of [i] with the least element, the left one [j1] when they are even. *)
Definition least_child (h : H) (j1 n : nat) : result nat :=
  if decide (j1 + 1 < n)
  then less ← hLess h (j1 + 1) j1; Ok (if less : bool then j1 + 1 else j1)
  else Ok j1.

(** The loop of [down]: where the element of [i] ends.  The index grows below [n]. *)
Fixpoint down_loop (fuel : nat) (h : H) (i n : nat) : result (nat * H) :=
  match fuel with
  | O => OutOfFuel
  | S fuel =>
      let j1 := 2 * i + 1 in
      if decide (n <= j1) then Ok (i, h)
      else j ← least_child h j1 n;
           less ← hLess h j i;
           if negb less then Ok (i, h)
           else h' ← hSwap h i j; down_loop fuel h' j n
  end.

Definition down (h : H) (i0 n : nat) : result (bool * H) :=
  '(i, h') ← down_loop (S n) h i0 n; Ok (bool_decide (i0 < i), h').

Definition heap_Push (h : H) (x : X) : result H :=
  h ← hPush h x; n ← hLen h; up h (n - 1).

(** heap.Pop: of an empty heap, h.Len()-1 is -1 and h.Swap panics. *)
Definition heap_Pop (h : H) : result (X * H) :=
  n ← hLen h;
  if decide (n = 0) then Panic "index out of range"
  else h ← hSwap h 0 (n - 1);
       '(_, h) ← down h 0 (n - 1);
       hPop h.

Definition heap_Fix (h : H) (i : nat) : result H :=
  n ← hLen h;
  '(moved, h) ← down h i n;
  if moved : bool then Ok h else up h i.

End heap.

(** ** Heaps on lists *)

(** Exchange two elements. *)
Definition swap_at {X} (i j : nat) (l : list X) : list X :=
  match l !! i, l !! j with
  | Some x, Some y => <[i:=y]> (<[j:=x]> l)
  | _, _ => l
  end.

Lemma length_swap_at {X} i j (l : list X) : length (swap_at i j l) = length l.
Proof. unfold swap_at. repeat case_match; by rewrite ?length_insert. Qed.

(** Where an element of the exchanged list comes from. *)
Lemma lookup_swap_at {X} i j (l : list X) k :
  i < length l -> j < length l ->
  swap_at i j l !! k = if decide (k = i) then l !! j else if decide (k = j) then l !! i else l !! k.
Proof.
  intros [x Ex]%lookup_lt_is_Some [y Ey]%lookup_lt_is_Some. unfold swap_at. rewrite Ex, Ey.
  apply lookup_lt_Some in Ex as Li. apply lookup_lt_Some in Ey as Lj.
  destruct (decide (k = i)) as [->|N1].
  { by rewrite list_lookup_insert_eq by (by rewrite length_insert). }
  rewrite list_lookup_insert_ne by done.
  destruct (decide (k = j)) as [->|N2]; [by rewrite list_lookup_insert_eq|].
  by rewrite list_lookup_insert_ne.
Qed.

Lemma swap_at_perm {X} i j (l : list X) : swap_at i j l ≡ₚ l.
Proof.
  unfold swap_at. destruct (l !! i) as [x|] eqn:Ex; [|done].
  destruct (l !! j) as [y|] eqn:Ey; [|done]. by apply Permutation_insert_swap.
Qed.

(** ** Order *)

(** A strict weak order, as the functions of the package expect. *)
Class WeakOrder {X : Type} (lt : X -> X -> bool) : Prop := {
  lt_asym x y : lt x y = true -> lt y x = false;
  le_trans x y z : lt y x = false -> lt z y = false -> lt z x = false
}.

Section order.
Context {X : Type} (lt : X -> X -> bool).

(** The elements at [p] and [k], when there are, are in order. *)
Definition pair_ok (l : list X) (p k : nat) : Prop :=
  forall x y, l !! p = Some x -> l !! k = Some y -> lt y x = false.

(** The first [n] elements form a heap; a heap but for the pairs of index [i], whose parent is
    in order with its children; the same with the children of [i] in order with [i]. *)
Definition heap (n : nat) (l : list X) : Prop :=
  forall k, 0 < k < n -> pair_ok l (parent k) k.
Definition grand_ok (i n : nat) (l : list X) : Prop :=
  forall k, 0 < i -> k < n -> parent k = i -> pair_ok l (parent i) k.
Definition heap_but (i n : nat) (l : list X) : Prop :=
  (forall k, 0 < k < n -> k <> i -> parent k <> i -> pair_ok l (parent k) k) /\ grand_ok i n l.
Definition children_ok (i n : nat) (l : list X) : Prop :=
  forall k, 0 < k < n -> parent k = i -> pair_ok l i k.

Lemma parent_lt k : 0 < k -> parent k < k.
Proof. intros. unfold parent. apply Nat.Div0.div_lt_upper_bound; lia. Qed.

Lemma parent_children k i : 0 < k -> parent k = i <-> k = 2 * i + 1 \/ k = 2 * i + 2.
Proof.
  intros. unfold parent. pose proof (Nat.div_mod_eq (k - 1) 2).
  pose proof (Nat.mod_upper_bound (k - 1) 2). lia.
Qed.


Context {WO : WeakOrder lt}.

(** What [up] needs: only the pair above [j] may be out of order. *)
Definition up_ok (j n : nat) (l : list X) : Prop :=
  (forall k, 0 < k < n -> k <> j -> pair_ok l (parent k) k) /\ grand_ok j n l.

Lemma up_ok_intro j n l : heap_but j n l -> children_ok j n l -> up_ok j n l.
Proof.
  intros [H1 H2] H3. split; [|done]. intros k Hk N.
  destruct (decide (parent k = j)) as [<-|N']; [by apply H3|by apply H1].
Qed.

Lemma lt_le x y : lt x y = true -> lt y x = false.
Proof. apply lt_asym. Qed.

Lemma pair_ok_refl l k : pair_ok l k k.
Proof.
  intros x y ? ?. simplify_eq. destruct (lt _ _) eqn:E; [|done]. pose proof (lt_asym _ _ E). congruence.
Qed.

(** A pair of an exchanged list: each place is [i], [j] or another. *)
Ltac swap_pair :=
  let a := fresh "a" in let b := fresh "b" in
  intros a b; rewrite !lookup_swap_at by lia; repeat case_decide; intros; simplify_eq; try lia.

Lemma up_step i j n l x y :
  n = length l -> up_ok j n l -> parent j = i -> i < j < n ->
  l !! j = Some x -> l !! i = Some y -> lt x y = true ->
  up_ok i n (swap_at i j l).
Proof.
  intros -> [H1 H2] Hp Hlt Ex Ey Hxy. split.
  - intros k Hk N. pose proof (parent_lt k ltac:(lia)) as Pk. swap_pair.
    + by apply lt_le.
    + eapply le_trans; [apply lt_le, Hxy|]. eapply (H1 k); eauto; congruence.
    + eapply (H2 k); eauto; lia.
    + by eapply (H1 k).
  - intros k Hi Hk P. pose proof (parent_lt i Hi) as Pi.
    assert (Hup : pair_ok l (parent i) i) by (apply H1; lia).
    assert (0 < k) by (destruct k; [by rewrite <- P in Hi|lia]).
    pose proof (parent_lt k ltac:(lia)) as Pk. swap_pair.
    + by eapply Hup.
    + eapply le_trans; [by eapply Hup|]. eapply (H1 k); eauto; congruence.
Qed.

(** [j] is a child of [i] whose element is the least of the children's. *)
Definition is_least (i j n : nat) (l : list X) : Prop :=
  0 < j < n /\ parent j = i /\ forall k, 0 < k < n -> parent k = i -> pair_ok l j k.

Lemma down_step i j n l x y :
  n <= length l -> heap_but i n l -> is_least i j n l ->
  l !! j = Some x -> l !! i = Some y -> lt x y = true ->
  heap_but j n (swap_at i j l) /\ pair_ok (swap_at i j l) i j /\
  (0 < i -> pair_ok (swap_at i j l) (parent i) i).
Proof.
  intros Hn [H1 H2] (Hj & Hp & Hl) Ex Ey Hxy.
  pose proof (parent_lt j ltac:(lia)) as Pj.
  assert (Hi : 0 < i -> pair_ok (swap_at i j l) (parent i) i).
  { intros Hi. pose proof (parent_lt i Hi). swap_pair. eapply (H2 j); eauto; lia. }
  split_and!; [split| |done].
  - intros k Hk N1 N2. pose proof (parent_lt k ltac:(lia)) as Pk.
    destruct (decide (k = i)) as [->|N3]; [apply Hi; lia|]. swap_pair.
    + by eapply (Hl k).
    + by eapply (H1 k).
  - intros k Hj0 Hk P. assert (0 < k) by (destruct k; [rewrite <- P in Hj0; cbv in Hj0; lia|lia]).
    pose proof (parent_lt k ltac:(lia)) as Pk. swap_pair.
    eapply (H1 k); eauto; try lia; congruence.
  - swap_pair. by apply lt_le.
Qed.

(** The first element of a heap is a least one. *)
Lemma heap_least n l x k y :
  n = length l -> heap n l -> l !! 0 = Some x -> l !! k = Some y -> lt y x = false.
Proof.
  intros -> Hh E0. revert y. induction k as [k IH] using lt_wf_ind. intros y Ek.
  destruct (decide (k = 0)) as [->|N].
  { by apply (pair_ok_refl l 0). }
  pose proof (parent_lt k ltac:(lia)) as Pk. apply lookup_lt_Some in Ek as Lk.
  destruct (l !! parent k) as [z|] eqn:Ez; [|apply lookup_ge_None in Ez; lia].
  apply (le_trans x z y); [by eapply IH|]. by eapply (Hh k); [lia| |].
Qed.

End order.

(** ** Lawful implementations *)

(** [Rep h l]: [h] holds the elements [l], in this order.  [fits l x]: the implementation
    accepts [x] besides [l]. *)
Class HeapLaws {H X : Type} `{HI : HeapInterface H X} (Rep : H -> list X -> Prop)
    (lt : X -> X -> bool) (fits : list X -> X -> Prop) : Prop := {
  laws_order : WeakOrder lt;
  Len_law h l : Rep h l -> hLen h = Ok (length l);
  Less_law h l i j x y :
    Rep h l -> l !! i = Some x -> l !! j = Some y -> hLess h i j = Ok (lt x y);
  Swap_law h l i j :
    Rep h l -> i < length l -> j < length l ->
    exists h', hSwap h i j = Ok h' /\ Rep h' (swap_at i j l);
  Push_law h l x : Rep h l -> fits l x -> exists h', hPush h x = Ok h' /\ Rep h' (l ++ [x]);
  Pop_law h l x : Rep h (l ++ [x]) -> exists h', hPop h = Ok (x, h') /\ Rep h' l
}.

Section laws.
Context {H X : Type} `{HI : HeapInterface H X} {Rep : H -> list X -> Prop}
  {lt : X -> X -> bool} {fits : list X -> X -> Prop} {HL : HeapLaws Rep lt fits}.
#[local] Instance lawful_order : WeakOrder lt := @laws_order _ _ _ _ _ _ HL.

Lemma up_loop_spec fuel h l j :
  Rep h l -> j < length l -> j < fuel -> up_ok lt j (length l) l ->
  exists h' l', up_loop fuel h j = Ok h' /\ Rep h' l' /\ l' ≡ₚ l /\ heap lt (length l) l'.
Proof.
  revert h l j. induction fuel as [|fuel IH]; intros h l j Hr Hj Hf Hup; [lia|]. simpl.
  destruct (decide (parent j = j)) as [Hp|Hp].
  { assert (j = 0) as -> by (destruct j; [done|pose proof (parent_lt (S j)); lia]).
    eexists h, l. split_and!; try done. intros k Hk. apply Hup; lia. }
  assert (0 < j) by (destruct j; [done|lia]). pose proof (parent_lt j ltac:(lia)) as Pj.
  destruct (lookup_lt_is_Some_2 l j) as [x Ex]; [done|].
  destruct (lookup_lt_is_Some_2 l (parent j)) as [y Ey]; [lia|].
  rewrite (Less_law h l j (parent j) x y) by done. cbn [mbind result_bind].
  destruct (lt x y) eqn:Hxy; simpl.
  - destruct (Swap_law h l (parent j) j) as (h1 & -> & R1); [done|lia|done|]. cbn [mbind result_bind].
    assert (L1 := length_swap_at (parent j) j l).
    destruct (IH h1 (swap_at (parent j) j l) (parent j)) as (h2 & l2 & -> & R2 & P2 & Hh);
      [done|lia|lia|rewrite L1; by eapply (up_step lt _ j _ l x y)|].
    exists h2, l2. split_and!; [done|done|by rewrite P2, swap_at_perm|by rewrite <- L1].
  - exists h, l. split_and!; try done. intros k Hk.
    destruct (decide (k = j)) as [->|N]; [|by apply Hup]. intros a b ??. by simplify_eq.
Qed.

Lemma least_child_spec h l i n :
  Rep h l -> n <= length l -> 2 * i + 1 < n ->
  exists j, least_child h (2 * i + 1) n = Ok j /\ is_least lt i j n l.
Proof.
  intros Hr Hn Hi. unfold least_child.
  assert (C : forall k, 0 < k < n -> parent k = i -> k = 2 * i + 1 \/ k = 2 * i + 2).
  { intros k Hk Hp. apply parent_children; [lia|done]. }
  assert (Hrefl : forall k, pair_ok lt l k k).
  { intros k. apply (pair_ok_refl lt). }
  case_decide as D.
  - destruct (lookup_lt_is_Some_2 l (2 * i + 1 + 1)) as [x Ex]; [lia|].
    destruct (lookup_lt_is_Some_2 l (2 * i + 1)) as [y Ey]; [lia|].
    rewrite (Less_law h l _ _ x y) by done. cbn [mbind result_bind].
    exists (if lt x y then 2 * i + 1 + 1 else 2 * i + 1). split; [done|].
    split; [destruct (lt x y); lia|]. split; [destruct (lt x y); apply parent_children; lia|].
    replace (2 * i + 1 + 1) with (2 * i + 2) in * by lia.
    intros k Hk Hp. destruct (C k Hk Hp) as [->| ->]; destruct (lt x y) eqn:E; try apply Hrefl;
      intros a b ??; simplify_eq; [by apply (lt_le lt)|done].
  - exists (2 * i + 1). split; [done|]. split; [lia|]. split; [apply parent_children; lia|].
    intros k Hk Hp. destruct (C k Hk Hp) as [->| ->]; [done|lia].
Qed.

(** [down] ends where it began, with the children of [i] in order, or below, with a heap. *)
Lemma down_loop_spec fuel h l i n :
  Rep h l -> n <= length l -> i < n -> n - i < fuel -> heap_but lt i n l ->
  exists i' h' l', down_loop fuel h i n = Ok (i', h') /\ Rep h' l' /\ l' ≡ₚ l /\
    drop n l' = drop n l /\
    ((i' = i /\ l' = l /\ children_ok lt i n l) \/
     (i < i' /\ heap lt n l')).
Proof.
  revert h l i. induction fuel as [|fuel IH]; intros h l i Hr Hn Hi Hf Hb; [lia|].
  cbn [down_loop]. case_decide as D.
  { exists i, h, l. split_and!; try done. left. split_and!; [done|done|].
    intros k Hk Hp. apply parent_children in Hp; lia. }
  destruct (least_child_spec h l i n) as (j & -> & Hl); [done|done|lia|].
  assert (Hl' := Hl). destruct Hl' as (Hj & Hp & Hmin). cbn [mbind result_bind].
  pose proof (parent_lt j ltac:(lia)) as Pj.
  destruct (lookup_lt_is_Some_2 l j) as [x Ex]; [lia|].
  destruct (lookup_lt_is_Some_2 l i) as [y Ey]; [lia|].
  rewrite (Less_law h l j i x y) by done. cbn [mbind result_bind].
  destruct (lt x y) eqn:Hxy; simpl.
  - destruct (Swap_law h l i j) as (h1 & -> & R1); [done|lia|lia|]. cbn [mbind result_bind].
    destruct (down_step lt i j n l x y) as (Hb1 & Hij & Hpi); try done.
    destruct (IH h1 (swap_at i j l) j) as (i' & h2 & l2 & -> & R2 & P2 & D2 & C2);
      [done|by rewrite length_swap_at|lia|lia|done|].
    exists i', h2, l2. split_and!; [done|done|by rewrite P2, swap_at_perm| |right].
    { rewrite D2. apply list_eq. intros k. rewrite !lookup_drop, lookup_swap_at by lia.
      by repeat case_decide; try lia. }
    destruct C2 as [(-> & -> & C)|[? C]]; (split; [lia|]); [|done].
    intros k Hk. destruct (decide (k = j)) as [->|N]; [by rewrite Hp|].
    destruct (decide (parent k = j)) as [<-|N']; [by apply C|by apply Hb1].
  - exists i, h, l. split_and!; try done. left. split_and!; [done|done|].
    intros k Hk Hpk a b ? ?. simplify_eq. apply (le_trans _ x); [done|by eapply (Hmin k)].
Qed.

Lemma down_spec h l i n :
  Rep h l -> n <= length l -> i < n -> heap_but lt i n l ->
  exists b h' l', down h i n = Ok (b, h') /\ Rep h' l' /\ l' ≡ₚ l /\ drop n l' = drop n l /\
    (if b : bool then heap lt n l' else l' = l /\ children_ok lt i n l).
Proof.
  intros Hr Hn Hi Hb. unfold down.
  destruct (down_loop_spec (S n) h l i n) as (i' & h' & l' & -> & R & P & D & C); [done..|lia|done|].
  cbn [mbind result_bind]. exists (bool_decide (i < i')), h', l'. split_and!; try done.
  destruct C as [(-> & -> & C)|[? C]]; case_bool_decide; [lia|done|done|lia].
Qed.

(** ** The package keeps heaps, and returns a least element *)

Lemma heap_Push_spec h l x :
  Rep h l -> heap lt (length l) l -> fits l x ->
  exists h' l', heap_Push h x = Ok h' /\ Rep h' l' /\ l' ≡ₚ x :: l /\ heap lt (length l') l'.
Proof.
  intros Hr Hh Hf. unfold heap_Push. destruct (Push_law h l x) as (h1 & -> & R1); [done..|].
  cbn [mbind result_bind]. rewrite (Len_law h1 (l ++ [x])) by done. cbn [mbind result_bind].
  assert (Ln : length (l ++ [x]) = S (length l)) by (rewrite length_app; simpl; lia).
  destruct (up_loop_spec (S (length l)) h1 (l ++ [x]) (length l)) as (h2 & l2 & E & R2 & P2 & H2);
    [done|lia|lia| |].
  { split.
    - intros k Hk N a b. pose proof (parent_lt k ltac:(lia)).
      rewrite !lookup_app_l by lia. apply Hh; lia.
    - intros k Hj Hk Hp. destruct k as [|k]; [change (parent 0) with 0 in Hp; lia|].
      pose proof (parent_lt (S k)). lia. }
  unfold up. rewrite Ln. replace (S (length l) - 1) with (length l) by lia. rewrite E.
  exists h2, l2. split_and!; [done|done|by rewrite P2, Permutation_app_comm|].
  by rewrite P2 at 1.
Qed.

Lemma heap_Fix_spec h l i :
  Rep h l -> i < length l -> heap_but lt i (length l) l ->
  exists h' l', heap_Fix h i = Ok h' /\ Rep h' l' /\ l' ≡ₚ l /\ heap lt (length l') l'.
Proof.
  intros Hr Hi Hb. unfold heap_Fix. rewrite (Len_law h l) by done. cbn [mbind result_bind].
  destruct (down_spec h l i (length l)) as (b & h1 & l1 & -> & R1 & P1 & _ & C); [done..|].
  cbn [mbind result_bind]. destruct b.
  - exists h1, l1. split_and!; try done. by rewrite P1 at 1.
  - destruct C as [-> C]. unfold up.
    destruct (up_loop_spec (S i) h1 l i) as (h2 & l2 & -> & R2 & P2 & H2);
      [done|done|lia|by apply up_ok_intro|].
    exists h2, l2. split_and!; try done. by rewrite P2 at 1.
Qed.

(** The part of heap.Pop between the exchange and the removal. *)
Lemma down_root h l x n :
  Rep h l -> length l = S n -> l !! n = Some x -> heap_but lt 0 n l ->
  exists b h' l', down h 0 n = Ok (b, h') /\ Rep h' (l' ++ [x]) /\ l' ++ [x] ≡ₚ l /\
    heap lt (length l') l'.
Proof.
  intros Hr Ln Ex Hb. assert (D : drop n l = [x]).
  { rewrite (drop_S _ x) by done. f_equal. apply drop_ge. lia. }
  destruct (decide (n = 0)) as [->|N].
  { rewrite drop_0 in D. subst l. by exists false, h, []. }
  destruct (down_spec h l 0 n) as (b & h' & l' & -> & R & P & D' & C); [done|lia|lia|done|].
  assert (E : l' = take n l' ++ [x]) by (by rewrite <- D, <- D', take_drop).
  assert (L' : length (take n l') = n).
  { rewrite length_take. apply Permutation_length in P. lia. }
  exists b, h', (take n l'). rewrite <- E. split_and!; [done..|]. rewrite L'.
  assert (Hh : heap lt n l').
  { destruct b; [done|]. destruct C as [-> C]. intros k Hk.
    destruct (decide (parent k = 0)) as [E0|N']; [|apply Hb; lia].
    rewrite E0. by apply C. }
  intros k Hk a c. pose proof (parent_lt k ltac:(lia)).
  rewrite !lookup_take_lt by lia. by apply Hh.
Qed.

Lemma heap_Pop_spec h l :
  Rep h l -> heap lt (length l) l -> l <> [] ->
  exists x h' l', heap_Pop h = Ok (x, h') /\ Rep h' l' /\ l ≡ₚ x :: l' /\
    heap lt (length l') l' /\ l !! 0 = Some x.
Proof.
  intros Hr Hh Hl. unfold heap_Pop. rewrite (Len_law h l) by done. cbn [mbind result_bind].
  assert (0 < length l) by (destruct l; [done|simpl; lia]).
  rewrite decide_False by lia. destruct (lookup_lt_is_Some_2 l 0) as [x Ex]; [done|].
  destruct (Swap_law h l 0 (length l - 1)) as (h1 & -> & R1); [done|lia|lia|].
  cbn [mbind result_bind]. set (l1 := swap_at 0 (length l - 1) l) in *.
  assert (L1 : length l1 = length l) by apply length_swap_at.
  assert (Hlast : l1 !! (length l - 1) = Some x).
  { unfold l1. rewrite lookup_swap_at by lia. repeat case_decide; congruence. }
  destruct (down_root h1 l1 x (length l - 1)) as (b & h2 & l2 & -> & R2 & P2 & H2);
    [done|lia|done| |].
  { split; [|intros k Hk; lia]. intros k Hk N1 N2 a c. pose proof (parent_lt k ltac:(lia)).
    unfold l1. rewrite !lookup_swap_at by lia. repeat case_decide; try lia. apply Hh; lia. }
  cbn [mbind result_bind]. destruct (Pop_law h2 l2 x) as (h3 & -> & R3); [done|].
  exists x, h3, l2. split_and!; try done.
  transitivity l1; [symmetry; apply swap_at_perm|]. by rewrite <- P2, Permutation_app_comm.
Qed.

End laws.
