(* ===== verification/ClientMap.v ===== *)
(** The live clients of a snowflake server: snowflake/common/turbotunnel/clientmap.go.

    A heap of client records ordered by the time they were last seen, with an index from
    addresses to places in the heap.  The heap operations are those of GoHeap.v, on the
    instance that the file's Len, Less, Swap, Push and Pop make.  Addresses and channels are
    parameters; the channel that [make] returns is an argument of [SendQueue].  The theorems
    compare the pair of heap and index with one map from addresses to records. *)

From S2P Require Import Prelude GoHeap.
From Stdlib Require Import ZArith Lia.
From stdpp Require Import gmap list strings fin_maps.

#[local] Open Scope Z_scope.

(** ** Time *)

(** Instants and durations in nanoseconds.  t.Sub(u) saturates. *)
Definition maxDuration : Z := 2 ^ 63 - 1.
Definition minDuration : Z := - 2 ^ 63.
Definition Sub (t u : Z) : Z := Z.max minDuration (Z.min maxDuration (t - u)).
Definition Before (t u : Z) : bool := t <? u.

(** ** The code *)

Record clientRecord (A Q : Type) := MkRecord { Addr : A; LastSeen : Z; SendQ : Q }.
Arguments MkRecord {A Q} _ _ _.
Arguments Addr {A Q} _.
Arguments LastSeen {A Q} _.
Arguments SendQ {A Q} _.

Record clientMapInner (A Q : Type) `{Countable A} := MkInner {
  byAge : list (clientRecord A Q);
  byAddr : gmap A nat
}.
Arguments MkInner {A Q _ _} _ _.
Arguments byAge {A Q _ _} _.
Arguments byAddr {A Q _ _} _.

Section ClientMap.
Context {A Q : Type} `{Countable A}.

Notation clientRecord := (clientRecord A Q).
Notation clientMapInner := (clientMapInner A Q).

(** [inner.byAge[i]]. *)
Definition byAge_at (inner : clientMapInner) (i : nat) : result clientRecord :=
  match byAge inner !! i with Some r => Ok r | None => Panic "index out of range" end.

(** The heap.Interface of clientMapInner. *)
Definition Len (inner : clientMapInner) : result nat :=
  if decide (length (byAge inner) = size (byAddr inner))
  then Ok (length (byAge inner)) else Panic "inconsistent clientMap".

Definition Less (inner : clientMapInner) (i j : nat) : result bool :=
  x ← byAge_at inner i; y ← byAge_at inner j; Ok (Before (LastSeen x) (LastSeen y)).

Definition Swap (inner : clientMapInner) (i j : nat) : result clientMapInner :=
  x ← byAge_at inner i; y ← byAge_at inner j;
  Ok (MkInner (<[i:=y]> (<[j:=x]> (byAge inner)))
              (<[Addr x := j]> (<[Addr y := i]> (byAddr inner)))).

Definition Push (inner : clientMapInner) (record : clientRecord) : result clientMapInner :=
  match byAddr inner !! Addr record with
  | Some _ => Panic "duplicate address in clientMap"
  | None => Ok (MkInner (byAge inner ++ [record])
                        (<[Addr record := length (byAge inner)]> (byAddr inner)))
  end.

Definition Pop (inner : clientMapInner) : result (clientRecord * clientMapInner) :=
  let n := size (byAddr inner) in
  if decide (n = O) then Panic "index out of range"
  else record ← byAge_at inner (n - 1);
       Ok (record, MkInner (take (n - 1) (byAge inner)) (delete (Addr record) (byAddr inner))).

#[export] Instance clientMapInner_heap : HeapInterface clientMapInner clientRecord := {|
  hLen := Len; hLess := Less; hSwap := Swap; hPush := Push; hPop := Pop
|}.

Definition NewClientMap : clientMapInner := MkInner [] ∅.

(** The oldest record is older than the timeout. *)
Definition expired (inner : clientMapInner) (now timeout : Z) : bool :=
  match byAge inner with [] => false | r :: _ => timeout <=? Sub now (LastSeen r) end.

(** Each turn pops a record: one more turn than there are records is enough. *)
Fixpoint removeExpired_loop (fuel : nat) (inner : clientMapInner) (now timeout : Z) :
    result clientMapInner :=
  match fuel with
  | O => OutOfFuel
  | S fuel =>
      if expired inner now timeout
      then '(_, inner) ← heap_Pop inner; removeExpired_loop fuel inner now timeout
      else Ok inner
  end.

Definition removeExpired (inner : clientMapInner) (now timeout : Z) : result clientMapInner :=
  removeExpired_loop (S (length (byAge inner))) inner now timeout.

(** [q] is the channel that [make] returns when the address is new. *)
Definition SendQueue (inner : clientMapInner) (addr : A) (now : Z) (q : Q) :
    result (Q * clientMapInner) :=
  match byAddr inner !! addr with
  | Some i =>
      record ← byAge_at inner i;
      let inner := MkInner (<[i := MkRecord (Addr record) now (SendQ record)]> (byAge inner))
                           (byAddr inner) in
      inner ← heap_Fix inner i;
      Ok (SendQ record, inner)
  | None =>
      inner ← heap_Push inner (MkRecord addr now q);
      Ok (q, inner)
  end.

(** ** The reference: one map *)

Notation clients := (gmap A (Z * Q)).

Definition ref_SendQueue (m : clients) (addr : A) (now : Z) (q : Q) : Q * clients :=
  let q' := match m !! addr with Some (_, q') => q' | None => q end in
  (q', <[addr := (now, q')]> m).

Definition live (now timeout : Z) (r : A * (Z * Q)) : Prop := Sub now r.2.1 < timeout.
#[export] Instance live_dec now timeout r : Decision (live now timeout r).
Proof. unfold live. apply _. Defined.

Definition ref_removeExpired (m : clients) (now timeout : Z) : clients :=
  filter (live now timeout) m.

(** The records, keyed by address. *)
Definition entry (r : clientRecord) : A * (Z * Q) := (Addr r, (LastSeen r, SendQ r)).
Definition records (inner : clientMapInner) : clients := list_to_map (map entry (byAge inner)).

(** What the goroutines of the program ask of the map, and the answers. *)
Inductive op : Type :=
  | OpSendQueue (addr : A) (now : Z) (q : Q)
  | OpRemoveExpired (now timeout : Z).

Fixpoint run (ops : list op) (inner : clientMapInner) : result (list Q * clientMapInner) :=
  match ops with
  | [] => Ok ([], inner)
  | OpSendQueue addr now q :: ops =>
      '(q', inner) ← SendQueue inner addr now q;
      '(qs, inner) ← run ops inner;
      Ok (q' :: qs, inner)
  | OpRemoveExpired now timeout :: ops =>
      inner ← removeExpired inner now timeout; run ops inner
  end.

Fixpoint ref_run (ops : list op) (m : clients) : list Q * clients :=
  match ops with
  | [] => ([], m)
  | OpSendQueue addr now q :: ops =>
      let '(q', m) := ref_SendQueue m addr now q in
      let '(qs, m) := ref_run ops m in (q' :: qs, m)
  | OpRemoveExpired now timeout :: ops => ref_run ops (ref_removeExpired m now timeout)
  end.

(** ** The instance is lawful *)

Definition older (x y : clientRecord) : bool := Before (LastSeen x) (LastSeen y).

#[export] Instance older_order : WeakOrder older.
Proof. split; unfold older, Before; intros; lia. Qed.

(** The index finds the place of each address, and of no other. *)
Definition index_ok (m : gmap A nat) (l : list clientRecord) : Prop :=
  forall a i, m !! a = Some i <-> exists r, l !! i = Some r /\ Addr r = a.

Definition Rep (inner : clientMapInner) (l : list clientRecord) : Prop :=
  byAge inner = l /\ index_ok (byAddr inner) l.

Definition new_addr (l : list clientRecord) (x : clientRecord) : Prop := Addr x ∉ map Addr l.

Lemma index_NoDup m l : index_ok m l -> NoDup (map Addr l).
Proof.
  intros Hi. apply NoDup_alt. intros i j a Ei Ej.
  apply list_lookup_fmap_Some in Ei as (x & -> & Ex), Ej as (y & E & Ey).
  assert (m !! Addr x = Some i) by (apply Hi; eauto).
  assert (m !! Addr x = Some j) by (apply Hi; eauto). congruence.
Qed.

Lemma index_size m l : index_ok m l -> size m = length l.
Proof.
  intros Hi. pose proof (index_NoDup m l Hi) as ND.
  rewrite <- (size_dom m), <- (length_map Addr l), <- (size_list_to_set (C := gset A)) by done.
  f_equal. apply set_eq. intros a. rewrite elem_of_dom, elem_of_list_to_set. split.
  - intros [i Ei]. apply Hi in Ei as (r & Er & <-). apply list_elem_of_fmap.
    exists r. split; [done|]. by eapply list_elem_of_lookup_2.
  - intros (r & -> & [i Er]%list_elem_of_lookup)%list_elem_of_fmap. exists i. apply Hi. eauto.
Qed.


Lemma byAge_at_Some inner l i r : byAge inner = l -> l !! i = Some r -> byAge_at inner i = Ok r.
Proof. intros <- E. unfold byAge_at. by rewrite E. Qed.

Lemma index_inj m l i j x y :
  index_ok m l -> l !! i = Some x -> l !! j = Some y -> Addr x = Addr y -> i = j.
Proof.
  intros Hi Ex Ey E. assert (m !! Addr x = Some i) by (apply Hi; eauto).
  assert (m !! Addr x = Some j) by (apply Hi; eauto). congruence.
Qed.

(** The places that an exchange permutes. *)
Definition trans (i j k : nat) : nat :=
  if decide (k = i) then j else if decide (k = j) then i else k.

Lemma trans_inv i j k : trans i j (trans i j k) = k.
Proof. unfold trans. repeat case_decide; congruence. Qed.

Lemma Swap_index m l i j x y :
  index_ok m l -> l !! i = Some x -> l !! j = Some y ->
  index_ok (<[Addr x := j]> (<[Addr y := i]> m)) (swap_at i j l).
Proof.
  intros Hi Ex Ey. assert (Mx : m !! Addr x = Some i) by (apply Hi; eauto).
  assert (My : m !! Addr y = Some j) by (apply Hi; eauto).
  assert (Hm : forall a, <[Addr x := j]> (<[Addr y := i]> m) !! a = trans i j <$> m !! a).
  { intros a. destruct (decide (a = Addr x)) as [->|N1].
    { rewrite lookup_insert_eq, Mx. simpl. unfold trans. by rewrite decide_True. }
    rewrite lookup_insert_ne by done. destruct (decide (a = Addr y)) as [->|N2].
    { rewrite lookup_insert_eq, My. simpl. unfold trans. repeat case_decide; congruence. }
    rewrite lookup_insert_ne by done. destruct (m !! a) as [k|] eqn:E; [|done].
    apply Hi in E as (r & Er & <-). simpl. unfold trans. repeat case_decide; congruence. }
  intros a k. rewrite Hm. apply lookup_lt_Some in Ex as Li. apply lookup_lt_Some in Ey as Lj.
  assert (Hl : swap_at i j l !! k = l !! trans i j k).
  { rewrite lookup_swap_at by done. unfold trans. by repeat case_decide. }
  rewrite Hl, <- (Hi a (trans i j k)). split.
  - intros (k0 & E & ->)%fmap_Some. by rewrite trans_inv.
  - intros ->. simpl. by rewrite trans_inv.
Qed.

Lemma Push_index m l x :
  index_ok m l -> new_addr l x -> index_ok (<[Addr x := length l]> m) (l ++ [x]).
Proof.
  intros Hi Hn a k. destruct (decide (a = Addr x)) as [->|N].
  - rewrite lookup_insert_eq. split.
    + intros [= <-]. exists x. split; [|done]. by apply list_lookup_middle.
    + intros (r & [Er|[L E]]%lookup_app_Some & Ea).
      * destruct Hn. rewrite <- Ea. apply list_elem_of_fmap. exists r. split; [done|].
        by eapply list_elem_of_lookup_2.
      * f_equal. apply lookup_lt_Some in E. simpl in E. lia.
  - rewrite lookup_insert_ne by done. rewrite (Hi a k). split; intros (r & Er & Ea); exists r; (split; [|done]).
    + by apply lookup_app_l_Some.
    + apply lookup_app_Some in Er as [?|[L E]]; [done|].
      apply list_lookup_singleton_Some in E as [_ ->]. congruence.
Qed.

Lemma Pop_index m l x : index_ok m (l ++ [x]) -> index_ok (delete (Addr x) m) l.
Proof.
  intros Hi a k. assert (Ex : (l ++ [x]) !! length l = Some x) by (by apply list_lookup_middle).
  destruct (decide (a = Addr x)) as [->|N].
  - rewrite lookup_delete_eq. split; [done|]. intros (r & Er & Ea). exfalso.
    assert (k = length l) as ->.
    { eapply (index_inj _ _ k (length l) r x Hi); [by apply lookup_app_l_Some|done|done]. }
    apply lookup_lt_Some in Er. lia.
  - rewrite lookup_delete_ne by done. rewrite (Hi a k). split; intros (r & Er & Ea); exists r; (split; [|done]).
    + apply lookup_app_Some in Er as [?|[L E]]; [done|].
      apply list_lookup_singleton_Some in E as [_ ->]. congruence.
    + by apply lookup_app_l_Some.
Qed.

#[export] Instance clientMapInner_laws : HeapLaws Rep older new_addr.
Proof.
  split.
  - apply _.
  - intros inner l [<- Hi]. unfold hLen, clientMapInner_heap, Len.
    by rewrite (index_size _ _ Hi), decide_True.
  - intros inner l i j x y [E _] Ex Ey. simpl. unfold Less.
    by rewrite (byAge_at_Some inner l i x), (byAge_at_Some inner l j y).
  - intros inner l i j [E Hi] [x Ex]%lookup_lt_is_Some [y Ey]%lookup_lt_is_Some. simpl. unfold Swap.
    rewrite (byAge_at_Some inner l i x), (byAge_at_Some inner l j y) by done.
    eexists. split; [done|]. split; simpl; [|by apply Swap_index].
    unfold swap_at. by rewrite Ex, Ey, E.
  - intros inner l x [E Hi] Hn. simpl. unfold Push.
    destruct (byAddr inner !! Addr x) as [i|] eqn:Ei.
    { apply Hi in Ei as (r & Er & Ea). destruct Hn. rewrite <- Ea. apply list_elem_of_fmap.
      exists r. split; [done|]. by eapply list_elem_of_lookup_2. }
    eexists. split; [done|]. split; simpl; [by rewrite E|]. rewrite E. by apply Push_index.
  - intros inner l x [E Hi]. simpl. unfold Pop. rewrite (index_size _ _ Hi), length_app. simpl.
    replace (length l + 1)%nat with (S (length l)) by lia. simpl. rewrite Nat.sub_0_r.
    rewrite (byAge_at_Some inner _ (length l) x E) by (by apply list_lookup_middle).
    eexists. split; [done|]. split; simpl; [|by apply Pop_index].
    by rewrite E, take_app_length.
Qed.


(** ** The map implements the reference *)

Definition wf (inner : clientMapInner) : Prop :=
  Rep inner (byAge inner) /\ heap older (length (byAge inner)) (byAge inner).

Lemma wf_intro inner l : Rep inner l -> heap older (length l) l -> wf inner.
Proof. intros [E Hi] Hh. unfold wf, Rep. by rewrite E. Qed.

Definition of_list (l : list clientRecord) : clients := list_to_map (map entry l).

Lemma fst_entry l : (map entry l).*1 = map Addr l.
Proof. induction l as [|r l IH]; csimpl; [done|]. by rewrite <- IH. Qed.

Lemma of_list_perm l l' : NoDup (map Addr l) -> l ≡ₚ l' -> of_list l = of_list l'.
Proof.
  intros ND P. apply list_to_map_proper; [by rewrite fst_entry|]. by apply Permutation_map.
Qed.

Lemma of_list_cons x l : of_list (x :: l) = <[Addr x := (LastSeen x, SendQ x)]> (of_list l).
Proof. done. Qed.

Lemma of_list_lookup l i r :
  NoDup (map Addr l) -> l !! i = Some r -> of_list l !! Addr r = Some (LastSeen r, SendQ r).
Proof.
  intros ND E. apply elem_of_list_to_map_1; [by rewrite fst_entry|].
  apply list_elem_of_fmap. exists r. split; [done|]. by eapply list_elem_of_lookup_2.
Qed.

Lemma of_list_new l a : a ∉ map Addr l -> of_list l !! a = None.
Proof. intros. apply not_elem_of_list_to_map_1. by rewrite fst_entry. Qed.

(** Replacing a record by another of the same address. *)
Lemma update_index m l i r r' :
  index_ok m l -> l !! i = Some r -> Addr r' = Addr r -> index_ok m (<[i := r']> l).
Proof.
  intros Hi Er Ea a k. rewrite (Hi a k). apply lookup_lt_Some in Er as Li.
  destruct (decide (k = i)) as [->|N]; [|by rewrite list_lookup_insert_ne].
  rewrite list_lookup_insert_eq by done. split.
  - intros (x & ? & ?). exists r'. split; [done|]. congruence.
  - intros (x & [= <-] & ?). exists r. split; [done|]. congruence.
Qed.

Lemma update_of_list l i r r' :
  NoDup (map Addr l) -> l !! i = Some r -> Addr r' = Addr r ->
  of_list (<[i := r']> l) = <[Addr r := (LastSeen r', SendQ r')]> (of_list l).
Proof.
  intros ND Er Ea. apply list_elem_of_split_length in Er as (l1 & l2 & -> & ->).
  rewrite insert_app_r_alt, Nat.sub_diag by lia. simpl.
  assert (ND' : NoDup (map Addr (l1 ++ r' :: l2))).
  { rewrite map_app in *. simpl in *. by rewrite Ea. }
  rewrite (of_list_perm (l1 ++ r' :: l2) (r' :: l1 ++ l2)), (of_list_perm (l1 ++ r :: l2) (r :: l1 ++ l2))
    by (done || symmetry; apply Permutation_middle).
  rewrite !of_list_cons, Ea. symmetry. apply insert_insert_eq.
Qed.

(** A younger record may be out of place, but no other pair is. *)
Lemma update_heap l i r r' :
  heap older (length l) l -> l !! i = Some r ->
  heap_but older i (length (<[i := r']> l)) (<[i := r']> l).
Proof.
  intros Hh Er. rewrite length_insert. split.
  - intros k Hk N1 N2 x y. rewrite !list_lookup_insert_ne by done. by apply Hh.
  - intros k Hi Hk Hp x y. pose proof (parent_lt i Hi).
    assert (0 < k)%nat by (destruct k; [change (parent 0) with O in Hp|]; lia).
    pose proof (parent_lt k ltac:(lia)).
    rewrite !list_lookup_insert_ne by lia. intros Ex Ey. apply (le_trans _ r).
    + apply (Hh i); [split; [done|by eapply lookup_lt_Some]|done|done].
    + apply (Hh k); [lia|by rewrite Hp|done].
Qed.

Lemma Rep_records inner l : Rep inner l -> records inner = of_list l.
Proof. by intros [<- _]. Qed.

Lemma Rep_NoDup inner l : Rep inner l -> NoDup (map Addr l).
Proof. intros [_ Hi]. by eapply index_NoDup. Qed.

Lemma SendQueue_spec inner addr now q :
  wf inner ->
  exists inner', SendQueue inner addr now q = Ok ((ref_SendQueue (records inner) addr now q).1, inner')
    /\ wf inner' /\ records inner' = (ref_SendQueue (records inner) addr now q).2.
Proof.
  intros [[_ Hi] Hh]. set (l := byAge inner) in *. assert (ND := index_NoDup _ _ Hi).
  assert (Rec : records inner = of_list l) by done. unfold SendQueue, ref_SendQueue. fold l. rewrite Rec.
  destruct (byAddr inner !! addr) as [i|] eqn:Ei.
  - apply Hi in Ei as (r & Er & <-). rewrite (byAge_at_Some inner l i r) by done.
    cbn [mbind result_bind]. fold l. rewrite (of_list_lookup l i r) by done.
    set (r' := MkRecord (Addr r) now (SendQ r)).
    destruct (heap_Fix_spec (MkInner (<[i:=r']> l) (byAddr inner)) (<[i:=r']> l) i)
      as (inner' & l' & -> & R & P & Hh').
    { split; [done|]. by eapply update_index. }
    { rewrite length_insert. by eapply lookup_lt_Some. }
    { by eapply update_heap. }
    cbn [mbind result_bind fst snd]. exists inner'. split; [done|]. split; [by eapply wf_intro|].
    rewrite (Rep_records _ _ R), (of_list_perm l' (<[i:=r']> l)); [|by eapply Rep_NoDup|done].
    by rewrite (update_of_list l i r r').
  - assert (Hn : addr ∉ map Addr l).
    { intros (r & -> & [i Er]%list_elem_of_lookup)%list_elem_of_fmap.
      assert (byAddr inner !! Addr r = Some i) by (apply Hi; eauto). congruence. }
    rewrite (of_list_new l addr) by done.
    destruct (heap_Push_spec inner l (MkRecord addr now q)) as (inner' & l' & -> & R & P & Hh');
      [done|done|done|].
    cbn [mbind result_bind fst snd]. exists inner'. split; [done|]. split; [by eapply wf_intro|].
    rewrite (Rep_records _ _ R), (of_list_perm l' (MkRecord addr now q :: l)); [done| |done].
    by eapply Rep_NoDup.
Qed.

(** When the oldest record is young enough, so are the others. *)
Lemma none_expired inner now timeout :
  wf inner -> expired inner now timeout = false ->
  ref_removeExpired (records inner) now timeout = records inner.
Proof.
  intros [[_ Hi] Hh] E. apply map_filter_id. intros a [t q] El.
  apply elem_of_list_to_map_2, list_elem_of_fmap in El as (r & [= -> -> ->] & [k Er]%list_elem_of_lookup).
  unfold expired in E. destruct (byAge inner) as [|x l] eqn:El; [done|].
  assert (Ho : older r x = false) by (by eapply (heap_least older _ (x :: l) x k r)).
  unfold live, older, Before, Sub in *. simpl. lia.
Qed.

Lemma removeExpired_loop_spec fuel inner now timeout :
  wf inner -> (length (byAge inner) < fuel)%nat ->
  exists inner', removeExpired_loop fuel inner now timeout = Ok inner' /\ wf inner' /\
    records inner' = ref_removeExpired (records inner) now timeout.
Proof.
  revert inner. induction fuel as [|fuel IH]; intros inner Hw Hf; [lia|]. simpl.
  destruct (expired inner now timeout) eqn:E.
  2: { exists inner. by rewrite none_expired. }
  assert (Hw' := Hw). destruct Hw' as [R Hh].
  destruct (heap_Pop_spec inner (byAge inner)) as (x & inner1 & l1 & -> & R1 & P & H1 & E0);
    [done|done|by destruct inner as [[|]]|].
  cbn [mbind result_bind].
  assert (Hr : records inner = <[Addr x := (LastSeen x, SendQ x)]> (records inner1)).
  { rewrite (Rep_records _ _ R), (Rep_records _ _ R1), <- of_list_cons. apply of_list_perm; [|done].
    by eapply Rep_NoDup. }
  destruct (IH inner1) as (inner' & -> & Hw' & Hr').
  { by eapply wf_intro. }
  { destruct R1 as [-> _]. apply Permutation_length in P. simpl in P. lia. }
  exists inner'. split; [done|]. split; [done|]. rewrite Hr', Hr. unfold ref_removeExpired.
  rewrite map_filter_insert_not'; [done| |].
  - unfold live. simpl. unfold expired in E. destruct (byAge inner); [done|].
    injection E0 as ->. lia.
  - intros y Ey. exfalso. rewrite (Rep_records _ _ R1), of_list_new in Ey; [done|].
    apply (Permutation_map Addr) in P. apply Rep_NoDup in R. rewrite P in R.
    by apply NoDup_cons in R as [? _].
Qed.

Lemma removeExpired_spec inner now timeout :
  wf inner ->
  exists inner', removeExpired inner now timeout = Ok inner' /\ wf inner' /\
    records inner' = ref_removeExpired (records inner) now timeout.
Proof. intros. apply removeExpired_loop_spec; [done|lia]. Qed.

Lemma wf_NewClientMap : wf NewClientMap.
Proof.
  split; [split; [done|]|intros k; simpl; lia]. intros a i. change (byAddr NewClientMap) with (∅ : gmap A nat). rewrite lookup_empty.
  split; [done|]. by intros (r & E & _).
Qed.

Lemma run_spec ops inner :
  wf inner ->
  exists inner', run ops inner = Ok ((ref_run ops (records inner)).1, inner') /\ wf inner' /\
    records inner' = (ref_run ops (records inner)).2.
Proof.
  revert inner. induction ops as [|[addr now q|now timeout] ops IH]; intros inner Hw; cbn [run ref_run].
  - by exists inner.
  - destruct (SendQueue_spec inner addr now q) as (inner1 & -> & Hw1 & Hr1); [done|].
    cbn [mbind result_bind]. destruct (IH inner1 Hw1) as (inner2 & -> & Hw2 & Hr2).
    exists inner2. rewrite Hr1 in *. destruct (ref_SendQueue _ _ _ _) as [q' m]. simpl in *.
    by destruct (ref_run ops m).
  - destruct (removeExpired_spec inner now timeout) as (inner1 & -> & Hw1 & Hr1); [done|].
    cbn [mbind result_bind]. destruct (IH inner1 Hw1) as (inner2 & -> & Hw2 & Hr2).
    exists inner2. by rewrite Hr1 in *.
Qed.

(** C37: A client map is a map.  From the empty map, whatever the sequence of SendQueue calls and
    expiry ticks, and whatever their clocks, no call panics (in particular the heap and its index
    never disagree), each SendQueue returns the channel that a plain map from addresses to
    (last seen, channel) returns, and the records held at the end are exactly those of the plain
    map: those whose age reached the timeout at a tick are gone, and no other. *)
Theorem ClientMap_refines (ops : list op) :
  exists inner, run ops NewClientMap = Ok ((ref_run ops ∅).1, inner) /\
    records inner = (ref_run ops ∅).2.
Proof. destruct (run_spec ops NewClientMap wf_NewClientMap) as (inner & ? & _ & ?). by exists inner. Qed.

End ClientMap.
