(* ===== verification/QueuePacketConn.v ===== *)
(** Queues of packets for the clients of a snowflake server:
    snowflake/common/turbotunnel/queuepacketconn.go, clientid.go and consts.go.

    One incoming queue for all clients, one outgoing queue per client, at most 32 packets each:
    a packet that finds its queue full is dropped.  Channels are shared between the client map,
    the connection that writes and the handlers that read them, so they are numbers in a store.
    A method whose first select has passed may be overtaken by Close: its second half is a
    definition of its own, and a step of its own in [step]. *)

From S2P Require Import Prelude GoLib GoHeap ClientMap.
From Stdlib Require Import ZArith Lia Strings.Byte Strings.String.
From stdpp Require Import gmap list strings.

#[local] Open Scope Z_scope.

(** ** consts.go, clientid.go *)

Definition Token : list byte := [x12; x93; x60; x5d; x27; x81; x75; xf5]%byte.
Definition queueSize : nat := 32.
Definition errClosedPacketConn : goerr := Errorf "operation on closed connection".

Definition ClientID : Type := list byte.
(** The bytes that crypto/rand returns, or its error. *)
Definition NewClientID (rand : result (list byte)) : result ClientID :=
  match rand with Ok id => Ok id | Err _ => Panic "rand.Read" | r => r end.
Definition ClientID_Network (id : ClientID) : string := "clientid".
Definition ClientID_String (id : ClientID) : string := hex id.

(** ** The connection *)

(** net.OpError, without its source address. *)
Record OpError (A : Type) := MkOpError { Op : string; Net : string; OpAddr : A; OpErr : goerr }.
Arguments MkOpError {A} _ _ _ _.

Record taggedPacket (A : Type) := MkTagged { P : list byte; TAddr : A }.
Arguments MkTagged {A} _ _.
Arguments P {A} _.
Arguments TAddr {A} _.

(** [queues] holds the contents of the outgoing channels; [closed] says that the channel of that
    name is closed, [err] is the value stored, and [closeOnce] that the once has run. *)
Record QueuePacketConn (A : Type) `{Countable A} := MkConn {
  clients : clientMapInner A nat;
  queues : gmap nat (list (list byte));
  localAddr : A;
  recvQueue : list (taggedPacket A);
  closeOnce : bool;
  closed : bool;
  err : option goerr
}.
Arguments MkConn {A _ _} _ _ _ _ _ _ _.
Arguments clients {A _ _} _.
Arguments queues {A _ _} _.
Arguments localAddr {A _ _} _.
Arguments recvQueue {A _ _} _.
Arguments closeOnce {A _ _} _.
Arguments closed {A _ _} _.
Arguments err {A _ _} _.

Section QueuePacketConn.
Context {A : Type} `{Countable A}.
(** addr.Network() of the local address. *)
Context (Network : A -> string).

Notation QueuePacketConn := (QueuePacketConn A).
Notation OpError := (OpError A).

Definition NewQueuePacketConn (localAddr : A) : QueuePacketConn :=
  MkConn NewClientMap ∅ localAddr [] false false None.

Definition set_recv (q : list (taggedPacket A)) (c : QueuePacketConn) : QueuePacketConn :=
  MkConn (clients c) (queues c) (localAddr c) q (closeOnce c) (closed c) (err c).
Definition set_queues (qs : gmap nat (list (list byte))) (c : QueuePacketConn) : QueuePacketConn :=
  MkConn (clients c) qs (localAddr c) (recvQueue c) (closeOnce c) (closed c) (err c).
Definition set_clients (m : clientMapInner A nat) (c : QueuePacketConn) : QueuePacketConn :=
  MkConn m (queues c) (localAddr c) (recvQueue c) (closeOnce c) (closed c) (err c).

(** A send on a buffered channel, in a select with a default. *)
Definition try_send {X} (x : X) (q : list X) : list X :=
  if decide (length q < queueSize)%nat then q ++ [x] else q.

(** [&net.OpError{Op: op, ..., Err: c.err.Load().(error)}]. *)
Definition opError (op : string) (c : QueuePacketConn) : result OpError :=
  match err c with
  | Some e => Ok (MkOpError op (Network (localAddr c)) (localAddr c) e)
  | None => Panic "interface conversion: interface is nil, not error"
  end.

(** The second select of QueueIncoming, and the method. *)
Definition incoming_send (p : list byte) (addr : A) (c : QueuePacketConn) : QueuePacketConn :=
  set_recv (try_send (MkTagged p addr) (recvQueue c)) c.
Definition QueueIncoming (p : list byte) (addr : A) (c : QueuePacketConn) : QueuePacketConn :=
  if closed c then c else incoming_send p addr c.

(** c.clients.SendQueue(addr): the channel, made when the address is new. *)
Definition client_queue (addr : A) (now : Z) (c : QueuePacketConn) :
    result (nat * QueuePacketConn) :=
  let q := fresh_id (queues c) in
  '(q', m) ← SendQueue (clients c) addr now q;
  let c := set_clients m c in
  Ok (q', if decide (q' = q) then set_queues (<[q := []]> (queues c)) c else c).

Definition OutgoingQueue := client_queue.

(** The second select of ReadFrom: [pick] is the choice when the connection is closed and a
    packet is there; [None] when it would block.  [n] is the length of the buffer. *)
Definition read_select (n : nat) (pick : bool) (c : QueuePacketConn) :
    option (result (Z * A * list byte + OpError) * QueuePacketConn) :=
  match recvQueue c with
  | packet :: q =>
      if closed c && pick then Some (e ← opError "read" c; Ok (inr e), c)
      else let p := take n (P packet) in
           Some (Ok (inl (len p, TAddr packet, p)), set_recv q c)
  | [] => if closed c then Some (e ← opError "read" c; Ok (inr e), c) else None
  end.

Definition ReadFrom (n : nat) (pick : bool) (c : QueuePacketConn) :
    option (result (Z * A * list byte + OpError) * QueuePacketConn) :=
  if closed c then Some (e ← opError "read" c; Ok (inr e), c) else read_select n pick c.

(** The second select of WriteTo, and the method: the length is returned also when the packet
    is dropped. *)
Definition write_send (p : list byte) (addr : A) (now : Z) (c : QueuePacketConn) :
    result (Z * QueuePacketConn) :=
  '(q, c) ← client_queue addr now c;
  Ok (len p, set_queues (alter (try_send p) q (queues c)) c).

Definition WriteTo (p : list byte) (addr : A) (now : Z) (c : QueuePacketConn) :
    result ((Z + OpError) * QueuePacketConn) :=
  if closed c then e ← opError "write" c; Ok (inr e, c)
  else '(n, c) ← write_send p addr now c; Ok (inl n, c).

(** closeWithError: [None] is a nil error. *)
Definition closeWithError (e : option goerr) (c : QueuePacketConn) :
    result (option OpError * QueuePacketConn) :=
  if closeOnce c then e ← opError "close" c; Ok (Some e, c)
  else Ok (None, MkConn (clients c) (queues c) (localAddr c) (recvQueue c) true true
                        (Some (default errClosedPacketConn e))).

Definition Close := closeWithError None.

(** The goroutine of NewClientMap: one tick. *)
Definition expire_tick (now timeout : Z) (c : QueuePacketConn) : result QueuePacketConn :=
  m ← removeExpired (clients c) now timeout; Ok (set_clients m c).

(** A receive from an outgoing channel, when it holds a packet. *)
Definition chan_recv (q : nat) (c : QueuePacketConn) : option (list byte * QueuePacketConn) :=
  match queues c !! q with
  | Some (p :: l) => Some (p, set_queues (<[q := l]> (queues c)) c)
  | _ => None
  end.


(** ** Runs *)

(** What a step shows: the channel handed out for an address, a packet that WriteTo took in, a
    packet received from a channel. *)
Inductive label : Type :=
  | LOut (addr : A) (q : nat)
  | LWrite (p : list byte) (addr : A)
  | LRecv (q : nat) (p : list byte)
  | LTau.

Inductive step (c : QueuePacketConn) : label -> QueuePacketConn -> Prop :=
  | step_incoming p addr : step c LTau (QueueIncoming p addr c)
  | step_incoming_late p addr : step c LTau (incoming_send p addr c)
  | step_read n pick r c' : ReadFrom n pick c = Some (r, c') -> step c LTau c'
  | step_read_late n pick r c' : read_select n pick c = Some (r, c') -> step c LTau c'
  | step_out addr now q c' : OutgoingQueue addr now c = Ok (q, c') -> step c (LOut addr q) c'
  | step_write p addr now n c' : WriteTo p addr now c = Ok (inl n, c') -> step c (LWrite p addr) c'
  | step_write_closed p addr now e c' : WriteTo p addr now c = Ok (inr e, c') -> step c LTau c'
  | step_write_late p addr now n c' : write_send p addr now c = Ok (n, c') -> step c (LWrite p addr) c'
  | step_close e r c' : closeWithError e c = Ok (r, c') -> step c LTau c'
  | step_tick now timeout c' : expire_tick now timeout c = Ok c' -> step c LTau c'
  | step_recv q p c' : chan_recv q c = Some (p, c') -> step c (LRecv q p) c'.

Inductive steps (c0 : QueuePacketConn) : list label -> QueuePacketConn -> Prop :=
  | steps_nil : steps c0 [] c0
  | steps_snoc ls l c c' : steps c0 ls c -> step c l c' -> steps c0 (ls ++ [l]) c'.

Lemma steps_cons c l c' ls c'' : step c l c' -> steps c' ls c'' -> steps c (l :: ls) c''.
Proof.
  intros S Hs. induction Hs as [|ls l' c1 c2 _ IH S'].
  - apply (steps_snoc c [] l c c'); [apply steps_nil|done].
  - by eapply (steps_snoc _ (l :: ls)).
Qed.

(** The packets received from a channel, and those written to an address. *)
Definition recv_of (q : nat) (l : label) : option (list byte) :=
  match l with LRecv q' p => if decide (q' = q) then Some p else None | _ => None end.
Definition received (q : nat) (ls : list label) : list (list byte) := omap (recv_of q) ls.
Definition write_of (addr : A) (l : label) : option (list byte) :=
  match l with LWrite p addr' => if decide (addr' = addr) then Some p else None | _ => None end.
Definition written (addr : A) (ls : list label) : list (list byte) := omap (write_of addr) ls.

Definition waiting (q : nat) (c : QueuePacketConn) : list (list byte) := default [] (queues c !! q).

(** ** The invariant *)

(** [own] remembers for which address a channel was made, also when the client has expired. *)
Record Inv (own : gmap nat A) (ls : list label) (c : QueuePacketConn) : Prop := MkInv {
  inv_wf : wf (clients c);
  inv_dom q : is_Some (own !! q) <-> is_Some (queues c !! q);
  inv_records a t q : records (clients c) !! a = Some (t, q) -> own !! q = Some a;
  inv_out a q : LOut a q ∈ ls -> own !! q = Some a;
  inv_none q : own !! q = None -> received q ls = [];
  inv_fifo q a : own !! q = Some a ->
    (received q ls ++ waiting q c) `sublist_of` written a ls /\ (length (waiting q c) <= queueSize)%nat
}.

Lemma received_snoc q ls l :
  received q (ls ++ [l]) = received q ls ++ match recv_of q l with Some p => [p] | None => [] end.
Proof. unfold received. rewrite omap_app. simpl. by destruct (recv_of q l). Qed.

Lemma written_snoc a ls l :
  written a (ls ++ [l]) = written a ls ++ match write_of a l with Some p => [p] | None => [] end.
Proof. unfold written. rewrite omap_app. simpl. by destruct (write_of a l). Qed.

(** A step that leaves clients and queues alone. *)
Lemma Inv_same own ls c c' :
  Inv own ls c -> clients c' = clients c -> queues c' = queues c -> Inv own ls c'.
Proof. intros [] E1 E2. split; unfold waiting in *; rewrite ?E1, ?E2; done. Qed.

Lemma Inv_tau own ls c : Inv own ls c -> Inv own (ls ++ [LTau]) c.
Proof.
  intros []. split; try done.
  - intros a q [?|[=]%list_elem_of_singleton]%elem_of_app. by apply inv_out0.
  - intros q ?. rewrite received_snoc. simpl. rewrite app_nil_r. by apply inv_none0.
  - intros q a ?. rewrite received_snoc, written_snoc. simpl. rewrite !app_nil_r. by apply inv_fifo0.
Qed.

(** Handing out the channel of an address. *)
Lemma client_queue_spec own ls c addr now :
  Inv own ls c ->
  exists q c' own', client_queue addr now c = Ok (q, c') /\ Inv own' ls c' /\
    own' !! q = Some addr /\ own ⊆ own' /\
    (forall q', queues c !! q' <> None -> queues c' !! q' = queues c !! q') /\
    (q = fresh_id (queues c) \/ exists t, records (clients c) !! addr = Some (t, q)) /\
    recvQueue c' = recvQueue c /\ closed c' = closed c /\ closeOnce c' = closeOnce c /\ err c' = err c.
Proof.
  intros I. destruct I as [Hw Hd Hr Ho Hn Hf]. unfold client_queue. set (q := fresh_id (queues c)).
  assert (Fq : queues c !! q = None) by apply fresh_id_None.
  assert (Oq : own !! q = None) by (apply eq_None_not_Some; rewrite Hd, Fq; by intros []).
  destruct (SendQueue_spec (clients c) addr now q Hw) as (m & -> & Hwm & Hrm).
  cbn [mbind result_bind]. unfold ref_SendQueue in *. cbn [fst snd] in *.
  destruct (records (clients c) !! addr) as [[t q0]|] eqn:Er.
  - assert (Oq0 := Hr _ _ _ Er). rewrite decide_False by congruence.
    eexists q0, _, own. split; [done|]. split_and!; try done; [|by right; exists t].
    split; try done. simpl. rewrite Hrm. intros a t' q'.
    destruct (decide (a = addr)) as [->|N].
    + rewrite lookup_insert_eq. by intros [= _ <-].
    + rewrite lookup_insert_ne by done. apply Hr.
  - rewrite decide_True by done. eexists q, _, (<[q := addr]> own). split; [done|].
    split_and!; try done; [|by rewrite lookup_insert_eq|by apply insert_subseteq| |by left].
    2: { intros q' ?. simpl. rewrite lookup_insert_ne by congruence. done. }
    split; simpl; try done.
    + intros q'. destruct (decide (q' = q)) as [->|N]; [by rewrite !lookup_insert_eq|].
      by rewrite !lookup_insert_ne.
    + rewrite Hrm. intros a t' q'. destruct (decide (a = addr)) as [->|N].
      * rewrite lookup_insert_eq. intros [= _ <-]. by rewrite lookup_insert_eq.
      * rewrite lookup_insert_ne by done. intros E%Hr. rewrite lookup_insert_ne by congruence. done.
    + intros a q' E%Ho. rewrite lookup_insert_ne by congruence. done.
    + intros q' E. apply Hn. by destruct (decide (q' = q)) as [->|N];
        [|rewrite lookup_insert_ne in E by done].
    + unfold waiting. simpl. intros q' a'. destruct (decide (q' = q)) as [->|N].
      * rewrite !lookup_insert_eq. intros [= <-]. rewrite (Hn q) by done. simpl.
        split; [apply sublist_nil_l|lia].
      * rewrite !lookup_insert_ne by done. apply Hf.
Qed.


(** The channel of a client stays the same as long as its record is there. *)
Lemma client_queue_records own ls c addr now q c' :
  Inv own ls c -> client_queue addr now c = Ok (q, c') -> records (clients c') !! addr = Some (now, q).
Proof.
  intros I E. unfold client_queue in E.
  destruct (SendQueue_spec (clients c) addr now (fresh_id (queues c))) as (m & Em & _ & Hm); [apply I|].
  rewrite Em in E. cbn [mbind result_bind] in E. unfold ref_SendQueue in *. cbn [fst snd] in *.
  case_decide; injection E as <- <-; simpl; by rewrite Hm, lookup_insert_eq.
Qed.

Lemma client_queue_again own ls c addr t q now :
  Inv own ls c -> records (clients c) !! addr = Some (t, q) ->
  exists c', client_queue addr now c = Ok (q, c') /\ queues c' = queues c /\
    closed c' = closed c /\ Inv own ls c'.
Proof.
  intros I E. destruct (client_queue_spec own ls c addr now I) as (q' & c' & own' & E' & I' & _).
  assert (Hq : is_Some (queues c !! q)).
  { apply (inv_dom _ _ _ I). rewrite (inv_records _ _ _ I _ _ _ E). by eexists. }
  unfold client_queue in *.
  destruct (SendQueue_spec (clients c) addr now (fresh_id (queues c))) as (m & Em & Hwm & Hm); [apply I|].
  rewrite Em in *. cbn [mbind result_bind] in *. unfold ref_SendQueue in *. rewrite E in *. cbn [fst snd] in *.
  rewrite decide_False in *; [|intros ->; rewrite fresh_id_None in Hq; by destruct Hq..].
  eexists. split; [done|]. split_and!; try done. destruct I as [Hw Hd Hr Ho Hn Hf]. split; try done.
  simpl. rewrite Hm. intros a t' q0. destruct (decide (a = addr)) as [->|N].
  - rewrite lookup_insert_eq. intros [= _ <-]. by eapply Hr.
  - rewrite lookup_insert_ne by done. apply Hr.
Qed.

Lemma try_send_spec {X} (x : X) (q : list X) :
  (length q <= queueSize)%nat ->
  try_send x q `sublist_of` q ++ [x] /\ (length (try_send x q) <= queueSize)%nat.
Proof.
  intros. unfold try_send. case_decide; [|split; [by apply sublist_inserts_r|done]].
  split; [done|]. rewrite length_app. simpl. lia.
Qed.

(** WriteTo on an open connection: the packet goes to the channel of its address, if there is
    room, and to no other. *)
Lemma write_send_spec own ls c p addr now :
  Inv own ls c ->
  exists q c' own', write_send p addr now c = Ok (len p, c') /\
    Inv own' (ls ++ [LWrite p addr]) c' /\ own ⊆ own' /\ own' !! q = Some addr /\
    waiting q c' = try_send p (waiting q c) /\
    (forall q', q' <> q -> waiting q' c' = waiting q' c) /\
    (q = fresh_id (queues c) \/ exists t, records (clients c) !! addr = Some (t, q)) /\
    closed c' = closed c /\ closeOnce c' = closeOnce c /\ err c' = err c.
Proof.
  intros I. unfold write_send.
  destruct (client_queue_spec own ls c addr now I)
    as (q & c1 & own1 & E & I1 & Oq & Hsub & Hq & Hw & _ & E1 & E2 & E3).
  rewrite E. cbn [mbind result_bind]. eexists q, _, own1. split; [done|].
  destruct I1 as [Hwf Hd Hr Ho Hn Hf]. destruct (Hf q addr Oq) as [Hs Hl].
  assert (Wsame : forall q', waiting q' c1 = waiting q' c).
  { intros q'. unfold waiting. destruct (queues c !! q') eqn:Eq.
    { rewrite Hq by congruence. by rewrite Eq. }
    unfold client_queue in E. destruct (SendQueue _ _ _ _) as [[q0 m]| | |]; try done.
    injection E as <- <-. case_decide; simpl; [|by rewrite Eq].
    destruct (decide (q' = q0)) as [->|N]; [subst q0; by rewrite lookup_insert_eq|].
    rewrite lookup_insert_ne by congruence. by rewrite Eq. }
  assert (Wq : waiting q (set_queues (alter (try_send p) q (queues c1)) c1) = try_send p (waiting q c1)).
  { unfold waiting. simpl. rewrite lookup_alter_eq. destruct (queues c1 !! q) eqn:Eq; [done|].
    assert (is_Some (queues c1 !! q)) as [? ?] by (apply Hd; eauto). congruence. }
  assert (Wo : forall q', q' <> q -> waiting q' (set_queues (alter (try_send p) q (queues c1)) c1) = waiting q' c1).
  { intros q' N. unfold waiting. simpl. by rewrite lookup_alter_ne. }
  split_and!; try done; [|by rewrite Wq, Wsame|intros; by rewrite Wo, Wsame].
  split; try done.
  - intros q'. simpl. rewrite Hd. destruct (decide (q' = q)) as [->|N].
    + rewrite lookup_alter_eq. destruct (queues c1 !! q); simpl; split; by intros [].
    + by rewrite lookup_alter_ne.
  - intros a q' [?|[=]%list_elem_of_singleton]%elem_of_app. by apply Ho.
  - intros q' ?. rewrite received_snoc. simpl. rewrite app_nil_r. by apply Hn.
  - intros q' a Oa. rewrite received_snoc, written_snoc. simpl. rewrite app_nil_r.
    destruct (Hf q' a Oa) as [Hs' Hl']. destruct (decide (q' = q)) as [->|N].
    + assert (a = addr) as -> by congruence. rewrite Wq, decide_True by done.
      destruct (try_send_spec p (waiting q c1)) as [S1 S2]; [done|]. split; [|done].
      etransitivity; [by apply sublist_app; [|exact S1]|]. rewrite (assoc_L (++)).
      by apply sublist_app.
    + rewrite Wo by done. split; [|done]. by apply sublist_inserts_r.
Qed.

Lemma chan_recv_spec own ls c q p c' :
  Inv own ls c -> chan_recv q c = Some (p, c') -> Inv own (ls ++ [LRecv q p]) c'.
Proof.
  intros [Hwf Hd Hr Ho Hn Hf]. unfold chan_recv. destruct (queues c !! q) as [[|p' l]|] eqn:Eq; try done.
  intros [= <- <-].
  assert (Oq : is_Some (own !! q)) by (apply Hd; eauto).
  assert (Hd' : forall q', is_Some (own !! q') <-> is_Some (<[q:=l]> (queues c) !! q')).
  { intros q'. destruct (decide (q' = q)) as [->|N]; [|by rewrite lookup_insert_ne].
    rewrite lookup_insert_eq. split; [by eexists|done]. }
  split; try done.
  - intros a q' [?|[=]%list_elem_of_singleton]%elem_of_app. by apply Ho.
  - intros q' E. rewrite received_snoc. simpl. destruct (decide (q = q')) as [->|N].
    + rewrite E in Oq. by destruct Oq.
    + rewrite app_nil_r. by apply Hn.
  - intros q' a Oa. rewrite received_snoc, written_snoc. simpl. rewrite app_nil_r.
    destruct (Hf q' a Oa) as [Hs Hl]. unfold waiting in *. simpl.
    destruct (decide (q = q')) as [->|N].
    + rewrite lookup_insert_eq. rewrite Eq in Hs, Hl. simpl in *. rewrite <- (assoc_L (++)).
      split; [done|lia].
    + rewrite lookup_insert_ne by done. by rewrite app_nil_r.
Qed.

Lemma tick_spec own ls c now timeout :
  Inv own ls c ->
  exists c', expire_tick now timeout c = Ok c' /\ Inv own ls c' /\ queues c' = queues c /\
    records (clients c') = ref_removeExpired (records (clients c)) now timeout /\
    closed c' = closed c /\ closeOnce c' = closeOnce c /\ err c' = err c.
Proof.
  intros [Hwf Hd Hr Ho Hn Hf]. unfold expire_tick.
  destruct (removeExpired_spec (clients c) now timeout Hwf) as (m & -> & Hwm & Hrm).
  cbn [mbind result_bind]. eexists. split; [done|]. split; [|done].
  split; try done. simpl. rewrite Hrm. intros a t q [E _]%map_lookup_filter_Some. by eapply Hr.
Qed.

Lemma Inv_step own ls c l c' :
  Inv own ls c -> step c l c' -> exists own', Inv own' (ls ++ [l]) c' /\ own ⊆ own'.
Proof.
  intros I S. destruct S.
  - exists own. split; [|done]. apply Inv_tau. unfold QueueIncoming. case_match; [done|by eapply Inv_same].
  - exists own. split; [|done]. apply Inv_tau. by eapply Inv_same.
  - exists own. split; [|done]. apply Inv_tau. unfold ReadFrom, read_select in *.
    repeat case_match; simplify_eq; try done; by eapply Inv_same.
  - exists own. split; [|done]. apply Inv_tau. unfold read_select in *.
    repeat case_match; simplify_eq; try done; by eapply Inv_same.
  - destruct (client_queue_spec own ls c addr now I) as (q' & c1 & own1 & E & I1 & Oq & Hs & _).
    unfold OutgoingQueue in *. rewrite E in *. simplify_eq. exists own1. split; [|done].
    destruct I1 as [Hwf Hd Hr Ho Hn Hf]. split; try done.
    + intros a q0 [?|[= -> ->]%list_elem_of_singleton]%elem_of_app; [by apply Ho|done].
    + intros q0 ?. rewrite received_snoc. simpl. rewrite app_nil_r. by apply Hn.
    + intros q0 a ?. rewrite received_snoc, written_snoc. simpl. rewrite !app_nil_r. by apply Hf.
  - unfold WriteTo in *. destruct (closed c); [by destruct (opError _ _)|].
    destruct (write_send_spec own ls c p addr now I) as (q & c1 & own1 & E & I1 & Hs & _).
    rewrite E in *. cbn [mbind result_bind] in *. simplify_eq. by exists own1.
  - exists own. split; [|done]. apply Inv_tau. unfold WriteTo in *. destruct (closed c).
    + destruct (opError _ _); simpl in *; by simplify_eq.
    + by destruct (write_send p addr now c) as [[]| | |].
  - destruct (write_send_spec own ls c p addr now I) as (q & c1 & own1 & E & I1 & Hs & _).
    rewrite E in *. simplify_eq. by exists own1.
  - exists own. split; [|done]. apply Inv_tau. unfold closeWithError in *.
    destruct (closeOnce c); [destruct (opError _ _); simpl in *; by simplify_eq|].
    simplify_eq. by eapply Inv_same.
  - destruct (tick_spec own ls c now timeout I) as (c1 & E & I1 & _). rewrite E in *. simplify_eq.
    exists own. split; [|done]. by apply Inv_tau.
  - exists own. split; [|done]. by eapply chan_recv_spec.
Qed.

Lemma Inv_New loc : Inv ∅ [] (NewQueuePacketConn loc).
Proof.
  split; simpl.
  - apply wf_NewClientMap.
  - intros q. by rewrite !lookup_empty.
  - intros a t q. unfold records. simpl. by rewrite lookup_empty.
  - intros a q E%elem_of_nil. done.
  - done.
  - intros q a. by rewrite lookup_empty.
Qed.

Lemma Inv_steps loc ls c : steps (NewQueuePacketConn loc) ls c -> exists own, Inv own ls c.
Proof.
  induction 1 as [|ls l c c' _ [own I] S]; [exists ∅; apply Inv_New|].
  destruct (Inv_step own ls c l c' I S) as (own' & ? & _). by exists own'.
Qed.


(** ** Orphans: channels of expired clients *)

(** Channel [q] exists and belongs to no client. *)
Definition orphan (q : nat) (c : QueuePacketConn) : Prop :=
  is_Some (queues c !! q) /\ forall a t, records (clients c) !! a <> Some (t, q).

Lemma client_queue_orphan own ls c addr now q0 c' q :
  Inv own ls c -> orphan q c -> client_queue addr now c = Ok (q0, c') ->
  orphan q c' /\ q0 <> q.
Proof.
  intros I [Hq Hr] E. destruct (client_queue_spec own ls c addr now I)
    as (q1 & c1 & own1 & E1 & I1 & Oq & Hsub & Hk & Hw & _). rewrite E1 in E. simplify_eq.
  assert (N : q0 <> q).
  { intros ->. destruct Hw as [Hw|[t Hw]]; [|by eapply Hr].
    rewrite Hw, fresh_id_None in Hq. by destruct Hq. }
  split; [|done]. split; [by rewrite Hk by (by apply not_eq_None_Some)|].
  intros a t Er. unfold client_queue in E1.
  destruct (SendQueue_spec (clients c) addr now (fresh_id (queues c))) as (m & Em & _ & Hm); [apply I|].
  rewrite Em in E1. cbn [mbind result_bind] in E1.
  assert (Ec : clients c' = m) by (case_decide; by simplify_eq/=). rewrite Ec, Hm in Er.
  unfold ref_SendQueue in *. cbn [fst snd] in *. destruct (decide (a = addr)) as [->|Na].
  - rewrite lookup_insert_eq in Er. injection Er as _ <-. apply N. by case_decide; simplify_eq.
  - rewrite lookup_insert_ne in Er by done. by eapply Hr.
Qed.

Lemma orphan_same c c' q : orphan q c -> clients c' = clients c -> queues c' = queues c -> orphan q c'.
Proof. unfold orphan. by intros ? -> ->. Qed.

Lemma write_send_orphan own ls c p addr now n c' q :
  Inv own ls c -> orphan q c -> write_send p addr now c = Ok (n, c') ->
  orphan q c' /\ waiting q c' = waiting q c.
Proof.
  intros I Ho E.
  destruct (write_send_spec own ls c p addr now I) as (q1 & c1 & own1 & E1 & _ & _ & _ & _ & W & Hw & _).
  rewrite E1 in E. injection E as <- <-. unfold write_send in E1.
  destruct (client_queue addr now c) as [[q0 c2]| | |] eqn:Eq; try done. cbn [mbind result_bind] in E1.
  destruct (client_queue_orphan own ls c addr now q0 c2 q I Ho Eq) as [[Hq Hr] N].
  injection E1 as <-. split.
  - split; simpl; [|done]. rewrite lookup_alter_ne by done. done.
  - apply W. intros ->. destruct Hw as [Hw|[t Hw]].
    + destruct Ho as [Ho _]. rewrite Hw, fresh_id_None in Ho. by destruct Ho.
    + destruct Ho as [_ Ho]. by eapply Ho.
Qed.

Lemma orphan_step own ls c l c' q :
  Inv own ls c -> orphan q c -> step c l c' ->
  orphan q c' /\ received q [l] ++ waiting q c' = waiting q c.
Proof.
  intros I Ho S. assert (Hsame : forall c', clients c' = clients c -> queues c' = queues c ->
    orphan q c' /\ received q [LTau] ++ waiting q c' = waiting q c).
  { intros c1 E1 E2. split; [by eapply orphan_same|]. simpl. unfold waiting. by rewrite E2. }
  destruct S.
  - unfold QueueIncoming. case_match; by apply Hsame.
  - by apply Hsame.
  - unfold ReadFrom, read_select in *. repeat case_match; simplify_eq; by apply Hsame.
  - unfold read_select in *. repeat case_match; simplify_eq; by apply Hsame.
  - destruct (client_queue_orphan own ls c addr now q0 c' q I Ho) as [? N]; [done|]. split; [done|].
    simpl. destruct (client_queue_spec own ls c addr now I) as (q1 & c1 & own1 & E & _ & _ & _ & Hk & _).
    unfold OutgoingQueue in *. rewrite E in *. simplify_eq. unfold waiting.
    destruct Ho as [[x Hx] _]. by rewrite Hk by congruence.
  - unfold WriteTo in *. destruct (closed c); [by destruct (opError _ _)|].
    destruct (write_send p addr now c) as [[n' c1]| | |] eqn:E; try done. simplify_eq/=.
    by eapply write_send_orphan.
  - unfold WriteTo in *. destruct (closed c).
    + destruct (opError _ _); simpl in *; simplify_eq; by apply Hsame.
    + by destruct (write_send p addr now c) as [[]| | |].
  - by eapply write_send_orphan.
  - unfold closeWithError in *.
    destruct (closeOnce c); [destruct (opError _ _); simpl in *|]; simplify_eq; by apply Hsame.
  - destruct (tick_spec own ls c now timeout I) as (c1 & E & I1 & Eq & Er & _). rewrite E in *.
    simplify_eq. destruct Ho as [Hq Hr]. split; [|simpl; unfold waiting; by rewrite Eq].
    split; [by rewrite Eq|]. rewrite Er. intros a t [E' _]%map_lookup_filter_Some. by eapply Hr.
  - unfold chan_recv in *. destruct (queues c !! q0) as [[|p' l]|] eqn:Eq; simplify_eq.
    destruct Ho as [Hq Hr]. unfold waiting. simpl. destruct (decide (q0 = q)) as [->|N].
    + rewrite lookup_insert_eq, Eq. split; [|done]. split; simpl; [rewrite lookup_insert_eq; by eexists|done].
    + rewrite lookup_insert_ne by done. split; [|done]. split; simpl; [by rewrite lookup_insert_ne|done].
Qed.

(** ** Theorems *)

(** A channel carries its client's packets, in order.  In every run of the connection, with any
    interleaving of writers, readers, handlers that fetch and drain channels, expiry ticks and
    Close: a channel that was handed out for an address was handed out for no other; the packets
    received from it, followed by those still in it, are packets that were written to that address,
    in the order they were written and none of them twice; and at most 32 wait. *)
Theorem Queue_fifo (loc : A) ls c q a :
  steps (NewQueuePacketConn loc) ls c -> LOut a q ∈ ls ->
  (received q ls ++ waiting q c) `sublist_of` written a ls /\
  (length (waiting q c) <= queueSize)%nat /\
  (forall a', LOut a' q ∈ ls -> a' = a).
Proof.
  intros Hs Hq. destruct (Inv_steps loc ls c Hs) as [own I].
  assert (Oq := inv_out _ _ _ I _ _ Hq). destruct (inv_fifo _ _ _ I _ _ Oq) as [? ?].
  split_and!; [done|done|]. intros a' Ha. apply (inv_out _ _ _ I) in Ha. congruence.
Qed.

(** A handler that keeps the channel of an expired client starves.  Once the record of a client
    has expired, the channel that a handler has fetched for it is never written again: however the
    run goes on, also when packets are written to the same address, what is received from the
    channel is what was already in it. *)
Theorem Orphan_starves (loc : A) ls c a q ls' c' :
  steps (NewQueuePacketConn loc) ls c -> LOut a q ∈ ls -> records (clients c) !! a = None ->
  steps c ls' c' ->
  received q ls' ++ waiting q c' = waiting q c /\ orphan q c'.
Proof.
  intros Hs Hq Hn Hs'. destruct (Inv_steps loc ls c Hs) as [own I].
  assert (Oq := inv_out _ _ _ I _ _ Hq).
  assert (Ho : orphan q c).
  { split; [apply (inv_dom _ _ _ I); eauto|]. intros a' t E.
    assert (E' := inv_records _ _ _ I _ _ _ E). congruence. }
  clear Hs Hq Oq Hn. enough (exists own' ls0, Inv own' ls0 c' /\ orphan q c' /\
    received q ls' ++ waiting q c' = waiting q c) as (? & ? & _ & ? & ?) by done.
  induction Hs' as [|ls' l c1 c2 _ IH S]; [by exists own, ls|].
  destruct IH as (own' & ls0 & I1 & Ho1 & E1).
  destruct (orphan_step own' ls0 c1 l c2 q I1 Ho1 S) as [Ho2 E2].
  destruct (Inv_step own' ls0 c1 l c2 I1 S) as (own2 & I2 & _).
  exists own2, (ls0 ++ [l]). split_and!; [done|done|].
  unfold received in *. rewrite omap_app, <- (assoc_L (++)), E2. done.
Qed.


(** ** Close *)

(** What no method changes but the first close. *)
Definition fixed_by (c c' : QueuePacketConn) : Prop :=
  localAddr c' = localAddr c /\
  (closeOnce c = true -> closed c' = closed c /\ closeOnce c' = true /\ err c' = err c).

Lemma client_queue_fixed addr now c q c' : client_queue addr now c = Ok (q, c') -> fixed_by c c'.
Proof.
  unfold client_queue. destruct (SendQueue _ _ _ _) as [[q' m]| | |]; try done. simpl.
  by case_decide; intros [= <- <-].
Qed.

Lemma write_send_fixed p addr now c n c' : write_send p addr now c = Ok (n, c') -> fixed_by c c'.
Proof.
  unfold write_send. destruct (client_queue addr now c) as [[q c1]| | |] eqn:E; try done.
  intros [= <- <-]. by apply client_queue_fixed in E.
Qed.

Lemma step_fixed c l c' : step c l c' -> fixed_by c c'.
Proof.
  intros S. destruct S; try done.
  - unfold QueueIncoming. by case_match.
  - unfold ReadFrom, read_select in *. by repeat case_match; simplify_eq.
  - unfold read_select in *. by repeat case_match; simplify_eq.
  - by eapply client_queue_fixed.
  - unfold WriteTo in *. destruct (closed c); [by destruct (opError _ _)|].
    destruct (write_send p addr now c) as [[n' c1]| | |] eqn:E; try done. simplify_eq/=.
    by eapply write_send_fixed.
  - unfold WriteTo in *. destruct (closed c).
    + destruct (opError _ _); simpl in *; by simplify_eq.
    + by destruct (write_send p addr now c) as [[]| | |].
  - by eapply write_send_fixed.
  - unfold closeWithError in *. destruct (closeOnce c) eqn:E.
    + destruct (opError _ _); simpl in *; by simplify_eq.
    + simplify_eq. split; [done|]. congruence.
  - unfold expire_tick in *. destruct (removeExpired _ _ _); simpl in *; by simplify_eq.
  - unfold chan_recv in *. by repeat case_match; simplify_eq.
Qed.

Lemma steps_fixed c ls c' : steps c ls c' -> fixed_by c c'.
Proof.
  induction 1 as [|ls l c1 c2 _ [H1 H2] S%step_fixed]; [done|]. destruct S as [H3 H4].
  split; [congruence|]. intros Hc. destruct (H2 Hc) as (E1 & E2 & E3).
  destruct (H4 E2) as (E4 & E5 & E6). split_and!; congruence.
Qed.

(** The first close decides the error.  When a connection in any state is closed for the first
    time, with an error or with nil, the call succeeds, and whatever happens afterwards every
    WriteTo, ReadFrom and close fails with the error of that first close (or the package's own for
    nil), the arrival of packets changes nothing, and no call changes the state. *)
Theorem Close_final loc ls c e r c1 ls' c2 :
  steps (NewQueuePacketConn loc) ls c -> closeOnce c = false ->
  closeWithError e c = Ok (r, c1) -> steps c1 ls' c2 ->
  let failure op := MkOpError op (Network loc) loc (default errClosedPacketConn e) in
  r = None /\
  (forall p a now, WriteTo p a now c2 = Ok (inr (failure "write"), c2)) /\
  (forall n pick, ReadFrom n pick c2 = Some (Ok (inr (failure "read")), c2)) /\
  (forall e', closeWithError e' c2 = Ok (Some (failure "close"), c2)) /\
  (forall p a, QueueIncoming p a c2 = c2).
Proof.
  intros Hs Ho Hc Hs'. apply steps_fixed in Hs as [El _]. unfold closeWithError in Hc.
  rewrite Ho in Hc. injection Hc as <- <-. apply steps_fixed in Hs' as [El' Hf].
  destruct (Hf eq_refl) as (Ec & Eo & Ee). simpl in *.
  assert (Ht : forall op, opError op c2 = Ok (MkOpError op (Network loc) loc (default errClosedPacketConn e))).
  { intros op. unfold opError. by rewrite Ee, El', El. }
  split_and!; try done.
  - intros p a now. unfold WriteTo. by rewrite Ec, Ht.
  - intros n pick. unfold ReadFrom. by rewrite Ec, Ht.
  - intros e'. unfold closeWithError. by rewrite Eo, Ht.
  - intros p a. unfold QueueIncoming. by rewrite Ec.
Qed.

End QueuePacketConn.

(** ** Witnesses *)

(** One step of a concrete run. *)
Tactic Notation "run_step" uconstr(c) := eapply steps_cons; [eapply c; vm_compute; reflexivity|].

Definition tcp (_ : nat) : string := "tcp".

Lemma Queue_fifo_witness :
  exists (ls : list (label (A := nat))) (c : QueuePacketConn nat),
    received 1 ls ++ waiting 1 c = [[x01]; [x02]]%byte /\ written 5%nat ls = [[x01]; [x02]]%byte /\
    ((received 1 ls ++ waiting 1 c) `sublist_of` written 5%nat ls /\
     (length (waiting 1 c) <= queueSize)%nat /\
     (forall a', LOut a' 1 ∈ ls -> a' = 5%nat)).
Proof.
  eexists _, _. split; [shelve|]. split; [shelve|]. apply (Queue_fifo tcp 9%nat).
  - run_step (step_out tcp _ 5%nat 1).
    run_step (step_write tcp _ [x01]%byte 5%nat 2).
    run_step (step_write tcp _ [x02]%byte 5%nat 3).
    run_step (step_recv tcp _ 1%nat [x01]%byte).
    apply steps_nil.
  - simpl. set_solver.
  Unshelve. all: vm_compute; reflexivity.
Defined.

(** A handler fetches the channel of client 5 at time 0; the client expires at time 100; the
    packet written to it at time 101 waits in another channel. *)
Lemma Orphan_starves_witness :
  exists (ls ls' : list (label (A := nat))) (c c' : QueuePacketConn nat),
    LOut 5%nat 1 ∈ ls /\ written 5%nat ls' = [[x01]]%byte /\ waiting 2 c' = [[x01]]%byte /\
    waiting 1 c = [] /\
    (received 1 ls' ++ waiting 1 c' = waiting 1 c /\ orphan 1 c').
Proof.
  eexists [LOut 5%nat 1%nat; LTau], [LWrite [x01]%byte 5%nat], _, _. split; [set_solver|]. split; [done|]. split; [shelve|]. split; [shelve|].
  apply (Orphan_starves tcp 9%nat [LOut 5%nat 1%nat; LTau] _ 5%nat).
  - run_step (step_out tcp _ 5%nat 0). run_step (step_tick tcp _ 100 60). apply steps_nil.
  - set_solver.
  - vm_compute. reflexivity.
  - run_step (step_write tcp _ [x01]%byte 5%nat 101). apply steps_nil.
  Unshelve. all: vm_compute; reflexivity.
Defined.

Lemma Close_final_witness :
  exists c1 c2 : QueuePacketConn nat,
    closeWithError tcp (Some EOF) (NewQueuePacketConn 9%nat) = Ok (None, c1) /\
    (let failure op := MkOpError op (tcp 9) 9%nat (default errClosedPacketConn (Some EOF)) in
     @None (OpError nat) = None /\
     (forall p a now, WriteTo tcp p a now c2 = Ok (inr (failure "write"), c2)) /\
     (forall n pick, ReadFrom tcp n pick c2 = Some (Ok (inr (failure "read")), c2)) /\
     (forall e', closeWithError tcp e' c2 = Ok (Some (failure "close"), c2)) /\
     (forall p a, QueueIncoming p a c2 = c2)).
Proof.
  eexists _, _. split; [reflexivity|].
  eapply (Close_final tcp 9%nat [] (NewQueuePacketConn 9%nat) (Some EOF) None _
           [LTau; LWrite [x01]%byte 5%nat]);
    [apply steps_nil|reflexivity|reflexivity|].
  eapply steps_cons; [apply (step_incoming_late tcp _ [x02]%byte 5%nat)|].
  run_step (step_write_late tcp _ [x01]%byte 5%nat 7). apply steps_nil.
Defined.
