(* ===== verification/Snowflake.v ===== *)
(** The snowflake transport: snowflake/common/websocketconn/websocketconn.go, and encap.go,
    session.go and handler.go of snowflake/common/standalone.

    A client opens a WebSocket, writes a token and its client id, and then packets in the chunks
    of Encapsulation.v.  The server's handler of a WebSocket queues what it reads for the packet
    connection of QueuePacketConn.v, and writes what the client's channel holds.  The handler's
    goroutines are sequences of turns; a WebSocket is its two streams of messages (the library
    gorilla/websocket is not under src/). *)

From S2P Require Import Prelude GoLib Encapsulation GoHeap ClientMap QueuePacketConn.
From Stdlib Require Import ZArith Lia Strings.Byte Strings.String.
From stdpp Require Import gmap list strings.

#[local] Open Scope Z_scope.

(** ** websocketconn.go *)

(** A message: its type, what io.Copy reads of it, and the error that ends it, if any. *)
Record message := MkMessage { mtype : Z; payload : list byte; broken : option goerr }.
Definition TextMessage : Z := 1.
Definition BinaryMessage : Z := 2.

(** An error of the library: a CloseError with its code, or another. *)
Inductive wserr : Type :=
  | CloseError (code : Z)
  | OtherError (e : goerr).

Definition closeErrorToEOF (e : wserr) : goerr :=
  match e with
  | CloseError code =>
      if (code =? 1000) || (code =? 1005) then EOF else Errorf "websocket: close"
  | OtherError e => e
  end.

(** The bytes that readLoop writes to its pipe, and the error it returns; [last] is the error of
    NextReader after the messages. *)
Fixpoint readLoop (ms : list message) (last : wserr) : list byte * wserr :=
  match ms with
  | [] => ([], last)
  | m :: ms =>
      if (mtype m =? BinaryMessage) || (mtype m =? TextMessage) then
        match broken m with
        | None => let '(bs, e) := readLoop ms last in (payload m ++ bs, e)
        | Some e => (payload m, OtherError e)
        end
      else readLoop ms last
  end.

(** The reads of 2048 bytes that one write to the pipe is taken by: an empty write is one read. *)
Fixpoint pipe_reads (fuel : nat) (p : list byte) : list (list byte) :=
  match fuel with
  | O => []
  | S fuel =>
      match drop 2048 p with
      | [] => [p]
      | rest => take 2048 p :: pipe_reads fuel rest
      end
  end.

(** The messages that writeLoop sends for the writes to a connection. *)
Definition writeLoop (writes : list (list byte)) : list message :=
  map (fun p => MkMessage BinaryMessage p None)
      (concat (map (fun p => pipe_reads (S (length p)) p) writes)).

(** New: the connection over a WebSocket from which these messages come. *)
Definition New (ms : list message) (last : wserr) : conn :=
  let '(bs, e) := readLoop ms last in Conn bs (closeErrorToEOF e) [] None ErrClosedPipe.

(** Close: reads and writes fail from now on. *)
Definition ws_Close (c : conn) : conn := Conn [] ErrClosedPipe (tx c) (Some O) ErrClosedPipe.

(** ** encap.go *)

(** WriteTo and ReadFrom of EncapsulationPacketConn; the buffered writer is flushed in the same
    call. *)
Definition encap_WriteTo (p : list byte) : IO Z :=
  r ← WriteData p;
  match r.2 with None => mret (len p) | Some e => throw e end.

Definition encap_ReadFrom (n : nat) : IO (list byte) :=
  data ← ReadData; mret (take n data).

(** ** session.go *)

(** The function of WrapWebSocketDial: dial, and introduce the client. *)
Definition WrapWebSocketDial (clientID : ClientID) (dialWS : result conn) : result conn :=
  raw ← dialWS;
  match (_ ← Write_ Token; Write_ clientID) raw with
  | (Ok _, raw) => Ok raw
  | (Err e, _) => Err e
  | (Panic s, _) => Panic s
  | (OutOfFuel, _) => OutOfFuel
  end.

(** ** handler.go *)

(** The values of net.Addr that the server meets: client ids and TCP addresses. *)
Abbreviation netAddr := (ClientID + string)%type.
Definition addr_Network (a : netAddr) : string :=
  match a with inl id => ClientID_Network id | inr _ => "tcp" end.

Definition clientMapTimeout : Z := 60 * 1000000000.

Definition PConn : Type := QueuePacketConn netAddr.

(** What serveHTTP reads before it starts its goroutines: [None] when it returns. *)
Definition introduction : IO (option ClientID) :=
  token ← ReadFull (length Token);
  if decide (token = Token)
  then clientID ← ReadFull 8; mret (Some clientID)
  else mret None.

(** A handler that has started its goroutines: its WebSocket, its client, the channel its writer
    has fetched, the goroutines that have returned, and whether the WebSocket is closed. *)
Record handler := MkHandler {
  hconn : conn;
  hid : ClientID;
  hqueue : option nat;
  hread_done : bool;
  hwrite_done : bool;
  hclosed : bool
}.

Definition serveHTTP (ws : conn) : option handler :=
  match introduction ws with
  | (Ok (Some id), ws) => Some (MkHandler ws id None false false false)
  | _ => None
  end.

(** A turn of the goroutine that reads. *)
Definition reader_turn (h : handler) (c : PConn) : handler * PConn :=
  if hread_done h then (h, c) else
  match ReadData (hconn h) with
  | (Ok p, ws) =>
      (MkHandler ws (hid h) (hqueue h) false (hwrite_done h) (hclosed h),
       QueueIncoming p (inl (hid h)) c)
  | (_, ws) => (MkHandler ws (hid h) (hqueue h) true (hwrite_done h) (hclosed h), c)
  end.

(** The goroutine that writes: it fetches the channel once; each turn takes a packet. *)
Definition writer_start (now : Z) (h : handler) (c : PConn) : result (handler * PConn) :=
  '(q, c) ← OutgoingQueue (inl (hid h)) now c;
  Ok (MkHandler (hconn h) (hid h) (Some q) (hread_done h) (hwrite_done h) (hclosed h), c).

Definition writer_turn (h : handler) (c : PConn) : option (handler * PConn) :=
  if hwrite_done h then None else
  match hqueue h with
  | None => None
  | Some q =>
      match chan_recv q c with
      | None => None
      | Some (p, c) =>
          let '(r, ws) := encap_WriteTo p (hconn h) in
          let done := match r with Ok _ => false | _ => true end in
          Some (MkHandler ws (hid h) (Some q) (hread_done h) done (hclosed h), c)
      end
  end.

(** [<-errCh] and the deferred conn.Close(). *)
Definition handler_return (h : handler) : option handler :=
  if (hread_done h || hwrite_done h) && negb (hclosed h)
  then Some (MkHandler (ws_Close (hconn h)) (hid h) (hqueue h) (hread_done h) (hwrite_done h) true)
  else None.

(** The sessions over the packet connection: [smuxSessions], and which sessions are open. *)
Record sessions := MkSessions {
  smuxSessions : gmap ClientID nat;
  open : gset nat
}.

(** acceptSmux up to muxpipe.Serve, for the new session [sess], and its deferred function. *)
Definition acceptSmux (remote : netAddr) (sess : nat) (s : sessions) : sessions :=
  match remote with
  | inl clientID =>
      let opened := {[sess]} ∪ match smuxSessions s !! clientID with
                               | Some old => open s ∖ {[old]}
                               | None => open s
                               end in
      MkSessions (<[clientID := sess]> (smuxSessions s)) opened
  | inr _ => MkSessions (smuxSessions s) ({[sess]} ∪ open s)
  end.

(** The return of muxpipe.Serve; for other addresses the session is not closed. *)
Definition acceptSmux_return (remote : netAddr) (sess : nat) (s : sessions) : sessions :=
  match remote with
  | inl clientID => MkSessions (delete clientID (smuxSessions s)) (open s ∖ {[sess]})
  | inr _ => s
  end.

(** ** Lemmas *)

Lemma pipe_reads_concat fuel p : (length p < fuel)%nat -> concat (pipe_reads fuel p) = p.
Proof.
  revert p. induction fuel as [|fuel IH]; intros p Hf; [lia|]. cbn [pipe_reads].
  destruct (drop 2048 p) as [|b rest] eqn:E.
  - simpl. apply app_nil_r.
  - cbn [concat]. rewrite IH, <- E; [apply take_drop|].
    rewrite <- E, length_drop. assert (length (drop 2048 p) <> 0)%nat by (by rewrite E).
    rewrite length_drop in *. lia.
Qed.

(** A WebSocket carries the bytes written to it, whatever the sizes of the writes. *)
Lemma WebSocket_bytes writes last :
  readLoop (writeLoop writes) last = (concat writes, last).
Proof.
  unfold writeLoop. set (ps := concat (map _ writes)).
  assert (E : concat ps = concat writes).
  { unfold ps. clear ps. induction writes as [|p writes IH]; [done|].
    cbn [map concat]. rewrite concat_app, IH, pipe_reads_concat by lia. done. }
  rewrite <- E. clear E. induction ps as [|p ps IH]; [done|]. simpl. by rewrite IH.
Qed.

Lemma New_writes writes code :
  (code =? 1000) || (code =? 1005) = true ->
  New (writeLoop writes) (CloseError code) = Conn (concat writes) EOF [] None ErrClosedPipe.
Proof. intros Hc. unfold New. rewrite WebSocket_bytes. simpl. by rewrite Hc. Qed.

(** ** Runs *)

(** WriteTo for each packet; ReadFrom until it fails. *)
Fixpoint encap_writes (ps : list (list byte)) : IO unit :=
  match ps with [] => mret tt | p :: ps => _ ← encap_WriteTo p; encap_writes ps end.

Fixpoint encap_reads (fuel n : nat) (c : conn) : list (list byte) * result (list byte) :=
  match fuel with
  | O => ([], OutOfFuel)
  | S fuel =>
      match encap_ReadFrom n c with
      | (Ok p, c) => let '(ps, r) := encap_reads fuel n c in (p :: ps, r)
      | (r, _) => ([], r)
      end
  end.

Definition reader_turns (k : nat) (hc : handler * PConn) : handler * PConn :=
  Nat.iter k (fun hc => reader_turn hc.1 hc.2) hc.

Fixpoint writer_turns (k : nat) (h : handler) (c : PConn) : option (handler * PConn) :=
  match k with O => Some (h, c) | S k => '(h, c) ← writer_turn h c; writer_turns k h c end.

Definition packet_ok (p : list byte) : Prop := len p < 2 ^ 20.

(** Bytes from which ReadData takes these packets, one by one. *)
Inductive carries : list byte -> list (list byte) -> Prop :=
  | carries_nil : carries [] []
  | carries_cons bs p rest ps : delivers bs p -> carries rest ps -> carries (bs ++ rest) (p :: ps).

Lemma encap_WriteTo_appends p c :
  tx_room c = None -> packet_ok p ->
  exists bs, encap_WriteTo p c = (Ok (len p), set_tx (tx c ++ bs) None c) /\ delivers bs p.
Proof.
  intros Hr Hp. destruct (WriteData_appends p c Hr Hp) as (bs & E & Hd & _).
  exists bs. split; [|done]. unfold encap_WriteTo. by erewrite bind_Ok by exact E.
Qed.

Lemma encap_writes_appends ps c :
  Forall packet_ok ps -> tx_room c = None ->
  exists bs, encap_writes ps c = (Ok tt, set_tx (tx c ++ bs) None c) /\ carries bs ps.
Proof.
  intros Hps. revert c. induction Hps as [|p ps Hp _ IH]; intros c Hr.
  { exists []. split; [|constructor]. rewrite app_nil_r. unfold set_tx. rewrite <- Hr. by destruct c. }
  destruct (encap_WriteTo_appends p c Hr Hp) as (bs & E & Hd).
  destruct (IH (set_tx (tx c ++ bs) None c) eq_refl) as (bs' & E' & Hc).
  exists (bs ++ bs'). split; [|by constructor]. cbn [encap_writes].
  erewrite bind_Ok by exact E. rewrite E'. unfold set_tx. simpl. by rewrite (assoc_L (++)).
Qed.

(** Reading back. *)
Lemma ReadData_end e t r w : ReadData (Conn [] e t r w) = (Err e, Conn [] e t r w).
Proof. done. Qed.

Lemma encap_reads_carries fuel n bs ps e t r w :
  carries bs ps -> (length ps < fuel)%nat ->
  encap_reads fuel n (Conn bs e t r w) = (map (take n) ps, Err e).
Proof.
  intros Hc. revert fuel. induction Hc as [|bs p rest ps Hd _ IH]; intros [|fuel] Hf;
    simpl in Hf; try lia; cbn [encap_reads].
  - done.
  - unfold encap_ReadFrom. erewrite bind_Ok by apply Hd. unfold mret, RS_ret, IO_ret. by rewrite IH by lia.
Qed.

Lemma reader_turns_carries bs ps e t r w id q wd cl c :
  carries bs ps ->
  reader_turns (S (length ps)) (MkHandler (Conn bs e t r w) id q false wd cl, c) =
    (MkHandler (Conn [] e t r w) id q true wd cl, foldl (fun c p => QueueIncoming p (inl id) c) c ps).
Proof.
  unfold reader_turns. intros Hc. revert c. induction Hc as [|bs p rest ps Hd _ IH]; intros c; [done|].
  cbn [length]. rewrite Nat.iter_succ_r.
  assert (E : reader_turn (MkHandler (Conn (bs ++ rest) e t r w) id q false wd cl) c =
              (MkHandler (Conn rest e t r w) id q false wd cl, QueueIncoming p (inl id) c)).
  { unfold reader_turn. simpl. by rewrite Hd. }
  simpl fst. simpl snd. rewrite E, IH. done.
Qed.

Lemma fold_incoming_room (id : ClientID) ps (c : PConn) :
  closed c = false -> (length (recvQueue c) + length ps <= queueSize)%nat ->
  foldl (fun c p => QueueIncoming p (inl id) c) c ps =
    set_recv (recvQueue c ++ map (fun p => MkTagged p (inl id)) ps) c.
Proof.
  revert c. induction ps as [|p ps IH]; intros c Ho Hl; simpl in *.
  - rewrite app_nil_r. by destruct c.
  - assert (E : QueueIncoming p (inl id) c = set_recv (recvQueue c ++ [MkTagged p (inl id)]) c).
    { unfold QueueIncoming, incoming_send, try_send. rewrite Ho. by rewrite decide_True by lia. }
    rewrite E, IH; [|done|simpl; rewrite length_app; simpl; lia].
    unfold set_recv. simpl. by rewrite <- (assoc_L (++)).
Qed.

Lemma writer_turns_queue ps q e t w id rd cl c :
  Forall packet_ok ps -> queues c !! q = Some ps ->
  exists bs, carries bs ps /\
    writer_turns (length ps) (MkHandler (Conn e t w None ErrClosedPipe) id (Some q) rd false cl) c =
      Some (MkHandler (Conn e t (w ++ bs) None ErrClosedPipe) id (Some q) rd false cl,
            set_queues (<[q := []]> (queues c)) c).
Proof.
  intros Hps. revert w c. induction Hps as [|p ps Hp _ IH]; intros w c Eq.
  { exists []. split; [constructor|]. rewrite app_nil_r. simpl. do 2 f_equal.
    rewrite insert_id by done. by destruct c. }
  destruct (encap_WriteTo_appends p (Conn e t w None ErrClosedPipe) eq_refl Hp) as (bs & E & Hd).
  destruct (IH (w ++ bs) (set_queues (<[q := ps]> (queues c)) c)) as (bs' & Hc & E').
  { simpl. by rewrite lookup_insert_eq. }
  exists (bs ++ bs'). split; [by constructor|]. cbn [length writer_turns].
  assert (Et : writer_turn (MkHandler (Conn e t w None ErrClosedPipe) id (Some q) rd false cl) c =
    Some (MkHandler (Conn e t (w ++ bs) None ErrClosedPipe) id (Some q) rd false cl,
          set_queues (<[q := ps]> (queues c)) c)).
  { unfold writer_turn, chan_recv. simpl. rewrite Eq, E. done. }
  rewrite Et. simpl. rewrite E'. unfold set_queues. simpl.
  by rewrite insert_insert_eq, <- (assoc_L (++)).
Qed.

(** ** The properties *)


(** C12: Downlink of a WebSocket.  The writer of an open handler whose channel holds some packets sends
    them all, and the client at the other end, however the WebSocket cuts the bytes, reads exactly
    these packets in order, each cut to the size of its buffer, and then the normal close. *)
Theorem Websocket_downlink (id : ClientID) ps q (c : PConn) i e rd n code :
  Forall packet_ok ps -> queues c !! q = Some ps ->
  (code =? 1000) || (code =? 1005) = true ->
  exists h' c',
    writer_turns (length ps) (MkHandler (Conn i e [] None ErrClosedPipe) id (Some q) rd false false) c =
      Some (h', c') /\ waiting q c' = [] /\
    forall writes, concat writes = tx (hconn h') ->
      encap_reads (S (length ps)) n (New (writeLoop writes) (CloseError code)) =
        (map (take n) ps, Err EOF).
Proof.
  intros Hps Eq Hc. destruct (writer_turns_queue ps q i e [] id rd false c Hps Eq) as (bs & Hcar & E).
  eexists _, _. split; [exact E|]. split; [unfold waiting; simpl; by rewrite lookup_insert_eq|].
  cbn [hconn tx app]. intros writes Hw. rewrite (New_writes _ _ Hc), Hw. by apply encap_reads_carries; [|lia].
Qed.

(** A writer whose WebSocket is closed. *)
Lemma closed_writer_turn ws id rd q p l (c : PConn) :
  queues c !! q = Some (p :: l) -> packet_ok p ->
  exists h' c', writer_turn (MkHandler (ws_Close ws) id (Some q) rd false true) c = Some (h', c') /\
    tx (hconn h') = tx ws /\ hwrite_done h' = true /\ queues c' = <[q := l]> (queues c).
Proof.
  intros Eq Hp. unfold writer_turn, chan_recv. simpl. rewrite Eq.
  unfold encap_WriteTo, WriteData. rewrite dataPrefix_spec. pose proof (len_nonneg p).
  unfold packet_ok in Hp. rewrite (proj2 (Z.leb_le 0 _)), (proj2 (Z.ltb_lt _ (2 ^ 20))) by lia. simpl.
  pose proof (length_prefix_of 128 (len p)) as Hl.
  assert (Ew : Write (prefix_of 128 (len p)) (ws_Close ws) =
               (Ok (0, Some ErrClosedPipe), ws_Close ws)).
  { unfold Write, ws_Close. simpl. rewrite decide_False by lia. unfold set_tx. simpl. by rewrite app_nil_r. }
  rewrite IO_bind_eq. erewrite bind_Ok by exact Ew. simpl. by eexists _, _.
Qed.

(** A packet can be lost to a dead WebSocket.  When the WebSocket of a client is gone (its handler
    has returned) and the client is back on another, both writers hold the same channel: the next
    packet for the client may be taken by the writer of the closed WebSocket, which puts nothing on
    any wire and ends, and then the live writer has nothing to send; had the live writer been first,
    the client would have read the packet. *)
Theorem Reconnect_loses_packet loc ls (c : PConn) ws1 ws2 id now1 now2 now3 h1 c1 e ws1' h2 c2 p r c3 :
  steps addr_Network (NewQueuePacketConn loc) ls c -> closed c = false -> packet_ok p ->
  writer_start now1 (MkHandler ws1 id None false false false) c = Ok (h1, c1) ->
  (forall q, hqueue h1 = Some q -> waiting q c1 = []) -> ReadData ws1 = (Err e, ws1') ->
  writer_start now2 (MkHandler (Conn ws2 EOF [] None ErrClosedPipe) id None false false false) c1 = Ok (h2, c2) ->
  WriteTo addr_Network p (inl id) now3 c2 = Ok (r, c3) ->
  exists h1', handler_return (reader_turn h1 c1).1 = Some h1' /\
    (exists h1'' c4, writer_turn h1' c3 = Some (h1'', c4) /\ tx (hconn h1'') = tx (hconn h1') /\
       hwrite_done h1'' = true /\ writer_turn h2 c4 = None) /\
    (exists h2' c4, writer_turn h2 c3 = Some (h2', c4) /\ delivers (tx (hconn h2')) p).
Proof.
  intros Hs Ho Hp E1 He Er E2 E3. destruct (Inv_steps _ loc ls c Hs) as [own I].
  unfold writer_start, OutgoingQueue in *. cbn [hid] in *.
  destruct (client_queue_spec own ls c (inl id) now1 I)
    as (q & c1' & own1 & Eq & I1 & _ & _ & _ & _ & _ & Hcl & _).
  assert (R1 := client_queue_records own ls c _ _ _ _ I Eq).
  rewrite Eq in E1. cbn [mbind result_bind] in E1. injection E1 as <- <-.
  destruct (client_queue_again own1 ls c1' (inl id) now1 q now2 I1 R1) as (c2' & Eq2 & Q2 & Cl2 & I2).
  assert (R2 := client_queue_records own1 ls c1' _ _ _ _ I1 Eq2).
  rewrite Eq2 in E2. cbn [mbind result_bind] in E2. injection E2 as <- <-.
  unfold WriteTo, write_send in E3. rewrite Cl2, Hcl, Ho in E3.
  destruct (client_queue_again own1 ls c2' (inl id) now2 q now3 I2 R2) as (c3' & Eq3 & Q3 & _ & I3).
  rewrite Eq3 in E3. cbn [mbind result_bind] in E3. injection E3 as <- <-.
  assert (W : queues c1' !! q = Some []).
  { specialize (He q eq_refl). unfold waiting in He.
    destruct (queues c1' !! q) as [l|] eqn:El; [by simpl in He; subst l|].
    destruct (inv_dom _ _ _ I1 q) as [Hd _]. rewrite (inv_records _ _ _ I1 _ _ _ R1), El in Hd.
    by destruct Hd; [eexists|]. }
  set (c3 := set_queues _ _).
  assert (W3 : queues c3 !! q = Some [p]).
  { unfold c3. simpl. rewrite lookup_alter_eq, Q3, Q2, W. done. }
  unfold reader_turn. simpl. rewrite Er. eexists. split; [done|]. split.
  - destruct (closed_writer_turn ws1' id true q p [] c3 W3 Hp) as (h' & c4 & Et & T & D & Q4).
    exists h', c4. split; [exact Et|]. split; [done|]. split; [done|].
    unfold writer_turn, chan_recv. simpl. by rewrite Q4, lookup_insert_eq.
  - destruct (writer_turns_queue [p] q ws2 EOF [] id false false c3) as (bs & Hcar & Et); [by constructor|done|].
    inversion Hcar as [|bs1 ? rest ? Hd Hn]; subst. inversion Hn; subst. rewrite app_nil_r in Et.
    simpl in Et. destruct (writer_turn _ _) as [[h' c4]|] eqn:Ew; [|done]. injection Et as -> ->.
    eexists _, _. split; [reflexivity|done].
Qed.

(** Leaving unregisters the successor.  When a client has come back with a second session and the
    first one ends, which its replacement has closed, the registration that is deleted is that of
    the second; a third session then does not close the second, and both stay open. *)
Theorem Successor_unregistered (id : ClientID) (s : sessions) s1 s2 s3 :
  s1 <> s2 -> s2 <> s3 -> s1 <> s3 -> smuxSessions s !! id = None ->
  let a2 := acceptSmux (inl id) s2 (acceptSmux (inl id) s1 s) in
  let after := acceptSmux_return (inl id) s1 a2 in
  s1 ∉ open a2 /\ smuxSessions a2 !! id = Some s2 /\
  smuxSessions after !! id = None /\ s2 ∈ open after /\
  {[s2; s3]} ⊆ open (acceptSmux (inl id) s3 after).
Proof.
  intros N1 N2 N3 Hn. simpl. rewrite Hn, lookup_insert_eq, lookup_delete_eq.
  split_and!; [set_solver|by rewrite lookup_insert_eq|done|set_solver|set_solver].
Qed.

(** ** Witnesses *)

Definition some_id : ClientID := [x01; x02; x03; x04; x05; x06; x07; x08]%byte.
Definition some_packets : list (list byte) := [[x41; x42]; []; [x43]]%byte.
Definition fresh_conn : PConn := NewQueuePacketConn (inr "0.0.0.0:8080"%string).

Lemma some_packets_ok : Forall packet_ok some_packets.
Proof. repeat constructor; unfold packet_ok; vm_compute; done. Qed.


Lemma Websocket_downlink_witness :
  exists h' c',
    writer_turns 3 (MkHandler (Conn [] EOF [] None ErrClosedPipe) some_id (Some 1%nat) false false false)
      (set_queues (<[1%nat := some_packets]> ∅) fresh_conn) = Some (h', c') /\ waiting 1 c' = [] /\
    forall writes, concat writes = tx (hconn h') ->
      encap_reads 4 1 (New (writeLoop writes) (CloseError 1005)) = ([[x41]; []; [x43]]%byte, Err EOF).
Proof.
  apply (Websocket_downlink some_id some_packets 1%nat
           (set_queues (<[1%nat := some_packets]> ∅) fresh_conn) [] EOF false 1 1005);
    [exact some_packets_ok|reflexivity|reflexivity].
Defined.

(** The value of a call that is known to succeed, without computing its normal form. *)
Definition succeeds {A} (r : result A) : bool := match r with Ok _ => true | _ => false end.
Definition value {A} (d : A) (r : result A) : A := match r with Ok a => a | _ => d end.

Lemma succeeds_value {A B} (d : A * B) (r : result (A * B)) :
  succeeds r = true -> r = Ok ((value d r).1, (value d r).2).
Proof. by destruct r as [[]| | |]. Qed.

Definition old_handler : handler := MkHandler (conn_of []) some_id None false false false.
Definition new_handler : handler := MkHandler (Conn [] EOF [] None ErrClosedPipe) some_id None false false false.
Definition first_start := value (old_handler, fresh_conn) (writer_start 1 old_handler fresh_conn).
Definition second_start := value (new_handler, fresh_conn) (writer_start 2 new_handler first_start.2).
Definition one_write := value (inl 0, fresh_conn) (WriteTo addr_Network [x41]%byte (inl some_id) 3 second_start.2).

Lemma Reconnect_loses_packet_witness :
  exists h1', handler_return (reader_turn first_start.1 first_start.2).1 = Some h1' /\
    (exists h1'' c4, writer_turn h1' one_write.2 = Some (h1'', c4) /\ tx (hconn h1'') = tx (hconn h1') /\
       hwrite_done h1'' = true /\ writer_turn second_start.1 c4 = None) /\
    (exists h2' c4, writer_turn second_start.1 one_write.2 = Some (h2', c4) /\ delivers (tx (hconn h2')) [x41]%byte).
Proof.
  apply (Reconnect_loses_packet (inr "0.0.0.0:8080"%string) [] fresh_conn (conn_of []) [] some_id 1 2 3
           first_start.1 first_start.2 EOF (conn_of []) second_start.1 second_start.2 [x41]%byte one_write.1).
  - apply steps_nil.
  - reflexivity.
  - vm_compute. reflexivity.
  - apply succeeds_value. vm_compute. reflexivity.
  - intros q E. vm_compute in E. injection E as <-. vm_compute. reflexivity.
  - reflexivity.
  - apply succeeds_value. vm_compute. reflexivity.
  - apply succeeds_value. vm_compute. reflexivity.
Defined.

Lemma Successor_unregistered_witness :
  let a2 := acceptSmux (inl some_id) 2 (acceptSmux (inl some_id) 1 (MkSessions ∅ ∅)) in
  let after := acceptSmux_return (inl some_id) 1 a2 in
  1%nat ∉ open a2 /\ smuxSessions a2 !! some_id = Some 2%nat /\
  smuxSessions after !! some_id = None /\ 2%nat ∈ open after /\
  {[2; 3]}%nat ⊆ open (acceptSmux (inl some_id) 3 after).
Proof. apply (Successor_unregistered some_id (MkSessions ∅ ∅) 1 2 3); done. Defined.
