(* ===== verification/Redial.v ===== *)
(** The snowflake client's packet connection:
    snowflake/common/turbotunnel/redialpacketconn.go.

    One long-lived connection over a sequence of transient ones.  [dialLoop] dials and runs one
    [exchange] after the other; an exchange is three goroutines (one that reads, one that
    writes, one that waits for either to fail) that meet on two unbuffered channels.  Each
    goroutine is a program counter, and their steps interleave freely, also those of goroutines
    that an earlier exchange has left behind. *)

From S2P Require Import Prelude GoLib GoHeap ClientMap QueuePacketConn.
From Stdlib Require Import ZArith Lia Strings.Byte Strings.String.
From stdpp Require Import list strings.

#[local] Open Scope Z_scope.

(** ** The state *)

(** The goroutine that reads: in its first select, in conn.ReadFrom, at [readErrCh <- err],
    returned (readErrCh is closed). *)
Inductive rstate : Type := RCheck | RRead | RSend | RDone.
(** The goroutine that writes: in its select, in conn.WriteTo, at [writeErrCh <- err], returned
    (writeErrCh is closed). *)
Inductive wstate : Type := WSelect | WWrite (p : list byte) | WSend | WDone.

(** [xwaiting]: exchange is in its select; [xopen]: conn is open. *)
Record exchange := MkExchange { xr : rstate; xw : wstate; xwaiting : bool; xopen : bool }.

(** The queues of the connection, and the packets for which a conn.WriteTo has succeeded. *)
Record queues := MkQueues { recvQ : list (list byte); sendQ : list (list byte); sent : list (list byte) }.

(** dialLoop: at the top of its loop, in dialContext, waiting for the backoff (in nanoseconds), in
    an exchange, returned. *)
Inductive dstate : Type :=
  | DTop (backoff : Z) | DDial (backoff : Z) | DWait (backoff : Z) | DExchange | DDone.

Record RedialPacketConn := MkRedial {
  qs : queues;
  dial : dstate;
  current : option exchange;
  past : list exchange;
  closed : bool;
  err : option goerr
}.

Definition second : Z := 1000000000.
Definition maxBackoff : Z := 30 * second.

Definition NewRedialPacketConn : RedialPacketConn :=
  MkRedial (MkQueues [] [] []) (DTop second) None [] false None.

(** The backoff after a wait. *)
Definition next_backoff (backoff : Z) : Z :=
  if backoff <? maxBackoff
  then let b := backoff * 2 in if b >? maxBackoff then maxBackoff else b
  else backoff.

(** ** exchange *)

Definition set_xr (r : rstate) (x : exchange) := MkExchange r (xw x) (xwaiting x) (xopen x).
Definition set_xw (w : wstate) (x : exchange) := MkExchange (xr x) w (xwaiting x) (xopen x).
Definition leave (x : exchange) := MkExchange (xr x) (xw x) false (xopen x).

(** The first select of the goroutine that reads has a case that is ready. *)
Definition check_ready (closed : bool) (x : exchange) : bool :=
  closed || match xw x with WSend | WDone => true | _ => false end.

Inductive xstep (closed : bool) (x : exchange) (q : queues) : exchange -> queues -> Prop :=
  | r_closed : xr x = RCheck -> closed = true -> xstep closed x q (set_xr RDone x) q
  | r_sees_done : xr x = RCheck -> xw x = WDone -> xstep closed x q (set_xr RDone x) q
  | r_takes_error : xr x = RCheck -> xw x = WSend ->
      xstep closed x q (set_xr RDone (set_xw WDone x)) q
  | r_default : xr x = RCheck -> check_ready closed x = false -> xstep closed x q (set_xr RRead x) q
  | r_packet p : xr x = RRead -> xopen x = true -> (length p <= 1500)%nat ->
      xstep closed x q (set_xr RCheck x) (MkQueues (try_send p (recvQ q)) (sendQ q) (sent q))
  | r_error : xr x = RRead -> xstep closed x q (set_xr RSend x) q
  | r_to_main : xr x = RSend -> xwaiting x = true -> xstep closed x q (leave (set_xr RDone x)) q
  | r_to_writer : xr x = RSend -> xw x = WSelect ->
      xstep closed x q (set_xr RDone (set_xw WDone x)) q
  | w_closed : xw x = WSelect -> closed = true -> xstep closed x q (set_xw WDone x) q
  | w_sees_done : xw x = WSelect -> xr x = RDone -> xstep closed x q (set_xw WDone x) q
  | w_packet p l : xw x = WSelect -> sendQ q = p :: l ->
      xstep closed x q (set_xw (WWrite p) x) (MkQueues (recvQ q) l (sent q))
  | w_written p : xw x = WWrite p -> xopen x = true ->
      xstep closed x q (set_xw WSelect x) (MkQueues (recvQ q) (sendQ q) (sent q ++ [p]))
  | w_error p : xw x = WWrite p -> xstep closed x q (set_xw WSend x) q
  | w_to_main : xw x = WSend -> xwaiting x = true -> xstep closed x q (leave (set_xw WDone x)) q
  | m_read_closed : xwaiting x = true -> xr x = RDone -> xstep closed x q (leave x) q
  | m_write_closed : xwaiting x = true -> xw x = WDone -> xstep closed x q (leave x) q.

(** ** The methods and dialLoop *)

Definition set_qs (q : queues) (c : RedialPacketConn) : RedialPacketConn :=
  MkRedial q (dial c) (current c) (past c) (closed c) (err c).
Definition set_dial (d : dstate) (c : RedialPacketConn) : RedialPacketConn :=
  MkRedial (qs c) d (current c) (past c) (closed c) (err c).

Definition loaded (c : RedialPacketConn) : result goerr :=
  match err c with Some e => Ok e | None => Panic "interface conversion: interface is nil, not error" end.

(** WriteTo, its second select; ReadFrom, its second select with the choice [pick]. *)
Definition write_send (p : list byte) (c : RedialPacketConn) : RedialPacketConn :=
  set_qs (MkQueues (recvQ (qs c)) (try_send p (sendQ (qs c))) (sent (qs c))) c.
Definition WriteTo (p : list byte) (c : RedialPacketConn) : result (Z + goerr) * RedialPacketConn :=
  if closed c then (e ← loaded c; Ok (inr e), c) else (Ok (inl (len p)), write_send p c).

Definition read_select (n : nat) (pick : bool) (c : RedialPacketConn) :
    option (result (list byte + goerr) * RedialPacketConn) :=
  match recvQ (qs c) with
  | p :: l =>
      if closed c && pick then Some (e ← loaded c; Ok (inr e), c)
      else Some (Ok (inl (take n p)), set_qs (MkQueues l (sendQ (qs c)) (sent (qs c))) c)
  | [] => if closed c then Some (e ← loaded c; Ok (inr e), c) else None
  end.
Definition ReadFrom (n : nat) (pick : bool) (c : RedialPacketConn) :
    option (result (list byte + goerr) * RedialPacketConn) :=
  if closed c then Some (e ← loaded c; Ok (inr e), c) else read_select n pick c.

Definition closeWithError (e : option goerr) (c : RedialPacketConn) :
    result (option goerr) * RedialPacketConn :=
  if closed c then (e ← loaded c; Ok (Some e), c)
  else (Ok None, MkRedial (qs c) (dial c) (current c) (past c) true
                   (Some (default (Errorf "operation on closed connection") e))).

(** A label shows the packets that WriteTo takes in. *)
Inductive step (c : RedialPacketConn) : option (list byte) -> RedialPacketConn -> Prop :=
  | s_write p r c' : WriteTo p c = (Ok (inl r), c') -> step c (Some p) c'
  | s_write_late p : step c (Some p) (write_send p c)
  | s_read n pick r c' : ReadFrom n pick c = Some (r, c') -> step c None c'
  | s_read_late n pick r c' : read_select n pick c = Some (r, c') -> step c None c'
  | s_close e r c' : closeWithError e c = (r, c') -> step c None c'
  | s_stop b : dial c = DTop b \/ dial c = DWait b -> closed c = true -> step c None (set_dial DDone c)
  | s_go_on b : dial c = DTop b -> closed c = false -> step c None (set_dial (DDial b) c)
  | s_dial_fails b : dial c = DDial b -> step c None (set_dial (DWait b) c)
  | s_backoff b : dial c = DWait b -> step c None (set_dial (DTop (next_backoff b)) c)
  | s_dial b : dial c = DDial b ->
      step c None (MkRedial (qs c) DExchange (Some (MkExchange RCheck WSelect true true)) (past c)
                     (closed c) (err c))
  | s_current x x' q' : current c = Some x -> xstep (closed c) x (qs c) x' q' ->
      step c None (MkRedial q' (dial c) (Some x') (past c) (closed c) (err c))
  | s_past i x x' q' : past c !! i = Some x -> xstep (closed c) x (qs c) x' q' ->
      step c None (MkRedial q' (dial c) (current c) (<[i := x']> (past c)) (closed c) (err c))
  | s_conn_Close x : current c = Some x -> xwaiting x = false ->
      step c None (MkRedial (qs c) (DTop second) None
                     (past c ++ [MkExchange (xr x) (xw x) false false]) (closed c) (err c)).

Inductive steps (c0 : RedialPacketConn) : list (list byte) -> RedialPacketConn -> Prop :=
  | steps_nil : steps c0 [] c0
  | steps_snoc ps l c c' : steps c0 ps c -> step c l c' -> steps c0 (ps ++ option_list l) c'.

(** ** Order *)

(** The packet in the hands of the goroutine that writes, while the connection is open. *)
Definition in_flight (x : exchange) : list (list byte) :=
  if xopen x then match xw x with WWrite p => [p] | _ => [] end else [].

Definition pipeline (x : exchange) (q : queues) : list (list byte) := sent q ++ in_flight x ++ sendQ q.

Lemma xstep_open closed x q x' q' : xstep closed x q x' q' -> xopen x' = xopen x.
Proof. by destruct 1. Qed.

Lemma xstep_pipeline closed x q x' q' :
  xstep closed x q x' q' -> pipeline x' q' `sublist_of` pipeline x q.
Proof.
  intros S. unfold pipeline, in_flight. destruct S; simpl; try done;
    repeat match goal with H : xw x = _ |- _ => rewrite H in * end; try done.
  - rewrite H0. destruct (xopen x); [done|]. apply sublist_app; [done|]. by apply sublist_cons.
  - rewrite H0. by rewrite <- (assoc_L (++)).
  - apply sublist_app; [done|]. destruct (xopen x); [by apply sublist_cons|done].
Qed.

(** What the goroutines of an earlier exchange can still do. *)
Lemma xstep_past closed x q x' q' :
  xstep closed x q x' q' -> xopen x = false -> xwaiting x = false ->
  sent q' = sent q /\ sendQ q' `sublist_of` sendQ q /\ xopen x' = false /\ xwaiting x' = false.
Proof.
  intros S Ho Hw. destruct S; simpl; try congruence; try done.
  rewrite H0. split_and!; try done. by apply sublist_cons.
Qed.

Record Inv (ps : list (list byte)) (c : RedialPacketConn) : Prop := MkInv {
  inv_pipeline : match current c with
                 | Some x => pipeline x (qs c) | None => sent (qs c) ++ sendQ (qs c)
                 end `sublist_of` ps;
  inv_past i x : past c !! i = Some x -> xopen x = false /\ xwaiting x = false;
  inv_current : is_Some (current c) <-> dial c = DExchange;
  inv_backoff : match dial c with
                | DTop b | DDial b | DWait b => second <= b <= maxBackoff
                | _ => True
                end
}.

Lemma next_backoff_range b : second <= b <= maxBackoff -> second <= next_backoff b <= maxBackoff.
Proof. unfold next_backoff, maxBackoff, second. repeat case_match; lia. Qed.

Lemma Redial_New : Inv [] NewRedialPacketConn.
Proof. by split; simpl; rewrite ?is_Some_alt. Qed.

(** A change of the receive queue, of [closed] and of [err]. *)
Lemma Redial_same ps c c' :
  Inv ps c -> sendQ (qs c') = sendQ (qs c) -> sent (qs c') = sent (qs c) ->
  dial c' = dial c -> current c' = current c -> past c' = past c -> Inv ps c'.
Proof.
  intros [H1 H2 H3 H4] E1 E2 E3 E4 E5.
  split; unfold pipeline in *; rewrite ?E1, ?E2, ?E3, ?E4, ?E5; done.
Qed.

Lemma Redial_write ps p c : Inv ps c -> Inv (ps ++ [p]) (write_send p c).
Proof.
  intros [H1 H2 H3 H4]. split; simpl; try done.
  assert (Hs : try_send p (sendQ (qs c)) `sublist_of` sendQ (qs c) ++ [p]).
  { unfold try_send. case_decide; [done|by apply sublist_inserts_r]. }
  destruct (current c) as [x|]; unfold pipeline in *; simpl.
  - etransitivity; [|by apply sublist_app; [exact H1|]]. rewrite <- !(assoc_L (++)).
    by repeat apply sublist_app.
  - etransitivity; [|by apply sublist_app; [exact H1|]]. rewrite <- !(assoc_L (++)).
    by apply sublist_app.
Qed.

Lemma Redial_step ps c l c' : Inv ps c -> step c l c' -> Inv (ps ++ option_list l) c'.
Proof.
  intros I S. destruct S; simpl; rewrite ?app_nil_r.
  - unfold WriteTo in *. destruct (closed c); simplify_eq/=; [by destruct (loaded _)|].
    by apply Redial_write.
  - by apply Redial_write.
  - unfold ReadFrom, read_select in *. repeat case_match; simplify_eq; try done; by eapply Redial_same.
  - unfold read_select in *. repeat case_match; simplify_eq; try done; by eapply Redial_same.
  - unfold closeWithError in *. repeat case_match; simplify_eq; try done; by eapply Redial_same.
  - destruct I as [H1 H2 H3 H4]. split; simpl; try done. destruct H; rewrite H in H3; naive_solver.
  - destruct I as [H1 H2 H3 H4]. rewrite H in *. split; simpl; try done. naive_solver.
  - destruct I as [H1 H2 H3 H4]. rewrite H in *. split; simpl; try done. naive_solver.
  - destruct I as [H1 H2 H3 H4]. rewrite H in *.
    split; simpl; try done; [naive_solver|by apply next_backoff_range].
  - destruct I as [H1 H2 H3 H4]. rewrite H in *. split; simpl; try done.
    destruct (current c); [|done]. naive_solver.
  - destruct I as [H1 H2 H3 H4]. rewrite H in *. split; simpl; try done.
    + etransitivity; [by eapply xstep_pipeline|done].
    + naive_solver.
  - destruct I as [H1 H2 H3 H4]. destruct (H2 _ _ H) as [Ho Hw].
    destruct (xstep_past _ _ _ _ _ H0 Ho Hw) as (E1 & E2 & E3 & E4). split; simpl; try done.
    + etransitivity; [|exact H1]. unfold pipeline. destruct (current c); rewrite E1;
        repeat apply sublist_app; done.
    + intros j y [(-> & <- & _)|[_ ?]]%list_lookup_insert_Some; [done|by eapply H2].
  - destruct I as [H1 H2 H3 H4]. rewrite H in *. split; simpl; try done.
    + etransitivity; [|exact H1]. unfold pipeline. apply sublist_app; [done|]. by apply sublist_inserts_l.
    + intros i y [?|[_ E]]%lookup_app_Some; [by eapply H2|].
      apply list_lookup_singleton_Some in E as [_ <-]. done.
Qed.

Lemma Redial_steps ps c : steps NewRedialPacketConn ps c -> Inv ps c.
Proof. induction 1 as [|ps l c c' _ I S]; [apply Redial_New|by eapply Redial_step]. Qed.

(** ** Exchanges end, and leave goroutines behind *)

(** A goroutine has failed or returned. *)
Definition failed (x : exchange) : Prop :=
  xr x = RSend \/ xr x = RDone \/ xw x = WSend \/ xw x = WDone.

(** The goroutine that reads, of an exchange whose writer has returned: it is in conn.ReadFrom of a
    closed connection, or at its send. *)
Definition abandoned (x : exchange) : Prop :=
  (xr x = RRead \/ xr x = RSend) /\ xw x = WDone /\ xwaiting x = false /\ xopen x = false.

Lemma xstep_abandoned closed x q x' q' :
  abandoned x -> xstep closed x q x' q' -> abandoned x' /\ xr x = RRead /\ xr x' = RSend.
Proof.
  intros (Hr & Hw & Hm & Ho) S. destruct S; destruct Hr as [Hr|Hr]; try congruence.
  unfold abandoned. simpl. rewrite Hw, Hm, Ho. naive_solver.
Qed.

Lemma step_abandoned c l c' i x :
  past c !! i = Some x -> abandoned x -> step c l c' ->
  exists x', past c' !! i = Some x' /\ abandoned x'.
Proof.
  intros E Ha S.
  destruct S; try (unfold WriteTo, ReadFrom, read_select, closeWithError in *; repeat case_match;
    simplify_eq; by exists x); try (by exists x).
  - simpl. destruct (decide (i0 = i)) as [->|N].
    + simplify_eq. apply lookup_lt_Some in E as L. exists x'. rewrite list_lookup_insert_eq by done.
      split; [done|]. by eapply xstep_abandoned.
    + exists x. by rewrite list_lookup_insert_ne.
  - exists x. simpl. split; [|done]. by apply lookup_app_l_Some.
Qed.

(** ** The properties *)

(** C30: Order across redials.  In every run, whatever connections fail and are dialed again, and
    whatever goroutines earlier exchanges have left: the packets that were written to the transient
    connections are packets that WriteTo took in, in that order and none of them twice; and the wait
    before a dial is between one second and thirty. *)
Theorem Redial_fifo ps c :
  steps NewRedialPacketConn ps c ->
  sent (qs c) `sublist_of` ps /\
  (forall b, dial c = DTop b \/ dial c = DDial b \/ dial c = DWait b -> second <= b <= maxBackoff).
Proof.
  intros I%Redial_steps. split.
  - etransitivity; [|apply I]. destruct (current c); unfold pipeline; by apply sublist_inserts_r.
  - intros b Hb. pose proof (inv_backoff _ _ I) as Hi. by destruct Hb as [E|[E|E]]; rewrite E in Hi.
Qed.

(** An exchange ends when one side fails.  As soon as one of the two goroutines has an error to
    report or has returned, exchange can return by a step of its own; and no other step takes this
    away: as long as exchange has not returned, one of the goroutines is in such a state. *)
Theorem Exchange_ends closed x q :
  xwaiting x = true -> failed x ->
  (exists x', xstep closed x q x' q /\ xwaiting x' = false) /\
  (forall x' q', xstep closed x q x' q' -> xwaiting x' = true -> failed x').
Proof.
  intros Hm Hf. split.
  - destruct Hf as [H|[H|[H|H]]]; eexists; (split; [|shelve]);
      [by apply r_to_main|by apply m_read_closed|by apply w_to_main|by apply m_write_closed].
    Unshelve. all: reflexivity.
  - intros x' q' S Hm'. unfold failed in *. destruct S; simpl in *; try discriminate; intuition congruence.
Qed.

(** A failed write leaks a goroutine.  When an exchange has ended with its writer returned and its
    connection closed while its reader was in ReadFrom, the reader never returns: in every
    continuation of the run it is still in ReadFrom, or it has the error of the closed connection to
    report and no step of any goroutine lets it. *)
Theorem Reader_leaks c i x ps c' :
  past c !! i = Some x -> abandoned x -> steps c ps c' ->
  exists x', past c' !! i = Some x' /\ xr x' <> RDone /\
    (xr x' = RSend -> forall closed q x'' q', ~ xstep closed x' q x'' q').
Proof.
  intros E Ha S. assert (exists x', past c' !! i = Some x' /\ abandoned x') as (x' & E' & Ha').
  { induction S as [|ps l c1 c2 _ (y & Ey & Hy) S]; [by exists x|]. by eapply step_abandoned. }
  exists x'. split; [done|]. split; [destruct Ha' as [[-> | ->] _]; done|].
  intros Hr closed q x'' q' Sx. destruct (xstep_abandoned _ _ _ _ _ Ha' Sx) as (_ & Hc & _). congruence.
Qed.

(** ** Witnesses *)

Lemma Redial_cons c l c' ps c'' : step c l c' -> steps c' ps c'' -> steps c (option_list l ++ ps) c''.
Proof.
  intros S Hs. induction Hs as [|ps l' c1 c2 _ IH S'].
  - rewrite app_nil_r. by apply (steps_snoc c [] l c c'); [apply steps_nil|].
  - rewrite (assoc_L (++)). by eapply steps_snoc.
Qed.

Tactic Notation "run_step" uconstr(c) := eapply (Redial_cons _ _ _ _ _ c); simpl.

(** A packet is written, the connection dialed, the packet sent. *)
Lemma Redial_fifo_witness :
  exists c, sent (qs c) = [[x41]]%byte /\ dial c = DExchange /\
    (sent (qs c) `sublist_of` [[x41]]%byte /\
     (forall b, dial c = DTop b \/ dial c = DDial b \/ dial c = DWait b -> second <= b <= maxBackoff)).
Proof.
  eexists. split; [shelve|]. split; [shelve|]. apply (Redial_fifo [[x41]]%byte).
  run_step (s_write_late _ [x41]%byte).
  eapply (Redial_cons _ None); [by eapply s_go_on|].
  eapply (Redial_cons _ None); [by eapply s_dial|].
  eapply (Redial_cons _ None); [eapply s_current; [reflexivity|by eapply w_packet]|].
  eapply (Redial_cons _ None); [eapply s_current; [reflexivity|by eapply w_written]|].
  apply steps_nil.
  Unshelve. all: reflexivity.
Defined.

Lemma Exchange_ends_witness :
  let x := MkExchange RSend (WWrite [x41]%byte) true true in
  let q := MkQueues [] [] [] in
  (exists x', xstep false x q x' q /\ xwaiting x' = false) /\
  (forall x' q', xstep false x q x' q' -> xwaiting x' = true -> failed x').
Proof.
  apply (Exchange_ends false (MkExchange RSend (WWrite [x41]%byte) true true) (MkQueues [] [] []));
    [reflexivity|by left].
Defined.

(** The run of a failed write, and its goroutine that reads. *)
Lemma Reader_leaks_witness :
  let x := MkExchange RRead WDone false false in
  exists c, steps NewRedialPacketConn [[x41]]%byte c /\ past c !! 0%nat = Some x /\
    (forall ps c', steps c ps c' -> exists x', past c' !! 0%nat = Some x' /\ xr x' <> RDone /\
       (xr x' = RSend -> forall closed q x'' q', ~ xstep closed x' q x'' q')).
Proof.
  eexists. split; [|split].
  - run_step (s_write_late _ [x41]%byte).
    eapply (Redial_cons _ None); [by eapply s_go_on|].
    eapply (Redial_cons _ None); [by eapply s_dial|].
    eapply (Redial_cons _ None); [eapply s_current; [reflexivity|by eapply r_default]|].
    eapply (Redial_cons _ None); [eapply s_current; [reflexivity|by eapply w_packet]|].
    eapply (Redial_cons _ None); [eapply s_current; [reflexivity|by eapply w_error]|].
    eapply (Redial_cons _ None); [eapply s_current; [reflexivity|by eapply w_to_main]|].
    eapply (Redial_cons _ None); [by eapply s_conn_Close|].
    apply steps_nil.
  - reflexivity.
  - intros ps c' S. eapply (Reader_leaks _ 0%nat (MkExchange RRead WDone false false)); [|split_and!; auto|exact S].
    reflexivity.
Defined.
