(* ===== verification/MuxPipe.v ===== *)
(** Pipes over the streams of a mux session: common/muxpipe/muxpipe.go.

    obfs and snowflake carry their virtual connections in the streams of an smux session.  A
    stream is a [conn]; a session is the number under which the hub knows it (smux is not under
    src/).  The first byte of a stream tells its kind; datagrams and strings have length
    prefixes.  [Copy], the UDP relays and the hub of reverse listeners are transition systems. *)

From S2P Require Import Prelude GoLib.
From Stdlib Require Import ZArith Lia Strings.Byte Strings.String.
From stdpp Require Import gmap list strings.

#[local] Open Scope Z_scope.

(** ** The magic of a mux connection *)

Definition Magic : list byte := bytes_of "PTPXMUX1".
Definition KindTCP : byte := x01.
Definition KindUDP : byte := x02.
Definition KindRevBind : byte := x03.
Definition KindRevTCP : byte := x04.

(** prefixConn, and a plain connection as one with nothing to give back. *)
Record prefixConn := MkPrefix { inner : conn; prefix : list byte }.

(** One Read into a buffer of [n] bytes: [k] is how much the connection returns, at least one
    byte when there is one. *)
Definition conn_Read (n k : nat) : IO (list byte) := fun c =>
  match rx c with
  | [] => (Err (rx_end c), c)
  | l => let m := Nat.min n (Nat.max 1 k) in (Ok (take m l), set_rx (drop m l) c)
  end.

Definition prefix_Read (n k : nat) (c : prefixConn) : result (list byte) * prefixConn :=
  match prefix c with
  | [] => let '(r, i) := conn_Read n k (inner c) in (r, MkPrefix i [])
  | p => (Ok (take n p), MkPrefix (inner c) (drop n p))
  end.

(** Detect.  [early] bytes have arrived when the deadline of half a second passes; the read ends
    before it when the eight bytes are there or the stream ends. *)
Definition Detect (early : nat) (c : conn) : bool * prefixConn :=
  let n := Nat.min (length Magic) (Nat.min early (length (rx c))) in
  let buf := take n (rx c) in
  let rest := set_rx (drop n (rx c)) c in
  if decide (n < length Magic)%nat
  then (false, MkPrefix rest buf)
  else if decide (buf = Magic) then (true, MkPrefix rest [])
  else (false, MkPrefix rest buf).

Definition writeMagic : IO unit := Write_ Magic.

(** ** Codecs *)

Definition OpenTCP : IO unit := Write_ [KindTCP].

Definition WriteUDP (addr : string) (payload : list byte) : IO unit :=
  let ab := bytes_of addr in
  let ab := if decide (255 < length ab)%nat then take 255 ab else ab in
  _ ← Write_ [byte_of_Z (len ab)];
  _ ← Write_ ab;
  _ ← Write_ (PutUint16 (len payload));
  Write_ payload.

Definition ReadUDP : IO (string * list byte) :=
  al ← ReadFull 1;
  ab ← ReadFull (Z.to_nat (be_get al));
  ln ← ReadFull 2;
  payload ← ReadFull (Z.to_nat (be_get ln));
  mret (string_of ab, payload).

Definition writeString (s : string) : IO unit :=
  let b := bytes_of s in
  _ ← Write_ (PutUint16 (len b)); Write_ b.

Definition readString : IO string :=
  ln ← ReadFull 2; b ← ReadFull (Z.to_nat (be_get ln)); mret (string_of b).

(** RequestReverseBind on a stream that has been opened. *)
Definition RequestReverseBind (listen : string) : IO string :=
  _ ← Write_ [KindRevBind]; _ ← writeString listen; readString.

(** ** The server's side of a stream *)

(** What handleServerStream goes on to do: nothing (the stream is closed), dial and copy, relay
    datagrams, bind and serve. *)
Inductive service : Type :=
  | Drop
  | PipeTCP (target : string)
  | RelayUDP (target : string)
  | Reverse (listen : string).

Definition handleServerStream (target : string) (skipUDP : bool) : IO service := fun st =>
  match ReadFull 1 st with
  | (Ok kind, st) =>
      if decide (kind = [KindTCP]) then
        (Ok (if decide (target = EmptyString) then Drop else PipeTCP target), st)
      else if decide (kind = [KindUDP]) then
        (Ok (if decide (target = EmptyString) then Drop
             else if skipUDP then Drop else RelayUDP target), st)
      else if decide (kind = [KindRevBind]) then
        match readString st with
        | (Ok listen, st) => (Ok (Reverse listen), st)
        | (_, st) => (Ok Drop, st)
        end
      else (Ok Drop, st)
  | (_, st) => (Ok Drop, st)
  end.

(** The streams that RunReverseClient accepts. *)
Definition handleClientStream (localAddr : string) (skipUDP : bool) : IO service := fun st =>
  match ReadFull 1 st with
  | (Ok kind, st) =>
      if decide (kind = [KindRevTCP]) then (Ok (PipeTCP localAddr), st)
      else if decide (kind = [KindUDP]) then
        (Ok (if skipUDP then Drop else RelayUDP localAddr), st)
      else (Ok Drop, st)
  | (_, st) => (Ok Drop, st)
  end.

(** ** Copy *)

(** One direction of a copy: what its source still holds, whether its sender has finished, what
    has been written to the other side, and whether the goroutine has returned. *)
Record flow := MkFlow { pending : list byte; finished : bool; delivered : list byte; returned : bool }.

(** [ab] copies from the first connection to the second; [closed]: both are closed. *)
Record copying := MkCopying { ab : flow; ba : flow; closed : bool }.

(** A turn of io.Copy (some of the bytes that are there), its end, and the closing of both sides. *)
Inductive flow_step (closed : bool) (f : flow) : flow -> bool -> Prop :=
  | f_bytes p q : closed = false -> returned f = false -> pending f = p ++ q -> p <> [] ->
      flow_step closed f (MkFlow q (finished f) (delivered f ++ p) false) closed
  | f_eof : closed = false -> returned f = false -> pending f = [] -> finished f = true ->
      flow_step closed f (MkFlow [] true (delivered f) true) true
  | f_closed : closed = true -> returned f = false ->
      flow_step closed f (MkFlow (pending f) (finished f) (delivered f) true) true.

(** The runs of Copy: [copies sa sb c] when the peers have sent [sa] and [sb] so far.  A peer that
    has finished sends nothing more. *)
Inductive copies : list byte -> list byte -> copying -> Prop :=
  | c_start : copies [] [] (MkCopying (MkFlow [] false [] false) (MkFlow [] false [] false) false)
  | c_ab sa sb c f cl : copies sa sb c -> flow_step (closed c) (ab c) f cl ->
      copies sa sb (MkCopying f (ba c) cl)
  | c_ba sa sb c f cl : copies sa sb c -> flow_step (closed c) (ba c) f cl ->
      copies sa sb (MkCopying (ab c) f cl)
  | c_send_a sa sb c p : copies sa sb c -> finished (ab c) = false ->
      copies (sa ++ p) sb (MkCopying (MkFlow (pending (ab c) ++ p) false (delivered (ab c)) (returned (ab c)))
                             (ba c) (closed c))
  | c_send_b sa sb c p : copies sa sb c -> finished (ba c) = false ->
      copies sa (sb ++ p) (MkCopying (ab c)
                             (MkFlow (pending (ba c) ++ p) false (delivered (ba c)) (returned (ba c))) (closed c))
  | c_end_a sa sb c : copies sa sb c ->
      copies sa sb (MkCopying (MkFlow (pending (ab c)) true (delivered (ab c)) (returned (ab c))) (ba c) (closed c))
  | c_end_b sa sb c : copies sa sb c ->
      copies sa sb (MkCopying (ab c) (MkFlow (pending (ba c)) true (delivered (ba c)) (returned (ba c))) (closed c)).

(** wg.Wait() returns. *)
Definition Copy_returns (c : copying) : bool := returned (ab c) && returned (ba c).

(** ** UDP *)

(** The side that owns a UDP socket and does not know its peers (RunForwardClient, runReverse): the
    source of the last datagram, the stream, and the datagrams sent on the socket. *)
Record udp_side := MkSide { last_src : option string; st : conn; out : list (string * list byte) }.

(** A datagram has arrived: [udp.ReadFromUDP(buf)] cuts it to 65535 bytes. *)
Definition side_receive (from : string) (data : list byte) (u : udp_side) : result udp_side :=
  match WriteUDP from (take (Z.to_nat 65535) data) (st u) with
  | (Ok _, c) => Ok (MkSide (Some from) c (out u))
  | (Err e, _) => Err e
  | (Panic s, _) => Panic s
  | (OutOfFuel, _) => OutOfFuel
  end.

(** A datagram comes out of the stream. *)
Definition side_reply (u : udp_side) : result udp_side :=
  match ReadUDP (st u) with
  | (Ok (_, payload), c) =>
      Ok (MkSide (last_src u) c match last_src u with
                            | Some dst => out u ++ [(dst, payload)]
                            | None => out u
                            end)
  | (Err e, _) => Err e
  | (Panic s, _) => Panic s
  | (OutOfFuel, _) => OutOfFuel
  end.

Fixpoint side_receives (ds : list (string * list byte)) (u : udp_side) : result udp_side :=
  match ds with [] => Ok u | (from, data) :: ds => u ← side_receive from data u; side_receives ds u end.
Fixpoint side_replies (k : nat) (u : udp_side) : result udp_side :=
  match k with O => Ok u | S k => u ← side_reply u; side_replies k u end.

(** relayUDP: the payloads it sends to the target, and the error that ends its loop. *)
Fixpoint relay_loop (fuel : nat) (c : conn) : list (list byte) * result (list byte) :=
  match fuel with
  | O => ([], OutOfFuel)
  | S fuel =>
      match ReadUDP c with
      | (Ok (_, payload), c) => let '(ps, r) := relay_loop fuel c in (payload :: ps, r)
      | (Err e, _) => ([], Err e)
      | (Panic s, _) => ([], Panic s)
      | (OutOfFuel, _) => ([], OutOfFuel)
      end
  end.

(** Its goroutine: datagrams from the target's side go into the stream. *)
Fixpoint relay_answers (rs : list (string * list byte)) : IO unit :=
  match rs with
  | [] => mret tt
  | (from, data) :: rs => _ ← WriteUDP from (take (Z.to_nat 65535) data); relay_answers rs
  end.

(** ** The hub of reverse listeners *)

Section hub.
(** net.Listen: the address it binds, given those that are bound. *)
Context (net_Listen : string -> gset string -> option string).

(** The sessions that are open, and the listeners with the session that asked for them. *)
Record hub := MkHub { alive : gset nat; published : gmap string nat }.

(** runReverse up to its loop: what it writes on the control stream.  When that write fails
    ([written] is false), the listener is closed again. *)
Definition runReverse (sess : nat) (listen : string) (written : bool) (h : hub) : string * hub :=
  match net_Listen listen (dom (published h)) with
  | None => (EmptyString, h)
  | Some bound =>
      (bound, if written then MkHub (alive h) (<[bound := sess]> (published h)) else h)
  end.

(** A connection accepted by a listener: the session on which a stream is opened for it; without
    one the connection is closed.  The loop goes on in both cases. *)
Definition hub_accept (bound : string) (h : hub) : option nat :=
  match published h !! bound with
  | Some sess => if decide (sess ∈ alive h) then Some sess else None
  | None => None
  end.

Inductive event : Type :=
  | EOpen (sess : nat)
  | EClose (sess : nat)
  | EBind (sess : nat) (listen : string) (written : bool)
  | EAccept (bound : string).

Definition hub_step (h : hub) (e : event) : hub :=
  match e with
  | EOpen sess => MkHub ({[sess]} ∪ alive h) (published h)
  | EClose sess => MkHub (alive h ∖ {[sess]}) (published h)
  | EBind sess listen written => (runReverse sess listen written h).2
  | EAccept _ => h
  end.

End hub.

(** ** Lemmas *)

(** What WriteUDP appends for an address shorter than 256 bytes. *)
Definition udp_wire (addr : string) (payload : list byte) : list byte :=
  [byte_of_Z (slen addr)] ++ bytes_of addr ++ PutUint16 (len payload) ++ payload.

Lemma WriteUDP_Conn addr payload i e o w :
  slen addr <= 255 ->
  WriteUDP addr payload (Conn i e o None w) = (Ok tt, Conn i e (o ++ udp_wire addr payload) None w).
Proof.
  intros Ha. unfold slen in *. unfold WriteUDP. rewrite decide_False by (rewrite length_bytes_of; lia).
  io_run. rewrite Write__Conn. unfold udp_wire, slen, len. rewrite length_bytes_of.
  by rewrite <- !(assoc_L (++)).
Qed.

Lemma ReadUDP_wire addr payload s e o r w :
  slen addr <= 255 -> len payload <= 65535 ->
  ReadUDP (Conn (udp_wire addr payload ++ s) e o r w) = (Ok (addr, payload), Conn s e o r w).
Proof.
  intros Ha Hp. unfold ReadUDP, udp_wire. rewrite <- !(assoc_L (++)).
  erewrite bind_Ok by (by apply ReadFull_exact). cbn beta.
  rewrite be_get_1, byte_to_of_Z_small by (unfold slen in *; lia).
  erewrite bind_Ok by (apply ReadFull_exact; rewrite length_bytes_of; unfold slen; lia). cbn beta.
  erewrite bind_Ok by (apply ReadFull_exact; by rewrite length_be_put). cbn beta.
  rewrite be_get_put16, u16_small by (pose proof (len_nonneg payload); lia).
  erewrite bind_Ok by (apply ReadFull_exact; unfold len; lia). cbn beta.
  by rewrite string_of_bytes_of.
Qed.

Lemma writeString_Conn s i e o w :
  writeString s (Conn i e o None w) =
    (Ok tt, Conn i e (o ++ PutUint16 (slen s) ++ bytes_of s) None w).
Proof.
  unfold writeString. io_run. rewrite Write__Conn. unfold slen, len. rewrite length_bytes_of.
  by rewrite <- (assoc_L (++)).
Qed.

Lemma readString_wire s q e o r w :
  slen s <= 65535 ->
  readString (Conn ((PutUint16 (slen s) ++ bytes_of s) ++ q) e o r w) = (Ok s, Conn q e o r w).
Proof.
  intros Hs. unfold readString. rewrite <- (assoc_L (++)).
  erewrite bind_Ok by (apply ReadFull_exact; by rewrite length_be_put). cbn beta.
  rewrite be_get_put16, u16_small by (unfold slen in *; lia).
  erewrite bind_Ok by (apply ReadFull_exact; rewrite length_bytes_of; unfold slen; lia). cbn beta.
  by rewrite string_of_bytes_of.
Qed.

(** ** The properties *)

(** What a connection with pushed-back bytes still holds. *)
Definition stream (c : prefixConn) : list byte := prefix c ++ rx (inner c).

Lemma prefix_Read_stream n k c :
  match prefix_Read n k c with
  | (Ok p, c') => stream c = p ++ stream c' /\ (0 < n -> stream c <> [] -> p <> [])%nat
  | (Err e, c') => stream c = [] /\ c' = c /\ e = rx_end (inner c)
  | _ => False
  end.
Proof.
  unfold prefix_Read, conn_Read, stream. destruct c as [i [|b p]]; simpl.
  - destruct (rx i) as [|b l] eqn:E; simpl; [done|]. split; [by rewrite take_drop|].
    intros Hn _. destruct n; [lia|]. destruct k; done.
  - split; [by rewrite (assoc_L (++)), take_drop|]. intros Hn _. by destruct n; [lia|].
Qed.

(** Successive reads, with the sizes of their buffers and what the network returns to each. *)
Fixpoint prefix_reads (sizes : list (nat * nat)) (c : prefixConn) : list byte * prefixConn :=
  match sizes with
  | [] => ([], c)
  | (n, k) :: sizes =>
      match prefix_Read n k c with
      | (Ok p, c) => let '(bs, c) := prefix_reads sizes c in (p ++ bs, c)
      | (_, c) => ([], c)
      end
  end.

Lemma prefix_reads_stream sizes c :
  let '(bs, c') := prefix_reads sizes c in stream c = bs ++ stream c'.
Proof.
  revert c. induction sizes as [|[n k] sizes IH]; intros c; simpl; [done|].
  pose proof (prefix_Read_stream n k c) as H. destruct (prefix_Read n k c) as [[p|e|m|] c1]; try done.
  - destruct H as [-> _]. specialize (IH c1). destruct (prefix_reads sizes c1) as [bs c2].
    by rewrite IH, (assoc_L (++)).
  - by destruct H as (_ & -> & _).
Qed.

(** C27: Detection is transparent.  Detect recognises a mux connection exactly when the eight bytes of
    the magic are at the front of the stream and have arrived before the deadline; it then removes
    them and nothing else.  In every other case (another protocol, a short stream, magic bytes that
    come too late) no byte is lost: the reads of the connection it returns, with whatever buffers,
    deliver the stream from its first byte. *)
Theorem Detect_transparent (early : nat) (c : conn) :
  let '(isMux, rest) := Detect early c in
  (isMux = true <-> (8 <= early)%nat /\ take 8 (rx c) = Magic) /\
  (isMux = true -> rx c = Magic ++ stream rest /\ prefix rest = []) /\
  (isMux = false -> forall sizes,
     let '(bs, rest') := prefix_reads sizes rest in rx c = bs ++ stream rest').
Proof.
  unfold Detect. change (length Magic) with 8%nat.
  set (n := Nat.min 8 (Nat.min early (length (rx c)))).
  assert (Hs : forall sizes, let '(bs, rest') :=
      prefix_reads sizes (MkPrefix (set_rx (drop n (rx c)) c) (take n (rx c))) in
      rx c = bs ++ stream rest').
  { intros sizes.
    pose proof (prefix_reads_stream sizes (MkPrefix (set_rx (drop n (rx c)) c) (take n (rx c)))) as H.
    destruct (prefix_reads _ _) as [bs c']. rewrite <- H. unfold stream. simpl. by rewrite take_drop. }
  case_decide as Hn.
  - split; [|split; [done|by intros _]]. split; [done|]. intros [He Ht].
    assert (length (take 8 (rx c)) = 8%nat) by (by rewrite Ht). rewrite length_take in *. lia.
  - assert (En : n = 8%nat) by lia. case_decide as Hb; rewrite En in *.
    + split; [split; [intros _; split; [lia|done]|done]|]. split; [|done]. intros _.
      unfold stream. cbn [inner prefix set_rx rx app]. by rewrite <- Hb, take_drop.
    + split; [split; [done|by intros [_ ?]]|]. split; [done|by intros _].
Qed.

(** Each copying goroutine delivers a prefix, and one of them everything. *)
Definition complete (s : list byte) (f : flow) : Prop :=
  finished f = true /\ pending f = [] /\ delivered f = s.

Record Copy_inv (sa sb : list byte) (c : copying) : Prop := MkCopyInv {
  copy_ab : delivered (ab c) ++ pending (ab c) = sa;
  copy_ba : delivered (ba c) ++ pending (ba c) = sb;
  copy_closed : closed c = true -> complete sa (ab c) \/ complete sb (ba c);
  copy_open : closed c = false -> returned (ab c) = false /\ returned (ba c) = false
}.

(** A turn keeps what was sent, and closes only when the flow is complete. *)
Lemma flow_step_inv closed s f f' cl :
  delivered f ++ pending f = s -> flow_step closed f f' cl ->
  delivered f' ++ pending f' = s /\ (complete s f -> complete s f') /\
  (cl = true -> closed = true \/ complete s f') /\ (cl = false -> closed = false /\ returned f' = false).
Proof.
  intros <- S. destruct S as [p q Hc Hr Hp|Hc Hr Hp Hf|Hc Hr]; unfold complete; simpl; rewrite ?Hp.
  - split_and!; try done; [by rewrite <- (assoc_L (++))|intros (_ & E & _); by destruct p|by left].
  - rewrite app_nil_r. repeat split; try done; tauto.
  - repeat split; try done; tauto.
Qed.

Lemma Copy_inv_run sa sb c : copies sa sb c -> Copy_inv sa sb c.
Proof.
  induction 1 as [|sa sb c f cl _ [H1 H2 H3 H4] S|sa sb c f cl _ [H1 H2 H3 H4] S
    |sa sb c p _ [H1 H2 H3 H4] Hf|sa sb c p _ [H1 H2 H3 H4] Hf|sa sb c _ [H1 H2 H3 H4]|sa sb c _ [H1 H2 H3 H4]].
  - by split.
  - destruct (flow_step_inv _ _ _ _ _ H1 S) as (E & Hc & Ht & Hn). split; simpl; try done.
    + intros ->. destruct (Ht eq_refl) as [Hcl|?]; [|by left]. destruct (H3 Hcl); auto.
    + intros ->. destruct (Hn eq_refl) as [Hcl ?]. split; [done|by apply H4].
  - destruct (flow_step_inv _ _ _ _ _ H2 S) as (E & Hc & Ht & Hn). split; simpl; try done.
    + intros ->. destruct (Ht eq_refl) as [Hcl|?]; [|by right]. destruct (H3 Hcl); auto.
    + intros ->. destruct (Hn eq_refl) as [Hcl ?]. split; [by apply H4|done].
  - split; simpl; try done; [by rewrite (assoc_L (++)), H1|]. intros Hcl.
    destruct (H3 Hcl) as [[? _]|?]; [congruence|by right].
  - split; simpl; try done; [by rewrite (assoc_L (++)), H2|]. intros Hcl.
    destruct (H3 Hcl) as [?|[? _]]; [by left|congruence].
  - split; simpl; try done. intros Hcl. destruct (H3 Hcl) as [(? & ? & ?)|?]; [left|by right]. done.
  - split; simpl; try done. intros Hcl. destruct (H3 Hcl) as [?|(? & ? & ?)]; [by left|right]. done.
Qed.

(** What Copy guarantees, and what it does not.  In every run, each side has received a prefix of
    what the other has sent; and when Copy returns, one of the two directions has been delivered in
    full, up to its end of stream.  The other need not: whatever the peers send, there is a run in
    which the first one's end of stream is seen before anything of the second's answer is copied,
    both sides are closed, and the answer is lost. *)
Theorem Copy_exact sa sb :
  (forall c, copies sa sb c ->
     delivered (ab c) `prefix_of` sa /\ delivered (ba c) `prefix_of` sb /\
     (Copy_returns c = true -> delivered (ab c) = sa \/ delivered (ba c) = sb)) /\
  (exists c, copies sa sb c /\ Copy_returns c = true /\ delivered (ab c) = sa /\ delivered (ba c) = []).
Proof.
  split.
  - intros c I%Copy_inv_run. destruct I as [H1 H2 H3 H4].
    split_and!; [by eexists|by eexists|]. unfold Copy_returns. intros [Hr _]%andb_true_iff.
    destruct (closed c); [|by destruct (H4 eq_refl); congruence].
    destruct (H3 eq_refl) as [(_ & _ & ?)|(_ & _ & ?)]; auto.
  - assert (Hsent : copies sa sb (MkCopying (MkFlow sa false [] false) (MkFlow sb false [] false) false)).
    { apply (c_send_b _ [] (MkCopying (MkFlow sa false [] false) (MkFlow [] false [] false) false) sb); [|done].
      by apply (c_send_a [] [] (MkCopying (MkFlow [] false [] false) (MkFlow [] false [] false) false) sa);
        [constructor|]. }
    assert (Hall : copies sa sb (MkCopying (MkFlow [] true sa false) (MkFlow sb false [] false) false)).
    { apply (c_end_a _ _ (MkCopying (MkFlow [] false sa false) (MkFlow sb false [] false) false)).
      destruct sa as [|b sa]; [done|].
      apply (c_ab _ _ _ (MkFlow [] false (b :: sa) false) false Hsent).
      apply (f_bytes false (MkFlow (b :: sa) false [] false) (b :: sa) []); try done.
      by rewrite app_nil_r. }
    eexists. split; [|split_and!].
    + eapply (c_ba _ _ (MkCopying (MkFlow [] true sa true) (MkFlow sb false [] false) true)).
      * eapply (c_ab _ _ _ _ _ Hall). by apply (f_eof false (MkFlow [] true sa false)).
      * by apply (f_closed true (MkFlow sb false [] false)).
    + reflexivity.
    + reflexivity.
    + reflexivity.
Qed.

(** Datagrams as the relays see them: an address of less than 256 bytes, at most 65535 of data. *)
Definition datagram_ok (d : string * list byte) : Prop := slen d.1 <= 255 /\ len d.2 <= 65535.

Definition wires (ds : list (string * list byte)) : list byte :=
  concat (map (fun d => udp_wire d.1 d.2) ds).

Lemma take_datagram d : datagram_ok d -> take (Z.to_nat 65535) d.2 = d.2.
Proof. intros [_ Hd]. apply firstn_all2. unfold len in Hd. lia. Qed.

Lemma side_receives_wire ds l i e o w out0 :
  Forall datagram_ok ds ->
  side_receives ds (MkSide l (Conn i e o None w) out0) =
    Ok (MkSide (match last ds with Some d => Some d.1 | None => l end)
          (Conn i e (o ++ wires ds) None w) out0).
Proof.
  intros Hds. revert l o. induction Hds as [|d ds Hd _ IH]; intros l o.
  { cbn. by rewrite app_nil_r. }
  destruct d as [from data]. cbn [side_receives]. unfold side_receive.
  pose proof (take_datagram _ Hd) as Ht. cbn [snd] in Ht. rewrite Ht. destruct Hd as [Ha _].
  cbn [st out last_src]. rewrite WriteUDP_Conn by done. cbn [mbind result_bind]. rewrite IH.
  unfold wires. cbn [map concat]. rewrite <- (assoc_L (++)).
  do 2 f_equal. destruct ds as [|d' ds]; [done|]. rewrite last_cons_cons.
  destruct (last (d' :: ds)) eqn:E; [done|]. by apply last_None in E.
Qed.

Lemma relay_loop_wire fuel ds e o r w :
  Forall datagram_ok ds -> (length ds < fuel)%nat ->
  relay_loop fuel (Conn (wires ds) e o r w) = (map snd ds, Err e).
Proof.
  intros Hds. revert fuel. induction Hds as [|[from data] ds [Ha Hd] _ IH]; intros [|fuel] Hf;
    simpl in Hf; try lia; [done|].
  cbn [relay_loop]. unfold wires. cbn [map concat fst snd]. rewrite ReadUDP_wire by done.
  fold (wires ds). by rewrite IH by lia.
Qed.

Lemma relay_answers_wire rs i e o w :
  Forall datagram_ok rs ->
  relay_answers rs (Conn i e o None w) = (Ok tt, Conn i e (o ++ wires rs) None w).
Proof.
  intros Hrs. revert o. induction Hrs as [|[from data] rs Hd _ IH]; intros o.
  { cbn. by rewrite app_nil_r. }
  cbn [relay_answers]. pose proof (take_datagram _ Hd) as Ht. cbn [snd] in Ht. rewrite Ht.
  destruct Hd as [Ha _]. erewrite bind_Ok by (by apply WriteUDP_Conn). rewrite IH.
  unfold wires. cbn [map concat]. by rewrite <- (assoc_L (++)).
Qed.

Lemma side_replies_wire rs dst e o r w out0 :
  Forall datagram_ok rs ->
  side_replies (length rs) (MkSide (Some dst) (Conn (wires rs) e o r w) out0) =
    Ok (MkSide (Some dst) (Conn [] e o r w) (out0 ++ map (fun d => (dst, d.2)) rs)).
Proof.
  intros Hrs. revert out0. induction Hrs as [|[from data] rs [Ha Hd] _ IH]; intros out0.
  { cbn. by rewrite app_nil_r. }
  cbn [length side_replies]. unfold side_reply. cbn [st last_src out]. unfold wires. cbn [map concat fst snd].
  rewrite ReadUDP_wire by done. fold (wires rs). cbn [mbind result_bind]. rewrite IH.
  by rewrite <- (assoc_L (++)).
Qed.

(** The UDP relay, both ways.  Datagrams that local peers send to the client's socket reach the
    target whole and in order.  The answers come back whole and in order too, but all of them to the
    peer that has sent last: with more than one local peer, an answer to one is delivered to
    another. *)
Theorem Udp_relay ds rs e w dst data :
  Forall datagram_ok ds -> Forall datagram_ok rs -> datagram_ok (dst, data) ->
  exists u c, side_receives (ds ++ [(dst, data)]) (MkSide None (Conn [] e [] None w) []) = Ok u /\
    relay_loop (S (S (length ds))) (Conn (tx (st u)) EOF [] None w) = (map snd ds ++ [data], Err EOF) /\
    relay_answers rs (Conn [] e [] None w) = (Ok tt, c) /\
    exists u', side_replies (length rs) (MkSide (last_src u) (Conn (tx c) e (tx (st u)) None w) (out u)) = Ok u' /\
      out u' = map (fun r => (dst, r.2)) rs.
Proof.
  intros Hds Hrs Hd.
  assert (Hall : Forall datagram_ok (ds ++ [(dst, data)])) by (apply Forall_app; by split; [|constructor]).
  rewrite side_receives_wire, relay_answers_wire by done. eexists _, _. split; [done|].
  cbn [st tx last_src out app]. rewrite last_snoc, relay_loop_wire by (rewrite ?length_app; simpl; done || lia).
  rewrite map_app. split; [done|]. split; [done|]. rewrite side_replies_wire by done. eexists. split; [done|]. done.
Qed.

(** A reverse bind, request and answer.  A request for any address shorter than 65536 bytes is
    accepted by the server whatever its target and its flags; it binds what the network gives for
    the address, writes what it has bound, or the empty string when it cannot, and this is what
    RequestReverseBind returns, without an error in both cases. *)
Theorem Reverse_bind net_Listen listen target skipUDP sess h e w :
  slen listen <= 65535 ->
  (forall bound, net_Listen listen (dom (published h)) = Some bound -> slen bound <= 65535) ->
  exists request answer rest,
    handleServerStream target skipUDP (Conn request EOF [] None w) = (Ok (Reverse listen), rest) /\
    writeString (runReverse net_Listen sess listen true h).1 rest = (Ok tt, answer) /\
    RequestReverseBind listen (Conn (tx answer) e [] None w) =
      (Ok (runReverse net_Listen sess listen true h).1, Conn [] e request None w) /\
    (runReverse net_Listen sess listen true h).1 =
      default EmptyString (net_Listen listen (dom (published h))).
Proof.
  intros Hl Hb. set (b := (runReverse net_Listen sess listen true h).1).
  assert (Eb : b = default EmptyString (net_Listen listen (dom (published h)))).
  { unfold b, runReverse. by destruct (net_Listen _ _). }
  assert (Hlen : slen b <= 65535).
  { rewrite Eb. destruct (net_Listen _ _) eqn:E; simpl; [by apply Hb|]. unfold slen. simpl. lia. }
  exists ([KindRevBind] ++ PutUint16 (slen listen) ++ bytes_of listen).
  eexists _, (Conn [] EOF [] None w). split_and!; [| |  |done].
  - unfold handleServerStream. rewrite (ReadFull_exact 1 [KindRevBind]) by done.
    rewrite !decide_False by done. rewrite decide_True by done.
    rewrite <- (app_nil_r (PutUint16 _ ++ _)), readString_wire by done. done.
  - by rewrite writeString_Conn.
  - cbn [tx app]. unfold RequestReverseBind. erewrite bind_Ok by apply Write__Conn. cbn beta.
    erewrite bind_Ok by apply writeString_Conn. cbn beta.
    rewrite <- (app_nil_r (PutUint16 (slen b) ++ bytes_of b)), readString_wire by done. done.
Qed.

(** A fixed address: the network binds it unless it is bound. *)
Definition fixed (net_Listen : string -> gset string -> option string) (a : string) : Prop :=
  forall bound, net_Listen a bound = if decide (a ∈ bound) then None else Some a.

Lemma hub_keeps net_Listen h es a s :
  fixed net_Listen a ->
  (forall l bound b, net_Listen l bound = Some b -> b ∉ bound) ->
  published h !! a = Some s -> published (foldl (hub_step net_Listen) h es) !! a = Some s.
Proof.
  intros Hf Hn. revert h. induction es as [|e es IH]; intros h Ha; [done|]. apply IH.
  destruct e as [s'|s'|s' l [|]|b]; simpl; try done; unfold runReverse.
  { destruct (net_Listen l (dom (published h))) as [b|] eqn:E; [|done]. simpl.
   apply Hn in E. rewrite lookup_insert_ne; [done|]. intros ->. apply E, elem_of_dom. by eexists. }
  by destruct (net_Listen _ _).
Qed.

(** A published address is published once.  When a client has had a fixed address bound, the
    listener stays for ever: whatever happens afterwards (its session closes, the client comes back
    on new sessions and asks again), every later request for that address is answered with the
    empty string, and as long as the session that asked first is closed, connections that arrive
    there are closed. *)
Theorem Rebind_refused net_Listen h sess a es sess' written :
  fixed net_Listen a -> (forall l bound b, net_Listen l bound = Some b -> b ∉ bound) ->
  (runReverse net_Listen sess a true h).1 = a -> a <> EmptyString ->
  let later := foldl (hub_step net_Listen) (runReverse net_Listen sess a true h).2 es in
  runReverse net_Listen sess' a written later = (EmptyString, later) /\
  (sess ∉ alive later -> hub_accept a later = None).
Proof.
  intros Hf Hn Hr Ha later.
  assert (Hp : published later !! a = Some sess).
  { apply hub_keeps; [done|done|]. unfold runReverse in *. rewrite Hf in *.
    case_decide; simpl in *; [by subst|]. by rewrite lookup_insert_eq. }
  split.
  - unfold runReverse. rewrite Hf, decide_True; [done|]. apply elem_of_dom. by eexists.
  - intros Hs. unfold hub_accept. by rewrite Hp, decide_False.
Qed.

(** ** Witnesses *)

(** A network that binds every address that is free. *)
Definition free_network (a : string) (bound : gset string) : option string :=
  if decide (a ∈ bound) then None else Some a.

Lemma Udp_relay_witness :
  let ds := [("127.0.0.1:5001"%string, [x01; x02]%byte)] in
  let rs := [("10.0.0.1:53"%string, [x03]%byte); ("10.0.0.1:53"%string, [x04]%byte)] in
  exists u c, side_receives (ds ++ [("127.0.0.1:5002"%string, [x05]%byte)])
      (MkSide None (Conn [] EOF [] None EOF) []) = Ok u /\
    relay_loop 3 (Conn (tx (st u)) EOF [] None EOF) = ([[x01; x02]; [x05]]%byte, Err EOF) /\
    relay_answers rs (Conn [] EOF [] None EOF) = (Ok tt, c) /\
    exists u', side_replies 2 (MkSide (last_src u) (Conn (tx c) EOF (tx (st u)) None EOF) (out u)) = Ok u' /\
      out u' = [("127.0.0.1:5002"%string, [x03]%byte); ("127.0.0.1:5002"%string, [x04]%byte)].
Proof.
  apply (Udp_relay [("127.0.0.1:5001"%string, [x01; x02]%byte)]
           [("10.0.0.1:53"%string, [x03]%byte); ("10.0.0.1:53"%string, [x04]%byte)] EOF EOF
           "127.0.0.1:5002" [x05]%byte);
    repeat constructor; unfold slen, len; simpl; lia.
Defined.

Lemma Reverse_bind_witness :
  exists request answer rest,
    handleServerStream "" true (Conn request EOF [] None EOF) = (Ok (Reverse "0.0.0.0:2222"), rest) /\
    writeString (runReverse free_network 1 "0.0.0.0:2222" true (MkHub ∅ ∅)).1 rest = (Ok tt, answer) /\
    RequestReverseBind "0.0.0.0:2222" (Conn (tx answer) EOF [] None EOF) =
      (Ok (runReverse free_network 1 "0.0.0.0:2222" true (MkHub ∅ ∅)).1, Conn [] EOF request None EOF) /\
    (runReverse free_network 1 "0.0.0.0:2222" true (MkHub ∅ ∅)).1 =
      default EmptyString (free_network "0.0.0.0:2222" (dom (published (MkHub ∅ ∅)))).
Proof.
  apply (Reverse_bind free_network "0.0.0.0:2222" "" true 1 (MkHub ∅ ∅) EOF EOF).
  - unfold slen. simpl. lia.
  - unfold free_network. intros b. case_decide; [done|]. intros [= <-]. unfold slen. simpl. lia.
Defined.

(** The client of session 1 has its address bound, loses its connection and comes back. *)
Lemma Rebind_refused_witness :
  let a := "0.0.0.0:2222"%string in
  let later := foldl (hub_step free_network) (runReverse free_network 1 a true (MkHub {[1%nat]} ∅)).2
                 [EClose 1; EOpen 2] in
  runReverse free_network 2 a true later = (EmptyString, later) /\
  (1%nat ∉ alive later -> hub_accept a later = None).
Proof.
  apply (Rebind_refused free_network (MkHub {[1%nat]} ∅) 1 "0.0.0.0:2222" [EClose 1; EOpen 2] 2 true).
  - intros b. done.
  - unfold free_network. intros l b c. case_decide; [done|]. by intros [= <-].
  - vm_compute. reflexivity.
  - done.
Defined.
