(* ===== verification/Startup.v ===== *)
(** Start-up: common/configuration/config.go, common/service/registry.go and src/main.

    A configuration lists services and tunnel servers, and tunnel clients.  Services are started
    and registered under their tags first; each tunnel then resolves the tag it points at and is
    launched with the address, the fields of its configuration and their defaults.  What a launch
    does next is the program of its own components: a launch is the configuration it hands over.
    Logging and the decoding of the JSON file are left out (the certificates of obfs4 are in
    Termon.v); the
    environment says what binding a service yields. *)

From S2P Require Import Prelude GoLib FtpControl FtpDial.
From Stdlib Require Import ZArith Lia Strings.Byte Strings.String.
From stdpp Require Import gmap list strings.

#[local] Open Scope string_scope.
#[local] Open Scope Z_scope.
#[local] Open Scope list_scope.

(** ** config.go *)

Record JsonServerConfigImpl := MkServer {
  sType : string; sTag : string; sListen : string; sTarget : string;
  sCert : string; sPrivateKey : string; sEncKey : string; sProtocol : string;
  sHttpAddr : string; sHttpsAddr : string; sTlsCertFile : string; sTlsKeyFile : string;
  sAcmeEmail : string; sAcmeDomain : string; sSelfSigned : bool; sRedirect : string;
  sCertDir : string; sUser : string; sPass : string; sPasvIP : string;
  sUploadPorts : string; sDownloadPorts : string; sTLS : bool; sServeDir : string; sBackend : string
}.

Record JsonClientConfigImpl := MkClient {
  cType : string; cTag : string; cListen : string; cAddress : string; cReverseTag : string;
  cCert : string; cEncKey : string; cProtocol : string; cSni : string; cInsecure : bool;
  cFollowRedirect : option bool; cFrontHost : string; cUplink : string; cVerbose : bool;
  cProxy : string; cUser : string; cPass : string; cUploadChannels : Z; cDownloadChannels : Z;
  cOverrideUpAddr : string; cOverrideDownAddr : string; cDecoy : bool; cTLS : bool
}.

Record JsonConfigImpl := MkConfig { cfgServer : list JsonServerConfigImpl; cfgClient : list JsonClientConfigImpl }.

Definition TrimTag (c : JsonServerConfigImpl) : string := TrimSpace (sTag c).
Definition TrimTarget (c : JsonServerConfigImpl) : string := TrimSpace (sTarget c).
Definition TrimReverseTag (c : JsonClientConfigImpl) : string := TrimSpace (cReverseTag c).
Definition TrimTag_client (c : JsonClientConfigImpl) : string := TrimSpace (cTag c).

(** ** registry.go *)

Record Entry := MkEntry { eTag : string; eKind : string; eAddr : string; eSkipUDP : bool }.

(** [byTag] and [counter]: the package variables; [noTagCounter]: that of main. *)
Record Registry := MkRegistry { byTag : gmap string Entry; counter : Z; noTagCounter : Z }.

(** [port != "" && port != "0"] of an address that splits. *)
Definition some_port (listen : string) : option string :=
  match SplitHostPort (TrimSpace listen) with
  | Ok (_, port) => if String.eqb port "" || String.eqb port "0" then None else Some port
  | _ => None
  end.

Definition AutoTag (kind listen : string) : ST Registry string := fun r =>
  match some_port listen with
  | Some port => (kind +:+ "-" +:+ port, r)
  | None => (kind +:+ "-" +:+ Itoa (counter r + 1),
             MkRegistry (byTag r) (counter r + 1) (noTagCounter r))
  end.

Definition Register (e : Entry) : ST Registry (option goerr) :=
  let tag := TrimSpace (eTag e) in
  let addr := TrimSpace (eAddr e) in
  if String.eqb addr "" then fun r => (Some (Errorf "service %s: empty address"), r)
  else
    fun r =>
      let '(tag, r) := (if String.eqb tag "" then AutoTag (eKind e) addr r else (tag, r)) in
      match byTag r !! tag with
      | Some _ => (Some (Errorf "duplicate tag %q"), r)
      | None => (None, MkRegistry (<[tag := MkEntry tag (eKind e) addr (eSkipUDP e)]> (byTag r))
                         (counter r) (noTagCounter r))
      end.

Definition Lookup (tag : string) (r : Registry) : option Entry := byTag r !! TrimSpace tag.

Definition ListenPort (listen : string) : string :=
  if String.eqb listen "" then ""
  else match SplitHostPort listen with Ok (_, port) => port | _ => "" end.

(** ** services.go *)

Definition isServiceType (t : string) : bool :=
  String.eqb t "socks" || String.eqb t "http" || String.eqb t "external".

Definition listenForTag (c : JsonServerConfigImpl) : string :=
  if String.eqb (sType c) "dpi" then
    if String.eqb (TrimSpace (sHttpsAddr c)) "" then sHttpAddr c else sHttpsAddr c
  else sListen c.

(** The address a service is bound to, the first part of startService; [serve kind addr] is what
    binding a SOCKS or HTTP service yields. *)
Definition service_bound (serve : string -> string -> result string) (c : JsonServerConfigImpl) : option string :=
  let kind := sType c in
  let addr := TrimSpace (sListen c) in
  let addr := if (String.eqb kind "socks" || String.eqb kind "http") && String.eqb addr ""
              then "127.0.0.1:0" else addr in
  if String.eqb kind "external" then if String.eqb addr "" then None else Some addr
  else match serve kind addr with Ok bound => Some bound | _ => None end.

Definition startService (serve : string -> string -> result string) (c : JsonServerConfigImpl) :
    ST Registry (option string) := fun r =>
  match service_bound serve c with
  | Some bound =>
      let kind := sType c in
      let '(tag, r) := (if String.eqb (TrimTag c) "" then AutoTag kind bound r else (TrimTag c, r)) in
      let '(err, r) := Register (MkEntry tag kind bound (String.eqb kind "http")) r in
      (match err with None => Some tag | Some _ => None end, r)
  | None => (None, r)
  end.

Definition resolveTarget (tag : string) (r : Registry) : option (string * bool) :=
  e ← Lookup tag r; Some (eAddr e, eSkipUDP e).

(** ** The launches *)

Definition dpiOrDefault (value fallback : string) : string :=
  if String.eqb (TrimSpace value) "" then fallback else value.

(** dpi/server's Config, without its LogTag. *)
Record DpiServerConfig := MkDpiServer {
  HTTPAddr : string; HTTPSAddr : string; TLSCertFile : string; TLSKeyFile : string;
  ACMEEmail : string; ACMEDomain : string; SelfSigned : bool; RedirectURL : string;
  EncryptionKey : string; CertDir : string; Protocol : string; Target : string; SkipUDP : bool;
  ServeDir : string; Backend : string
}.

(** dpi/client's TransportConfig, and the arguments of its proxy. *)
Record DpiClientConfig := MkDpiClient {
  ServerURL : string; ClientKey : string; ServerName : string; InsecureSkipVerify : bool;
  FollowRedirects : bool; ClientFrontHost : string; DialIP : string; ClientProtocol : string;
  ClientUplink : string; SOCKSAddr : string; ClientSkipUDP : bool
}.

(** The settings of the WebSocket dialer; an empty server name is the host's of the URL. *)
Record WsDialer := MkWsDialer {
  wsURL : string; wsProxy : string; wsServerName : string; wsInsecure : bool; wsHost : option string
}.

(** How a client runs: as a proxy that listens, or publishing a local address at the server's. *)
Inductive client_mode : Type :=
  | Forward (listen : string)
  | Reversed (listen reverseAddr : string) (skipUDP : bool).

Inductive launch : Type :=
  | LaunchFtpServer (cfg : FtpControl.Config)
  | LaunchDpiServer (cfg : DpiServerConfig)
  | LaunchSnowflakeServer (wsAddr target : string) (skipUDP useTLS : bool)
  | LaunchObfsServer (c : JsonServerConfigImpl) (target : string) (skipUDP : bool)
  | LaunchFtpClient (cfg : FtpDial.Config)
  | LaunchDpiClient (cfg : DpiClientConfig) (mode : client_mode)
  | LaunchSnowflakeClient (ws : WsDialer) (mode : client_mode)
  | LaunchObfsClient (c : JsonClientConfigImpl) (reverseAddr : string) (skipUDP : bool).

(** The host: what binding a service yields, the host name of a URL, what net.ParseIP and
    net.LookupIP find (whether the address is of version 4, and its text), and whether a listen
    address resolves. *)
Record Host := MkHost {
  serve : string -> string -> result string;
  url_hostname : string -> option string;
  parse_ip : string -> option (bool * string);
  lookup_ip : string -> option (list (bool * string));
  resolves_tcp : string -> bool
}.

Definition launchFtpServer (c : JsonServerConfigImpl) (target : string) (skipUDP : bool) : option launch :=
  if sTLS c && (String.eqb (TrimSpace (sTlsCertFile c)) "" || String.eqb (TrimSpace (sTlsKeyFile c)) "")
  then None
  else Some (LaunchFtpServer {|
    FtpControl.Listen := dpiOrDefault (sListen c) "0.0.0.0:21";
    FtpControl.User := dpiOrDefault (sUser c) "tunnel";
    FtpControl.Pass := dpiOrDefault (sPass c) "secret";
    FtpControl.Key := dpiOrDefault (sEncKey c) "change-me-please";
    FtpControl.PasvIP := sPasvIP c;
    FtpControl.UploadPorts := dpiOrDefault (sUploadPorts c) "8080-8800";
    FtpControl.DownloadPorts := dpiOrDefault (sDownloadPorts c) "8080-8800";
    FtpControl.TLS := sTLS c;
    FtpControl.Cert := sTlsCertFile c;
    FtpControl.CertKey := sTlsKeyFile c;
    FtpControl.Debug := false;
    FtpControl.Target := target;
    FtpControl.SkipUDP := skipUDP |}).

Definition launchFtpClient (c : JsonClientConfigImpl) (reverseAddr : string) (skipUDP : bool) : option launch :=
  if String.eqb (TrimSpace (cAddress c)) "" then None
  else Some (LaunchFtpClient {|
    FtpDial.Listen := dpiOrDefault (cListen c) "127.0.0.1:1080";
    FtpDial.FTP := cAddress c;
    FtpDial.User := dpiOrDefault (cUser c) "tunnel";
    FtpDial.Pass := dpiOrDefault (cPass c) "secret";
    FtpDial.Key := dpiOrDefault (cEncKey c) "change-me-please";
    FtpDial.TLS := cTLS c;
    FtpDial.UploadChannels := if cUploadChannels c <? 1 then 1 else cUploadChannels c;
    FtpDial.DownloadChannels := if cDownloadChannels c <? 1 then 1 else cDownloadChannels c;
    FtpDial.OverrideUpAddr := cOverrideUpAddr c;
    FtpDial.OverrideDownAddr := cOverrideDownAddr c;
    FtpDial.Decoy := cDecoy c;
    FtpDial.SocksUser := "";
    FtpDial.SocksPass := "";
    FtpDial.Debug := cVerbose c;
    FtpDial.ReverseAddr := reverseAddr;
    FtpDial.SkipUDP := skipUDP |}).

Definition dpiDefaultEncKey : string := "default-encryption-key-change-me".
Definition dpiDefaultProtocol : string := "auto".
Definition dpiDefaultUplink : string := "post-async".
Definition dpiDefaultSocksAddr : string := "127.0.0.1:1080".
Definition UplinkStream : string := "stream".
Definition snowflakeDefaultWsListen : string := "0.0.0.0:8080".

Definition launchDpiServer (c : JsonServerConfigImpl) (target : string) (skipUDP : bool) : option launch :=
  let cfg := {|
    HTTPAddr := sHttpAddr c; HTTPSAddr := sHttpsAddr c;
    TLSCertFile := sTlsCertFile c; TLSKeyFile := sTlsKeyFile c;
    ACMEEmail := sAcmeEmail c; ACMEDomain := sAcmeDomain c; SelfSigned := sSelfSigned c;
    RedirectURL := sRedirect c; EncryptionKey := dpiOrDefault (sEncKey c) dpiDefaultEncKey;
    CertDir := sCertDir c; Protocol := dpiOrDefault (sProtocol c) dpiDefaultProtocol;
    Target := target; SkipUDP := skipUDP; ServeDir := sServeDir c; Backend := sBackend c |} in
  if String.eqb (HTTPAddr cfg) "" && String.eqb (HTTPSAddr cfg) "" then None
  else if negb (String.eqb (HTTPSAddr cfg) "") && negb (SelfSigned cfg)
          && String.eqb (ACMEEmail cfg) "" && String.eqb (TLSCertFile cfg) ""
  then None
  else Some (LaunchDpiServer cfg).

(** resolveServerIP: the text of the address to dial, the first of version 4 if there is one. *)
Definition resolveServerIP (h : Host) (host : string) : option string :=
  if String.eqb host "" then None
  else match parse_ip h host with
       | Some (_, ip) => Some ip
       | None =>
           ips ← lookup_ip h host;
           match List.find fst ips, ips with
           | Some (_, ip), _ => Some ip
           | None, (_, ip) :: _ => Some ip
           | None, [] => None
           end
       end.

Definition launchDpiClient (h : Host) (c : JsonClientConfigImpl) (reverseAddr : string) (skipUDP : bool) :
    option launch :=
  if String.eqb (TrimSpace (cAddress c)) "" then None
  else
    u ← url_hostname h (cAddress c);
    dialIP ← resolveServerIP h u;
    let uplink := dpiOrDefault (cUplink c) dpiDefaultUplink in
    let uplink := if negb (String.eqb reverseAddr "") && negb (String.eqb uplink UplinkStream)
                  then UplinkStream else uplink in
    let socksAddr := dpiOrDefault (cListen c) dpiDefaultSocksAddr in
    Some (LaunchDpiClient {|
      ServerURL := cAddress c; ClientKey := dpiOrDefault (cEncKey c) dpiDefaultEncKey;
      ServerName := if String.eqb (cSni c) "" then u else cSni c;
      InsecureSkipVerify := cInsecure c;
      FollowRedirects := default true (cFollowRedirect c);
      ClientFrontHost := cFrontHost c; DialIP := dialIP;
      ClientProtocol := dpiOrDefault (cProtocol c) dpiDefaultProtocol;
      ClientUplink := uplink; SOCKSAddr := socksAddr; ClientSkipUDP := skipUDP |}
      (if negb (String.eqb reverseAddr "") then Reversed (cListen c) reverseAddr skipUDP
       else Forward socksAddr)).

Definition launchSnowflakeServer (h : Host) (c : JsonServerConfigImpl) (target : string) (skipUDP : bool) :
    option launch :=
  let wsAddr := dpiOrDefault (sListen c) snowflakeDefaultWsListen in
  if resolves_tcp h wsAddr then
    Some (LaunchSnowflakeServer wsAddr target skipUDP
            (negb (String.eqb (sTlsCertFile c) "") && negb (String.eqb (sTlsKeyFile c) "")))
  else None.

Definition launchSnowflakeClient (c : JsonClientConfigImpl) (reverseAddr : string) (skipUDP : bool) :
    option launch :=
  if String.eqb (cAddress c) "" then None
  else
    let serverName := if String.eqb (cSni c) "" then cFrontHost c else cSni c in
    Some (LaunchSnowflakeClient {|
      wsURL := cAddress c; wsProxy := cProxy c; wsServerName := serverName;
      wsInsecure := cInsecure c;
      wsHost := if String.eqb (cFrontHost c) "" then None else Some (cFrontHost c) |}
      (if negb (String.eqb reverseAddr "") then Reversed (cListen c) reverseAddr skipUDP
       else Forward (dpiOrDefault (cListen c) "127.0.0.1:1080"))).

(** ** ptproxy.go *)

Definition buildTag (transportType listen : string) : ST Registry string := fun r =>
  match some_port listen with
  | Some port => (transportType +:+ "-" +:+ port, r)
  | None => (transportType +:+ "-" +:+ Itoa (noTagCounter r + 1),
             MkRegistry (byTag r) (counter r) (noTagCounter r + 1))
  end.

(** The results of a loop, in the order of its elements. *)
Fixpoint collect {W A B} (f : A -> ST W B) (l : list A) : ST W (list B) := fun w =>
  match l with
  | [] => ([], w)
  | x :: l => let '(y, w) := f x w in let '(ys, w) := collect f l w in (y :: ys, w)
  end.

(** The target of a tag: nothing for no tag, an error for a tag that is not registered. *)
Definition target_of (tag : string) (r : Registry) : option (string * bool) :=
  if String.eqb tag "" then Some ("", false) else resolveTarget tag r.

(** The switch of the first loop over the tunnel servers. *)
Definition launch_server (h : Host) (c : JsonServerConfigImpl) (target : string * bool) : option launch :=
  if String.eqb (sType c) "dpi" then launchDpiServer c (fst target) (snd target)
  else if String.eqb (sType c) "snowflake" then launchSnowflakeServer h c (fst target) (snd target)
  else if String.eqb (sType c) "ftp" then launchFtpServer c (fst target) (snd target)
  else Some (LaunchObfsServer c (fst target) (snd target)).

Definition launch_client (h : Host) (c : JsonClientConfigImpl) (target : string * bool) : option launch :=
  if String.eqb (cType c) "dpi" then launchDpiClient h c (fst target) (snd target)
  else if String.eqb (cType c) "snowflake" then launchSnowflakeClient c (fst target) (snd target)
  else if String.eqb (cType c) "ftp" then launchFtpClient c (fst target) (snd target)
  else Some (LaunchObfsClient c (fst target) (snd target)).

(** One turn of each loop: the tag of the log, and what was launched. *)
Definition start_tunnel (h : Host) (c : JsonServerConfigImpl) : ST Registry (string * option launch) := fun r =>
  let '(tag, r) :=
    (if String.eqb (TrimTag c) "" then
       let '(tag, r) := AutoTag (sType c) (listenForTag c) r in
       let port := ListenPort (listenForTag c) in
       if String.eqb port "0" || String.eqb port "" then buildTag (sType c) (listenForTag c) r
       else (tag, r)
     else (TrimTag c, r)) in
  (tag, target ← target_of (TrimTarget c) r; launch_server h c target, r).

Definition start_client (h : Host) (c : JsonClientConfigImpl) : ST Registry (string * option launch) := fun r =>
  let '(tag, r) :=
    (if String.eqb (TrimTag_client c) "" then buildTag (cType c) (cListen c) r
     else (TrimTag_client c, r)) in
  (tag, target ← target_of (TrimReverseTag c) r; launch_client h c target, r).

(** main, from the loaded configuration: the services, then the tunnels, then the clients. *)
Definition main (h : Host) (config : JsonConfigImpl) :
    ST Registry (list (string * option launch) * list (string * option launch)) := fun r =>
  let '(_, r) := collect (startService (serve h))
                   (filter (fun c => isServiceType (sType c)) (cfgServer config)) r in
  let '(ts, r) := collect (start_tunnel h)
                    (filter (fun c => negb (isServiceType (sType c))) (cfgServer config)) r in
  let '(cs, r) := collect (start_client h) (cfgClient config) r in
  (ts, cs, r).

(** ** What the start-up establishes *)

(** The entry a service is registered with, if it can be: its tag is the one it is given, or its
    kind and the port it is bound to. *)
Definition service_entry (serve : string -> string -> result string) (c : JsonServerConfigImpl) : option Entry :=
  let kind := sType c in
  bound ← service_bound serve c;
  if String.eqb (TrimSpace bound) "" then None
  else
    let tag := if String.eqb (TrimTag c) "" then kind +:+ "-" +:+ default "" (some_port bound)
               else TrimTag c in
    Some (MkEntry tag kind (TrimSpace bound) (String.eqb kind "http")).

(** A service whose tag does not depend on the counter: it has one, or the address it is bound to
    has a port, free of white space. *)
Definition settled (e : option Entry) (c : JsonServerConfigImpl) : Prop :=
  TrimTag c <> "" \/
  match e with
  | Some e => match some_port (eAddr e) with
              | Some p => Forall solid (bytes_of (sType c +:+ "-" +:+ p))
              | None => False
              end
  | None => True
  end.

#[export] Instance settled_dec e c : Decision (settled e c).
Proof. unfold settled. repeat case_match; apply _. Defined.

(** The first service that is registered under a tag, in the order of the configuration. *)
Definition named (serve : string -> string -> result string) (l : list JsonServerConfigImpl) (tag : string) :
    option Entry :=
  List.find (fun e => String.eqb (eTag e) tag) (omap (service_entry serve) l).

(** The target of a tag, from the configuration alone. *)
Definition configured_target (serve : string -> string -> result string) (l : list JsonServerConfigImpl)
    (tag : string) : option (string * bool) :=
  if String.eqb tag "" then Some ("", false)
  else e ← named serve l tag; Some (eAddr e, eSkipUDP e).

(** *** Trimming *)

Definition unspaced (ps : list (list byte)) (l : list byte) : Prop :=
  forall p, p ∈ ps -> take (length p) l <> p.

Lemma strip_unspaced ps n l : [] ∉ ps -> (length l <= n)%nat -> unspaced ps (strip ps n l).
Proof.
  intros Hps. revert l. induction n as [|n IH]; intros l Hl; cbn [strip].
  - destruct l; [|simpl in Hl; lia]. intros p Hp E. rewrite take_nil in E. by subst p.
  - destruct (list_find _ ps) as [[i p]|] eqn:E.
    + apply list_find_Some in E as (Hi & Hp & _). apply IH. rewrite length_drop.
      destruct p as [|b p]; [by apply list_elem_of_lookup_2 in Hi|].
      apply (f_equal length) in Hp. rewrite length_take in Hp. simpl in *. lia.
    + apply list_find_None in E. rewrite Forall_forall in E. exact E.
Qed.

(** What strip leaves is a suffix. *)
Lemma strip_suffix ps n l : exists q, l = q ++ strip ps n l.
Proof.
  revert l. induction n as [|n IH]; intros l; cbn [strip]; [by exists []|].
  destruct (list_find _ ps) as [[i p]|]; [|by exists []].
  destruct (IH (drop (length p) l)) as [q Hq].
  exists (take (length p) l ++ q). by rewrite <- app_assoc, <- Hq, take_drop.
Qed.

Lemma unspaced_prefix ps l q : unspaced ps (l ++ q) -> unspaced ps l.
Proof.
  intros H p Hp E. apply (H p Hp). rewrite take_app_le; [done|].
  apply (f_equal length) in E. rewrite length_take in E. lia.
Qed.

Lemma spaces_nonempty : [] ∉ spaces /\ [] ∉ map (@rev byte) spaces.
Proof. split; by apply (bool_decide_unpack _); vm_compute. Qed.

Lemma TrimSpace_idem s : TrimSpace (TrimSpace s) = TrimSpace s.
Proof.
  pose proof spaces_nonempty as [Hn Hn']. unfold TrimSpace. rewrite bytes_of_string_of. f_equal.
  set (l := strip spaces (length (bytes_of s)) (bytes_of s)).
  assert (Hl : unspaced spaces l) by (by apply strip_unspaced).
  set (m := strip (map (@rev byte) spaces) (length l) (rev l)).
  assert (Hm : unspaced (map (@rev byte) spaces) m).
  { apply strip_unspaced; [done|]. by rewrite length_rev. }
  destruct (strip_suffix (map (@rev byte) spaces) (length l) (rev l)) as [q Hq]. fold m in Hq.
  rewrite (strip_id spaces); [rewrite rev_involutive, strip_id; [done|exact Hm]|].
  apply (unspaced_prefix _ _ (rev q)). rewrite <- rev_app_distr, <- Hq. by rewrite rev_involutive.
Qed.

(** *** Services *)

Lemma some_port_trim a : some_port (TrimSpace a) = some_port a.
Proof. unfold some_port. by rewrite TrimSpace_idem. Qed.

Definition insert_new (e : Entry) (m : gmap string Entry) : gmap string Entry :=
  match m !! eTag e with Some _ => m | None => <[eTag e := e]> m end.

Lemma Register_spec tag kind addr skip r :
  TrimSpace tag = tag -> tag <> "" -> TrimSpace addr <> "" ->
  Register (MkEntry tag kind addr skip) r =
  (match byTag r !! tag with Some _ => Some (Errorf "duplicate tag %q") | None => None end,
   MkRegistry (insert_new (MkEntry tag kind (TrimSpace addr) skip) (byTag r)) (counter r) (noTagCounter r)).
Proof.
  intros Ht Hn Ha. unfold Register, insert_new. cbn [eTag eAddr eKind eSkipUDP]. rewrite Ht.
  apply String.eqb_neq in Ha as ->. apply String.eqb_neq in Hn as ->.
  by destruct (byTag r !! tag); destruct r.
Qed.

(** What starting a service does to the registry. *)
Lemma startService_spec sv c r :
  settled (service_entry sv c) c ->
  byTag (startService sv c r).2 =
  match service_entry sv c with Some e => insert_new e (byTag r) | None => byTag r end.
Proof.
  unfold startService, service_entry, settled. cbn [mbind option_bind].
  destruct (service_bound sv c) as [bound|]; cbn [mbind option_bind]; [|done].
  destruct (String.eqb_spec (TrimSpace bound) "") as [Hb|Hb]; intros Hs.
  - assert (forall t k b r', byTag (Register (MkEntry t k bound b) r').2 = byTag r') as HR.
    { intros. unfold Register. cbn [eAddr]. by rewrite Hb. }
    destruct (String.eqb (TrimTag c) ""); unfold AutoTag; [destruct (some_port bound)|].
    all: match goal with |- context [Register ?e ?r0] =>
           specialize (HR (eTag e) (eKind e) (eSkipUDP e) r0); cbn [eTag eKind eSkipUDP] in HR;
           destruct (Register e r0) end; exact HR.
  - destruct (String.eqb_spec (TrimTag c) "") as [Ht|Ht].
    + destruct Hs as [Hs|Hs]; [done|]. cbn [eAddr] in Hs. rewrite some_port_trim in Hs.
      unfold AutoTag. destruct (some_port bound) as [p|]; [|done]. cbn [default].
      rewrite Register_spec; [|by apply TrimSpace_solid|by destruct (sType c)|done].
      reflexivity.
    + rewrite Register_spec; [reflexivity|by apply TrimSpace_idem|done|done].
Qed.

(** The services of a configuration, started in order: the first of a tag is the one it names. *)
Lemma services_spec sv l r :
  Forall (fun c => settled (service_entry sv c) c) l ->
  forall t, byTag (collect (startService sv) l r).2 !! t =
            match byTag r !! t with Some e => Some e | None => named sv l t end.
Proof.
  intros H. revert r. induction H as [|c l Hc _ IH]; intros r t; cbn [collect].
  - unfold named. simpl. by destruct (byTag r !! t).
  - pose proof (startService_spec sv c r Hc) as E.
    destruct (startService sv c r) as [y r']. specialize (IH r' t).
    destruct (collect (startService sv) l r') as [ys r'']. cbn [snd] in *.
    rewrite IH, E. unfold named. cbn [omap list_omap].
    destruct (service_entry sv c) as [e|]; [|done]. cbn [List.find]. unfold insert_new.
    destruct (String.eqb_spec (eTag e) t) as [<-|Hne].
    + destruct (byTag r !! eTag e) eqn:Ee; [by rewrite Ee|by rewrite lookup_insert_eq].
    + destruct (byTag r !! eTag e); [done|]. by rewrite lookup_insert_ne.
Qed.

(** *** Tunnels and clients *)

Lemma target_of_configured sv l r tag :
  (forall t, byTag r !! t = named sv l t) -> target_of (TrimSpace tag) r = configured_target sv l (TrimSpace tag).
Proof.
  intros H. unfold target_of, configured_target, resolveTarget, Lookup.
  by rewrite TrimSpace_idem, H.
Qed.

(** A loop whose turns keep what [P] says of the registry. *)
Lemma collect_spec {A B C} (f : A -> ST Registry B) (g : B -> C) (spec : A -> C) (P : Registry -> Prop) l r :
  (forall x r, P r -> g (f x r).1 = spec x /\ P (f x r).2) -> P r ->
  map g (collect f l r).1 = map spec l /\ P (collect f l r).2.
Proof.
  intros Hf. revert r. induction l as [|x l IH]; intros r Hr; cbn [collect]; [done|].
  destruct (Hf x r Hr) as [H1 H2]. destruct (f x r) as [y r']. cbn [fst snd] in *.
  destruct (IH r' H2) as [H3 H4]. destruct (collect f l r') as [ys r'']. cbn [fst snd map] in *.
  by rewrite H1, H3.
Qed.

Lemma byTag_AutoTag kind listen r : byTag (AutoTag kind listen r).2 = byTag r.
Proof. unfold AutoTag. by destruct (some_port listen). Qed.
Lemma byTag_buildTag kind listen r : byTag (buildTag kind listen r).2 = byTag r.
Proof. unfold buildTag. by destruct (some_port listen). Qed.

Lemma start_tunnel_spec h sv l c r :
  (forall t, byTag r !! t = named sv l t) ->
  (start_tunnel h c r).1.2 =
    (target ← configured_target sv l (TrimTarget c); launch_server h c target) /\
  (forall t, byTag (start_tunnel h c r).2 !! t = named sv l t).
Proof.
  intros H. unfold start_tunnel.
  pose proof (byTag_AutoTag (sType c) (listenForTag c) r) as HA.
  destruct (AutoTag (sType c) (listenForTag c) r) as [t1 r1]. cbn [snd] in HA.
  pose proof (byTag_buildTag (sType c) (listenForTag c) r1) as HB.
  destruct (buildTag (sType c) (listenForTag c) r1) as [t2 r2]. cbn [snd] in HB.
  repeat case_match; simplify_eq; cbn [fst snd]; unfold TrimTarget;
    (split; [rewrite (target_of_configured sv l); [done|]|]);
    congruence.
Qed.

Lemma start_client_spec h sv l c r :
  (forall t, byTag r !! t = named sv l t) ->
  (start_client h c r).1.2 =
    (target ← configured_target sv l (TrimReverseTag c); launch_client h c target) /\
  (forall t, byTag (start_client h c r).2 !! t = named sv l t).
Proof.
  intros H. unfold start_client.
  pose proof (byTag_buildTag (cType c) (cListen c) r) as HB.
  destruct (buildTag (cType c) (cListen c) r) as [t2 r2]. cbn [snd] in HB.
  repeat case_match; simplify_eq; cbn [fst snd]; unfold TrimReverseTag;
    (split; [rewrite (target_of_configured sv l); [done|]|]);
    congruence.
Qed.


Lemma if_set_ne v x y : v <> "" -> if_set v x = if_set v y.
Proof. unfold if_set. by intros ->%String.eqb_neq. Qed.

Lemma dpiOrDefault_ne v fallback : fallback <> "" -> dpiOrDefault v fallback <> "".
Proof.
  unfold dpiOrDefault. intros H. destruct (String.eqb_spec (TrimSpace v) "") as [|Hv]; [done|].
  by intros ->.
Qed.

Lemma channels_positive n : ((if n <? 1 then 1 else n) >? 0) = true.
Proof. destruct (Z.ltb_spec n 1); [done|]. apply Z.gtb_lt. lia. Qed.

(** The FTP clients of one process share the configuration of one of them: whatever
    configurations were applied before, the package variables after the last launched client has
    applied its own are that client's alone, so a second FTP client of a configuration makes the
    first one use its address, key, channels and listener settings. *)
Theorem Ftp_clients_share c reverseAddr skipUDP cfg earlier g g' :
  launchFtpClient c reverseAddr skipUDP = Some (LaunchFtpClient cfg) ->
  foldl (fun g cfg => applyConfig cfg g) g (earlier ++ [cfg]) = applyConfig cfg g'.
Proof.
  unfold launchFtpClient. destruct (String.eqb_spec (TrimSpace (cAddress c)) "") as [|Ha]; [done|].
  intros [= <-]. rewrite foldl_app. cbn [foldl]. unfold applyConfig. cbn.
  rewrite (if_set_ne (cAddress c) _ (cfgFTP g')) by (by intros E; rewrite E in Ha).
  rewrite !channels_positive. by f_equal; apply if_set_ne, dpiOrDefault_ne.
Qed.

Module Witness.
Definition server (t tag listen target : string) : JsonServerConfigImpl :=
  MkServer t tag listen target "" "" "" "" "" "" "" "" "" "" false "" "" "" "" "" "" "" false "" "".
Definition client (t listen address rtag : string) (up : Z) : JsonClientConfigImpl :=
  MkClient t "" listen address rtag "" "" "" "" false None "" "" false "" "" "" up 0 "" "" false false.
Definition host : Host :=
  MkHost (fun k a => if String.eqb a "127.0.0.1:1" then Err EOF else Ok a)
    (fun u => Some u) (fun _ => None) (fun _ => None) (fun _ => true).
(** A tunnel before the service it points at, a service that cannot be bound, two services of one
    tag, an unknown target, and a reverse client. *)
Definition config : JsonConfigImpl := MkConfig
  [server "ftp" "" "0.0.0.0:21" " web "; server "socks" "web" "127.0.0.1:1" "";
   server "http" " web" "127.0.0.1:8000" ""; server "external" "web" "10.0.0.1:80" "";
   server "external" "" "10.0.0.1:443" ""; server "snowflake" "" "" "none"]
  [client "ftp" "" "10.0.0.2:21" "external-443" 4].
Definition registry : Registry := MkRegistry ∅ 0 0.
End Witness.


Lemma Ftp_clients_share_witness :
  let c1 := Witness.client "ftp" "127.0.0.1:1080" "10.0.0.2:21" "" 4 in
  let c2 := Witness.client "ftp" "127.0.0.1:1081" "10.0.0.3:21" "" 1 in
  match launchFtpClient c1 "" false, launchFtpClient c2 "" false with
  | Some (LaunchFtpClient cfg1), Some (LaunchFtpClient cfg2) =>
      let g := applyConfig cfg2 (applyConfig cfg1 default_globals) in
      g = applyConfig cfg2 default_globals /\ cfgListen g = "127.0.0.1:1081" /\ cfgUpChans g = 1
  | _, _ => False
  end.
Proof.
  intros c1 c2. pose proof (Ftp_clients_share c2 "" false) as H.
  destruct (launchFtpClient c2 "" false) as [l|] eqn:E; [|discriminate E].
  injection E as <-. split; [|by vm_compute].
  exact (H _ [_] default_globals default_globals eq_refl).
Defined.
