(* ===== verification/DpiTunnel.v ===== *)
(** The DPI client's connections: dpi/client/proxy.go, type tunnelConn.

    A tunnelConn is a net.Conn over one virtual connection: [pumpRead] moves what arrives on its
    download stream to the channel [readCh], from which Read serves its callers; Write puts its
    data on [writeCh] and waits for an answer; [pumpWrite] gathers writes until 64 KiB have
    accumulated or a timer of 5 ms has fired, hands the batch to transport.SendData and answers
    the writes of the batch.  The goroutines are the steps of one labelled transition function:
    up to a blocking operation each is one step, and their steps interleave freely.  What the
    stream delivers and what SendData returns are labels. *)

From S2P Require Import Prelude.
From Stdlib Require Import ZArith Lia Strings.Byte.
From stdpp Require Import gmap list.

#[local] Open Scope Z_scope.
#[local] Open Scope list_scope.

(** ** State *)

Record writeReq := MkReq { req_id : nat; req_data : list byte }.

(** A call of Write: before it has sent its request, waiting for the answer, returned. *)
Inductive writer : Type :=
  | WEnqueue (data : list byte)
  | WWait (n : Z)
  | WRet (r : result Z).

(** pumpWrite: at its select; in SendData ([last]: after closeCh); about to close; returned. *)
Inductive write_pump : Type := PSelect | PSend (last : bool) | PClose | PDone.

(** The variable [timer]: nil, a timer that runs, a timer that has fired and was received from. *)
Inductive timer_var : Type := TNil | TRunning | TSpent.

(** pumpRead: at the top of its loop; reading; sending a chunk, with the error that came with
    it; at its error branch; returned. *)
Inductive read_pump : Type :=
  | RTop | RReading | RPutting (data : list byte) (failed : bool) | RFailed | RDone.

(** The writing side.  The last two fields are kept for the statements: the requests in the order
    they were queued, and the writes and bytes of every batch SendData has accepted. *)
Record wside := MkW {
  writeCh : list writeReq; batch : list byte; acks : list nat; timer : timer_var;
  pumpW : write_pump; writers : gmap nat writer; answers : gmap nat (option goerr);
  queued : list writeReq; sent : list (list nat * list byte)
}.

(** The reading side.  [reading] is the call of Read that waits; the last two fields are kept for
    the statements: what the stream has delivered, and the results of the Reads. *)
Record rside := MkR {
  readCh : list (list byte); readChClosed : bool; readBuf : list byte;
  pumpR : read_pump; reading : option nat;
  streamed : list (list byte); reads : list (result (list byte))
}.

(** [closed]: closeCh.  CloseConn and the closing of the stream, which Close does once after it has
    closed closeCh, are calls of the transport. *)
Record tunnelConn := MkTunnel { closed : bool; wr : wside; rd : rside }.

Definition newTunnelConn : tunnelConn :=
  MkTunnel false (MkW [] [] [] TNil PSelect ∅ ∅ [] []) (MkR [] false [] RTop None [] []).

Definition set_writeCh v w := MkW v (batch w) (acks w) (timer w) (pumpW w) (writers w) (answers w) (queued w) (sent w).
Definition set_batch b a w := MkW (writeCh w) b a (timer w) (pumpW w) (writers w) (answers w) (queued w) (sent w).
Definition set_timer v w := MkW (writeCh w) (batch w) (acks w) v (pumpW w) (writers w) (answers w) (queued w) (sent w).
Definition set_pumpW v w := MkW (writeCh w) (batch w) (acks w) (timer w) v (writers w) (answers w) (queued w) (sent w).
Definition set_writer id v w := MkW (writeCh w) (batch w) (acks w) (timer w) (pumpW w) (<[id := v]> (writers w)) (answers w) (queued w) (sent w).
Definition set_answers v w := MkW (writeCh w) (batch w) (acks w) (timer w) (pumpW w) (writers w) v (queued w) (sent w).
Definition add_queued v w := MkW (writeCh w) (batch w) (acks w) (timer w) (pumpW w) (writers w) (answers w) (queued w ++ [v]) (sent w).
Definition add_sent v w := MkW (writeCh w) (batch w) (acks w) (timer w) (pumpW w) (writers w) (answers w) (queued w) (sent w ++ [v]).

Definition set_readCh v r := MkR v (readChClosed r) (readBuf r) (pumpR r) (reading r) (streamed r) (reads r).
Definition close_readCh r := MkR (readCh r) true (readBuf r) (pumpR r) (reading r) (streamed r) (reads r).
Definition set_readBuf v r := MkR (readCh r) (readChClosed r) v (pumpR r) (reading r) (streamed r) (reads r).
Definition set_pumpR v r := MkR (readCh r) (readChClosed r) (readBuf r) v (reading r) (streamed r) (reads r).
Definition set_reading v r := MkR (readCh r) (readChClosed r) (readBuf r) (pumpR r) (Some v) (streamed r) (reads r).
Definition add_streamed v r := MkR (readCh r) (readChClosed r) (readBuf r) (pumpR r) (reading r) (streamed r ++ [v]) (reads r).
Definition add_read v r := MkR (readCh r) (readChClosed r) (readBuf r) (pumpR r) None (streamed r) (reads r ++ [v]).

(** ** Writing *)

Definition maxBatchBytes : Z := 64 * 1024.
Definition writeChCap : nat := 64.

Inductive wlabel : Type :=
  (* Write: the call, the request, one of its two selects taking closeCh, the answer *)
  | WriteCall (id : nat) (b : list byte) | WriteQueue (id : nat) | WriteClosed (id : nat)
  | WriteAnswer (id : nat)
  (* pumpWrite *)
  | PumpTake | PumpTimer | PumpClosed | SendReturns (e : option goerr) | PumpClose.

(** The closure [flush]: answers the writes of the batch, and resets it and the timer. *)
Definition flush (e : option goerr) (w : wside) : wside :=
  set_timer TNil (set_batch [] []
    (set_answers (foldr (fun id m => <[id := e]> m) (answers w) (acks w)) w)).

(** What the select of pumpWrite does with a request, the tick of its timer, and closeCh. *)
Definition pump_take (r : writeReq) (w : wside) : wside :=
  let w := set_batch (batch w ++ req_data r) (acks w ++ [req_id r]) w in
  if maxBatchBytes <=? len (batch w) then set_pumpW (PSend false) w
  else match timer w with TNil => set_timer TRunning w | _ => w end.

(** [sendBatch] returns at once on an empty batch, without [flush]. *)
Definition pump_timer (w : wside) : wside :=
  let w := set_timer TSpent w in
  match batch w with [] => w | _ => set_pumpW (PSend false) w end.

Definition pump_closed (w : wside) : wside :=
  match batch w with [] => set_pumpW PDone w | _ => set_pumpW (PSend true) w end.

(** [sendBatch] when SendData has returned. *)
Definition send_returns (e : option goerr) (last : bool) (w : wside) : wside :=
  match e with
  | None => set_pumpW (if last then PDone else PSelect) (flush None (add_sent (acks w, batch w) w))
  | Some e => set_pumpW PClose (flush (Some e) w)
  end.

(** A step of a Write or of pumpWrite, with closeCh before and after it. *)
Definition write_step (l : wlabel) (closed : bool) (w : wside) : option (bool * wside) :=
  match l with
  | WriteCall id b =>
      match writers w !! id with None => Some (closed, set_writer id (WEnqueue b) w) | Some _ => None end
  | WriteQueue id =>
      match writers w !! id with
      | Some (WEnqueue b) =>
          if bool_decide (length (writeCh w) < writeChCap)%nat then
            Some (closed, set_writer id (WWait (len b))
                            (add_queued (MkReq id b) (set_writeCh (writeCh w ++ [MkReq id b]) w)))
          else None
      | _ => None
      end
  | WriteClosed id =>
      match writers w !! id, closed with
      | Some (WEnqueue _), true | Some (WWait _), true => Some (closed, set_writer id (WRet (Err EOF)) w)
      | _, _ => None
      end
  | WriteAnswer id =>
      match writers w !! id, answers w !! id with
      | Some (WWait n), Some None => Some (closed, set_writer id (WRet (Ok n)) w)
      | Some (WWait n), Some (Some e) => Some (closed, set_writer id (WRet (Err e)) w)
      | _, _ => None
      end
  | PumpTake =>
      match pumpW w, writeCh w with
      | PSelect, r :: q => Some (closed, pump_take r (set_writeCh q w))
      | _, _ => None
      end
  | PumpTimer =>
      match pumpW w, timer w with PSelect, TRunning => Some (closed, pump_timer w) | _, _ => None end
  | PumpClosed =>
      match pumpW w, closed with PSelect, true => Some (closed, pump_closed w) | _, _ => None end
  | SendReturns e =>
      match pumpW w with PSend last => Some (closed, send_returns e last w) | _ => None end
  | PumpClose =>
      match pumpW w with PClose => Some (true, set_pumpW PDone w) | _ => None end
  end.

(** ** Reading *)

Definition readChCap : nat := 16.
Definition readBufSize : nat := 32 * 1024.

Inductive rlabel : Type :=
  (* pumpRead *)
  | ReadTop | StreamRead (chunk : list byte) (failed : bool) | ReadPut | ReadPutClosed | ReadFail
  (* Read *)
  | ReadCall (n : nat) | ReadTake | ReadEOF.

Definition Read (n : nat) (r : rside) : rside :=
  match readBuf r with
  | [] => set_reading n r
  | _ => add_read (Ok (take n (readBuf r))) (set_readBuf (drop n (readBuf r)) r)
  end.

Definition read_step (l : rlabel) (closed : bool) (r : rside) : option rside :=
  match l with
  | ReadTop =>
      match pumpR r with
      | RTop => Some (set_pumpR (if closed then RDone else RReading) r)
      | _ => None
      end
  | StreamRead chunk failed =>
      match pumpR r with
      | RReading =>
          if bool_decide (length chunk <= readBufSize)%nat then
            Some (set_pumpR (match chunk with
                             | [] => if failed then RFailed else RTop
                             | _ => RPutting chunk failed
                             end) (add_streamed chunk r))
          else None
      | _ => None
      end
  | ReadPut =>
      match pumpR r with
      | RPutting data failed =>
          if bool_decide (length (readCh r) < readChCap)%nat then
            Some (set_pumpR (if failed then RFailed else RTop) (set_readCh (readCh r ++ [data]) r))
          else None
      | _ => None
      end
  | ReadPutClosed =>
      match pumpR r, closed with RPutting _ _, true => Some (set_pumpR RDone r) | _, _ => None end
  | ReadFail =>
      match pumpR r with
      | RFailed => Some (set_pumpR RDone (if closed then r else close_readCh r))
      | _ => None
      end
  | ReadCall n => match reading r with None => Some (Read n r) | Some _ => None end
  | ReadTake =>
      match reading r, readCh r with
      | Some n, data :: q =>
          Some (add_read (Ok (take n data)) (set_readBuf (drop n data) (set_readCh q r)))
      | _, _ => None
      end
  | ReadEOF =>
      match reading r, readCh r, readChClosed r with
      | Some n, [], true => Some (add_read (Err EOF) r)
      | _, _, _ => None
      end
  end.

(** ** The connection *)

Inductive label : Type := W (l : wlabel) | R (l : rlabel) | Close.

Definition step (l : label) (s : tunnelConn) : option tunnelConn :=
  match l with
  | W l => '(c, w) ← write_step l (closed s) (wr s); Some (MkTunnel c w (rd s))
  | R l => r ← read_step l (closed s) (rd s); Some (MkTunnel (closed s) (wr s) r)
  | Close => Some (MkTunnel true (wr s) (rd s))
  end.

Fixpoint run (ls : list label) (s : tunnelConn) : option tunnelConn :=
  match ls with
  | [] => Some s
  | l :: ls => s ← step l s; run ls s
  end.

(** ** Runs *)

Lemma run_app ls ls' s : run (ls ++ ls') s = s ← run ls s; run ls' s.
Proof. revert s. induction ls as [|l ls IH]; intros s; simpl; [done|]. destruct (step l s); simpl; auto. Qed.

(** A property that every step keeps holds at the end of a run. *)
Lemma run_ind (P : tunnelConn -> Prop) (ok : label -> Prop) ls s s' :
  (forall l s s', ok l -> step l s = Some s' -> P s -> P s') ->
  Forall ok ls -> run ls s = Some s' -> P s -> P s'.
Proof.
  intros H Hls. revert s. induction Hls as [|l ls Hl _ IH]; intros s; simpl; [by intros [= ->]|].
  destruct (step l s) as [s1|] eqn:E; simpl; [|done]. intros Hr HP. eapply IH; eauto.
Qed.

Lemma tunnel_run_inv (P : tunnelConn -> Prop) ls s s' :
  (forall l s s', step l s = Some s' -> P s -> P s') -> run ls s = Some s' -> P s -> P s'.
Proof.
  intros H. apply (run_ind P (fun _ => True)); [eauto|]. by apply Forall_forall.
Qed.

(** A property of the writing side and closeCh: the steps of pumpWrite and of the Writes keep it,
    and so does Close. *)
Lemma run_writes (P : bool -> wside -> Prop) (ok : wlabel -> Prop) ls s s' :
  (forall l c w c' w', ok l -> write_step l c w = Some (c', w') -> P c w -> P c' w') ->
  (forall w, P false w -> P true w) ->
  Forall (fun l => match l with W l => ok l | _ => True end) ls ->
  run ls s = Some s' -> P (closed s) (wr s) -> P (closed s') (wr s').
Proof.
  intros Hw Hc.
  refine (run_ind (fun s => P (closed s) (wr s)) (fun l => match l with W l => ok l | _ => True end) ls s s' _).
  intros [l|l|] t t' Hl; simpl.
  - destruct (write_step l _ _) as [[c w]|] eqn:E; simpl; [|done]. intros [= <-]. simpl. eauto.
  - destruct (read_step l _ _) as [r|] eqn:E; simpl; [|done]. by intros [= <-].
  - intros [= <-]. simpl. destruct (closed t); auto.
Qed.

(** The same for the reading side. *)
Lemma run_reads (P : bool -> rside -> Prop) ls s s' :
  (forall l c r r', read_step l c r = Some r' -> P c r -> P c r') ->
  (forall r, P false r -> P true r) ->
  run ls s = Some s' -> P (closed s) (rd s) -> P (closed s') (rd s').
Proof.
  intros Hr Hc. apply (tunnel_run_inv (fun s => P (closed s) (rd s))).
  intros [l|l|] t t'; simpl.
  - destruct (write_step l _ _) as [[c w]|] eqn:E; simpl; [|done]. intros [= <-]. simpl.
    intros HP. destruct (closed t) eqn:Ec, c; auto. exfalso.
    destruct l; simpl in E; repeat case_match; congruence.
  - destruct (read_step l _ _) as [r|] eqn:E; simpl; [|done]. intros [= <-]. simpl. eauto.
  - intros [= <-]. simpl. destruct (closed t); auto.
Qed.

(** ** Writes *)

Lemma lookup_answers ids (e : option goerr) m id :
  foldr (fun id m => <[id := e]> m) m ids !! id =
  if bool_decide (id ∈ ids) then Some e else (m : gmap nat (option goerr)) !! id.
Proof.
  induction ids as [|i ids IH]; simpl; [done|].
  destruct (decide (i = id)) as [->|Hne].
  - rewrite lookup_insert_eq. by rewrite bool_decide_true by set_solver.
  - rewrite lookup_insert_ne, IH by done.
    destruct (decide (id ∈ ids)); [rewrite !bool_decide_true by set_solver|rewrite !bool_decide_false by set_solver]; done.
Qed.

Definition ids (l : list writeReq) : list nat := map req_id l.
Definition bytes (l : list writeReq) : list byte := concat (map req_data l).

Lemma ids_app a b : ids (a ++ b) = ids a ++ ids b.
Proof. apply map_app. Qed.
Lemma bytes_app a b : bytes (a ++ b) = bytes a ++ bytes b.
Proof. unfold bytes. by rewrite map_app, concat_app. Qed.

(** The queued requests are those of the accepted batches, in order, then those of a batch that
    failed, those of the batch, and those that wait in [writeCh]. *)
Record split_queue (w : wside) (qs lost held : list writeReq) : Prop := {
  sq_queued : queued w = qs ++ lost ++ held ++ writeCh w;
  sq_ids : ids qs = concat (map fst (sent w));
  sq_bytes : bytes qs = concat (map snd (sent w));
  sq_acks : ids held = acks w;
  sq_batch : bytes held = batch w;
  sq_lost : lost = [] \/ pumpW w = PClose \/ pumpW w = PDone;
  sq_answers : forall id e, answers w !! id = Some e ->
    match e with None => id ∈ ids qs | Some _ => id ∈ ids lost end
}.

Definition split_ok (w : wside) : Prop := exists qs lost held, split_queue w qs lost held.

Ltac split_with qs lost held := exists qs, lost, held; split; simpl; try done.

Lemma pump_take_split r q w : pumpW w = PSelect -> writeCh w = r :: q -> split_ok w ->
  split_ok (pump_take r (set_writeCh q w)).
Proof.
  intros Hp Hq (qs & lost & held & [H1 H2 H3 H4 H5 H6 H7]).
  assert (lost = []) as -> by (destruct H6 as [|[|]]; congruence).
  assert (split_queue (set_batch (batch w ++ req_data r) (acks w ++ [req_id r]) (set_writeCh q w))
            qs [] (held ++ [r])) as H.
  { split; simpl; auto.
    - rewrite H1, Hq. by rewrite <- app_assoc.
    - by rewrite ids_app, H4.
    - rewrite bytes_app, H5. unfold bytes. simpl. by rewrite app_nil_r. }
  unfold pump_take. exists qs, [], (held ++ [r]). destruct H.
  destruct (_ <=? _); [by split; auto|]. simpl. destruct (timer w); by split.
Qed.

Lemma send_returns_split e last w : pumpW w = PSend last -> split_ok w -> split_ok (send_returns e last w).
Proof.
  intros Hp (qs & lost & held & [H1 H2 H3 H4 H5 H6 H7]).
  assert (lost = []) as -> by (destruct H6 as [|[|]]; congruence).
  destruct e as [e|]; simpl.
  - split_with qs held (@nil writeReq); [by auto|]. intros id e'. rewrite lookup_answers.
    case_bool_decide as Hi; [intros [= <-]; by rewrite H4|].
    intros H%H7. destruct e'; [by apply elem_of_nil in H|done].
  - split_with (qs ++ held) (@nil writeReq) (@nil writeReq).
    + rewrite H1. by rewrite <- app_assoc.
    + rewrite ids_app, H2, map_app, concat_app. simpl. by rewrite app_nil_r, H4.
    + rewrite bytes_app, H3, map_app, concat_app. simpl. by rewrite app_nil_r, H5.
    + by auto.
    + intros id e'. rewrite lookup_answers. case_bool_decide as Hi.
      * intros [= <-]. rewrite ids_app, H4. set_solver.
      * intros H%H7. destruct e'; [done|]. rewrite ids_app. set_solver.
Qed.

(** The steps that change neither the queue nor the batch. *)
Lemma split_ok_frame w w' :
  writeCh w' = writeCh w -> batch w' = batch w -> acks w' = acks w -> queued w' = queued w ->
  sent w' = sent w -> answers w' = answers w ->
  (pumpW w' = pumpW w \/ pumpW w' = PDone \/ exists b, pumpW w = PSelect /\ pumpW w' = PSend b) ->
  split_ok w -> split_ok w'.
Proof.
  intros E1 E2 E3 E4 E5 E6 E7 (qs & lost & held & [H1 H2 H3 H4 H5 H6 H7]).
  exists qs, lost, held. split; rewrite ?E1, ?E2, ?E3, ?E4, ?E5, ?E6; auto.
  destruct E7 as [->|[->|(b & E & ->)]]; [done|by auto|].
  left. destruct H6 as [|[|]]; congruence.
Qed.

Lemma split_queue_step l c w c' w' : write_step l c w = Some (c', w') -> split_ok w -> split_ok w'.
Proof.
  intros H Hs. destruct l; simpl in H; repeat case_match; simplify_eq H; intros; subst.
  all: try (by apply pump_take_split); try (by apply send_returns_split).
  all: try (unfold pump_timer, pump_closed; repeat case_match;
            apply (split_ok_frame w); simpl; eauto; fail).
  destruct Hs as (qs & lost & held & []). exists qs, lost, held. split; simpl; auto.
  rewrite sq_queued0. by rewrite <- !app_assoc.
Qed.

(** A number has one request. *)
Lemma request_unique l id b b' : NoDup (ids l) -> MkReq id b ∈ l -> MkReq id b' ∈ l -> b = b'.
Proof.
  intros Hn (i & Hi)%list_elem_of_lookup (j & Hj)%list_elem_of_lookup.
  assert (i = j) as <- by (eapply (NoDup_lookup _ _ _ id Hn); unfold ids; by rewrite list_lookup_fmap, ?Hi, ?Hj).
  congruence.
Qed.

Definition sent_ids (w : wside) : list nat := concat (map fst (sent w)).

(** What the calls of Write know: a request in the queue belongs to the call of its number, and
    a call that has returned without an error is in an accepted batch. *)
Record calls_ok (c : bool) (w : wside) : Prop := {
  co_nodup : NoDup (ids (queued w));
  co_queued : forall id, id ∈ ids (queued w) ->
    match writers w !! id with Some (WWait _) | Some (WRet _) => True | _ => False end;
  co_wait : forall id n, writers w !! id = Some (WWait n) ->
    exists b, MkReq id b ∈ queued w /\ n = len b;
  co_ok : forall id n, writers w !! id = Some (WRet (Ok n)) ->
    id ∈ sent_ids w /\ exists b, MkReq id b ∈ queued w /\ n = len b;
  co_err : forall id e, writers w !! id = Some (WRet (Err e)) -> c = true \/ pumpW w = PClose;
  co_done : pumpW w = PDone \/ pumpW w = PSend true -> c = true
}.

(** The steps of the pump: the calls and the queue stay, what was sent stays. *)
Lemma calls_ok_frame c c' w w' :
  queued w' = queued w -> writers w' = writers w -> sent_ids w ⊆ sent_ids w' ->
  (c = true -> c' = true) -> (pumpW w = PClose -> c' = true) ->
  (pumpW w' = PDone \/ pumpW w' = PSend true -> c' = true) -> calls_ok c w -> calls_ok c' w'.
Proof.
  intros E1 E2 E3 Ec Hp Hd []. split; rewrite ?E1, ?E2; auto.
  - intros id n H%co_ok0. split; [apply E3, H|apply H].
  - intros id e [H|H]%co_err0; auto.
Qed.

(** The steps of a call: it moves on, and the rest stays. *)
Lemma calls_ok_call c w id v :
  (match v with
   | WEnqueue _ => id ∉ ids (queued w)
   | WWait n => exists b, MkReq id b ∈ queued w /\ n = len b
   | WRet (Ok n) => id ∈ sent_ids w /\ exists b, MkReq id b ∈ queued w /\ n = len b
   | WRet (Err e) => c = true \/ pumpW w = PClose
   | WRet _ => True
   end) -> calls_ok c w -> calls_ok c (set_writer id v w).
Proof.
  intros Hv []. split; simpl; auto.
  all: intros id'; destruct (decide (id = id')) as [<-|Hne];
    [rewrite lookup_insert_eq|rewrite lookup_insert_ne by done; first [apply co_queued0|eauto]].
  all: try (intros n [= ->]; exact Hv).
  intros Hi. destruct v; done.
Qed.

Lemma calls_ok_queue c w id b :
  writers w !! id = Some (WEnqueue b) -> calls_ok c w ->
  calls_ok c (set_writer id (WWait (len b)) (add_queued (MkReq id b) (set_writeCh (writeCh w ++ [MkReq id b]) w))).
Proof.
  intros He [].
  assert (Hn : id ∉ ids (queued w)) by (intros H%co_queued0; by rewrite He in H).
  split; simpl; auto.
  - rewrite ids_app. apply NoDup_app. split; [done|]. simpl.
    split; [set_solver|apply NoDup_singleton].
  - intros id'. destruct (decide (id = id')) as [<-|Hne];
      [by rewrite lookup_insert_eq|rewrite lookup_insert_ne by done].
    rewrite ids_app. simpl. intros [H|H]%elem_of_app; [by apply co_queued0|set_solver].
  - intros id' n. destruct (decide (id = id')) as [<-|Hne].
    + rewrite lookup_insert_eq. intros [= <-]. exists b. set_solver.
    + rewrite lookup_insert_ne by done. intros (b' & ? & ->)%co_wait0. exists b'. set_solver.
  - intros id' n. destruct (decide (id = id')) as [<-|Hne];
      [by rewrite lookup_insert_eq|rewrite lookup_insert_ne by done].
    intros (? & b' & ? & ->)%co_ok0. split; [done|]. exists b'. set_solver.
  - intros id' e. destruct (decide (id = id')) as [<-|Hne];
      [by rewrite lookup_insert_eq|rewrite lookup_insert_ne by done; eauto].
Qed.

Lemma sent_ids_frame w w' : sent w' = sent w -> sent_ids w ⊆ sent_ids w'.
Proof. unfold sent_ids. by intros ->. Qed.

Lemma answered_sent w id : split_ok w -> answers w !! id = Some None -> id ∈ sent_ids w.
Proof. intros (qs & lost & held & []) H. unfold sent_ids. rewrite <- sq_ids0. by apply (sq_answers0 id None). Qed.

Lemma answered_failed c w id e :
  split_ok w -> calls_ok c w -> answers w !! id = Some (Some e) -> c = true \/ pumpW w = PClose.
Proof.
  intros (qs & lost & held & []) [] H. apply sq_answers0 in H.
  destruct sq_lost0 as [->|[|]]; [by apply elem_of_nil in H|auto..].
Qed.

Lemma calls_ok_flush e last c w :
  pumpW w = PSend last -> calls_ok c w -> calls_ok c (send_returns e last w).
Proof.
  intros Hp Hc. apply (calls_ok_frame c c w); [| | |done|congruence| |done]; unfold send_returns;
    destruct e; simpl; try done.
  - unfold sent_ids. simpl. rewrite map_app, concat_app. set_solver.
  - by intros [|].
  - destruct last; [intros _; apply (co_done _ _ Hc); by right|by intros [|]].
Qed.

(** The branches of pumpWrite's select. *)
Lemma calls_ok_select c w w' :
  pumpW w = PSelect -> queued w' = queued w -> writers w' = writers w -> sent w' = sent w ->
  c = true \/ pumpW w' = PSelect \/ pumpW w' = PSend false -> calls_ok c w -> calls_ok c w'.
Proof.
  intros Hp E1 E2 E3 Hw. apply calls_ok_frame; try done; [by apply sent_ids_frame|congruence|].
  intros [E|E]; destruct Hw as [|[|]]; congruence.
Qed.

Lemma writes_inv l c w c' w' :
  True -> write_step l c w = Some (c', w') -> split_ok w /\ calls_ok c w -> split_ok w' /\ calls_ok c' w'.
Proof.
  intros _ H [Hs Hc]. split; [by eapply split_queue_step|]. pose proof Hc as [].
  destruct l; simpl in H; repeat case_match; simplify_eq H; intros; subst.
  all: try (by apply calls_ok_flush).
  all: try (apply (calls_ok_select _ w); [done|..|done]; unfold pump_take, pump_timer, pump_closed;
            simpl; repeat case_match; simpl; by auto).
  all: try (apply calls_ok_call; [|done]).
  - intros Hi%co_queued0. by rewrite H0 in Hi.
  - by apply calls_ok_queue.
  - by left.
  - by left.
  - by eapply answered_failed.
  - split; [by apply answered_sent|by eapply co_wait0].
  - apply (calls_ok_frame c true w); simpl; auto.
Qed.

Lemma run_writes_inv ls s : run ls newTunnelConn = Some s -> split_ok (wr s) /\ calls_ok (closed s) (wr s).
Proof.
  intros H. refine (run_writes (fun c w => split_ok w /\ calls_ok c w) (fun _ => True) ls _ s
    writes_inv _ _ H _).
  - intros w [Hs []]. split; [done|]. split; auto.
  - apply Forall_forall. by intros [] _.
  - split.
    + exists [], [], []. split; simpl; auto. done.
    + split; simpl; try done; [constructor|by intros id Hi%elem_of_nil|by intros [|]].
Qed.

(** C19: Writes go out once, whole and in order.  In every run of a connection, over all
    interleavings of its goroutines with any number of concurrent Writes, the bytes of the
    accepted calls of SendData are those of a prefix of the queued writes, in their order; a
    write is missing from it only when a call of SendData has failed and nothing was sent after
    it, or while it waits.  A Write that returned without an error is in that prefix, with the
    length of its data as its result, and a Write that returned an error did so because the
    connection is closed or its pump is about to close it. *)
Theorem Tunnel_writes ls s :
  run ls newTunnelConn = Some s ->
  let w := wr s in
  exists qs lost rest,
    queued w = qs ++ lost ++ rest /\ NoDup (ids (queued w)) /\
    ids qs = concat (map fst (sent w)) /\ bytes qs = concat (map snd (sent w)) /\
    (lost = [] \/ pumpW w = PClose \/ pumpW w = PDone) /\
    (forall id n, writers w !! id = Some (WRet (Ok n)) -> exists b, MkReq id b ∈ qs /\ n = len b) /\
    (forall id e, writers w !! id = Some (WRet (Err e)) -> closed s = true \/ pumpW w = PClose).
Proof.
  intros H w. destruct (run_writes_inv ls s H) as [(qs & lost & held & []) []].
  exists qs, lost, (held ++ writeCh w). repeat (split; [done|]). split; [|done].
  intros id n [Hi (b & Hb & ->)]%co_ok0. exists b. split; [|done].
  unfold sent_ids in Hi. rewrite <- sq_ids0 in Hi.
  apply list_elem_of_fmap in Hi as ([id' b'] & -> & Hq). simpl in *.
  rewrite (request_unique (queued (wr s)) id' b b'); [done..|]. rewrite sq_queued0. set_solver.
Qed.

(** *** Writes that are answered *)

(** What holds while nobody writes nothing: the timer runs while writes are held. *)
Record live_ok (w : wside) : Prop := {
  lv_enqueue : forall id b, writers w !! id = Some (WEnqueue b) -> b <> [];
  lv_queue : Forall (fun r => req_data r <> []) (writeCh w);
  lv_batch : acks w <> [] -> batch w <> [];
  lv_timer : pumpW w = PSelect -> timer w <> TSpent /\ (acks w <> [] <-> timer w = TRunning);
  lv_wait : forall id n, writers w !! id = Some (WWait n) ->
    id ∈ ids (writeCh w) \/ id ∈ acks w \/ is_Some (answers w !! id)
}.

Definition nonempty_write (l : wlabel) : Prop :=
  match l with WriteCall _ b => b <> [] | _ => True end.

Lemma live_take r q w : pumpW w = PSelect -> writeCh w = r :: q -> live_ok w ->
  live_ok (pump_take r (set_writeCh q w)).
Proof.
  intros Hp Hq []. rewrite Hq in *. inversion_clear lv_queue0 as [|? ? Hr Hq'].
  assert (Hb : batch w ++ req_data r <> []) by (intros [_ ?]%app_eq_nil; done).
  assert (forall id n, writers w !! id = Some (WWait n) ->
    id ∈ ids q \/ id ∈ acks w ++ [req_id r] \/ is_Some (answers w !! id)) as Hw.
  { intros id n [H|[H|H]]%lv_wait0; [|set_solver|auto].
    unfold ids in H. simpl in H. apply elem_of_cons in H as [->|H]; [set_solver|auto]. }
  destruct (lv_timer0 Hp) as [Ht _].
  unfold pump_take. cbv zeta. case_match; [split; simpl; auto; discriminate|]. simpl.
  assert (acks w ++ [req_id r] <> []) by (by intros [_ ?]%app_eq_nil).
  destruct (timer w) eqn:Et; [| |done]; split; simpl; auto; intros _; split; by rewrite ?Et.
Qed.

Lemma live_flush e last w : live_ok w -> live_ok (send_returns e last w).
Proof.
  intros []. destruct e; split; simpl; try done.
  all: intros id n H; rewrite lookup_answers; case_bool_decide; [eauto|].
  all: by destruct (lv_wait0 id n H) as [|[|]]; auto.
Qed.

(** A step that changes one call, or nothing but the pump. *)
Lemma live_call w id v :
  match v with
  | WEnqueue b => b <> []
  | WWait _ => id ∈ ids (writeCh w) \/ id ∈ acks w \/ is_Some (answers w !! id)
  | WRet _ => True
  end -> live_ok w -> live_ok (set_writer id v w).
Proof.
  intros Hv []. split; simpl; auto.
  all: intros id'; destruct (decide (id = id')) as [<-|Hne];
    [rewrite lookup_insert_eq|rewrite lookup_insert_ne by done; eauto].
  all: intros b [= ->]; exact Hv.
Qed.

Lemma live_pump w w' :
  writeCh w' = writeCh w -> batch w' = batch w -> acks w' = acks w -> writers w' = writers w ->
  answers w' = answers w -> pumpW w' <> PSelect -> live_ok w -> live_ok w'.
Proof. intros E1 E2 E3 E4 E5 Hp []. split; rewrite ?E1, ?E2, ?E3, ?E4, ?E5; auto. done. Qed.

Lemma live_step l c w c' w' :
  nonempty_write l -> write_step l c w = Some (c', w') -> live_ok w -> live_ok w'.
Proof.
  intros Hl H Hw. pose proof Hw as [].
  destruct l; simpl in H; repeat case_match; simplify_eq H; intros; subst.
  all: try (by apply live_take); try (by apply live_flush); try (by apply live_call).
  - apply live_call.
    + simpl. unfold ids. rewrite map_app. set_solver.
    + split; simpl; auto.
      * apply Forall_app; split; [done|]. constructor; [|done]. by eapply lv_enqueue0.
      * intros i n [Hi|Hi]%lv_wait0; [left|by right]. unfold ids. rewrite map_app. set_solver.
  - destruct (lv_timer0 eq_refl) as [_ Ht]. unfold pump_timer. simpl.
    destruct (batch w) eqn:Eb; [by destruct lv_batch0; [apply Ht|]|]. by apply (live_pump w).
  - unfold pump_closed. case_match; by apply (live_pump w).
  - by apply (live_pump w).
Qed.

(** The steps the pump takes by itself while SendData succeeds. *)
Definition pump_label (l : label) : Prop :=
  match l with W PumpTake | W PumpTimer | W (SendReturns None) | W PumpClose => True | _ => False end.

(** From [w], steps of the pump lead to a state with [P]. *)
Definition pumps_to (w : wside) (P : wside -> Prop) : Prop :=
  forall r, exists ls w', Forall pump_label ls /\
    run ls (MkTunnel false w r) = Some (MkTunnel false w' r) /\ P w'.

Lemma pumps_now w (P : wside -> Prop) : P w -> pumps_to w P.
Proof. intros H r. by exists [], w. Qed.

Lemma pumps_step l w w' P :
  pump_label (W l) -> write_step l false w = Some (false, w') -> pumps_to w' P -> pumps_to w P.
Proof.
  intros Hl E H r. destruct (H r) as (ls & w'' & Hls & Hr & HP).
  exists (W l :: ls), w''. split; [by constructor|]. split; [|done]. simpl. by rewrite E.
Qed.

Definition answered (id : nat) (n : Z) (w : wside) : Prop :=
  writers w !! id = Some (WWait n) /\ answers w !! id = Some None.

(** A write that is held is answered when its batch has been sent. *)
Lemma held_answered w id n :
  live_ok w -> pumpW w = PSelect \/ pumpW w = PSend false ->
  writers w !! id = Some (WWait n) -> id ∈ acks w -> pumps_to w (answered id n).
Proof.
  intros [] Hp Hid Hi.
  assert (forall v, pumpW v = PSend false -> writers v = writers w -> acks v = acks w ->
            pumps_to v (answered id n)) as Hsend.
  { intros v Hv E1 E2. apply (pumps_step (SendReturns None) _ (send_returns None false v)); [done|simpl; by rewrite Hv|].
    apply pumps_now. split; simpl; [by rewrite E1|]. rewrite lookup_answers.
    by rewrite bool_decide_true by (by rewrite E2). }
  destruct Hp as [Hp|Hp]; [|by apply Hsend].
  assert (acks w <> []) as Ha by (intros E; rewrite E in Hi; by apply elem_of_nil in Hi).
  destruct (lv_timer0 Hp) as [_ Ht]. apply Ht in Ha as Ht'. apply lv_batch0 in Ha.
  apply (pumps_step PumpTimer _ (pump_timer w)); [done|simpl; by rewrite Hp, Ht'|].
  unfold pump_timer. simpl. destruct (batch w); [done|]. by apply Hsend.
Qed.

(** A write in the queue is taken, after those before it. *)
Lemma queued_answered q : forall w id n,
  writeCh w = q -> live_ok w -> pumpW w = PSelect \/ pumpW w = PSend false ->
  writers w !! id = Some (WWait n) -> id ∈ ids q -> pumps_to w (answered id n).
Proof.
  assert (forall q, (forall w id n, writeCh w = q -> live_ok w -> pumpW w = PSelect ->
    writers w !! id = Some (WWait n) -> id ∈ ids q -> pumps_to w (answered id n)) ->
    forall w id n, writeCh w = q -> live_ok w -> pumpW w = PSelect \/ pumpW w = PSend false ->
    writers w !! id = Some (WWait n) -> id ∈ ids q -> pumps_to w (answered id n)) as Hsend.
  { intros q' IH w id n Hq Hw [Hp|Hp] Hid Hi; [by apply IH|].
    apply (pumps_step (SendReturns None) _ (send_returns None false w)); [done|simpl; by rewrite Hp|].
    apply IH; try done. by apply live_flush. }
  induction q as [|r q IH]; apply Hsend; [by intros ????????%elem_of_nil|].
  intros w id n Hq Hw Hp Hid Hi.
  apply (pumps_step PumpTake _ (pump_take r (set_writeCh q w))); [done|simpl; by rewrite Hp, Hq|].
  assert (Hw' := live_take r q w Hp Hq Hw).
  assert (writeCh (pump_take r (set_writeCh q w)) = q /\ writers (pump_take r (set_writeCh q w)) = writers w /\
    acks (pump_take r (set_writeCh q w)) = acks w ++ [req_id r] /\
    (pumpW (pump_take r (set_writeCh q w)) = PSelect \/ pumpW (pump_take r (set_writeCh q w)) = PSend false))
    as (E1 & E2 & E3 & E4).
  { unfold pump_take. cbv zeta. case_match; simpl; [by auto|]. case_match; simpl; by auto. }
  unfold ids in Hi. simpl in Hi. apply elem_of_cons in Hi as [->|Hi].
  - apply held_answered; [done..|by rewrite E2|]. rewrite E3. set_solver.
  - apply IH; [done..|by rewrite E2|done].
Qed.

Lemma run_live ls s :
  Forall (fun l => match l with W l => nonempty_write l | _ => True end) ls ->
  run ls newTunnelConn = Some s -> live_ok (wr s).
Proof.
  intros Hls H. refine (run_writes (fun _ => live_ok) nonempty_write ls _ s _ _ Hls H _); [|done|].
  - intros l c w c' w' Hl E. by apply (live_step l c w c').
  - by split; simpl.
Qed.


(** *** Writes that are not answered *)

Definition returned (v : option writer) : Prop :=
  match v with None | Some (WRet _) => True | _ => False end.

(** An open connection with nothing to write. *)
Definition idle (s : tunnelConn) : Prop :=
  closed s = false /\ pumpW (wr s) = PSelect /\ writeCh (wr s) = [] /\ batch (wr s) = [] /\
  acks (wr s) = [] /\ forall id, returned (writers (wr s) !! id).

(** The write [id] of an empty slice: not yet queued, in the queue, held. *)
Definition stuck (id : nat) (c : bool) (w : wside) : Prop :=
  c = false /\ pumpW w = PSelect /\ batch w = [] /\ answers w !! id = None /\
  (forall id', id' <> id -> returned (writers w !! id')) /\
  (writers w !! id = Some (WEnqueue []) /\ writeCh w = [] /\ acks w = [] \/
   writers w !! id = Some (WWait 0) /\ writeCh w = [MkReq id []] /\ acks w = [] \/
   writers w !! id = Some (WWait 0) /\ writeCh w = [] /\ acks w = [id]).

Definition no_call (l : wlabel) : Prop := match l with WriteCall _ _ => False | _ => True end.

Lemma stuck_step id l c w c' w' :
  no_call l -> write_step l c w = Some (c', w') -> stuck id c w -> stuck id c' w'.
Proof.
  intros Hl H (-> & Hp & Hb & Ha & Ho & Hst). unfold stuck.
  destruct l as [| i | i | i | | | | |]; [done|..]; simpl in H; rewrite ?Hp in H; try done.
  1-3: destruct (decide (i = id)) as [->|Hne]; [|by specialize (Ho i Hne); destruct (writers w !! i) as [[]|]].
  all: destruct Hst as [(Hw & Hq & Hk)|[(Hw & Hq & Hk)|(Hw & Hq & Hk)]];
    rewrite ?Hw, ?Ha, ?Hq in H; simpl in H; try done.
  1: { injection H as <- <-. simpl. rewrite Hp, Hb, Ha, lookup_insert_eq.
       split_and!; auto. intros i Hi. rewrite lookup_insert_ne by done. by apply Ho. }
  1: { injection H as <- <-. unfold pump_take. cbn. rewrite Hb, Hk. cbn.
       destruct (timer w); cbn; rewrite ?Hp, ?Ha, ?Hw; split_and!; auto. }
  all: repeat case_match; simplify_eq H; intros; subst; try congruence; unfold pump_timer; simpl; rewrite Hb; simpl;
    rewrite ?Hp, ?Hb, ?Ha, ?Hw, ?Hq, ?Hk; split_and!; auto.
Qed.

(** A Write of an empty slice hangs.  On an open, idle connection, a call of Write without
    data never returns, whatever steps the goroutines and the readers take, as long as nobody
    else calls Write or Close: the timer finds the batch empty, and no timer runs again.  The
    UDP forward makes this call for every empty datagram, and its loop stops there. *)
Theorem Empty_write_hangs s id ls s' :
  idle s -> answers (wr s) !! id = None ->
  Forall (fun l => match l with W l => no_call l | R _ => True | Close => False end) ls ->
  run (W (WriteCall id []) :: ls) s = Some s' ->
  ~ returned (writers (wr s') !! id).
Proof.
  intros (H1 & H2 & H3 & H4 & H5 & H6) Ha Hls. simpl.
  destruct (writers (wr s) !! id) eqn:Ew; [done|]. simpl. intros Hr.
  assert (stuck id (closed s') (wr s')) as (_ & _ & _ & _ & _ & Hst).
  2: { by destruct Hst as [(-> & _)|[(-> & _)|(-> & _)]]; intros []. }
  refine (run_ind (fun s => stuck id (closed s) (wr s)) _ ls _ s' _ Hls Hr _).
  - intros [l|l|] t t' Hl; simpl; [| |done].
    + destruct (write_step l _ _) as [[c w]|] eqn:E; simpl; [|done]. intros [= <-]. simpl.
      by apply (stuck_step id l).
    + destruct (read_step l _ _) as [r|] eqn:E; simpl; [|done]. by intros [= <-].
  - simpl. split_and!; simpl; try done.
    + intros i Hi. by rewrite lookup_insert_ne.
    + left. by rewrite lookup_insert_eq.
Qed.

(** ** Reads *)

Definition ok_bytes (l : list (result (list byte))) : list byte :=
  concat (map (fun r => match r with Ok d => d | _ => [] end) l).

Lemma ok_bytes_app a b : ok_bytes (a ++ b) = ok_bytes a ++ ok_bytes b.
Proof. unfold ok_bytes. by rewrite map_app, concat_app. Qed.

Lemma ok_bytes_ok l d : ok_bytes (l ++ [Ok d]) = ok_bytes l ++ d.
Proof. rewrite ok_bytes_app. unfold ok_bytes at 2. simpl. by rewrite app_nil_r. Qed.
Lemma ok_bytes_err l e : ok_bytes (l ++ [Err e]) = ok_bytes l.
Proof. rewrite ok_bytes_app. unfold ok_bytes at 2. simpl. by rewrite app_nil_r. Qed.

Lemma eof_ok l (d : list byte) : Err EOF ∈ l ++ [Ok d] -> Err EOF ∈ l.
Proof. intros [Hi|Hi]%elem_of_app; [done|by apply list_elem_of_singleton in Hi]. Qed.

(** The chunk pumpRead is sending. *)
Definition in_hand (p : read_pump) : list byte := match p with RPutting d _ => d | _ => [] end.

(** The bytes of the stream are those that were read, then those on their way, then those that
    pumpRead has dropped because the connection was closed. *)
Record stream_split (c : bool) (r : rside) (lost : list byte) : Prop := {
  ss_stream : concat (streamed r) =
    ok_bytes (reads r) ++ readBuf r ++ concat (readCh r) ++ in_hand (pumpR r) ++ lost;
  ss_lost : lost = [] \/ c = true /\ pumpR r = RDone /\ readChClosed r = false;
  ss_closed : readChClosed r = true -> pumpR r = RDone;
  ss_reading : reading r <> None -> readBuf r = [];
  ss_eof : Err EOF ∈ reads r -> readChClosed r = true /\ readCh r = [] /\ readBuf r = [];
  ss_cap : (length (readCh r) <= readChCap)%nat
}.

Definition stream_ok (c : bool) (r : rside) : Prop := exists lost, stream_split c r lost.

(** A step of pumpRead: before it nothing was dropped, and [readCh] was open. *)
Lemma stream_pump c r r' :
  pumpR r <> RDone -> stream_ok c r ->
  (stream_split c r [] -> readChClosed r = false -> Err EOF ∉ reads r -> stream_ok c r') -> stream_ok c r'.
Proof.
  intros Hp (lost & H) Hr'. pose proof H as [].
  assert (lost = []) as -> by (destruct ss_lost0 as [|(_ & ? & _)]; congruence).
  assert (readChClosed r = false) as Hc by (destruct (readChClosed r); [by destruct Hp; auto|done]).
  apply Hr'; [done..|]. intros [? _]%ss_eof0. congruence.
Qed.

Lemma stream_step l c r r' : read_step l c r = Some r' -> stream_ok c r -> stream_ok c r'.
Proof.
  intros H Hs. destruct l; simpl in H; unfold Read in H; repeat case_match; simplify_eq H; intros; subst.
  all: match goal with H : pumpR ?r = _ |- _ =>
           apply (stream_pump _ r); [congruence|done|]; intros [] Hc He; rewrite H in *; simpl in *
         | _ => idtac end.
  8: { exists data. split; simpl; auto. by rewrite ss_stream0, app_nil_r. }
  1-9: exists []; split; simpl; rewrite ?concat_app, ?length_app, ?ss_stream0; simpl; rewrite ?app_nil_r;
    auto; try done; try congruence; try (by rewrite <- ?app_assoc);
    try (apply bool_decide_eq_true in H1; lia).
  all: destruct Hs as (lost & []); exists lost.
  - by split; simpl; auto.
  - split; simpl; auto; [|done|].
    + rewrite ss_stream0, ok_bytes_ok, H1. rewrite <- (take_drop n (b :: l)) at 1. by rewrite <- !app_assoc.
    + intros (_ & _ & Hi)%eof_ok%ss_eof0. congruence.
  - rewrite H1 in *. assert (readBuf r = []) as Hb by (apply ss_reading0; congruence).
    split; simpl; auto; [|done| |simpl in *; lia].
    + rewrite ss_stream0, ok_bytes_ok, Hb. simpl. rewrite <- (take_drop n l) at 1. by rewrite <- !app_assoc.
    + intros (_ & Hi & _)%eof_ok%ss_eof0. congruence.
  - assert (readBuf r = []) as Hb by (apply ss_reading0; congruence).
    split; simpl; auto. by rewrite ok_bytes_err.
Qed.

Lemma run_stream_ok ls s : run ls newTunnelConn = Some s -> stream_ok (closed s) (rd s).
Proof.
  intros H. refine (run_reads stream_ok ls _ s _ _ H _).
  - intros l c r r'. apply stream_step.
  - intros r (lost & []). exists lost. split; auto. destruct ss_lost0 as [|(? & ? & ?)]; auto.
  - exists []. split; simpl; auto; [done|by intros ?%elem_of_nil|lia].
Qed.

(** C21: Reads deliver the stream.  In every run the results of the Reads are a prefix of the bytes
    of the download stream, whatever the sizes of their buffers, [readCh] never holds more than
    its capacity, and a Read returns io.EOF only after the Reads have returned every byte. *)
Theorem Tunnel_reads ls s :
  run ls newTunnelConn = Some s ->
  exists rest, concat (streamed (rd s)) = ok_bytes (reads (rd s)) ++ rest /\
    (Err EOF ∈ reads (rd s) -> rest = []) /\ (length (readCh (rd s)) <= readChCap)%nat.
Proof.
  intros H. destruct (run_stream_ok ls s H) as (lost & []). eexists. split; [done|]. split; [|done].
  intros (Hc & -> & ->)%ss_eof0. rewrite (ss_closed0 Hc). simpl.
  destruct ss_lost0 as [|(_ & _ & ?)]; [done|congruence].
Qed.

(** A Read of a closed connection hangs.  Once the connection is closed before its stream
    has ended, [readCh] is never closed: no Read ever returns io.EOF, and when pumpRead has
    returned and what it had queued is read, the Read that waits, and with it the goroutine that
    copies to the local connection, waits for ever. *)
Theorem Closed_read_hangs ls s :
  run ls newTunnelConn = Some s -> closed s = true -> readChClosed (rd s) = false ->
  forall ls' s', run ls' s = Some s' ->
    readChClosed (rd s') = false /\ Err EOF ∉ reads (rd s') /\
    forall n, pumpR (rd s) = RDone -> readCh (rd s) = [] -> reading (rd s) = Some n ->
              reading (rd s') = Some n /\ reads (rd s') = reads (rd s).
Proof.
  intros H Hc Ho ls' s' Hr.
  assert (stream_ok (closed s') (rd s')) as (lost & []) by (apply (run_stream_ok (ls ++ ls')); by rewrite run_app, H).
  pose (P c r := c = true /\ readChClosed r = false /\
          forall n, pumpR (rd s) = RDone -> readCh (rd s) = [] -> reading (rd s) = Some n ->
            pumpR r = RDone /\ readCh r = [] /\ reading r = Some n /\ reads r = reads (rd s)).
  assert (P (closed s') (rd s')) as (_ & Ho' & Hn).
  - refine (run_reads P ls' s s' _ _ Hr _); [|by intros r []|by split].
    intros l c r r' E (-> & Hc' & HP). split; [done|].
    split.
    + destruct l; simpl in E; unfold Read in E; repeat case_match; simplify_eq E; intros; by subst.
    + intros n H1 H2 H3. destruct (HP n H1 H2 H3) as (E1 & E2 & E3 & E4).
      destruct l; simpl in E; rewrite ?E1, ?E2, ?E3, ?Hc' in E; done.
  - split; [done|]. split; [intros (? & _)%ss_eof0; congruence|].
    intros n H1 H2 H3. by destruct (Hn n H1 H2 H3) as (_ & _ & ? & ?).
Qed.

(** ** Concrete runs *)

Module Witness.
(** Two Writes in one batch; a third in a batch that fails. *)
Definition writes : list label :=
  map W [WriteCall 0 [x01; x02]; WriteCall 1 [x03]; WriteQueue 1; WriteQueue 0; PumpTake; PumpTake;
         PumpTimer; SendReturns None; WriteAnswer 0; WriteAnswer 1;
         WriteCall 2 [x04]; WriteQueue 2; PumpTake; PumpTimer; SendReturns (Some EOF)]%byte.
(** A chunk read with a small buffer, then the end of the stream. *)
Definition reads_ : list label :=
  map R [ReadTop; ReadCall 1; StreamRead [x01; x02] true; ReadPut; ReadTake; ReadFail; ReadCall 5;
         ReadCall 5; ReadEOF]%byte.
(** A Read waits while the connection is closed. *)
Definition closing : list label := [R ReadTop; R (ReadCall 5); Close; R (StreamRead [] true); R ReadFail].
Definition end_of (ls : list label) : tunnelConn := default newTunnelConn (run ls newTunnelConn).
End Witness.

Lemma Tunnel_writes_witness :
  let w := wr (Witness.end_of Witness.writes) in
  sent w = [([1; 0]%nat, [x03; x01; x02]%byte)] /\ writers w !! 0%nat = Some (WRet (Ok 2)) /\
  exists qs lost rest, queued w = qs ++ lost ++ rest /\ bytes qs = [x03; x01; x02]%byte.
Proof.
  split; [by vm_compute|]. split; [by vm_compute|].
  destruct (Tunnel_writes Witness.writes (Witness.end_of Witness.writes)) as (qs & lost & rest & H1 & _ & _ & H2 & _);
    [by vm_compute|].
  exists qs, lost, rest. split; [exact H1|]. rewrite H2. by vm_compute.
Defined.


Lemma Empty_write_hangs_witness :
  let ls := map W [WriteQueue 0; PumpTake; PumpTimer] in
  exists s', run (W (WriteCall 0 []) :: ls) newTunnelConn = Some s' /\
    pumpW (wr s') = PSelect /\ timer (wr s') = TSpent /\ ~ returned (writers (wr s') !! 0%nat).
Proof.
  intros ls. eexists. split; [by vm_compute|]. split; [done|]. split; [done|].
  apply (Empty_write_hangs newTunnelConn 0 ls); [by repeat split|done|by repeat constructor|by vm_compute].
Defined.

Lemma Tunnel_reads_witness :
  reads (rd (Witness.end_of Witness.reads_)) = [Ok [x01]%byte; Ok [x02]%byte; Err EOF] /\
  exists rest, concat (streamed (rd (Witness.end_of Witness.reads_))) = [x01; x02]%byte ++ rest /\ rest = [].
Proof.
  split; [by vm_compute|].
  destruct (Tunnel_reads Witness.reads_ (Witness.end_of Witness.reads_)) as (rest & H1 & H2 & _); [by vm_compute|].
  exists rest. split; [rewrite H1; by vm_compute|].
  apply H2. vm_compute. apply list_elem_of_further, list_elem_of_further, list_elem_of_here.
Defined.

Lemma Closed_read_hangs_witness :
  let s := Witness.end_of Witness.closing in
  let ls' := [Close; W PumpClosed] in
  exists s', run ls' s = Some s' /\ pumpW (wr s') = PDone /\ reading (rd s') = Some 5%nat.
Proof.
  intros s ls'. eexists. split; [by vm_compute|]. split; [done|].
  destruct (Closed_read_hangs Witness.closing s) with ls' (default s (run ls' s)) as (_ & _ & Hn);
    [by vm_compute|by vm_compute|by vm_compute|by vm_compute|].
  apply (Hn 5%nat); by vm_compute.
Defined.
