(* ===== verification/GoNet.v ===== *)
(** IP addresses: what the program uses of package net (IP, ParseIP, ResolveUDPAddr).

    An address is the list of its bytes, 4 or 16 of them; net.ParseIP always gives 16. *)

From S2P Require Import Prelude GoLib.
From Stdlib Require Import ZArith Lia Strings.Byte Strings.String Strings.Ascii.
From stdpp Require Import gmap list strings.

#[local] Open Scope string_scope.
#[local] Open Scope Z_scope.
#[local] Open Scope list_scope.

Abbreviation IP := (list byte) (only parsing).

(** ** The forms of an address *)

Definition v4InV6Prefix : list byte := (repeat x00 10 ++ [xff; xff])%byte.

Definition To4 (ip : IP) : option IP :=
  if decide (length ip = 4%nat) then Some ip
  else if decide (length ip = 16%nat /\ take 12 ip = v4InV6Prefix) then Some (drop 12 ip)
  else None.

Definition To16 (ip : IP) : option IP :=
  if decide (length ip = 4%nat) then Some (v4InV6Prefix ++ ip)
  else if decide (length ip = 16%nat) then Some ip
  else None.

(** ** Printing *)

Definition string4 (ip : IP) : string := strings_Join (map (fun b => Itoa (byte_to_Z b)) ip) ".".

(** The 16-bit groups of an address. *)
Fixpoint groups (ip : IP) : list Z :=
  match ip with
  | a :: b :: ip => be_get [a; b] :: groups ip
  | _ => []
  end.

(** A group in hexadecimal, without leading zeros. *)
Definition hex_group (v : Z) : string :=
  let d k := String (hex_digit (Z.shiftr v (4 * k) mod 16)) EmptyString in
  (if 0x1000 <=? v then d 3 else "") +:+ (if 0x100 <=? v then d 2 else "") +:+
  (if 0x10 <=? v then d 1 else "") +:+ d 0.

(** The length of the run of zero groups at the head. *)
Fixpoint zero_run (l : list Z) : nat :=
  match l with 0 :: l => S (zero_run l) | _ => O end.

(** The first longest run of at least two zero groups: its bounds. *)
Fixpoint longest_zeros (i : nat) (l : list Z) (best : nat * nat) : nat * nat :=
  match l with
  | [] => best
  | _ :: l' =>
      let n := zero_run l in
      longest_zeros (S i) l'
        (if bool_decide (2 <= n /\ snd best - fst best < n)%nat then (i, i + n)%nat else best)
  end.

(** The groups from the [i]th on. *)
Fixpoint string6_from (fuel i zs ze : nat) (l : list Z) : string :=
  match fuel with
  | O => EmptyString
  | S fuel =>
      if (8 <=? i)%nat then EmptyString
      else
        let j := if (i =? zs)%nat then ze else i in
        (if (i =? zs)%nat then "::" else if (0 <? i)%nat then ":" else "") +:+
        (if (8 <=? j)%nat then EmptyString
         else hex_group (nth j l 0) +:+ string6_from fuel (S j) zs ze l)
  end.

Definition string6 (ip : IP) : string :=
  let l := groups ip in
  let '(zs, ze) := longest_zeros 0 l (255, 255)%nat in
  string6_from 8 0 zs ze l.

(** net.IP.String. *)
Definition IP_String (ip : IP) : string :=
  match ip with
  | [] => "<nil>"
  | _ => match To4 ip with
         | Some ip4 => string4 ip4
         | None => if decide (length ip = 16%nat) then string6 ip else "?" +:+ hex ip
         end
  end.

(** ** Parsing *)

(** A field of a dotted address: decimal digits without leading zeros, at most 255. *)
Definition octet (s : string) : option byte :=
  match s with
  | EmptyString => None
  | String "0" (String _ _) => None
  | _ => match atoi_digits s 0 with
         | Some v => if v <=? 255 then Some (byte_of_Z v) else None
         | None => None
         end
  end.

Definition parseIPv4 (s : string) : option IP :=
  match map octet (Split s ".") with
  | [Some a; Some b; Some c; Some d] => Some [a; b; c; d]
  | _ => None
  end.

Definition hex_value (c : ascii) : option Z :=
  let n := Z.of_N (N_of_ascii c) in
  if (48 <=? n) && (n <=? 57) then Some (n - 48)
  else if (97 <=? n) && (n <=? 102) then Some (n - 87)
  else if (65 <=? n) && (n <=? 70) then Some (n - 55)
  else None.

(** A group of an address of version 6: its value, the number of its digits, and what follows. *)
Fixpoint scan_group (s : string) (acc : Z) (off : nat) : Z * nat * string :=
  match s with
  | String c r => match hex_value c with Some v => scan_group r (acc * 16 + v) (S off) | None => (acc, off, s) end
  | EmptyString => (acc, off, s)
  end.

(** The loop of parseIPv6, one turn for each group: the bytes so far, the position of the
    ellipsis, and what is left. *)
Fixpoint v6_loop (fuel : nat) (ip : IP) (ellipsis : option nat) (s : string) :
    option (IP * option nat * string) :=
  match fuel with
  | O => Some (ip, ellipsis, s)
  | S fuel =>
      let '(acc, off, rest) := scan_group s 0 0 in
      if (off =? 0)%nat || (4 <? off)%nat then None
      else match rest with
      | String "." _ =>
          if bool_decide (ellipsis = None) && negb (length ip =? 12)%nat then None
          else if (16 <? length ip + 4)%nat then None
          else ip4 ← parseIPv4 s; Some (ip ++ ip4, ellipsis, EmptyString)
      | _ =>
          let ip := ip ++ be_put 2 acc in
          match rest with
          | EmptyString => Some (ip, ellipsis, EmptyString)
          | String ":" EmptyString => None
          | String ":" (String ":" r) =>
              if bool_decide (ellipsis = None) then
                match r with
                | EmptyString => Some (ip, Some (length ip), EmptyString)
                | _ => v6_loop fuel ip (Some (length ip)) r
                end
              else None
          | String ":" r => v6_loop fuel ip ellipsis r
          | _ => None
          end
      end
  end.

Definition parseIPv6 (s : string) : option IP :=
  match s with
  | String ":" (String ":" EmptyString) => Some (repeat x00 16)
  | _ =>
      '(ip, ellipsis, rest) ←
        (match s with
         | String ":" (String ":" r) => v6_loop 8 [] (Some 0%nat) r
         | _ => v6_loop 8 [] None s
         end);
      if negb (String.eqb rest EmptyString) then None
      else if (length ip <? 16)%nat then
        k ← ellipsis; Some (take k ip ++ repeat x00 (16 - length ip) ++ drop k ip)
      else match ellipsis with Some _ => None | None => Some ip end
  end.

(** The first of the characters that tell the versions apart. *)
Fixpoint first_sep (s : string) : option ascii :=
  match s with
  | EmptyString => None
  | String c s => if in_cutset ".:%" c then Some c else first_sep s
  end.

(** net.ParseIP: an address with a zone is not one. *)
Definition ParseIP (s : string) : option IP :=
  match first_sep s with
  | Some "."%char => ip4 ← parseIPv4 s; Some (v4InV6Prefix ++ ip4)
  | Some ":"%char => if ContainsByte s "%" then None else parseIPv6 s
  | _ => None
  end.

(** ** UDP addresses *)

Record UDPAddr := MkUDPAddr { uIP : IP; uPort : Z }.

#[export] Instance UDPAddr_eq_dec : EqDecision UDPAddr.
Proof. solve_decision. Defined.

(** UDPAddr.String; an address without IP has an empty host. *)
Definition UDPAddr_String (a : UDPAddr) : string :=
  JoinHostPort (match uIP a with [] => "" | ip => IP_String ip end) (Itoa (uPort a)).

Section Resolve.
(** The addresses the resolver finds for a host name. *)
Context (lookup : string -> option IP).

(** net.ResolveUDPAddr for the port of a number: the empty host is no address. *)
Definition ResolveUDPAddr (addr : string) : result UDPAddr :=
  '(host, port) ← SplitHostPort addr;
  match Atoi port with
  | Some p =>
      if (p <? 0) || (65535 <? p) then Err (Errorf "invalid port")
      else if String.eqb host "" then Ok (MkUDPAddr [] p)
      else match ParseIP host with
           | Some ip => Ok (MkUDPAddr ip p)
           | None => match lookup host with
                     | Some ip => Ok (MkUDPAddr ip p)
                     | None => Err (Errorf "no such host")
                     end
           end
  | None => Err (Errorf "unknown port")
  end.
End Resolve.

(** ** Examples *)

Example IP_String_v6 :
  IP_String ([x20; x01; x0d; xb8; x00; x00; x00; x00; x00; x01; x00; x00; x00; x00; x00; x01])%byte =
  "2001:db8::1:0:0:1".
Proof. by vm_compute. Qed.
Example IP_String_loopback : IP_String (repeat x00 15 ++ [x01])%byte = "::1".
Proof. by vm_compute. Qed.
Example ParseIP_v6 : map ParseIP ["2001:db8::1:0:0:1"; "::"; "1::2::3"; "1:2:3:4:5:6:7:8:9"; "::ffff:1.2.3.4"; "fe80::1%eth0"] =
  [Some [x20; x01; x0d; xb8; x00; x00; x00; x00; x00; x01; x00; x00; x00; x00; x00; x01]%byte;
   Some (repeat x00 16); None; None; Some (v4InV6Prefix ++ [x01; x02; x03; x04]%byte); None].
Proof. by vm_compute. Qed.
Example ParseIP_v4 : map ParseIP ["1.2.3"; "1.2.3.256"; "1.02.3.4"; "127.0.0.1"; "1.2.3.4:5"] =
  [None; None; None; Some (v4InV6Prefix ++ [x7f; x00; x00; x01]%byte); None].
Proof. by vm_compute. Qed.

(** ** Dotted addresses *)

Lemma octet_Itoa b : octet (Itoa (byte_to_Z b)) = Some b.
Proof. by destruct b; vm_compute. Qed.

Lemma octet_free b c : digit c = None -> c <> "-"%char -> free c (Itoa (byte_to_Z b)).
Proof. intros. by apply free_Itoa. Qed.

Lemma first_sep_app a c s : Forall (fun d => in_cutset ".:%" d = false) (list_ascii_of_string a) ->
  in_cutset ".:%" c = true -> first_sep (a +:+ String c s) = Some c.
Proof.
  intros Ha Hc. induction a as [|d a IH]; cbn [append first_sep]; [by rewrite Hc|].
  inversion_clear Ha as [|? ? Hd Ha']. rewrite Hd. auto.
Qed.

Lemma octet_no_sep b : Forall (fun d => in_cutset ".:%" d = false) (list_ascii_of_string (Itoa (byte_to_Z b))).
Proof. destruct b; vm_compute; repeat constructor. Qed.

Lemma string4_cons a b c d :
  string4 [a; b; c; d] = Itoa (byte_to_Z a) +:+ String "." (Itoa (byte_to_Z b) +:+ String "."
    (Itoa (byte_to_Z c) +:+ String "." (Itoa (byte_to_Z d)))).
Proof. done. Qed.

Lemma parseIPv4_string4 ip : length ip = 4%nat -> parseIPv4 (string4 ip) = Some ip.
Proof.
  destruct ip as [|a [|b [|c [|d [|]]]]]; try done. intros _. unfold parseIPv4, string4.
  rewrite Split_Join; [cbn [map]; by rewrite !octet_Itoa|done|].
  repeat constructor; by apply octet_free.
Qed.

Lemma ParseIP_string4 ip : length ip = 4%nat -> ParseIP (string4 ip) = Some (v4InV6Prefix ++ ip).
Proof.
  intros H. unfold ParseIP. rewrite parseIPv4_string4 by done.
  destruct ip as [|a [|b [|c [|d [|]]]]]; try done. rewrite string4_cons, first_sep_app; [done| |done].
  apply octet_no_sep.
Qed.

Lemma To4_mapped ip : length ip = 4%nat -> To4 (v4InV6Prefix ++ ip) = Some ip.
Proof. intros H. destruct ip as [|a [|b [|c [|d [|]]]]]; try done. Qed.

Lemma To4_length ip ip4 : To4 ip = Some ip4 -> length ip4 = 4%nat.
Proof.
  unfold To4. repeat case_decide; intros [= <-]; [done|]. rewrite length_drop.
  destruct H0 as [-> _]. done.
Qed.

Lemma IP_String_To4 ip ip4 : To4 ip = Some ip4 -> IP_String ip = string4 ip4.
Proof. intros H. destruct ip; [discriminate H|]. unfold IP_String. by rewrite H. Qed.

(** ** Addresses of version 6 *)

Lemma hex_value_digit d : 0 <= d < 16 -> hex_value (hex_digit d) = Some d.
Proof.
  intros H. assert (d ∈ map Z.of_nat (seq 0 16)) as Hd
    by (apply list_elem_of_fmap; exists (Z.to_nat d); rewrite elem_of_seq; lia).
  cbn in Hd. set_unfold in Hd. by destruct_or?; subst.
Qed.

(** A text that does not go on with a digit. *)
Definition ends_group (s : string) : Prop :=
  match s with String c _ => hex_value c = None | EmptyString => True end.

Lemma scan_group_end s acc off : ends_group s -> scan_group s acc off = (acc, off, s).
Proof. destruct s as [|c s]; [done|]. simpl. by intros ->. Qed.

Lemma scan_group_digit d s acc off :
  0 <= d < 16 -> scan_group (String (hex_digit d) s) acc off = scan_group s (acc * 16 + d) (S off).
Proof. intros H. cbn [scan_group]. by rewrite hex_value_digit. Qed.

Lemma nibble v k : 0 <= Z.shiftr v (4 * k) mod 16 < 16.
Proof. by apply Z.mod_pos_bound. Qed.

Lemma scan_hex_group v s : 0 <= v < 65536 -> ends_group s ->
  exists n, scan_group (hex_group v +:+ s) 0 0 = (v, n, s) /\ (1 <= n <= 4)%nat.
Proof.
  intros Hv Hs. unfold hex_group. cbv zeta.
  pose proof (nibble v) as Hn. rewrite !Z.shiftr_div_pow2 in * by lia.
  assert (Hk : forall k, 0 <= k -> 0 <= v / 2 ^ (4 * k) mod 16 < 16) by (intros; by apply Z.mod_pos_bound).
  change (2 ^ (4 * 3)) with 4096. change (2 ^ (4 * 2)) with 256. change (2 ^ (4 * 1)) with 16.
  change (2 ^ (4 * 0)) with 1.
  assert (B3 : 0 <= v / 4096 mod 16 < 16) by (by apply Z.mod_pos_bound).
  assert (B2 : 0 <= v / 256 mod 16 < 16) by (by apply Z.mod_pos_bound).
  assert (B1 : 0 <= v / 16 mod 16 < 16) by (by apply Z.mod_pos_bound).
  assert (B0 : 0 <= v / 1 mod 16 < 16) by (by apply Z.mod_pos_bound).
  destruct (Z.leb_spec 0x1000 v), (Z.leb_spec 0x100 v), (Z.leb_spec 0x10 v); try lia;
    cbn [append]; rewrite !scan_group_digit, scan_group_end by done; eexists; (split; [do 2 f_equal|]); try lia;
    Z.div_mod_to_equations; lia.
Qed.
Lemma hex_group_head v : exists c r, hex_group v = String c r /\ hex_value c <> None.
Proof.
  unfold hex_group. cbv zeta.
  repeat case_match; cbn [append]; do 2 eexists; (split; [done|]); rewrite hex_value_digit by apply nibble; done.
Qed.

Fixpoint join_groups (l : list Z) : string :=
  match l with
  | [] => ""
  | [v] => hex_group v
  | v :: l => hex_group v +:+ String ":" (join_groups l)
  end.

Definition group_bytes (l : list Z) : list byte := concat (map (be_put 2) l).

Lemma group_bytes_cons v l : group_bytes (v :: l) = be_put 2 v ++ group_bytes l.
Proof. done. Qed.

Lemma length_group_bytes l : length (group_bytes l) = (2 * length l)%nat.
Proof. induction l as [|v l IH]; [done|]. rewrite group_bytes_cons, length_app, IH, length_be_put. simpl. lia. Qed.

Lemma group_bytes_app a b : group_bytes (a ++ b) = group_bytes a ++ group_bytes b.
Proof. unfold group_bytes. by rewrite map_app, concat_app. Qed.

Lemma group_bytes_zeros n : group_bytes (repeat 0 n) = repeat x00 (2 * n).
Proof.
  induction n as [|n IH]; [done|]. cbn [repeat]. rewrite group_bytes_cons, IH.
  replace (2 * S n)%nat with (S (S (2 * n))) by lia. done.
Qed.

Definition group_ok (v : Z) : Prop := 0 <= v < 65536.

Lemma join_groups_cons v l : l <> [] -> join_groups (v :: l) = hex_group v +:+ String ":" (join_groups l).
Proof. by destruct l. Qed.

Lemma join_groups_head l : l <> [] -> exists c r, join_groups l = String c r /\ hex_value c <> None.
Proof.
  destruct l as [|v l]; [done|]. intros _. destruct (hex_group_head v) as (c & r & E & Hc).
  destruct l as [|w l]; [by exists c, r|]. rewrite join_groups_cons, E by done. by do 2 eexists.
Qed.

(** One turn of the loop for a group. *)
Lemma v6_turn fuel ip e v s : group_ok v -> ends_group s ->
  match s with String "." _ => False | _ => True end ->
  v6_loop (S fuel) ip e (hex_group v +:+ s) =
    match s with
    | EmptyString => Some (ip ++ be_put 2 v, e, EmptyString)
    | String ":" EmptyString => None
    | String ":" (String ":" r) =>
        if bool_decide (e = None) then
          match r with
          | EmptyString => Some (ip ++ be_put 2 v, Some (length (ip ++ be_put 2 v)), EmptyString)
          | _ => v6_loop fuel (ip ++ be_put 2 v) (Some (length (ip ++ be_put 2 v))) r
          end
        else None
    | String ":" r => v6_loop fuel (ip ++ be_put 2 v) e r
    | _ => None
    end.
Proof.
  intros Hv Hs Hd. destruct (scan_hex_group v s Hv Hs) as (n & E & Hn). cbn [v6_loop]. rewrite E.
  destruct (Nat.eqb_spec n 0), (Nat.ltb_spec 4 n); try lia. cbn [orb].
  destruct s as [|[[] [] [] [] [] [] [] []] s]; try done.
Qed.

Lemma not_colon c r : hex_value c <> None -> exists d, String c r = String d r /\ d <> ":"%char /\ d <> "."%char.
Proof. intros H. exists c. split; [done|]. split; intros ->; by apply H. Qed.

(** Groups to the end of the text. *)
Lemma v6_loop_join l fuel ip e : l <> [] -> Forall group_ok l -> (length l <= fuel)%nat ->
  v6_loop fuel ip e (join_groups l) = Some (ip ++ group_bytes l, e, EmptyString).
Proof.
  intros Hne Hl. revert fuel ip. induction Hl as [|v l Hv Hl IH]; intros fuel ip Hf; [done|].
  destruct fuel as [|fuel]; [simpl in Hf; lia|]. destruct l as [|w l].
  - rewrite <- (sapp_nil_r (join_groups [v])). change (join_groups [v]) with (hex_group v).
    rewrite v6_turn by done. unfold group_bytes. simpl. done.
  - rewrite join_groups_cons by done. rewrite v6_turn by done.
    destruct (join_groups_head (w :: l)) as (c & r & E & Hc); [done|]. rewrite E.
    assert (Hgo : v6_loop fuel (ip ++ be_put 2 v) e (String c r) =
      Some (ip ++ group_bytes (v :: w :: l), e, EmptyString)).
    { rewrite <- E, IH by (try done; simpl in *; lia). rewrite (group_bytes_cons v), (assoc_L (++)). done. }
    destruct c as [[] [] [] [] [] [] [] []]; try exact Hgo. by destruct Hc.
Qed.

(** Groups up to the ellipsis. *)
Lemma v6_loop_ellipsis l fuel ip r : l <> [] -> Forall group_ok l -> (length l < fuel)%nat ->
  v6_loop fuel ip None (join_groups l +:+ String ":" (String ":" r)) =
    let ip := ip ++ group_bytes l in
    match r with
    | EmptyString => Some (ip, Some (length ip), EmptyString)
    | _ => v6_loop (fuel - length l) ip (Some (length ip)) r
    end.
Proof.
  intros Hne Hl. revert fuel ip. induction Hl as [|v l Hv Hl IH]; intros fuel ip Hf; [done|].
  destruct fuel as [|fuel]; [simpl in Hf; lia|]. destruct l as [|w l].
  - change (join_groups [v]) with (hex_group v). rewrite v6_turn by done. cbv zeta.
    replace (group_bytes [v]) with (be_put 2 v) by (unfold group_bytes; cbn [map concat]; by rewrite app_nil_r).
    simpl length. replace (S fuel - 1)%nat with fuel by lia. done.
  - rewrite join_groups_cons by done. rewrite <- sapp_assoc. cbn [append]. rewrite v6_turn by done.
    destruct (join_groups_head (w :: l)) as (c & s & E & Hc); [done|].
    assert (Hgo : v6_loop fuel (ip ++ be_put 2 v) None (join_groups (w :: l) +:+ String ":" (String ":" r)) =
      let ip := ip ++ group_bytes (v :: w :: l) in
      match r with
      | EmptyString => Some (ip, Some (length ip), EmptyString)
      | _ => v6_loop (S fuel - length (v :: w :: l)) ip (Some (length ip)) r
      end).
    { rewrite IH by (try done; simpl in *; lia). cbv zeta. rewrite (group_bytes_cons v), (assoc_L (++)). done. }
    rewrite E in *. cbn [append] in *. destruct c as [[] [] [] [] [] [] [] []]; try exact Hgo. by destruct Hc.
Qed.

Lemma groups_ok ip : Forall group_ok (groups ip).
Proof.
  assert (H : forall n ip, (length ip <= n)%nat -> Forall group_ok (groups ip)).
  { clear. intros n. induction n as [|n IH]; intros [|a [|b ip]] Hn; cbn [groups]; simpl in Hn; try constructor; try lia.
    - pose proof (be_get_range [a; b]) as Hr. change (len [a; b]) with 2 in Hr. unfold group_ok. lia.
    - apply IH. lia. }
  by eapply H.
Qed.

Lemma groups_bytes n ip : length ip = (2 * n)%nat -> group_bytes (groups ip) = ip /\ length (groups ip) = n.
Proof.
  revert ip. induction n as [|n IH]; intros [|a [|b ip]] Hn; simpl in Hn; try lia; [done|].
  cbn [groups]. destruct (IH ip) as [E1 E2]; [lia|]. rewrite group_bytes_cons, E1. cbn [length]. rewrite E2.
  split; [|done]. by rewrite (be_put_get_n 2 [a; b]).
Qed.

Lemma zero_run_spec l : take (zero_run l) l = repeat 0 (zero_run l) /\ (zero_run l <= length l)%nat.
Proof. induction l as [|[] l [IH1 IH2]]; simpl; try (split; [done|lia]). rewrite IH1. split; [done|lia]. Qed.

(** The bounds of a run of zeros, or the bounds for none. *)
Definition zeros_ok (l : list Z) (b : nat * nat) : Prop :=
  b = (255, 255)%nat \/
  exists k n l', (2 <= n)%nat /\ b = (k, k + n)%nat /\ l = take k l ++ repeat 0 n ++ l' /\ (k <= length l)%nat.

Lemma longest_zeros_ok pre l b : zeros_ok (pre ++ l) b -> zeros_ok (pre ++ l) (longest_zeros (length pre) l b).
Proof.
  revert pre b. induction l as [|v l IH]; intros pre b Hb; [done|]. cbn [longest_zeros].
  replace (S (length pre)) with (length (pre ++ [v])) by (rewrite length_app; simpl; lia).
  change (v :: l) with ([v] ++ l) in Hb |- *. rewrite (assoc_L (++)) in Hb |- *. apply IH.
  case_bool_decide as Hd; [|done]. right. change (([v] ++ l)) with (v :: l) in *.
  destruct (zero_run_spec (v :: l)) as [E1 E2].
  exists (length pre), (zero_run (v :: l)), (drop (zero_run (v :: l)) (v :: l)).
  split; [lia|]. split; [done|]. rewrite <- (assoc_L (++)). split; [|rewrite length_app; lia].
  rewrite take_app_length. f_equal. by rewrite <- E1, take_drop.
Qed.

(** The text: all groups, or those around the run of zeros. *)
Lemma string6_plain l k fuel zs ze : length l = 8%nat -> (zs < k \/ 8 <= zs)%nat -> (k <= 8)%nat -> (8 - k <= fuel)%nat ->
  string6_from fuel k zs ze l =
    (if (0 <? k)%nat && (k <? 8)%nat then ":" else "") +:+ join_groups (drop k l).
Proof.
  intros Hl. remember (8 - k)%nat as m eqn:Em. revert k fuel Em. induction m as [|m IH]; intros k fuel Em Hz Hk Hf.
  { assert (k = 8%nat) as -> by lia. rewrite drop_ge by lia. by destruct fuel. }
  destruct fuel as [|fuel]; [lia|]. cbn [string6_from].
  destruct (Nat.leb_spec 8 k); [lia|]. destruct (Nat.eqb_spec k zs); [lia|].
  destruct (Nat.leb_spec 8 k); [lia|]. destruct (Nat.ltb_spec k 8); [|lia]. rewrite andb_true_r. f_equal.
  rewrite IH by lia.
  destruct (lookup_lt_is_Some_2 l k) as [v Hv]; [lia|]. rewrite (drop_S _ _ _ Hv), (nth_lookup_Some _ _ _ _ Hv).
  destruct (Nat.ltb_spec 0 (S k)); [|lia]. destruct (Nat.ltb_spec (S k) 8) as [Hk8|Hk8]; cbn [andb].
  - destruct (drop (S k) l) as [|w r] eqn:E; [|done]. apply (f_equal length) in E. rewrite length_drop in E. simpl in E. lia.
  - rewrite (drop_ge l (S k)) by lia. cbn [join_groups append]. apply sapp_nil_r.
Qed.

Lemma string6_run l k fuel zs ze : length l = 8%nat -> (zs < ze <= 8)%nat -> (k <= zs)%nat -> (8 - k <= fuel)%nat ->
  string6_from fuel k zs ze l =
    (if (0 <? k)%nat && (k <? zs)%nat then ":" else "") +:+
    join_groups (take (zs - k) (drop k l)) +:+ String ":" (String ":" (join_groups (drop ze l))).
Proof.
  intros Hl Hz. remember (zs - k)%nat as m eqn:Em. revert k fuel Em. induction m as [|m IH]; intros k fuel Em Hk Hf.
  all: destruct fuel as [|fuel]; [lia|]; cbn [string6_from]; destruct (Nat.leb_spec 8 k); [lia|].
  - assert (k = zs) as -> by lia. rewrite Nat.eqb_refl. destruct (Nat.ltb_spec zs zs); [lia|]. rewrite andb_false_r.
    rewrite take_0. cbn [join_groups append]. do 2 f_equal. destruct (Nat.leb_spec 8 ze); [by rewrite (drop_ge l ze) by lia|].
    rewrite string6_plain by lia. destruct (lookup_lt_is_Some_2 l ze) as [v Hv]; [lia|].
    rewrite (drop_S _ _ _ Hv), (nth_lookup_Some _ _ _ _ Hv).
    destruct (Nat.ltb_spec (S ze) 8) as [Hk8|Hk8]; cbn [andb Nat.ltb Nat.leb].
    + destruct (drop (S ze) l) as [|w r] eqn:E; [|done]. apply (f_equal length) in E. rewrite length_drop in E. simpl in E. lia.
    + rewrite (drop_ge l (S ze)) by lia. cbn [join_groups append]. apply sapp_nil_r.
  - destruct (Nat.eqb_spec k zs); [lia|]. destruct (Nat.leb_spec 8 k); [lia|].
    destruct (Nat.ltb_spec k zs); [|lia]. rewrite andb_true_r. f_equal. rewrite IH by lia.
    destruct (lookup_lt_is_Some_2 l k) as [v Hv]; [lia|].
    rewrite (drop_S _ _ _ Hv), (nth_lookup_Some _ _ _ _ Hv), firstn_cons. destruct (Nat.ltb_spec (S k) zs); cbn [andb Nat.ltb Nat.leb].
    + destruct m as [|m]; [lia|]. destruct (lookup_lt_is_Some_2 l (S k)) as [w Hw]; [lia|].
      rewrite (drop_S _ _ _ Hw), firstn_cons, (join_groups_cons v) by done.
      by rewrite <- (sapp_assoc (hex_group v)).
    + assert (m = 0%nat) as -> by lia. by rewrite take_0.
Qed.

(** What the parser makes of the bytes that the loop has found. *)
Definition v6_finish (x : list byte * option nat * string) : option (list byte) :=
  let '(ip, ellipsis, rest) := x in
  if negb (String.eqb rest EmptyString) then None
  else if (length ip <? 16)%nat then
    k ← ellipsis; Some (take k ip ++ repeat x00 (16 - length ip) ++ drop k ip)
  else match ellipsis with Some _ => None | None => Some ip end.

Lemma parseIPv6_head c r : hex_value c <> None ->
  parseIPv6 (String c r) = v6_loop 8 [] None (String c r) ≫= v6_finish.
Proof. intros Hc. destruct c as [[] [] [] [] [] [] [] []]; try done; by destruct Hc. Qed.

Lemma v6_filled a n b : (2 <= n)%nat -> (length a + n + length b = 8)%nat ->
  v6_finish (group_bytes a ++ group_bytes b, Some (length (group_bytes a)), EmptyString) =
    Some (group_bytes (a ++ repeat 0 n ++ b)).
Proof.
  intros Hn Hl. simpl. rewrite length_app, !length_group_bytes.
  destruct (Nat.ltb_spec (2 * length a + 2 * length b) 16); [|lia].
  rewrite !group_bytes_app, group_bytes_zeros. rewrite <- (length_group_bytes a), take_app_length, drop_app_length.
  rewrite length_group_bytes. do 4 f_equal. lia.
Qed.

(** net.ParseIP reads the text of an address of version 6 back. *)
Lemma parseIPv6_string6 ip : length ip = 16%nat -> parseIPv6 (string6 ip) = Some ip.
Proof.
  intros Hip. destruct (groups_bytes 8 ip Hip) as [Eg El]. pose proof (groups_ok ip) as Hok.
  assert (Hz : zeros_ok (groups ip) (longest_zeros 0 (groups ip) (255, 255)%nat))
    by (apply (longest_zeros_ok []); by left).
  unfold string6. set (l := groups ip) in *. destruct Hz as [->|(k & n & l' & Hn & -> & E & Hk)].
  - rewrite string6_plain by lia. rewrite drop_0. cbn [Nat.ltb Nat.leb andb append].
    assert (Hne : l <> []) by (intros E; by rewrite E in El).
    destruct (join_groups_head l) as (c & r & Ej & Hc); [done|].
    rewrite Ej, parseIPv6_head, <- Ej, v6_loop_join by (try done; lia). cbn. rewrite Eg. by rewrite Hip.
  - assert (Hlen : (k + n + length l' = 8)%nat)
      by (rewrite <- El, E, !length_app, repeat_length, length_take; lia).
    assert (Ed : drop (k + n) l = l').
    { rewrite E at 1. rewrite (assoc_L (++)). apply drop_app_length'.
      rewrite length_app, repeat_length, length_take. lia. }
    rewrite string6_run by lia. rewrite Nat.sub_0_r, drop_0, Ed. cbn [Nat.ltb Nat.leb andb append].
    set (a := take k l) in *. assert (Ha : length a = k) by (unfold a; rewrite length_take; lia).
    assert (Hoa : Forall group_ok a /\ Forall group_ok l').
    { rewrite E in Hok. apply Forall_app in Hok as [? Hok]. by apply Forall_app in Hok as [_ ?]. }
    destruct Hoa as [Hoa Hob]. rewrite <- Eg, E. fold a.
    destruct (decide (a = [])) as [Ea|Ea].
    { rewrite Ea in *. cbn [join_groups append]. cbn [length] in Ha.
      destruct (decide (l' = [])) as [->|Hb].
      { cbn [join_groups app]. rewrite app_nil_r, group_bytes_zeros. by replace n with 8%nat by (simpl in Hlen; lia). }
      destruct (join_groups_head l') as (c & r & Ej & Hc); [done|]. rewrite Ej.
      unfold parseIPv6. rewrite <- Ej, v6_loop_join by (try done; lia).
      exact (v6_filled [] n l' Hn ltac:(simpl; lia)). }
    destruct (join_groups_head a) as (c & r & Ej & Hc); [done|].
    rewrite Ej. cbn [append]. rewrite parseIPv6_head by done.
    change (String c (r +:+ ?x)) with (String c r +:+ x). rewrite <- Ej.
    rewrite v6_loop_ellipsis by (try done; lia). cbv zeta. cbn [app].
    rewrite <- (v6_filled a n l') by lia.
    destruct (decide (l' = [])) as [->|Hb]; [cbn [join_groups]; unfold group_bytes at 3; simpl; by rewrite app_nil_r|].
    destruct (join_groups_head l') as (c' & r' & Ej' & Hc'); [done|]. rewrite Ej'. rewrite <- Ej'.
    rewrite v6_loop_join by (try done; lia). done.
Qed.

(** Digits and colons. *)
Fixpoint hex_text (s : string) : Prop :=
  match s with String c s => (hex_value c <> None \/ c = ":"%char) /\ hex_text s | EmptyString => True end.

Lemma hex_text_app a b : hex_text a -> hex_text b -> hex_text (a +:+ b).
Proof. induction a as [|c a IH]; [done|]. intros [Hc Ha] Hb. split; [done|]. by apply IH. Qed.

Lemma hex_text_group v : hex_text (hex_group v).
Proof.
  unfold hex_group. cbv zeta. repeat case_match; cbn [append hex_text];
    repeat split; left; by rewrite hex_value_digit by apply nibble.
Qed.

Lemma hex_text_join l : hex_text (join_groups l).
Proof.
  induction l as [|v l IH]; [done|]. destruct l as [|w l]; [apply hex_text_group|].
  rewrite join_groups_cons by done. apply hex_text_app; [apply hex_text_group|]. split; [by right|done].
Qed.

Lemma hex_text_sep s : hex_text s -> ~ free ":" s -> first_sep s = Some ":"%char /\ free "%" s.
Proof.
  induction s as [|c s IH]; [done|]. intros [Hc Hs] Hf. cbn [first_sep].
  assert (c <> "%"%char /\ c <> "."%char) as [Hp Hd] by (destruct Hc as [Hc| ->]; [|done]; split; intros ->; by apply Hc).
  destruct (decide (c = ":"%char)) as [->|Hne].
  - split; [done|]. split; [done|]. clear IH Hf. induction s as [|d s IH]; [done|]. destruct Hs as [Hc' Hs].
    split; [|by apply IH]. intros ->. by destruct Hc' as [Hc'|].
  - destruct IH as [E1 E2]; [done|intros H; by apply Hf|].
    assert (in_cutset ".:%" c = false) as ->; [|by split].
    clear -Hne Hp Hd. destruct c as [[] [] [] [] [] [] [] []]; try done.
Qed.

Lemma string6_text ip : length ip = 16%nat -> hex_text (string6 ip) /\ ~ free ":" (string6 ip).
Proof.
  intros Hip. destruct (groups_bytes 8 ip Hip) as [_ El].
  assert (Hz : zeros_ok (groups ip) (longest_zeros 0 (groups ip) (255, 255)%nat))
    by (apply (longest_zeros_ok []); by left).
  unfold string6. set (l := groups ip) in *. destruct Hz as [->|(k & n & l' & Hn & -> & E & Hk)].
  - rewrite string6_plain by lia. rewrite drop_0. cbn [Nat.ltb Nat.leb andb append].
    split; [apply hex_text_join|]. destruct l as [|v [|w l]]; try done. rewrite join_groups_cons by done.
    intros [_ [H _]]%free_app. done.
  - assert (Hlen : (k + n + length l' = 8)%nat)
      by (rewrite <- El, E, !length_app, repeat_length, length_take; lia).
    rewrite string6_run by lia. cbn [Nat.ltb Nat.leb andb append]. split.
    + apply hex_text_app; [apply hex_text_join|]. split; [by right|]. split; [by right|apply hex_text_join].
    + intros [_ [H _]]%free_app. done.
Qed.

Lemma ParseIP_string6 ip : length ip = 16%nat -> ParseIP (string6 ip) = Some ip.
Proof.
  intros Hip. destruct (string6_text ip Hip) as [Ht Hf]. destruct (hex_text_sep _ Ht Hf) as [E1 E2].
  unfold ParseIP. rewrite E1. rewrite (proj2 (ContainsByte_free _ _)) by done. by apply parseIPv6_string6.
Qed.

(** The text of an address is read back as its long form. *)
Lemma ParseIP_String ip : length ip = 4%nat \/ length ip = 16%nat -> ParseIP (IP_String ip) = To16 ip.
Proof.
  intros Hip. destruct (To4 ip) as [ip4|] eqn:E.
  - rewrite (IP_String_To4 _ _ E), ParseIP_string4 by (by eapply To4_length). revert E. unfold To4, To16.
    destruct (decide (length ip = 4%nat)); [by intros [= ->]|]. destruct (decide _) as [[H16 Hp]|]; [|done].
    intros [= <-]. rewrite decide_True by done. by rewrite <- Hp, take_drop.
  - assert (length ip = 16%nat) as H16 by (destruct Hip; [|done]; unfold To4 in E; by rewrite decide_True in E).
    unfold IP_String. rewrite E. destruct ip as [|b ip]; [done|]. rewrite decide_True by done.
    rewrite ParseIP_string6 by done. unfold To16. by rewrite decide_False, decide_True by (rewrite ?H16; done).
Qed.

(** ParseIP gives 16 bytes. *)
Lemma parseIPv4_length s ip : parseIPv4 s = Some ip -> length ip = 4%nat.
Proof. unfold parseIPv4. repeat case_match; try done. by intros [= <-]. Qed.

Lemma v6_loop_length fuel ip e s ip' e' s' :
  v6_loop fuel ip e s = Some (ip', e', s') -> (length ip' <= Nat.max 16 (length ip + 2 * fuel))%nat.
Proof.
  revert ip e s. induction fuel as [|fuel IH]; intros ip e s; cbn [v6_loop]; [intros [= <- _ _]; lia|].
  destruct (scan_group s 0 0) as [[acc off] rest]. destruct (_ || _); [done|]. cbv zeta.
  assert (Hl : length (ip ++ be_put 2 acc) = (length ip + 2)%nat) by (by rewrite length_app, length_be_put).
  assert (Hend : forall (e1 : option nat), Some (ip ++ be_put 2 acc, e1, EmptyString) = Some (ip', e', s') ->
    (length ip' <= Nat.max 16 (length ip + 2 * S fuel))%nat) by (intros e1 E; assert (ip' = ip ++ be_put 2 acc) as -> by congruence; lia).
  assert (Hgo : forall e1 r, v6_loop fuel (ip ++ be_put 2 acc) e1 r = Some (ip', e', s') ->
    (length ip' <= Nat.max 16 (length ip + 2 * S fuel))%nat) by (intros e1 r H%IH; lia).
  assert (H4 : (if bool_decide (e = None) && negb (length ip =? 12)%nat then None
      else if (16 <? length ip + 4)%nat then None
      else ip4 ← parseIPv4 s; Some (ip ++ ip4, e, EmptyString)) = Some (ip', e', s') ->
    (length ip' <= Nat.max 16 (length ip + 2 * S fuel))%nat).
  { destruct (_ && _); [done|]. destruct (Nat.ltb_spec 16 (length ip + 4)); [done|].
    destruct (parseIPv4 s) as [ip4|] eqn:E; [|done]. intros [= <- _ _]. apply parseIPv4_length in E.
    rewrite length_app. lia. }
  clear IH. repeat case_match; subst; try done; eauto.
Qed.

Lemma v6_finish_length x ip : v6_finish x = Some ip -> (length x.1.1 <= 16)%nat ->
  (forall k, x.1.2 = Some k -> (k <= length x.1.1)%nat) -> length ip = 16%nat.
Proof.
  destruct x as [[i e] r]. cbn [v6_finish fst snd]. intros H Hl Hk. destruct (String.eqb r EmptyString); [|done].
  cbn [negb] in H. destruct (Nat.ltb_spec (length i) 16) as [Hi|Hi]; destruct e as [k|]; try done;
    [|injection H as <-; lia].
  simpl in H. injection H as <-. specialize (Hk k eq_refl). rewrite !length_app, repeat_length, length_take, length_drop. lia.
Qed.

Lemma v6_loop_ellipsis_in fuel ip e s ip' e' s' :
  v6_loop fuel ip e s = Some (ip', e', s') -> (forall k, e = Some k -> (k <= length ip)%nat) ->
  forall k, e' = Some k -> (k <= length ip')%nat.
Proof.
  revert ip e s. induction fuel as [|fuel IH]; intros ip e s; cbn [v6_loop]; [by intros [= <- <- _]|].
  destruct (scan_group s 0 0) as [[acc off] rest]. destruct (_ || _); [done|]. cbv zeta. intros H He.
  assert (He' : forall k, e = Some k -> (k <= length (ip ++ be_put 2 acc))%nat)
    by (intros k Hk%He; rewrite length_app; lia).
  assert (Hn : forall k, Some (length (ip ++ be_put 2 acc)) = Some k -> (k <= length (ip ++ be_put 2 acc))%nat)
    by (intros k Ek; assert (k = length (ip ++ be_put 2 acc)) as -> by congruence; lia).
  assert (H4 : (if bool_decide (e = None) && negb (length ip =? 12)%nat then None
      else if (16 <? length ip + 4)%nat then None
      else ip4 ← parseIPv4 s; Some (ip ++ ip4, e, EmptyString)) = Some (ip', e', s') ->
    forall k, e' = Some k -> (k <= length ip')%nat).
  { destruct (_ && _); [done|]. destruct (16 <? _)%nat; [done|]. destruct (parseIPv4 s); [|done].
    intros [= <- <- _] k Hk%He. rewrite length_app. lia. }
  assert (Hend : forall e1 r, (forall k, e1 = Some k -> (k <= length (ip ++ be_put 2 acc))%nat) ->
    Some (ip ++ be_put 2 acc, e1, r) = Some (ip', e', s') -> forall k, e' = Some k -> (k <= length ip')%nat)
    by (intros e1 r H1 E; assert (ip' = ip ++ be_put 2 acc /\ e' = e1) as [-> ->] by (split; congruence); done).
  revert H. set (ip1 := ip ++ be_put 2 acc) in *. clearbody ip1.
  repeat case_match; try done; eauto.
Qed.

#[local] Opaque v6_loop.
Lemma parseIPv6_length s ip : parseIPv6 s = Some ip -> length ip = 16%nat.
Proof.
  assert (Hl : forall e s, (e = None \/ e = Some 0%nat) -> v6_loop 8 [] e s ≫= v6_finish = Some ip -> length ip = 16%nat).
  { clear s. intros e s He H. destruct (v6_loop 8 [] e s) as [x|] eqn:E; [|done].
    change (v6_finish x = Some ip) in H. destruct x as [[i k] r]. pose proof (v6_loop_length _ _ _ _ _ _ _ E) as H1.
    apply (v6_finish_length _ _ H); cbn [fst snd length] in *; [lia|].
    apply (v6_loop_ellipsis_in _ _ _ _ _ _ _ E). destruct He as [->| ->]; [done|]. intros k' [= <-]. lia. }
  intros H. destruct s as [|c s]; [by apply (Hl None ""); [left|]|].
  destruct (decide (c = ":"%char)) as [->|Hc].
  - destruct s as [|d s]; [by apply (Hl None ":"); [left|]|]. destruct (decide (d = ":"%char)) as [->|Hd].
    + destruct s as [|f s]; [by injection H as <-|]. apply (Hl (Some 0%nat) (String f s)); [by right|exact H].
    + apply (Hl None (String ":" (String d s))); [by left|].
      destruct d as [[] [] [] [] [] [] [] []]; try exact H. by destruct Hd.
  - apply (Hl None (String c s)); [by left|]. destruct c as [[] [] [] [] [] [] [] []]; try exact H. by destruct Hc.
Qed.
#[local] Transparent v6_loop.

Lemma ParseIP_length s ip : ParseIP s = Some ip -> length ip = 16%nat.
Proof.
  assert (H4 : (ip4 ← parseIPv4 s; Some (v4InV6Prefix ++ ip4)) = Some ip -> length ip = 16%nat).
  { destruct (parseIPv4 s) as [ip4|] eqn:E; [|done]. intros [= <-]. apply parseIPv4_length in E.
    simpl. by rewrite E. }
  assert (H6 : (if ContainsByte s "%" then None else parseIPv6 s) = Some ip -> length ip = 16%nat)
    by (destruct (ContainsByte s "%"); [done|apply parseIPv6_length]).
  unfold ParseIP. destruct (first_sep s) as [c|]; [|done]. destruct c as [[] [] [] [] [] [] [] []]; done || exact H4 || exact H6.
Qed.

(** Characters that the text of an address does not have. *)
Lemma hex_text_free c s : hex_text s -> hex_value c = None -> c <> ":"%char -> free c s.
Proof.
  intros Hs Hc Hn. induction s as [|d s IH]; [done|]. destruct Hs as [Hd Hs]. split; [|by apply IH].
  intros ->. by destruct Hd as [Hd|].
Qed.

Lemma string4_free c ip : length ip = 4%nat -> digit c = None -> c <> "-"%char -> c <> "."%char -> free c (string4 ip).
Proof.
  intros Hip Hc Hm Hd. destruct ip as [|x [|y [|z [|v [|]]]]]; try done. rewrite string4_cons.
  assert (H : forall b s, free c s -> free c (Itoa (byte_to_Z b) +:+ String "." s)).
  { intros b s Hs. apply free_app. split; [by apply octet_free|]. split; [congruence|done]. }
  apply H, H, H. by apply octet_free.
Qed.
