(* ===== verification/Socks5.v ===== *)
(** The local SOCKS5 service and its UDP relay: proxy/socks5/server.go.

    A datagram from a client carries a SOCKS header, the address it is for.  serveUDP opens one
    socket for each client, sends the payload from it, and packs what arrives on the socket with
    the address of its sender for the client.  The steps of its loop and of the goroutines that
    read the sockets are the events of a state machine; the resolver, and whether a socket can be
    opened, are the environment's.  The TCP side of the service is the library go-socks5. *)

From S2P Require Import Prelude GoLib GoNet.
From Stdlib Require Import ZArith Lia Strings.Byte Strings.String Strings.Ascii.
From stdpp Require Import gmap list strings.

#[local] Open Scope string_scope.
#[local] Open Scope Z_scope.
#[local] Open Scope list_scope.

(** [p[i]] and [p[i:j]], which panic out of bounds. *)
Definition index (p : list byte) (i : Z) : result byte :=
  match (if i <? 0 then None else p !! Z.to_nat i) with
  | Some b => Ok b
  | None => Panic "index out of range"
  end.

Definition slice_bytes (p : list byte) (i j : Z) : result (list byte) :=
  if decide (0 <= i <= j /\ j <= len p) then Ok (sub p (Z.to_nat i) (Z.to_nat j))
  else Panic "slice bounds out of range".

(** ** Headers *)

Definition parseSocksUDP (p : list byte) : result (string * Z * list byte) :=
  if len p <? 4 then Err ErrUnexpectedEOF
  else
    frag ← index p 2;
    if negb (byte_to_Z frag =? 0) then Err ErrUnexpectedEOF
    else
      atyp ← index p 3;
      '(host, off) ←
        (if byte_to_Z atyp =? 1 then
           if len p <? 4 + 6 then Err ErrUnexpectedEOF
           else ip ← slice_bytes p 4 8; Ok (IP_String ip, 8)
         else if byte_to_Z atyp =? 3 then
           if len p <? 4 + 1 then Err ErrUnexpectedEOF
           else
             l ← index p 4;
             let l := byte_to_Z l in
             if len p <? 5 + l + 2 then Err ErrUnexpectedEOF
             else h ← slice_bytes p 5 (5 + l); Ok (string_of h, 5 + l)
         else if byte_to_Z atyp =? 4 then
           if len p <? 4 + 18 then Err ErrUnexpectedEOF
           else ip ← slice_bytes p 4 20; Ok (IP_String ip, 20)
         else Err ErrUnexpectedEOF);
      port ← slice_bytes p off (off + 2);
      payload ← slice_bytes p (off + 2) (len p);
      Ok (host, be_get port, payload).

(** [copy] of an address into a field of [n] zero bytes. *)
Definition copy_into (n : nat) (ip : option IP) : list byte :=
  let ip := take n (default [] ip) in ip ++ repeat x00%byte (n - length ip).

Definition packSocksUDP (raddr : UDPAddr) (payload : list byte) : list byte :=
  match To4 (uIP raddr) with
  | Some ip4 => [x00; x00; x00; x01]%byte ++ copy_into 4 (Some ip4) ++ PutUint16 (u16 (uPort raddr)) ++ payload
  | None => [x00; x00; x00; x04]%byte ++ copy_into 16 (To16 (uIP raddr)) ++ PutUint16 (u16 (uPort raddr)) ++ payload
  end.

(** ** The relay *)

(** [conns] by the text of the client's address; the client that each socket was opened for; and
    what was sent: payloads from a socket, packed datagrams to a client. *)
Record relay := MkRelay {
  conns : gmap string nat; clients : list UDPAddr;
  sent : list (nat * UDPAddr * list byte); answers : list (UDPAddr * list byte)
}.

Definition newRelay : relay := MkRelay ∅ [] [] [].

Inductive event : Type :=
  | Recv (p : list byte) (from : UDPAddr) (can_listen : bool)
  | Reply (sock : nat) (raddr : UDPAddr) (data : list byte).

Section Relay.
Context (lookup : string -> option IP).

(** The socket of a client, opened if there is none. *)
Definition client_socket (from : UDPAddr) (can_listen : bool) (w : relay) : option nat * relay :=
  let key := UDPAddr_String from in
  match conns w !! key with
  | Some s => (Some s, w)
  | None =>
      if can_listen then
        let s := length (clients w) in
        (Some s, MkRelay (<[key := s]> (conns w)) (clients w ++ [from]) (sent w) (answers w))
      else (None, w)
  end.

(** A turn of the loop of serveUDP. *)
Definition serve_datagram (p : list byte) (from : UDPAddr) (can_listen : bool) (w : relay) : result relay :=
  if len p <? 10 then Ok w
  else match parseSocksUDP p with
       | Ok (host, port, payload) =>
           match ResolveUDPAddr lookup (JoinHostPort host (Itoa port)) with
           | Ok dst =>
               match client_socket from can_listen w with
               | (Some s, w) =>
                   Ok (MkRelay (conns w) (clients w) (sent w ++ [(s, dst, payload)]) (answers w))
               | (None, w) => Ok w
               end
           | Err _ => Ok w
           | Panic m => Panic m
           | OutOfFuel => OutOfFuel
           end
       | Err _ => Ok w
       | Panic m => Panic m
       | OutOfFuel => OutOfFuel
       end.

(** A datagram for the goroutine of a socket. *)
Definition serve_reply (s : nat) (raddr : UDPAddr) (data : list byte) (w : relay) : relay :=
  match clients w !! s with
  | Some client => MkRelay (conns w) (clients w) (sent w) (answers w ++ [(client, packSocksUDP raddr data)])
  | None => w
  end.

Definition serve_event (e : event) (w : relay) : result relay :=
  match e with
  | Recv p from ok => serve_datagram p from ok w
  | Reply s raddr data => Ok (serve_reply s raddr data w)
  end.

Fixpoint serveUDP (es : list event) (w : relay) : result relay :=
  match es with
  | [] => Ok w
  | e :: es => w ← serve_event e w; serveUDP es w
  end.
End Relay.

(** ** The service *)

(** What Serve starts on its address: the TCP side of go-socks5, with its credentials and bind
    address, and the UDP relay, if the UDP port of the same number is free. *)
Record service := MkService {
  credentials : option (string * string); bind_ip : option IP; udp_relay : bool
}.

(** Serve: [listen] gives the address that is bound; [ResolveUDP] and [listenUDP] tell whether the
    UDP address is understood and can be bound. *)
Definition Serve (listen : string -> result string) (ResolveUDP listenUDP : string -> bool)
    (addr user pass : string) : result (string * service) :=
  bound ← listen addr;
  Ok (bound, MkService
    (if negb (String.eqb user "") || negb (String.eqb pass "") then Some (user, pass) else None)
    (match SplitHostPort bound with
     | Ok (host, _) => Some (default (v4InV6Prefix ++ [x7f; x00; x00; x01]%byte) (ParseIP host))
     | _ => None
     end)
    (ResolveUDP bound && listenUDP bound)).

(** ** Requests *)

(** The addresses of a SOCKS request, and its encoding (RFC 1928, section 7). *)
Inductive socks_addr : Type := A4 (ip : list byte) | ADomain (name : list byte) | A6 (ip : list byte).

Definition addr_ok (a : socks_addr) : Prop :=
  match a with
  | A4 ip => length ip = 4%nat
  | ADomain name => (length name < 256)%nat
  | A6 ip => length ip = 16%nat
  end.

Definition addr_bytes (a : socks_addr) : list byte :=
  match a with
  | A4 ip => x01%byte :: ip
  | ADomain name => x03%byte :: byte_of_Z (len name) :: name
  | A6 ip => x04%byte :: ip
  end.

Definition addr_host (a : socks_addr) : string :=
  match a with A4 ip | A6 ip => IP_String ip | ADomain name => string_of name end.

Definition udp_request (r0 r1 : byte) (a : socks_addr) (port : Z) (payload : list byte) : list byte :=
  [r0; r1; x00%byte] ++ addr_bytes a ++ PutUint16 port ++ payload.

(** The TCP side (sections 3 and 4): the greeting of a client, and its request. *)
Definition greeting (methods : list byte) : list byte := [x05; byte_of_Z (len methods)]%byte ++ methods.
Definition dest_bytes (a : socks_addr) (port : Z) : list byte := addr_bytes a ++ PutUint16 port.
Definition tcp_request (cmd rsv : byte) (a : socks_addr) (port : Z) : list byte :=
  [x05; cmd; rsv]%byte ++ dest_bytes a port.

Lemma byte_eqb_eq a b : Byte.eqb a b = true -> a = b.
Proof. apply Byte.byte_dec_bl. Qed.

Lemma nbyte_eqb a b : negb (Byte.eqb a b) = false -> a = b.
Proof. intros H%negb_false_iff. by apply byte_eqb_eq. Qed.

Lemma index_app a b l i : i = len a -> index (a ++ b :: l) i = Ok b.
Proof.
  intros ->. unfold index, len. rewrite (proj2 (Z.ltb_ge _ _)) by lia.
  by rewrite Nat2Z.id, list_lookup_middle.
Qed.

Lemma slice_app a m l i j : i = len a -> j = len a + len m -> slice_bytes (a ++ m ++ l) i j = Ok m.
Proof.
  intros -> ->. unfold slice_bytes, len. rewrite decide_True by (rewrite !length_app; lia).
  unfold sub. f_equal. rewrite Nat2Z.id, drop_app_length.
  replace (Z.to_nat _ - length a)%nat with (length m) by lia. apply take_app_length.
Qed.

Lemma slice_tail a m i : i = len a -> slice_bytes (a ++ m) i (len (a ++ m)) = Ok m.
Proof.
  intros ->. rewrite <- (app_nil_r m) at 1. apply slice_app; [done|]. unfold len. rewrite length_app. lia.
Qed.

Lemma len_put16 v : len (PutUint16 v) = 2.
Proof. by rewrite len_be_put. Qed.

(** The end of the parser: the port and the payload. *)
Lemma parse_tail a host port payload i : i = len a ->
  (pt ← slice_bytes (a ++ PutUint16 port ++ payload) i (i + 2);
   pl ← slice_bytes (a ++ PutUint16 port ++ payload) (i + 2) (len (a ++ PutUint16 port ++ payload));
   Ok (host : string, be_get pt, pl)) = Ok (host, u16 port, payload).
Proof.
  intros ->. rewrite (slice_app a (PutUint16 port) payload (len a) (len a + 2)) by (by rewrite ?len_put16).
  cbn [mbind result_bind].
  rewrite app_assoc, slice_tail by (by rewrite len_app, len_put16). cbn [mbind result_bind].
  by rewrite be_get_put16.
Qed.

Lemma len_request r0 r1 a port payload :
  len (udp_request r0 r1 a port payload) = 3 + len (addr_bytes a) + 2 + len payload.
Proof. unfold udp_request. rewrite !len_app, len_put16. change (len [r0; r1; x00%byte]) with 3. lia. Qed.

Lemma parse_request r0 r1 a port payload :
  addr_ok a -> parseSocksUDP (udp_request r0 r1 a port payload) = Ok (addr_host a, u16 port, payload).
Proof.
  intros Ha. pose proof (len_request r0 r1 a port payload) as Hl. unfold parseSocksUDP.
  assert (0 <= len payload) by (unfold len; lia).
  rewrite (proj2 (Z.ltb_ge _ _)) by (rewrite Hl; destruct a; cbn; unfold len; simpl; lia).
  change (index (udp_request r0 r1 a port payload) 2) with (Ok x00%byte). cbn [mbind result_bind].
  change (negb (byte_to_Z x00 =? 0)) with false. cbv iota.
  destruct a as [ip|name|ip]; simpl in Ha.
  - change (index (udp_request r0 r1 (A4 ip) port payload) 3) with (Ok x01%byte). cbn [mbind result_bind].
    change (byte_to_Z x01 =? 1) with true. cbv iota.
    assert (len ip = 4) as Hi by (unfold len; lia).
    rewrite (proj2 (Z.ltb_ge _ _)) by (rewrite Hl; cbn [addr_bytes]; rewrite len_cons; lia).
    change (udp_request r0 r1 (A4 ip) port payload) with ([r0; r1; x00; x01]%byte ++ ip ++ PutUint16 port ++ payload).
    rewrite slice_app by (done || (rewrite Hi; done)). cbn [mbind result_bind].
    rewrite (app_assoc _ ip). apply parse_tail. rewrite len_app, Hi. done.
  - change (index (udp_request r0 r1 (ADomain name) port payload) 3) with (Ok x03%byte). cbn [mbind result_bind].
    change (byte_to_Z x03 =? 1) with false. change (byte_to_Z x03 =? 3) with true. cbv iota.
    assert (0 <= len name < 256) as Hn by (unfold len; lia).
    assert (byte_to_Z (byte_of_Z (len name)) = len name) as Hb by (by apply byte_to_of_Z_small).
    cbn [addr_bytes] in Hl. rewrite !len_cons in Hl.
    rewrite (proj2 (Z.ltb_ge _ _)) by lia.
    change (index (udp_request r0 r1 (ADomain name) port payload) 4) with (Ok (byte_of_Z (len name))).
    cbn [mbind result_bind]. rewrite Hb, (proj2 (Z.ltb_ge _ _)) by lia.
    change (udp_request r0 r1 (ADomain name) port payload)
      with ([r0; r1; x00; x03; byte_of_Z (len name)]%byte ++ name ++ PutUint16 port ++ payload).
    rewrite slice_app by done. cbn [mbind result_bind].
    rewrite (app_assoc _ name). apply parse_tail. by rewrite len_app.
  - change (index (udp_request r0 r1 (A6 ip) port payload) 3) with (Ok x04%byte). cbn [mbind result_bind].
    change (byte_to_Z x04 =? 1) with false. change (byte_to_Z x04 =? 3) with false.
    change (byte_to_Z x04 =? 4) with true. cbv iota.
    assert (len ip = 16) as Hi by (unfold len; lia).
    rewrite (proj2 (Z.ltb_ge _ _)) by (rewrite Hl; cbn [addr_bytes]; rewrite len_cons; lia).
    change (udp_request r0 r1 (A6 ip) port payload) with ([r0; r1; x00; x04]%byte ++ ip ++ PutUint16 port ++ payload).
    rewrite slice_app by (done || (rewrite Hi; done)). cbn [mbind result_bind].
    rewrite (app_assoc _ ip). apply parse_tail. rewrite len_app, Hi. done.
Qed.

Lemma split_request n rest :
  (n + 2 <= length rest)%nat ->
  exists ip port payload, rest = ip ++ PutUint16 port ++ payload /\ length ip = n /\ 0 <= port < 65536.
Proof.
  intros Hn. exists (take n rest), (be_get (take 2 (drop n rest))), (drop 2 (drop n rest)).
  assert (length (take 2 (drop n rest)) = 2%nat) as H2 by (rewrite length_take, length_drop; lia).
  split; [by rewrite be_put_get_n, take_drop, take_drop|].
  split; [rewrite length_take; lia|].
  pose proof (be_get_range (take 2 (drop n rest))) as Hr. unfold len in Hr. by rewrite H2 in Hr.
Qed.

(** Every input is a request or is refused; in particular no input panics. *)
Lemma parse_cases p :
  parseSocksUDP p = Err ErrUnexpectedEOF \/
  exists r0 r1 a port payload, addr_ok a /\ 0 <= port < 65536 /\ p = udp_request r0 r1 a port payload.
Proof.
  destruct p as [|r0 [|r1 [|f [|t rest]]]]; [by left..|].
  unfold parseSocksUDP.
  rewrite (proj2 (Z.ltb_ge _ _)) by (rewrite !len_cons; unfold len; lia).
  change (index (r0 :: r1 :: f :: t :: rest) 2) with (Ok f).
  change (index (r0 :: r1 :: f :: t :: rest) 3) with (Ok t). cbn [mbind result_bind].
  destruct (Z.eqb_spec (byte_to_Z f) 0) as [Hf|]; [|by left].
  assert (f = x00%byte) as -> by (by apply byte_to_Z_inj). cbn [negb].
  rewrite !len_cons.
  destruct (Z.eqb_spec (byte_to_Z t) 1) as [Ht|_].
  { assert (t = x01%byte) as -> by (by apply byte_to_Z_inj).
    case_match eqn:El; [by left|]. apply Z.ltb_ge in El. right.
    destruct (split_request 4 rest) as (ip & port & payload & -> & Hip & Hp); [unfold len in El; lia|].
    by exists r0, r1, (A4 ip), port, payload. }
  destruct (Z.eqb_spec (byte_to_Z t) 3) as [Ht|_].
  { assert (t = x03%byte) as -> by (by apply byte_to_Z_inj).
    case_match eqn:El; [by left|]. destruct rest as [|l rest]; [done|].
    change (index (r0 :: r1 :: x00%byte :: x03%byte :: l :: rest) 4) with (Ok l). cbn [mbind result_bind].
    case_match eqn:El'; [by left|]. apply Z.ltb_ge in El'. right. rewrite len_cons in El'.
    pose proof (byte_to_Z_range l) as Hl.
    destruct (split_request (Z.to_nat (byte_to_Z l)) rest) as (name & port & payload & -> & Hn & Hp);
      [unfold len in El'; lia|].
    exists r0, r1, (ADomain name), port, payload. split; [simpl; lia|]. split; [done|].
    unfold udp_request. simpl. repeat f_equal. unfold len. rewrite Hn, Z2Nat.id by lia. by rewrite byte_of_to_Z. }
  destruct (Z.eqb_spec (byte_to_Z t) 4) as [Ht|_]; [|by left].
  assert (t = x04%byte) as -> by (by apply byte_to_Z_inj).
  case_match eqn:El; [by left|]. apply Z.ltb_ge in El. right.
  destruct (split_request 16 rest) as (ip & port & payload & -> & Hip & Hp); [unfold len in El; lia|].
  by exists r0, r1, (A6 ip), port, payload.
Qed.

(** ** Replies *)

Lemma pack_request raddr payload :
  length (uIP raddr) = 4%nat \/ length (uIP raddr) = 16%nat ->
  exists a, addr_ok a /\ addr_host a = IP_String (uIP raddr) /\
    packSocksUDP raddr payload = udp_request x00 x00 a (u16 (uPort raddr)) payload.
Proof.
  intros Hip. unfold packSocksUDP. destruct (To4 (uIP raddr)) as [ip4|] eqn:E.
  - pose proof (To4_length _ _ E) as Hl. exists (A4 ip4). split; [done|]. split.
    + simpl. rewrite (IP_String_To4 _ ip4 E). apply IP_String_To4. unfold To4. by rewrite decide_True.
    + unfold copy_into. simpl default. rewrite take_ge by lia. rewrite Hl. simpl. by rewrite app_nil_r.
  - assert (length (uIP raddr) = 16%nat) as H16.
    { destruct Hip as [H|]; [|done]. unfold To4 in E. by rewrite decide_True in E. }
    exists (A6 (uIP raddr)). split; [done|]. split; [done|].
    unfold copy_into, To16. rewrite decide_False, decide_True by lia. simpl default.
    rewrite take_ge by lia. rewrite H16. simpl. by rewrite app_nil_r.
Qed.

(** ** The relay, event by event *)

Record relay_ok (w : relay) : Prop := {
  ro_conns : forall k s, conns w !! k = Some s ->
    exists c, clients w !! s = Some c /\ UDPAddr_String c = k;
  ro_clients : forall s c, clients w !! s = Some c -> conns w !! UDPAddr_String c = Some s
}.

Section Facts.
Context (lookup : string -> option IP).

(** Opening the socket of a client: the others keep theirs. *)
Lemma client_socket_spec from ok w o w' :
  relay_ok w -> client_socket from ok w = (o, w') ->
  relay_ok w' /\ sent w' = sent w /\ answers w' = answers w /\
  clients w `prefix_of` clients w' /\
  match o with Some s => conns w' !! UDPAddr_String from = Some s | None => ok = false end.
Proof.
  intros [H1 H2]. unfold client_socket. destruct (conns w !! UDPAddr_String from) as [s|] eqn:E.
  { intros [= <- <-]. by split_and!. }
  destruct ok; intros [= <- <-]; [|by split_and!].
  split_and!; [|done|done|by apply prefix_app_r|by simpl; rewrite lookup_insert_eq].
  split; simpl.
  - intros k s. destruct (decide (UDPAddr_String from = k)) as [<-|Hne].
    + rewrite lookup_insert_eq. intros [= <-]. exists from. by rewrite list_lookup_middle.
    + rewrite lookup_insert_ne by done. intros (c & Hc & Hk)%H1. exists c. split; [|done].
      by apply lookup_app_l_Some.
  - intros s c [Hc|[Hs Hc]]%lookup_app_Some.
    + rewrite lookup_insert_ne; [by apply H2|]. intros Hk. apply H2 in Hc. congruence.
    + apply list_lookup_singleton_Some in Hc as [Hs' <-].
      rewrite lookup_insert_eq. f_equal. lia.
Qed.

Lemma SplitHostPort_total s : (exists v, SplitHostPort s = Ok v) \/ exists e, SplitHostPort s = Err e.
Proof. unfold SplitHostPort. repeat case_match; eauto. Qed.

Lemma ResolveUDPAddr_total s :
  (exists v, ResolveUDPAddr lookup s = Ok v) \/ exists e, ResolveUDPAddr lookup s = Err e.
Proof.
  unfold ResolveUDPAddr. destruct (SplitHostPort_total s) as [[[h p] ->]|[e ->]]; cbn [mbind result_bind]; [|by eauto].
  repeat case_match; eauto.
Qed.

Lemma parse_total p :
  (exists h port payload, parseSocksUDP p = Ok (h, port, payload)) \/ parseSocksUDP p = Err ErrUnexpectedEOF.
Proof.
  destruct (parse_cases p) as [|(r0 & r1 & a & port & payload & Ha & _ & ->)]; [by right|left].
  eexists _, _, _. by apply parse_request.
Qed.

(** What a turn of the loop does. *)
Lemma serve_datagram_spec p from ok w :
  relay_ok w ->
  exists w', serve_datagram lookup p from ok w = Ok w' /\ relay_ok w' /\ answers w' = answers w /\
    clients w `prefix_of` clients w' /\
    (sent w' = sent w \/
     exists s host port payload dst, sent w' = sent w ++ [(s, dst, payload)] /\
       conns w' !! UDPAddr_String from = Some s /\ parseSocksUDP p = Ok (host, port, payload) /\
       ResolveUDPAddr lookup (JoinHostPort host (Itoa port)) = Ok dst).
Proof.
  intros Hw. unfold serve_datagram. destruct (len p <? 10).
  { exists w. split_and!; try done. by left. }
  destruct (parse_total p) as [(h & port & payload & ->)| ->]; [|exists w; split_and!; try done; by left].
  destruct (ResolveUDPAddr_total (JoinHostPort h (Itoa port))) as [[dst E]|[e E]]; rewrite E;
    [|exists w; split_and!; try done; by left].
  destruct (client_socket from ok w) as [[s|] w1] eqn:Ec;
    apply client_socket_spec in Ec as ([Hc1 Hc2] & H2 & H3 & H4 & H5); try done.
  - eexists. split; [done|]. split; [by split|]. split; [done|]. split; [done|]. right.
    exists s, h, port, payload, dst. simpl. by rewrite H2.
  - exists w1. split_and!; try done. by left.
Qed.
End Facts.

(** C28: The UDP header codec is exact: every input that parses is a request of RFC 1928 without
    fragmentation, and gives its host, port and payload; every other input is refused; no input
    makes the parser panic. *)
Theorem Socks_header_exact p :
  match parseSocksUDP p with
  | Ok (host, port, payload) =>
      exists r0 r1 a, addr_ok a /\ 0 <= port < 65536 /\ p = udp_request r0 r1 a port payload /\ host = addr_host a
  | Err _ => forall r0 r1 a port payload, addr_ok a -> p <> udp_request r0 r1 a port payload
  | _ => False
  end.
Proof.
  destruct (parse_cases p) as [E|(r0 & r1 & a & port & payload & Ha & Hp & E)].
  - rewrite E. intros r0 r1 a port payload Ha ->. by rewrite parse_request in E.
  - rewrite E, parse_request by done. exists r0, r1, a.
    unfold u16. rewrite Z.mod_small by lia. done.
Qed.

(** A reply tells the client who sent it: a packed datagram parses to the address and the port
    it was received from, and to its data. *)
Theorem Socks_reply raddr data :
  length (uIP raddr) = 4%nat \/ length (uIP raddr) = 16%nat -> 0 <= uPort raddr < 65536 ->
  parseSocksUDP (packSocksUDP raddr data) = Ok (IP_String (uIP raddr), uPort raddr, data).
Proof.
  intros Hip Hp. destruct (pack_request raddr data Hip) as (a & Ha & Hh & ->).
  rewrite parse_request, Hh by done. unfold u16. by rewrite !Z.mod_small by (rewrite ?Z.mod_small; lia).
Qed.

(** What a relay has done is justified by its events. *)
Record relay_log (lookup : string -> option IP) (es : list event) (w : relay) : Prop := {
  rl_sent : forall s dst payload, (s, dst, payload) ∈ sent w ->
    exists c p from ok host port, clients w !! s = Some c /\ Recv p from ok ∈ es /\
      UDPAddr_String from = UDPAddr_String c /\ parseSocksUDP p = Ok (host, port, payload) /\
      ResolveUDPAddr lookup (JoinHostPort host (Itoa port)) = Ok dst;
  rl_answers : forall c d, (c, d) ∈ answers w ->
    exists s raddr data, clients w !! s = Some c /\ Reply s raddr data ∈ es /\ d = packSocksUDP raddr data
}.

Lemma relay_log_event lookup es e w :
  relay_ok w -> relay_log lookup es w ->
  exists w', serve_event lookup e w = Ok w' /\ relay_ok w' /\ relay_log lookup (es ++ [e]) w'.
Proof.
  intros Hw [Hs Ha]. destruct e as [p from ok|s raddr data]; simpl.
  - destruct (serve_datagram_spec lookup p from ok w Hw) as (w' & E & Hw' & Hans & Hc & Hsent).
    exists w'. split; [done|]. split; [done|]. split.
    + intros s dst payload Hin.
      assert ((s, dst, payload) ∈ sent w \/ exists host port, conns w' !! UDPAddr_String from = Some s /\
        parseSocksUDP p = Ok (host, port, payload) /\
        ResolveUDPAddr lookup (JoinHostPort host (Itoa port)) = Ok dst) as [Hold|(h & port & H1 & H2 & H3)].
      { destruct Hsent as [Hs'|(s' & h & port & pl & dst' & Hs' & ?)]; [left; by rewrite <- Hs'|].
        rewrite Hs' in Hin. apply elem_of_app in Hin as [|Hin]; [by left|right].
        apply list_elem_of_singleton in Hin. simplify_eq. by exists h, port. }
      * destruct (Hs s dst payload Hold) as (c & p' & f & o & h & port & H1 & H2 & H).
        exists c, p', f, o, h, port. split; [by eapply prefix_lookup_Some|]. split; [set_solver|done].
      * destruct (ro_conns _ Hw' _ _ H1) as (c & Hcl & Hk).
        exists c, p, from, ok, h, port. split_and!; try done. set_solver.
    + rewrite Hans. intros c d (s & raddr & data & H1 & H2 & ->)%Ha.
      exists s, raddr, data. split; [by eapply prefix_lookup_Some|]. set_solver.
  - eexists. split; [done|]. unfold serve_reply. destruct (clients w !! s) as [client|] eqn:E.
    + split; [by destruct Hw; split|]. split; simpl.
      * intros s' dst payload (c & p & f & o & h & port & H1 & H2 & H)%Hs.
        exists c, p, f, o, h, port. split; [done|]. split; [set_solver|done].
      * intros c d [Hin|Hin]%elem_of_app.
        -- destruct (Ha c d Hin) as (s' & r & dt & H1 & H2 & ->). exists s', r, dt. set_solver.
        -- apply list_elem_of_singleton in Hin. simplify_eq. exists s, raddr, data. set_solver.
    + split; [done|]. split.
      * intros s' dst payload (c & p & f & o & h & port & H1 & H2 & H)%Hs.
        exists c, p, f, o, h, port. split; [done|]. split; [set_solver|done].
      * intros c d (s' & r & dt & H1 & H2 & ->)%Ha. exists s', r, dt. set_solver.
Qed.

(** C31: The relay keeps its clients apart.  It answers every sequence of datagrams without a
    panic; two clients never share a socket; what a socket sends is the payload of a request of
    its client, to the address that the request named; and what arrives on a socket goes to its
    client alone, packed with the address of the sender. *)
Theorem Socks_udp_relay lookup es :
  exists w, serveUDP lookup es newRelay = Ok w /\
    (forall s1 s2 c1 c2, clients w !! s1 = Some c1 -> clients w !! s2 = Some c2 ->
       UDPAddr_String c1 = UDPAddr_String c2 -> s1 = s2) /\
    (forall s dst payload, (s, dst, payload) ∈ sent w ->
       exists c p from ok host port, clients w !! s = Some c /\ Recv p from ok ∈ es /\
         UDPAddr_String from = UDPAddr_String c /\ parseSocksUDP p = Ok (host, port, payload) /\
         ResolveUDPAddr lookup (JoinHostPort host (Itoa port)) = Ok dst) /\
    (forall c d, (c, d) ∈ answers w ->
       exists s raddr data, clients w !! s = Some c /\ Reply s raddr data ∈ es /\ d = packSocksUDP raddr data).
Proof.
  assert (forall es' es w, relay_ok w -> relay_log lookup es w ->
    exists w', serveUDP lookup es' w = Ok w' /\ relay_ok w' /\ relay_log lookup (es ++ es') w') as H.
  { induction es' as [|e es' IH]; intros es0 w Hw Hl; simpl.
    - exists w. by rewrite app_nil_r.
    - destruct (relay_log_event lookup es0 e w Hw Hl) as (w1 & -> & Hw1 & Hl1). cbn [mbind result_bind].
      destruct (IH _ _ Hw1 Hl1) as (w' & H1 & H2 & H3). exists w'. by rewrite <- app_assoc in H3. }
  destruct (H es [] newRelay) as (w & H1 & [H2 H3] & [H4 H5]).
  - split; simpl; [by intros k s; rewrite lookup_empty|done].
  - split; simpl; by intros * ?%elem_of_nil.
  - exists w. split_and!; try done. intros s1 s2 c1 c2 E1%H3 E2%H3 E. congruence.
Qed.

Lemma resolve_ip4 lookup ip port : length ip = 4%nat -> 0 <= port < 65536 ->
  ResolveUDPAddr lookup (JoinHostPort (string4 ip) (Itoa port)) = Ok (MkUDPAddr (v4InV6Prefix ++ ip) port).
Proof.
  intros Hip Hp. unfold ResolveUDPAddr.
  assert (forall c, digit c = None -> c <> "-"%char -> c <> "."%char -> free c (string4 ip)) as Hf.
  { intros c Hc Hm Hd. destruct ip as [|a [|b [|d [|e [|]]]]]; try done. rewrite string4_cons.
    repeat (first [apply free_app; split | split]); first [by apply octet_free|congruence]. }
  rewrite SplitHostPort_Join by (by apply Hf || by apply free_Itoa). cbn [mbind result_bind].
  rewrite Atoi_Itoa by (unfold int64_ok; apply andb_true_iff; rewrite !Z.leb_le; lia).
  destruct (Z.ltb_spec port 0); [lia|]. destruct (Z.ltb_spec 65535 port); [lia|]. cbn [orb].
  destruct (String.eqb_spec (string4 ip) "") as [E|_].
  { destruct ip as [|a [|b [|d [|e [|]]]]]; try done. rewrite string4_cons in E. 
    by destruct (Itoa (byte_to_Z a)). }
  by rewrite ParseIP_string4.
Qed.

Lemma serve_datagram_forward lookup w r0 r1 ip port payload from :
  length ip = 4%nat -> 0 <= port < 65536 ->
  exists s w', serve_datagram lookup (udp_request r0 r1 (A4 ip) port payload) from true w = Ok w' /\
    sent w' = sent w ++ [(s, MkUDPAddr (v4InV6Prefix ++ ip) port, payload)] /\
    conns w' !! UDPAddr_String from = Some s.
Proof.
  intros Hip Hp. unfold serve_datagram.
  rewrite (proj2 (Z.ltb_ge _ _)).
  2:{ rewrite len_request. cbn [addr_bytes]. rewrite len_cons. unfold len. lia. }
  rewrite parse_request by done. unfold u16. rewrite Z.mod_small by lia. cbn [addr_host].
  rewrite (IP_String_To4 ip ip), resolve_ip4 by (done || (unfold To4; by rewrite decide_True)).
  unfold client_socket. destruct (conns w !! UDPAddr_String from) as [s|] eqn:E.
  - exists s. eexists. by split.
  - eexists _, _. split; [done|]. split; [done|]. simpl. by rewrite lookup_insert_eq.
Qed.

(** A request reaches its target.  A datagram for an address of version 4 is sent, whole, from
    the socket of its client to exactly that address and port, whatever the relay has done
    before. *)
Theorem Socks_udp_forward lookup w r0 r1 ip port payload from :
  length ip = 4%nat -> 0 <= port < 65536 ->
  exists s w', serve_datagram lookup (udp_request r0 r1 (A4 ip) port payload) from true w = Ok w' /\
    sent w' = sent w ++ [(s, MkUDPAddr (v4InV6Prefix ++ ip) port, payload)] /\
    conns w' !! UDPAddr_String from = Some s.
Proof. apply serve_datagram_forward. Qed.

(** The UDP relay knows no credentials.  A service with a user and a password, whose UDP port could
    be bound, relays the datagram of anyone to the address that it names. *)
Theorem Socks_udp_open listen ResolveUDP listenUDP addr user pass bound svc lookup w r0 r1 ip port payload from :
  Serve listen ResolveUDP listenUDP addr user pass = Ok (bound, svc) -> user <> "" ->
  ResolveUDP bound = true -> listenUDP bound = true -> length ip = 4%nat -> 0 <= port < 65536 ->
  credentials svc = Some (user, pass) /\ udp_relay svc = true /\
  exists s w', serve_datagram lookup (udp_request r0 r1 (A4 ip) port payload) from true w = Ok w' /\
    sent w' = sent w ++ [(s, MkUDPAddr (v4InV6Prefix ++ ip) port, payload)].
Proof.
  unfold Serve. destruct (listen addr) as [b| | |]; cbn; try done. intros [= <- <-] Hu H1 H2 Hip Hp. cbn.
  rewrite (proj2 (String.eqb_neq user "") Hu), H1, H2. split; [done|]. split; [done|].
  destruct (serve_datagram_forward lookup w r0 r1 ip port payload from Hip Hp) as (s & w' & E & Hs & _). by exists s, w'.
Qed.

Lemma Socks_reply_witness :
  length [x0a; x00; x00; x01]%byte = 4%nat /\
  parseSocksUDP (packSocksUDP (MkUDPAddr [x0a; x00; x00; x01]%byte 53) [x2a]%byte) = Ok ("10.0.0.1", 53, [x2a]%byte).
Proof.
  split; [done|].
  apply (Socks_reply (MkUDPAddr [x0a; x00; x00; x01]%byte 53) [x2a]%byte); [by left|simpl; lia].
Defined.

Lemma Socks_udp_forward_witness :
  exists s w', serve_datagram (fun _ => None)
      (udp_request x00 x00 (A4 [x0a; x00; x00; x01]%byte) 53 [x2a]%byte) (MkUDPAddr [x7f; x00; x00; x01]%byte 4000) true newRelay = Ok w' /\
    sent w' = [(s, MkUDPAddr (v4InV6Prefix ++ [x0a; x00; x00; x01]%byte) 53, [x2a]%byte)] /\
    conns w' !! "127.0.0.1:4000" = Some s.
Proof.
  apply (Socks_udp_forward (fun _ => None) newRelay x00 x00 [x0a; x00; x00; x01]%byte 53 [x2a]%byte
           (MkUDPAddr [x7f; x00; x00; x01]%byte 4000)); [done|lia].
Defined.
