(* ===== verification/Obfs.v ===== *)
(** The obfs tunnels: obfs/server/server.go, obfs/client/client.go and common/urls/urls.go.

    The transports are those of the library obfs4, which is not under src/; what the program adds
    is their set-up.  An obfs4 server is known by a certificate, the base64 text of its node id
    and public key: it is generated once, stored in the configuration, and turned back into the
    library's arguments at each start.  A server listens at an address given as text.  The lengths
    of the library's keys, its transports and the network are arguments of the model. *)

From S2P Require Import Prelude GoLib GoNet MuxPipe Startup.
From Stdlib Require Import ZArith Lia Strings.Byte Strings.String Strings.Ascii.
From stdpp Require Import gmap list strings.

#[local] Open Scope string_scope.
#[local] Open Scope Z_scope.
#[local] Open Scope list_scope.

(** ** encoding/base64, StdEncoding *)

Definition alphabet : string := "ABCDEFGHIJKLMNOPQRSTUVWXYZabcdefghijklmnopqrstuvwxyz0123456789+/".

Definition b64_char (v : Z) : ascii := default "A"%char (String.get (Z.to_nat v) alphabet).

Definition b64_value (c : ascii) : option Z :=
  let i := IndexByte alphabet c in if i <? 0 then None else Some i.

Fixpoint EncodeToString (l : list byte) : string :=
  match l with
  | [] => EmptyString
  | [a] =>
      let a := byte_to_Z a in
      String (b64_char (a / 4)) (String (b64_char (a mod 4 * 16)) "==")
  | [a; b] =>
      let a := byte_to_Z a in let b := byte_to_Z b in
      String (b64_char (a / 4)) (String (b64_char (a mod 4 * 16 + b / 16))
        (String (b64_char (b mod 16 * 4)) "="))
  | a :: b :: c :: l =>
      let a := byte_to_Z a in let b := byte_to_Z b in let c := byte_to_Z c in
      String (b64_char (a / 4)) (String (b64_char (a mod 4 * 16 + b / 16))
        (String (b64_char (b mod 16 * 4 + c / 64)) (String (b64_char (c mod 64)) (EncodeToString l))))
  end.

(** The decoder, after it has skipped the line breaks; bits left over are not checked. *)
Fixpoint decode_quads (s : string) : option (list byte) :=
  match s with
  | EmptyString => Some []
  | String c0 (String c1 (String c2 (String c3 s))) =>
      v0 ← b64_value c0; v1 ← b64_value c1;
      let b0 := byte_of_Z (v0 * 4 + v1 / 16) in
      if Ascii.eqb c2 "=" then
        if Ascii.eqb c3 "=" && String.eqb s "" then Some [b0] else None
      else
        v2 ← b64_value c2;
        let b1 := byte_of_Z (v1 mod 16 * 16 + v2 / 4) in
        if Ascii.eqb c3 "=" then if String.eqb s "" then Some [b0; b1] else None
        else
          v3 ← b64_value c3;
          rest ← decode_quads s;
          Some (b0 :: b1 :: byte_of_Z (v2 mod 4 * 64 + v3) :: rest)
  | _ => None
  end.

Fixpoint drop_breaks (s : string) : string :=
  match s with
  | EmptyString => EmptyString
  | String c s => if in_cutset (String "013" (String "010" EmptyString)) c then drop_breaks s
                  else String c (drop_breaks s)
  end.

Definition DecodeString (s : string) : result (list byte) :=
  match decode_quads (drop_breaks s) with
  | Some l => Ok l
  | None => Err (Errorf "illegal base64 data at input byte %d")
  end.

(** ** Certificates *)

Section Certificates.
Context (NodeIDLength PublicKeyLength : nat).

Definition obfs4CertRawLength : nat := NodeIDLength + PublicKeyLength.

Definition encodeObfs4Cert (nodeID public : list byte) : string :=
  TrimSuffix (EncodeToString (nodeID ++ public)) "==".

(** GenerateIdentity, for the node id and the key pair that were drawn. *)
Definition GenerateIdentity (rawID public private : list byte) : string * string :=
  (encodeObfs4Cert rawID public, hex private).

(** The arguments of the library, in the order they are added. *)
Definition obfs4ArgsFromConfig (seed : list byte) (cert privateKey : string) : result (list (string * string)) :=
  if String.eqb privateKey "" then Err (Errorf "missing private-key for obfs4 certificate")
  else
    match DecodeString (cert +:+ "==") with
    | Ok decoded =>
        if negb (length decoded =? obfs4CertRawLength)%nat then Err (Errorf "cert length %d is invalid")
        else Ok [("node-id", hex (take NodeIDLength decoded)); ("private-key", privateKey);
                 ("drbg-seed", hex seed); ("iat-mode", "0")]
    | _ => Err (Errorf "failed to decode cert: %w")
    end.
End Certificates.

(** The arguments of a client. *)
Definition obfsDialArgs (c : JsonClientConfigImpl) : list (string * list string) :=
  if String.eqb (cType c) "obfs4" then [("cert", [cCert c]); ("iat-mode", ["0"])] else [].

(** ** Addresses *)

(** strconv.ParseUint(s, 10, 16). *)
Definition ParsePort (s : string) : result Z :=
  match s with
  | EmptyString => Err (Errorf "invalid syntax")
  | _ => match atoi_digits s 0 with
         | Some v => if v <=? 65535 then Ok v else Err (Errorf "value out of range")
         | None => Err (Errorf "invalid syntax")
         end
  end.

Definition ResolveAddr (addrStr : string) : result (IP * Z) :=
  let split :=
    match SplitHostPort addrStr with
    | Ok v => Ok v
    | Err e =>
        let parts := Split addrStr ":" in
        if (length parts <=? 2)%nat then Err e
        else SplitHostPort ("[" +:+ strings_Join (removelast parts) ":" +:+ "]:" +:+ List.last parts "")
    | r => r
    end in
  '(ipStr, portStr) ← split;
  if String.eqb ipStr "" then Err (Errorf "address string %q lacks a host part")
  else if String.eqb portStr "" then Err (Errorf "address string %q lacks a port part")
  else match ParseIP ipStr with
       | None => Err (Errorf "not an IP string: %q")
       | Some ip => port ← ParsePort portStr; Ok (ip, port)
       end.

(** ** The server *)

(** The network and the library: whether something listens at a port of a host, whether there is
    a transport of a name and its factory takes the arguments, whether listening succeeds. *)
Record ObfsHost := MkObfsHost {
  IsTcpOpen : string -> string -> bool;
  has_transport : string -> bool;
  makes_factory : string -> list (string * string) -> bool;
  ListenTCP : IP * Z -> bool
}.

(** Fatal ends the process.  A launched server accepts connections if it could listen: the error
    of ListenTCP is dropped. *)
Inductive setup : Type :=
  | Fatal (msg : string)
  | Launched (addr : IP * Z) (options : list (string * string)) (listening : bool).

Section Server.
Context (NodeIDLength PublicKeyLength : nat) (h : ObfsHost) (seed : list byte).

Definition Setup (c : JsonServerConfigImpl) : setup :=
  match Split (sListen c) ":" with
  | [host; port] =>
      if IsTcpOpen h port host then Fatal "Service port already in use"
      else
        match (if String.eqb (sType c) "obfs4" && negb (String.eqb (sCert c) "")
               then obfs4ArgsFromConfig NodeIDLength PublicKeyLength seed (sCert c) (sPrivateKey c)
               else Ok []) with
        | Ok options =>
            match ResolveAddr (sListen c) with
            | Ok addr =>
                if negb (has_transport h (sType c)) then Fatal "no such transport is supported"
                else if negb (makes_factory h (sType c) options) then Fatal "Can't initiate server factory."
                else Launched addr options (ListenTCP h addr)
            | _ => Fatal "invalid address"
            end
        | _ => Fatal "Invalid obfs4 certificate/key:"
        end
  | _ => Fatal "Invalid ipv4 service address format, should be <address>:<port>"
  end.

(** What becomes of a connection. *)
Inductive handled : Type :=
  | HandshakeFailed
  | MuxFailed
  | MuxServed (target : string) (skipUDP : bool)
  | NoTarget
  | DialFailed
  | Piped (target : string) (pt : prefixConn).

(** serverHandler: [wrapped] is the connection after the handshake, [early] the bytes that arrive
    in time for Detect, [mux_ok] and [dials] whether the session and the target can be opened. *)
Definition serverHandler (wrapped : option conn) (early : nat) (mux_ok : bool) (dials : string -> bool)
    (target : string) (skipUDP : bool) : handled :=
  match wrapped with
  | None => HandshakeFailed
  | Some remote =>
      let '(isMux, remote) := Detect early remote in
      if isMux then if mux_ok then MuxServed target skipUDP else MuxFailed
      else if String.eqb (TrimSpace target) "" then NoTarget
      else if dials target then Piped target remote else DialFailed
  end.
End Server.

(** ** Lemmas: base64 *)

Lemma sextet_cases (P : Z -> Prop) `{forall v, Decision (P v)} v :
  forallb (fun v => bool_decide (P v)) (map Z.of_nat (seq 0 64)) = true -> 0 <= v < 64 -> P v.
Proof.
  intros HP Hv. rewrite forallb_forall in HP. apply (bool_decide_eq_true (P v)). apply HP.
  apply in_map_iff. exists (Z.to_nat v). split; [lia|]. apply in_seq. lia.
Qed.

Lemma b64_value_char v : 0 <= v < 64 -> b64_value (b64_char v) = Some v.
Proof. apply (sextet_cases (fun v => b64_value (b64_char v) = Some v)). by vm_compute. Qed.

(** The characters of the alphabet are neither padding nor line breaks. *)
Lemma b64_char_plain v : 0 <= v < 64 ->
  Ascii.eqb (b64_char v) "=" = false /\ in_cutset (String "013" (String "010" EmptyString)) (b64_char v) = false.
Proof.
  apply (sextet_cases (fun v => Ascii.eqb (b64_char v) "=" = false /\
    in_cutset (String "013" (String "010" EmptyString)) (b64_char v) = false)). by vm_compute.
Qed.

Lemma byte_from b z : z = byte_to_Z b -> byte_of_Z z = b.
Proof. intros ->. apply byte_of_to_Z. Qed.

(** Induction three bytes at a time. *)
Lemma triples_ind (P : list byte -> Prop) :
  P [] -> (forall a, P [a]) -> (forall a b, P [a; b]) ->
  (forall a b c l, P l -> P (a :: b :: c :: l)) -> forall l, P l.
Proof.
  intros H0 H1 H2 H3. fix IH 1. intros [|a [|b [|c l]]]; [apply H0|apply H1|apply H2|apply H3, IH].
Qed.

(** The quads of one, two and three bytes. *)
Lemma quad1 a : 0 <= a < 256 -> 0 <= a / 4 < 64 /\ 0 <= a mod 4 * 16 < 64 /\ a / 4 * 4 + a mod 4 * 16 / 16 = a.
Proof. intros H. Z.to_euclidean_division_equations. lia. Qed.
Lemma quad2 a b : 0 <= a < 256 -> 0 <= b < 256 ->
  0 <= a / 4 < 64 /\ 0 <= a mod 4 * 16 + b / 16 < 64 /\ 0 <= b mod 16 * 4 < 64 /\
  a / 4 * 4 + (a mod 4 * 16 + b / 16) / 16 = a /\
  (a mod 4 * 16 + b / 16) mod 16 * 16 + b mod 16 * 4 / 4 = b.
Proof. intros Ha Hb. Z.to_euclidean_division_equations. lia. Qed.
Lemma quad3 a b c : 0 <= a < 256 -> 0 <= b < 256 -> 0 <= c < 256 ->
  0 <= a / 4 < 64 /\ 0 <= a mod 4 * 16 + b / 16 < 64 /\ 0 <= b mod 16 * 4 + c / 64 < 64 /\ 0 <= c mod 64 < 64 /\
  a / 4 * 4 + (a mod 4 * 16 + b / 16) / 16 = a /\
  (a mod 4 * 16 + b / 16) mod 16 * 16 + (b mod 16 * 4 + c / 64) / 4 = b /\
  (b mod 16 * 4 + c / 64) mod 4 * 64 + c mod 64 = c.
Proof. intros Ha Hb Hc. Z.to_euclidean_division_equations. lia. Qed.

Lemma b64_decode_encode l : decode_quads (EncodeToString l) = Some l.
Proof.
  induction l as [|a|a b|a b c l IH] using triples_ind; [done|..]; cbn [EncodeToString decode_quads].
  - destruct (quad1 (byte_to_Z a)) as (H0 & H1 & E0); [apply byte_to_Z_range|].
    rewrite !b64_value_char by done. cbn [mbind option_bind]. simpl. by rewrite E0, byte_of_to_Z.
  - destruct (quad2 (byte_to_Z a) (byte_to_Z b)) as (H0 & H1 & H2 & E0 & E1); [apply byte_to_Z_range..|].
    rewrite !b64_value_char by done. cbn [mbind option_bind].
    rewrite (proj1 (b64_char_plain _ H2)), E0, byte_of_to_Z. simpl. by rewrite E1, byte_of_to_Z.
  - destruct (quad3 (byte_to_Z a) (byte_to_Z b) (byte_to_Z c)) as (H0 & H1 & H2 & H3 & E0 & E1 & E2);
      [apply byte_to_Z_range..|].
    rewrite !b64_value_char by done. cbn [mbind option_bind].
    rewrite (proj1 (b64_char_plain _ H2)), (proj1 (b64_char_plain _ H3)). cbn [mbind option_bind].
    rewrite IH, E0, E1, E2. cbn [mbind option_bind]. by rewrite !byte_of_to_Z.
Qed.

Lemma encode_no_breaks l : drop_breaks (EncodeToString l) = EncodeToString l.
Proof.
  induction l as [|a|a b|a b c l IH] using triples_ind; [done|..]; cbn [EncodeToString drop_breaks].
  - destruct (quad1 (byte_to_Z a)) as (H0 & H1 & _); [apply byte_to_Z_range|].
    by rewrite (proj2 (b64_char_plain _ H0)), (proj2 (b64_char_plain _ H1)).
  - destruct (quad2 (byte_to_Z a) (byte_to_Z b)) as (H0 & H1 & H2 & _); [apply byte_to_Z_range..|].
    by rewrite (proj2 (b64_char_plain _ H0)), (proj2 (b64_char_plain _ H1)), (proj2 (b64_char_plain _ H2)).
  - destruct (quad3 (byte_to_Z a) (byte_to_Z b) (byte_to_Z c)) as (H0 & H1 & H2 & H3 & _); [apply byte_to_Z_range..|].
    by rewrite (proj2 (b64_char_plain _ H0)), (proj2 (b64_char_plain _ H1)), (proj2 (b64_char_plain _ H2)),
      (proj2 (b64_char_plain _ H3)), IH.
Qed.

Lemma DecodeString_encode l : DecodeString (EncodeToString l) = Ok l.
Proof. unfold DecodeString. by rewrite encode_no_breaks, b64_decode_encode. Qed.

(** One byte more than a multiple of three ends in two signs of padding. *)
Lemma encode_padded l : (length l mod 3 = 1)%nat -> exists s, EncodeToString l = s +:+ "==".
Proof.
  induction l as [|a|a b|a b c l IH] using triples_ind; intros H; try done.
  - by exists (String (b64_char (byte_to_Z a / 4)) (String (b64_char (byte_to_Z a mod 4 * 16)) "")).
  - destruct IH as [s Hs].
    { change (length (a :: b :: c :: l)) with (3 + length l)%nat in H.
      replace (3 + length l)%nat with (length l + 1 * 3)%nat in H by lia. by rewrite Nat.Div0.mod_add in H. }
    cbn [EncodeToString]. rewrite Hs. 
    by exists (String (b64_char (byte_to_Z a / 4)) (String (b64_char (byte_to_Z a mod 4 * 16 + byte_to_Z b / 16))
      (String (b64_char (byte_to_Z b mod 16 * 4 + byte_to_Z c / 64)) (String (b64_char (byte_to_Z c mod 64)) s)))).
Qed.

(** ** Certificates *)

Lemma DecodeString_cert rawID public :
  ((length rawID + length public) mod 3 = 1)%nat ->
  DecodeString (encodeObfs4Cert rawID public +:+ "==") = Ok (rawID ++ public).
Proof.
  intros Hmod. unfold encodeObfs4Cert. destruct (encode_padded (rawID ++ public)) as [s Hs];
    [by rewrite length_app|]. rewrite Hs, TrimSuffix_app, <- Hs. apply DecodeString_encode.
Qed.

(** C26: The identity a server stores brings it back.  For keys of the library's lengths, the
    certificate and private key of GenerateIdentity, read from the configuration, give the
    arguments with the same node id and private key; the certificate with its padding decodes to
    the node id and the public key that the clients use. *)
Theorem Obfs_identity nid npk rawID public private seed :
  length rawID = nid -> length public = npk -> ((nid + npk) mod 3 = 1)%nat -> private <> [] ->
  let '(cert, key) := GenerateIdentity rawID public private in
  DecodeString (cert +:+ "==") = Ok (rawID ++ public) /\
  obfs4ArgsFromConfig nid npk seed cert key =
    Ok [("node-id", hex rawID); ("private-key", key); ("drbg-seed", hex seed); ("iat-mode", "0")].
Proof.
  intros Hid Hpk Hmod Hpriv. unfold GenerateIdentity.
  assert (DecodeString (encodeObfs4Cert rawID public +:+ "==") = Ok (rawID ++ public)) as Hd.
  { apply DecodeString_cert. by rewrite Hid, Hpk. }
  split; [done|]. unfold obfs4ArgsFromConfig. rewrite Hd.
  destruct (String.eqb_spec (hex private) "") as [E|_]; [by destruct private|].
  rewrite length_app, Hid, Hpk. unfold obfs4CertRawLength. rewrite Nat.eqb_refl. cbn [negb].
  by rewrite take_app_length' by done.
Qed.

(** ** Addresses *)

Lemma ParsePort_Itoa p : 0 <= p < 65536 -> ParsePort (Itoa p) = Ok p.
Proof.
  intros Hp. unfold ParsePort. destruct (Itoa p) as [|c s] eqn:E.
  { pose proof (Itoa_nonempty p) as H. by rewrite E in H. }
  rewrite <- E, Itoa_pos, atoi_pretty_N, Z2N.id by lia.
  by rewrite (proj2 (Z.leb_le _ _)) by lia.
Qed.

Lemma Split_nonempty s sep : Split s sep <> [].
Proof. induction s as [|c s IH]; simpl; [done|]. case_match; [done|]. by destruct (Split s sep). Qed.

(** Splitting at a separator and joining again. *)
Lemma Join_Split s sep : strings_Join (Split s sep) (String sep "") = s.
Proof.
  induction s as [|c s IH]; [done|]. cbn [Split]. pose proof (Split_nonempty s sep) as Hn.
  destruct (Ascii.eqb_spec c sep) as [->|_].
  - destruct (Split s sep) as [|h t]; [done|]. change (strings_Join ("" :: h :: t) (String sep ""))
      with (String sep (strings_Join (h :: t) (String sep ""))). by rewrite IH.
  - destruct (Split s sep) as [|h t]; [done|]. destruct t as [|h' t]; simpl in *; congruence.
Qed.

Lemma Split_last s sep t : free sep t -> Split (s +:+ String sep t) sep = Split s sep ++ [t].
Proof.
  intros Ht. induction s as [|c s IH]; simpl.
  - by rewrite Ascii.eqb_refl, Split_cons_free.
  - rewrite IH. case_match; [done|]. pose proof (Split_nonempty s sep). by destruct (Split s sep).
Qed.

Lemma Split_one s sep : ~ free sep s -> (2 <= length (Split s sep))%nat.
Proof.
  induction s as [|c s IH]; simpl; [by intros []|]. intros Hn. pose proof (Split_nonempty s sep) as Hs.
  destruct (Ascii.eqb_spec c sep) as [->|Hne].
  - destruct (Split s sep); [done|]. simpl. lia.
  - destruct (Split s sep) as [|h [|h' t]] eqn:E; [done| |simpl; lia].
    exfalso. simpl in IH. assert (~ ~ free sep s) as Hf by (intros Hf; apply IH in Hf; lia).
    apply Hf. intros Hf'. by apply Hn.
Qed.

Lemma ParseIP_nonempty s ip : ParseIP s = Some ip -> String.eqb s "" = false.
Proof. by destruct s. Qed.

(** Addresses are read with and without brackets.  For the text of an IP address, of either
    version, ResolveAddr gives that address and the port both for the form of net.JoinHostPort
    and for the address, a colon and the port: an address of version 6 needs no brackets. *)
Theorem Obfs_ResolveAddr host ip port :
  ParseIP host = Some ip -> free "[" host -> free "]" host -> 0 <= port < 65536 ->
  ResolveAddr (JoinHostPort host (Itoa port)) = Ok (ip, port) /\
  ResolveAddr (host +:+ String ":" (Itoa port)) = Ok (ip, port).
Proof.
  intros Hip Hb1 Hb2 Hp.
  assert (free ":" (Itoa port) /\ free "[" (Itoa port) /\ free "]" (Itoa port)) as (Hc & Hp1 & Hp2)
    by (by repeat split; apply free_Itoa).
  assert (SplitHostPort (JoinHostPort host (Itoa port)) = Ok (host, Itoa port)) as Hj by (by apply SplitHostPort_Join).
  assert (ResolveAddr (JoinHostPort host (Itoa port)) = Ok (ip, port)) as H1.
  { unfold ResolveAddr. rewrite Hj. cbn [mbind result_bind].
    by rewrite (ParseIP_nonempty _ _ Hip), Itoa_nonempty, Hip, ParsePort_Itoa by lia. }
  split; [done|]. destruct (ContainsByte host ":") eqn:E.
  - unfold ResolveAddr. rewrite SplitHostPort_colons by (done || by apply ContainsByte_not_free).
    rewrite Split_last by done. rewrite length_app. simpl length.
    assert (2 <= length (Split host ":"))%nat as Hn by (by apply Split_one, ContainsByte_not_free).
    rewrite (proj2 (Nat.leb_gt _ _)) by lia. rewrite removelast_last, last_last, Join_Split.
    replace ("[" +:+ host +:+ "]:" +:+ Itoa port) with (JoinHostPort host (Itoa port)) by (unfold JoinHostPort; by rewrite E).
    rewrite Hj. cbn [mbind result_bind].
    by rewrite (ParseIP_nonempty _ _ Hip), Itoa_nonempty, Hip, ParsePort_Itoa by lia.
  - unfold JoinHostPort in H1. by rewrite E in H1.
Qed.

Lemma first_sep_in s c : first_sep s = Some c -> ~ free c s.
Proof.
  induction s as [|d s IH]; simpl; [done|]. destruct (in_cutset ".:%" d).
  - intros [= ->] [? _]. done.
  - intros H [_ Hf]. by apply IH.
Qed.

Lemma ParseIP_no_colon s ip : ParseIP s = Some ip -> free ":" s -> exists ip4, To4 ip = Some ip4.
Proof.
  unfold ParseIP. intros H Hf. destruct (first_sep s) as [c|] eqn:E; [|done].
  destruct (Ascii.ascii_dec c ".") as [->|Hd].
  - destruct (parseIPv4 s) as [ip4|] eqn:E4; [|done]. injection H as <-. exists ip4. apply To4_mapped.
    unfold parseIPv4 in E4. repeat case_match; by simplify_eq.
  - destruct (Ascii.ascii_dec c ":") as [->|Hc]; [by apply first_sep_in in E|].
    exfalso. by destruct c as [[] [] [] [] [] [] [] []].
Qed.

(** ** Set-up *)

Lemma Split_two s sep a b : Split s sep = [a; b] -> s = a +:+ String sep b /\ free sep a /\ free sep b.
Proof.
  revert a b. induction s as [|c s IH]; intros a b; cbn [Split]; [done|].
  destruct (Ascii.eqb_spec c sep) as [->|Hne].
  - intros [= <- H]. rewrite <- (Join_Split s sep), H. split; [done|]. split; [done|].
    assert (Hl : (length (Split s sep) = 1)%nat) by (by rewrite H).
    destruct (free_dec sep s) as [Hf|Hf]; [|apply Split_one in Hf; lia].
    rewrite Split_cons_free in H by done. by injection H as ->.
  - destruct (Split s sep) as [|h t] eqn:E; [done|]. intros [= <- ->].
    destruct (IH h b eq_refl) as (-> & H1 & H2). split; [done|]. by split.
Qed.

Lemma take_s_le n a b : (n <= String.length a)%nat -> take_s n (a +:+ b) = take_s n a.
Proof.
  revert a. induction n as [|n IH]; intros [|c a] H; simpl in *; try done; [lia|].
  f_equal. apply IH. lia.
Qed.
Lemma free_take_s c n s : free c s -> free c (take_s n s).
Proof. revert s. induction n as [|n IH]; intros [|d s]; simpl; try done. intros [? ?]. auto. Qed.

(** One colon: the port is what follows it, and the host, with or without brackets, has none. *)
Lemma SplitHostPort_colon host port h p :
  free ":" host -> free ":" port -> SplitHostPort (host +:+ String ":" port) = Ok (h, p) -> free ":" h /\ p = port.
Proof.
  intros Hh Hp. unfold SplitHostPort. rewrite LastIndexByte_app by done.
  rewrite (proj2 (Z.ltb_ge _ _)) by apply slen_nonneg. cbv zeta.
  assert (drop_s (S (Z.to_nat (slen host))) (host +:+ String ":" port) = port) as Hd.
  { replace (host +:+ String ":" port) with ((host +:+ ":") +:+ port) by (by rewrite <- sapp_assoc).
    apply drop_s_app. rewrite length_sapp. unfold slen. simpl. lia. }
  assert (take_s (Z.to_nat (slen host)) (host +:+ String ":" port) = host) as Ht
    by (apply take_s_app; unfold slen; lia).
  destruct host as [|c host].
  { cbn -[ContainsByte]. repeat case_match; intros [= <- <-]; done. }
  destruct (Ascii.ascii_dec c "[") as [->|Hc].
  - cbn [append]. cbn [append] in Hd, Ht.
    pose proof (IndexByte_range (String "[" (host +:+ String ":" port)) "]") as Hr.
    destruct (Z.ltb_spec (IndexByte (String "[" (host +:+ String ":" port)) "]") 0); [done|].
    destruct (_ =? slen (String "[" (host +:+ String ":" port))); [done|].
    destruct (Z.eqb_spec (IndexByte (String "[" (host +:+ String ":" port)) "]" + 1) (slen (String "[" host))) as [He|];
      [|repeat case_match; done].
    rewrite Hd. repeat case_match; try done. intros [= <- <-]. split; [|done].
    destruct Hh as [_ Hh].
    rewrite take_s_le; [by apply free_take_s|].
    rewrite slen_cons in He. simpl in He. unfold slen in He. lia.
  - assert (match String c host +:+ String ":" port with String "[" _ => False | _ => True end) as Hm
      by (by destruct c as [[] [] [] [] [] [] [] []]).
    destruct (String c host +:+ String ":" port) as [|d s'] eqn:E; [done|].
    assert (forall (A : Type) (x y : A), match String d s' with String "[" _ => x | _ => y end = y) as Hsel
      by (intros A x y; by destruct d as [[] [] [] [] [] [] [] []]).
    rewrite Hsel, Hd, Ht. repeat case_match; try done; by intros [= <- <-].
Qed.

Lemma ResolveAddr_colon host port addr :
  free ":" host -> free ":" port -> ResolveAddr (host +:+ String ":" port) = Ok addr ->
  exists host' ip4, SplitHostPort (host +:+ String ":" port) = Ok (host', port) /\
    ParseIP host' = Some (fst addr) /\ To4 (fst addr) = Some ip4 /\ ParsePort port = Ok (snd addr).
Proof.
  intros Hh Hp. unfold ResolveAddr. rewrite Split_app, Split_cons_free by done. simpl length.
  destruct (SplitHostPort (host +:+ String ":" port)) as [[h p]| | |] eqn:Es; try done.
  apply SplitHostPort_colon in Es as [Hf ->]; [|done..]. cbn [mbind result_bind].
  destruct (String.eqb h ""); [done|]. destruct (String.eqb port ""); [done|].
  destruct (ParseIP h) as [ip|] eqn:E; [|done].
  destruct (ParsePort port) as [v| | |] eqn:Ep; cbn [mbind result_bind]; try done.
  intros [= <-]. destruct (ParseIP_no_colon h ip E Hf) as [ip4 H4]. by exists h, ip4.
Qed.

(** What an obfs server listens at.  A configuration is launched only at an address of version 4
    written in digits, with a port that is free: a listen setting that is empty, a host name or
    an address of version 6, with or without brackets, ends the process.  For obfs4 the arguments
    come from the certificate.  Whether listening succeeds makes no difference: the server is
    launched and reported either way. *)
Theorem Obfs_setup nid npk h seed c addr options listening :
  Setup nid npk h seed c = Launched addr options listening ->
  exists host port host' ip4,
    sListen c = host +:+ String ":" port /\ free ":" host /\ free ":" port /\
    SplitHostPort (sListen c) = Ok (host', port) /\ ParseIP host' = Some (fst addr) /\
    To4 (fst addr) = Some ip4 /\ ParsePort port = Ok (snd addr) /\
    IsTcpOpen h port host = false /\ listening = ListenTCP h addr /\
    (sType c = "obfs4" -> sCert c <> "" ->
       obfs4ArgsFromConfig nid npk seed (sCert c) (sPrivateKey c) = Ok options).
Proof.
  unfold Setup. destruct (Split (sListen c) ":") as [|host [|port [|]]] eqn:Es; try done.
  apply Split_two in Es as (El & Hh & Hp). destruct (IsTcpOpen h port host) eqn:Eo; [done|].
  destruct (if _ && _ then _ else _) as [opts| | |] eqn:Ea; try done.
  destruct (ResolveAddr (sListen c)) as [a| | |] eqn:Er; try done.
  destruct (negb (has_transport h (sType c))); [done|].
  destruct (negb (makes_factory h (sType c) opts)); [done|]. intros [= -> -> <-].
  rewrite El in *. destruct (ResolveAddr_colon host port addr Hh Hp Er) as (host' & ip4 & H1 & H2 & H3 & H4).
  exists host, port, host', ip4. split_and!; try done.
  intros Ht Hc. rewrite Ht in Ea. apply String.eqb_neq in Hc. by rewrite Hc in Ea.
Qed.

(** ** Concrete configurations *)

Lemma Obfs_identity_witness :
  let id := repeat x07 20 in let pk := repeat x2a 32 in
  let '(cert, key) := GenerateIdentity id pk [x01; xff] in
  String.length cert = 70%nat /\ key = "01ff" /\ DecodeString (cert +:+ "==") = Ok (id ++ pk) /\
  obfs4ArgsFromConfig 20 32 [x00] cert key =
    Ok [("node-id", hex id); ("private-key", key); ("drbg-seed", hex [x00]); ("iat-mode", "0")].
Proof.
  intros id pk.
  pose proof (Obfs_identity 20 32 id pk [x01; xff] [x00] eq_refl eq_refl eq_refl ltac:(discriminate)) as H.
  unfold GenerateIdentity in *. cbv zeta. split; [by vm_compute|]. split; [by vm_compute|]. exact H.
Defined.

Lemma Obfs_ResolveAddr_witness :
  ResolveAddr (JoinHostPort "::1" (Itoa 443)) = Ok (repeat x00 15 ++ [x01], 443) /\
  ResolveAddr "::1:443" = Ok (repeat x00 15 ++ [x01], 443).
Proof.
  apply (Obfs_ResolveAddr "::1" (repeat x00 15 ++ [x01]) 443);
    [by vm_compute|by repeat split|by repeat split|lia].
Defined.

Lemma Obfs_setup_witness :
  let h := MkObfsHost (fun _ _ => false) (fun _ => true) (fun _ _ => true) (fun _ => false) in
  let c := Startup.Witness.server "obfs3" "" "0.0.0.0:3334" "" in
  exists addr options listening, Setup 20 32 h [] c = Launched addr options listening /\ listening = false.
Proof.
  intros h c. eexists _, _, _. split; [by vm_compute|].
  destruct (Obfs_setup 20 32 h [] c (v4InV6Prefix ++ [x00; x00; x00; x00]%byte, 3334) [] false ltac:(by vm_compute))
    as (host & port & host2 & ip4 & _ & _ & _ & _ & _ & _ & _ & E & _). exact E.
Defined.
