(* ===== verification/DpiResolver.v ===== *)
(** The DPI client's resolver: dpi/client/dns_resolver.go.

    Names are resolved by DNS queries over a tunnelled connection, and answers are cached for a
    while.  The messages are those of the library dns, which is not under src/: its packing, its
    unpacking and the name it asks for are arguments.  Times are nanoseconds.  The two critical
    sections of cacheLookup are steps of their own, because stores of other goroutines may come
    between them. *)

From S2P Require Import Prelude GoLib GoNet.
From Stdlib Require Import ZArith Lia Strings.Byte Strings.String.
From stdpp Require Import gmap list strings.

#[local] Open Scope string_scope.
#[local] Open Scope Z_scope.
#[local] Open Scope list_scope.

Definition Second : Z := 1000000000.
Definition Minute : Z := 60 * Second.

(** An answer: its address if it is an A record, and the TTL of its header. *)
Record answer := MkAnswer { a_ip : option IP; a_ttl : option Z }.

Record dnsCacheEntry := MkEntry { ip : IP; expires : Z }.

Record tunneledResolver := MkResolver {
  network : string; upstream : string; timeout : Z; cache : gmap string dnsCacheEntry
}.

Definition set_timeout t r := MkResolver (network r) (upstream r) t (cache r).
Definition set_cache c r := MkResolver (network r) (upstream r) (timeout r) c.

Definition newTunneledResolver (network upstream : string) : tunneledResolver :=
  MkResolver (if negb (String.eqb network "tcp") && negb (String.eqb network "udp") then "tcp" else network)
    upstream (10 * Second) ∅.

(** ** The cache *)

(** The first critical section of cacheLookup, and the comparison after it. *)
Inductive lookup_result : Type := Miss | Stale | Hit (ip : IP).

Definition cache_read (name : string) (now : Z) (r : tunneledResolver) : lookup_result :=
  match cache r !! name with
  | None => Miss
  | Some e => if expires e <? now then Stale else Hit (ip e)
  end.

(** The second, for an entry that was found stale. *)
Definition cache_delete (name : string) (r : tunneledResolver) : tunneledResolver :=
  set_cache (delete name (cache r)) r.

Definition cacheLookup (name : string) (now : Z) : ST tunneledResolver (option IP) := fun r =>
  match cache_read name now r with
  | Miss => (None, r)
  | Stale => (None, cache_delete name r)
  | Hit ip => (Some ip, r)
  end.

Definition clamp_ttl (ttlSeconds : Z) : Z :=
  let ttl := ttlSeconds * Second in
  let ttl := if ttl <=? 0 then 60 * Second else ttl in
  if 5 * Minute <? ttl then 5 * Minute else ttl.

Definition cacheStore (name : string) (addr : IP) (ttlSeconds now : Z) (r : tunneledResolver) : tunneledResolver :=
  set_cache (<[name := MkEntry addr (now + clamp_ttl ttlSeconds)]> (cache r)) r.

Definition minTTL_step (ttl : Z) (a : answer) : Z :=
  match a_ttl a with
  | None => ttl
  | Some t => if (ttl =? 0) || (t <? ttl) then t else ttl
  end.

Definition minTTLSeconds (answers : list answer) (fallback : Z) : Z :=
  let ttl := foldl minTTL_step 0 answers in if ttl =? 0 then fallback else ttl.

(** ** Exchanges *)

(** An error is wrapped in the message of the caller. *)
Definition wrap {A} (msg : string) (m : IO A) : IO A := fun c =>
  match m c with
  | (Err _, c) => (Err (Errorf msg), c)
  | r => r
  end.

(** The outcome of the select: the answer of the goroutine comes first, the context is done, or
    the timer fires. *)
Inductive first : Type := Answered | Cancelled | TimedOut.

Definition select_first {A} (f : first) (r : result A) : result A :=
  match f with
  | Answered => r
  | Cancelled => Err (Errorf "context")
  | TimedOut => Err (Errorf "DNS query timed out after %s")
  end.

(** The deadline of the context, as the time that remains, shortens the timeout for good. *)
Definition shorten (remaining : option Z) (r : tunneledResolver) : tunneledResolver :=
  match remaining with
  | Some d => if (0 <? d) && (d <? timeout r) then set_timeout d r else r
  | None => r
  end.

Definition tunnelNetwork (network : string) : result string :=
  if decide (network ∈ ["tcp"; "tcp4"; "tcp6"]) then Ok "tcp"
  else if decide (network ∈ ["udp"; "udp4"; "udp6"]) then Ok "udp"
  else Err (Errorf "tunneled dial: unsupported network %q").

Section Dns.
Context {Msg : Type} (unpack : list byte -> option Msg) (answers : Msg -> list answer)
  (fqdn : string -> string) (pack : string -> option (list byte)).

Definition exchangeTCP (query : list byte) : IO Msg :=
  if len query >? 65535 then throw (Errorf "DNS query too large for TCP")
  else
    _ ← wrap "write DNS query: %w" (Write_ (PutUint16 (len query) ++ query));
    lenBuf ← wrap "read DNS length: %w" (ReadFull 2);
    if be_get lenBuf =? 0 then throw (Errorf "empty DNS TCP response")
    else
      respBuf ← wrap "read DNS response: %w" (ReadFull (Z.to_nat (be_get lenBuf)));
      match unpack respBuf with
      | Some reply => mret reply
      | None => throw (Errorf "unpack DNS response: %w")
      end.

(** [chunk]: what one Read of the tunnel returns. *)
Definition exchangeUDP (query : list byte) (chunk : result (list byte)) : IO Msg :=
  _ ← wrap "write DNS query: %w" (Write_ query);
  match chunk with
  | Ok buf => match unpack buf with
              | Some reply => mret reply
              | None => throw (Errorf "unpack DNS response: %w")
              end
  | _ => throw (Errorf "read DNS response: %w")
  end.

(** exchange: [tunnel] is the connection, or the error of opening it. *)
Definition exchange (remaining : option Z) (tunnel : result conn) (chunk : result (list byte)) (f : first)
    (name : string) : ST tunneledResolver (result Msg) := fun r =>
  let r := shorten remaining r in
  (tc ← tunnel;
   match pack (fqdn name) with
   | None => Err (Errorf "pack DNS query: %w")
   | Some query =>
       select_first f
         (fst ((if String.eqb (network r) "tcp" then exchangeTCP query else exchangeUDP query chunk) tc))
   end, r).

(** Resolve: the environment of its exchange, and the times of the lookup and of the store. *)
Definition Resolve (remaining : option Z) (tunnel : result conn) (chunk : result (list byte)) (f : first)
    (now later : Z) (name : string) : ST tunneledResolver (result IP) := fun r =>
  let cacheKey := ToLower (TrimSuffix (fqdn name) ".") in
  match cacheLookup cacheKey now r with
  | (Some addr, r) => (Ok addr, r)
  | (None, r) =>
      match exchange remaining tunnel chunk f name r with
      | (Ok reply, r) =>
          match omap a_ip (answers reply) with
          | addr :: _ => (Ok addr, cacheStore cacheKey addr (minTTLSeconds (answers reply) 60) later r)
          | [] => (Err (Errorf "no A record found for %s"), r)
          end
      | (Err e, r) => (Err e, r)
      | (Panic m, r) => (Panic m, r)
      | (OutOfFuel, r) => (OutOfFuel, r)
      end
  end.
End Dns.

(** ** The life of an answer *)

(** The TTLs that count: those after the last one that is zero. *)
Fixpoint after_zero (l : list Z) : list Z :=
  match l with
  | [] => []
  | t :: l => if decide (0 ∈ l) then after_zero l else if decide (t = 0) then l else t :: l
  end.

Definition least (l : list Z) : Z := match l with [] => 0 | t :: l => foldl Z.min t l end.

Definition ttl_step (ttl t : Z) : Z := if (ttl =? 0) || (t <? ttl) then t else ttl.

Lemma foldl_ttls l acc : foldl minTTL_step acc l = foldl ttl_step acc (omap a_ttl l).
Proof.
  revert acc. induction l as [|a l IH]; intros acc; [done|]. simpl. rewrite IH.
  unfold minTTL_step. by destruct (a_ttl a).
Qed.

Lemma foldl_positive l acc : Forall (fun t => 0 < t) l -> 0 < acc -> foldl ttl_step acc l = foldl Z.min acc l.
Proof.
  intros Hl. revert acc. induction Hl as [|t l Ht _ IH]; intros acc Ha; [done|]. simpl.
  assert (ttl_step acc t = Z.min acc t) as ->.
  { unfold ttl_step. destruct (Z.eqb_spec acc 0); [lia|]. simpl. destruct (Z.ltb_spec t acc); lia. }
  apply IH. lia.
Qed.

Lemma positive_ttls l : Forall (fun t => 0 <= t) l -> 0 ∉ l -> Forall (fun t => 0 < t) l.
Proof.
  intros Hl H0. apply Forall_forall. intros t Ht. rewrite Forall_forall in Hl. specialize (Hl t Ht).
  destruct (decide (t = 0)) as [->|]; [done|lia].
Qed.

Lemma foldl_least l acc : Forall (fun t => 0 <= t) l -> 0 <= acc ->
  foldl ttl_step acc l =
  if decide (0 ∈ l) then least (after_zero l) else if decide (acc = 0) then least l else foldl Z.min acc l.
Proof.
  intros Hl. revert acc. induction Hl as [|t l Ht Hl IH]; intros acc Ha.
  { simpl. destruct (decide (0 ∈ @nil Z)) as [H|_]; [by apply elem_of_nil in H|]. by case_decide. }
  simpl. rewrite IH.
  2:{ unfold ttl_step. by destruct (_ || _). }
  destruct (decide (0 ∈ l)) as [H|H]; [by rewrite decide_True by set_solver|].
  destruct (decide (t = 0)) as [->|Ht0].
  - rewrite (decide_True (P := 0 ∈ 0 :: l)) by set_solver.
    assert (ttl_step acc 0 = 0) as ->; [|by rewrite decide_True].
    unfold ttl_step. destruct (Z.eqb_spec acc 0), (Z.ltb_spec 0 acc); simpl; lia.
  - rewrite (decide_False (P := 0 ∈ t :: l)) by set_solver.
    unfold ttl_step. destruct (Z.eqb_spec acc 0) as [->|Hne]; simpl.
    + rewrite decide_False by done. done.
    + rewrite (decide_False (P := acc = 0)) by done. destruct (Z.ltb_spec t acc).
      * rewrite decide_False by done. f_equal. lia.
      * rewrite decide_False by done. f_equal. lia.
Qed.

(** The TTL of an answer.  minTTLSeconds is the least of the TTLs after the last that is zero,
    or the fallback when there is none: a zero TTL, which forbids caching, forgets those before
    it and is itself forgotten, so the result depends on the order of the records. *)
Theorem Resolver_minTTL l fallback :
  Forall (fun a => match a_ttl a with Some t => 0 <= t | None => True end) l ->
  minTTLSeconds l fallback =
    match after_zero (omap a_ttl l) with
    | [] => fallback
    | t :: ts => foldl Z.min t ts
    end.
Proof.
  intros Hl. unfold minTTLSeconds. rewrite foldl_ttls.
  assert (Forall (fun t => 0 <= t) (omap a_ttl l)) as Ht.
  { induction Hl as [|a l Ha _ IH]; [constructor|]. simpl. destruct (a_ttl a); by constructor || done. }
  rewrite foldl_least by done. generalize dependent (omap a_ttl l). clear. intros l Ht.
  assert (forall l', Forall (fun t => 0 < t) l' -> (if least l' =? 0 then fallback else least l') =
            match l' with [] => fallback | t :: ts => foldl Z.min t ts end) as Hp.
  { intros [|t ts] Hp; [done|]. simpl. destruct (Z.eqb_spec (foldl Z.min t ts) 0) as [E|]; [|done].
    exfalso. inversion_clear Hp as [|? ? H1 H2]. clear Ht. revert t H1 E.
    induction H2 as [|u ts Hu _ IH]; intros t Ht E; simpl in E; [lia|]. apply (IH (Z.min t u)); [lia|done]. }
  destruct (decide (0 ∈ l)) as [H0|H0].
  - apply Hp. clear Hp. induction Ht as [|t l Ht Hl IH]; [constructor|]. simpl.
    destruct (decide (0 ∈ l)); [by apply IH|]. destruct (decide (t = 0)); [by apply positive_ttls|].
    apply positive_ttls; [by constructor|set_solver].
  - rewrite decide_True by done. rewrite Hp by (by apply positive_ttls).
    destruct l as [|t l]; [done|]. simpl. rewrite decide_False by set_solver.
    rewrite decide_False by set_solver. done.
Qed.

(** ** The cache over all interleavings *)

Inductive cache_event : Type :=
  | Store (name : string) (addr : IP) (ttlSeconds now : Z)
  | Delete (name : string).

Definition about (name : string) (e : cache_event) : Prop :=
  match e with Store n _ _ _ | Delete n => n = name end.

Definition cache_step (r : tunneledResolver) (e : cache_event) : tunneledResolver :=
  match e with
  | Store name addr ttl now => cacheStore name addr ttl now r
  | Delete name => cache_delete name r
  end.

Definition cache_run (es : list cache_event) (r : tunneledResolver) : tunneledResolver := foldl cache_step r es.

Lemma cache_step_other r e name : ~ about name e -> cache (cache_step r e) !! name = cache r !! name.
Proof. destruct e; simpl; intros H; [by apply lookup_insert_ne|by apply lookup_delete_ne]. Qed.

(** The entry of a name is that of its last store, if it was not deleted since. *)
Lemma cache_run_entry es r name e :
  cache r = ∅ ->
  cache (cache_run es r) !! name = Some e <->
  exists a addr ttl t b, es = a ++ Store name addr ttl t :: b /\ Forall (fun e => ~ about name e) b /\
    e = MkEntry addr (t + clamp_ttl ttl).
Proof.
  intros Hr. unfold cache_run. induction es as [|ev es IH] using rev_ind.
  { simpl. rewrite Hr, lookup_empty. split; [done|]. intros (a & addr & ttl & t & b & H & _).
    by destruct a. }
  rewrite foldl_app. cbn [foldl].
  assert (about name ev \/ ~ about name ev) as [Ha|Ha] by (destruct ev as [n ? ? ?|n]; simpl; destruct (decide (n = name)); auto).
  - destruct ev as [n addr ttl t|n]; simpl in Ha; subst n; simpl.
    + rewrite lookup_insert_eq. split.
      * intros [= <-]. by exists es, addr, ttl, t, [].
      * intros (a & addr' & ttl' & t' & b & H & Hb & ->). destruct b as [|x b _] using rev_ind.
        { apply app_inj_tail in H as [_ H]. by simplify_eq. }
        exfalso. rewrite app_comm_cons, app_assoc in H. apply app_inj_tail in H as [_ <-].
        apply Forall_app in Hb as [_ Hb]. inversion_clear Hb as [|? ? Hx]. by apply Hx.
    + rewrite lookup_delete_eq. split; [done|]. intros (a & addr' & ttl' & t' & b & H & Hb & ->).
      destruct b as [|x b _] using rev_ind; [by apply app_inj_tail in H as [_ H]|].
      rewrite app_comm_cons, app_assoc in H. apply app_inj_tail in H as [_ <-].
      apply Forall_app in Hb as [_ Hb]. inversion_clear Hb as [|? ? Hx]. by destruct Hx.
  - rewrite cache_step_other, IH by done. split.
    + intros (a & addr & ttl & t & b & -> & Hb & ->). exists a, addr, ttl, t, (b ++ [ev]).
      split; [by rewrite <- app_assoc|]. split; [|done]. apply Forall_app. split; [done|]. by constructor.
    + intros (a & addr & ttl & t & b & H & Hb & ->). destruct b as [|x b _] using rev_ind.
      { apply app_inj_tail in H as [_ ->]. by destruct Ha. }
      rewrite app_comm_cons, app_assoc in H. apply app_inj_tail in H as [-> _].
      apply Forall_app in Hb as [Hb _]. by exists a, addr, ttl, t, b.
Qed.

Lemma clamp_ttl_range ttl : 0 <= ttl -> 0 < clamp_ttl ttl <= 5 * Minute.
Proof. unfold clamp_ttl, Minute, Second. intros H. repeat case_match; lia. Qed.

(** The cache answers with what was stored, and not for long.  Over every interleaving of stores
    and deletions by any number of goroutines, a lookup finds an address exactly if the last
    store of that name had it, the name was not deleted since, and the time of the store plus its
    TTL, between zero and five minutes, has not passed. *)
Theorem Resolver_cache network upstream es name now addr :
  cache_read name now (cache_run es (newTunneledResolver network upstream)) = Hit addr <->
  exists a ttl t b, es = a ++ Store name addr ttl t :: b /\ Forall (fun e => ~ about name e) b /\
    now <= t + clamp_ttl ttl /\ (0 <= ttl -> 0 < clamp_ttl ttl <= 5 * Minute).
Proof.
  unfold cache_read. set (r := newTunneledResolver network upstream).
  assert (cache r = ∅) as Hr by done. pose proof (fun e => cache_run_entry es r name e Hr) as He.
  destruct (cache (cache_run es r) !! name) as [e|].
  - split.
    + destruct (Z.ltb_spec (expires e) now) as [|Hn]; [done|]. intros [= <-].
      destruct (proj1 (He e) eq_refl) as (a & addr & ttl & t & b & -> & Hb & ->).
      exists a, ttl, t, b. split_and!; try done. apply clamp_ttl_range.
    + intros (a & ttl & t & b & -> & Hb & Hn & _).
      assert (Some e = Some (MkEntry addr (t + clamp_ttl ttl))) as [= ->] by (apply He; by exists a, addr, ttl, t, b).
      simpl. by rewrite (proj2 (Z.ltb_ge _ _)) by lia.
  - split; [done|]. intros (a & ttl & t & b & -> & Hb & _).
    specialize (He (MkEntry addr (t + clamp_ttl ttl))). assert (None = Some (MkEntry addr (t + clamp_ttl ttl))); [|done].
    apply He. by exists a, addr, ttl, t, b.
Qed.

(** ** Exchanges *)

Lemma wrap_Ok {A} msg (m : IO A) c a c' : m c = (Ok a, c') -> wrap msg m c = (Ok a, c').
Proof. unfold wrap. by intros ->. Qed.

(** A query over TCP.  The query is sent as one frame, from which the upstream reads exactly
    it, and the message that the upstream has framed is the reply, with nothing read beyond it. *)
Theorem Resolver_tcp {Msg} (unpack : list byte -> option Msg) query reply m rest e t :
  len query <= 65535 -> 0 < len reply <= 65535 -> unpack reply = Some m ->
  let frame := PutUint16 (len query) ++ query in
  exchangeTCP unpack query (Conn (PutUint16 (len reply) ++ reply ++ rest) e t None e) =
    (Ok m, Conn rest e (t ++ frame) None e) /\
  (l ← ReadFull 2; ReadFull (Z.to_nat (be_get l))) (conn_of frame) = (Ok query, conn_of []).
Proof.
  intros Hq Hr Hu frame.
  assert (forall l : list byte, len l <= 65535 -> Z.to_nat (be_get (PutUint16 (len l))) = length l) as Hl.
  { intros l H. rewrite be_get_put16. unfold u16, len in *. rewrite Z.mod_small by lia. lia. }
  split.
  - unfold exchangeTCP. destruct (len query >? 65535) eqn:E; [apply Z.gtb_lt in E; lia|].
    erewrite bind_Ok by (apply wrap_Ok, Write__Conn).
    erewrite bind_Ok by (apply wrap_Ok, ReadFull_exact; apply length_be_put).
    destruct (Z.eqb_spec (be_get (PutUint16 (len reply))) 0) as [H0|_].
    { rewrite be_get_put16 in H0. unfold u16 in H0. rewrite Z.mod_small in H0 by lia. lia. }
    erewrite bind_Ok by (apply wrap_Ok, ReadFull_exact; by rewrite Hl by lia). by rewrite Hu.
  - unfold frame, conn_of. erewrite bind_Ok by (apply ReadFull_exact; apply length_be_put).
    rewrite Hl by done. rewrite <- (app_nil_r query) at 2. by apply ReadFull_exact.
Qed.

(** The exchanges of a resolver, one after the other: what remains of their deadlines. *)
Lemma timeout_shorten d r : timeout (shorten d r) =
  match d with Some d => if 0 <? d then Z.min (timeout r) d else timeout r | None => timeout r end.
Proof.
  unfold shorten. destruct d as [d|]; [|done]. destruct (Z.ltb_spec 0 d); simpl; [|done].
  destruct (Z.ltb_spec d (timeout r)); simpl; lia.
Qed.

(** The timeout only shrinks.  After any sequence of exchanges the timeout of the resolver is the
    least of the ten seconds it began with and the deadlines, while they had time left, of all
    the requests so far: one request with little time left shortens the timeout of every later
    one, also of those without a deadline. *)
Theorem Resolver_timeout {Msg} (unpack : list byte -> option Msg) fqdn pack network upstream
    (calls : list (option Z * result conn * result (list byte) * first * string)) :
  let r := foldl (fun r c => let '(d, tunnel, chunk, f, name) := c in
                   (exchange unpack fqdn pack d tunnel chunk f name r).2)
             (newTunneledResolver network upstream) calls in
  timeout r = foldl Z.min (10 * Second)
    (omap (fun c => let '(d, _, _, _, _) := c in
             match d with Some d => if 0 <? d then Some d else None | None => None end) calls).
Proof.
  intros r. subst r. change (10 * Second) with (timeout (newTunneledResolver network upstream)).
  generalize (newTunneledResolver network upstream) as r.
  induction calls as [|[[[[d tn] ch] f] name] calls IH]; intros r; [done|].
  cbn [foldl]. rewrite IH. cbn [omap list_omap]. unfold exchange. cbn [snd]. rewrite timeout_shorten.
  destruct d as [d|]; [|done]. by destruct (0 <? d).
Qed.

Lemma Resolver_minTTL_witness :
  let rr t := MkAnswer None (Some t) in
  minTTLSeconds [rr 0; rr 300] 60 = 300 /\ minTTLSeconds [rr 300; rr 0] 60 = 60 /\
  minTTLSeconds [rr 30; rr 0; rr 300; rr 200] 60 = 200.
Proof.
  intros rr.
  split; [|split].
  - rewrite (Resolver_minTTL [rr 0; rr 300] 60) by (repeat constructor; simpl; lia). by vm_compute.
  - rewrite (Resolver_minTTL [rr 300; rr 0] 60) by (repeat constructor; simpl; lia). by vm_compute.
  - rewrite (Resolver_minTTL [rr 30; rr 0; rr 300; rr 200] 60) by (repeat constructor; simpl; lia). by vm_compute.
Defined.

Lemma Resolver_tcp_witness :
  exchangeTCP (fun b => Some (len b)) [x01; x02]%byte (conn_of [x00; x03; x0a; x0b; x0c; xff]%byte) =
    (Ok 3, Conn [xff]%byte EOF [x00; x02; x01; x02]%byte None EOF).
Proof.
  apply (Resolver_tcp (fun b => Some (len b)) [x01; x02]%byte [x0a; x0b; x0c]%byte 3 [xff]%byte EOF []);
    [by vm_compute|by vm_compute|done].
Defined.
