(* ===== verification/DpiForward.v ===== *)
(** The forwards of the DPI client: dpi/client/proxy.go, handleTCPForward, runUDPForwardOnce, the
    copying of a local HTTP connection, and the loop that keeps a reverse bind.

    A forward joins a local socket to a tunnelConn with two goroutines: one reads the socket and
    calls Write, the other calls Read and writes to the socket.  Whichever ends first sends on
    errCh, on which the main goroutine closes the tunnel.  The forward is a transition system
    around that of DpiTunnel.v: its goroutines make the calls, and the pumps of the tunnelConn
    move between them. *)

From S2P Require Import Prelude DpiTunnel.
From Stdlib Require Import ZArith Lia Strings.Byte Strings.String.
From stdpp Require Import gmap list strings.

#[local] Open Scope Z_scope.
#[local] Open Scope list_scope.

(** ** Opening *)

(** How the opening of a forward ends: at the Connect, at the tunnelConn (with or without a
    CloseConn for the connection id), or with the tunnelConn of an id. *)
Inductive opening : Type :=
  | NoConn (e : goerr)
  | NoTunnel (connID : Z) (e : goerr) (closes : bool)
  | Opened (connID : Z).

(** [connect] and [stream] are what transport.Connect and the DownloadStream of newTunnelConn
    return.  Only handleTCPForward closes the connection when there is no stream. *)
Definition open_forward (closes : bool) (connect : result Z) (stream : Z -> result unit) :
    result opening :=
  match connect with
  | Ok id =>
      match stream id with
      | Ok _ => Ok (Opened id)
      | Err e => Ok (NoTunnel id e closes)
      | Panic m => Panic m
      | OutOfFuel => OutOfFuel
      end
  | Err e => Ok (NoConn e)
  | Panic m => Panic m
  | OutOfFuel => OutOfFuel
  end.

Definition handleTCPForward := open_forward true.
(** The far end of a reverse connection: it has its id already, and net.Dial for a Connect. *)
Definition handleReverseOpen (dial : result unit) (connID : Z) (stream : Z -> result unit) : result opening :=
  match dial with
  | Ok _ => open_forward true (Ok connID) stream
  | Err e => Ok (NoTunnel connID e true)
  | Panic m => Panic m
  | OutOfFuel => OutOfFuel
  end.
Definition runUDPForwardOnce := open_forward false.

(** ** State *)

(** The goroutine that reads the socket: in its read, in the Write of a call, returned. *)
Inductive up_loop : Type := UpRead | UpWrite (id : nat) | UpDone.

(** The goroutine that reads the tunnel: about to call Read, in the Read that follows [k]
    results, returned. *)
Inductive down_loop : Type := DownCall | DownRead (k : nat) | DownDone.

(** [last] is the peer of the last datagram; [finished] says that the main goroutine has received
    from errCh and closed the tunnel.  [received] and [outs] are kept for the statements: what
    was read from the socket and what was written to it, with the peers. *)
Record forward := MkForward {
  tun : tunnelConn; up : up_loop; down : down_loop; last : option string; finished : bool;
  received : list (string * list byte); outs : list (string * list byte)
}.

Definition new_forward : forward := MkForward newTunnelConn UpRead DownCall None false [] [].

Definition set_tun v f := MkForward v (up f) (down f) (last f) (finished f) (received f) (outs f).
Definition set_up v f := MkForward (tun f) v (down f) (last f) (finished f) (received f) (outs f).
Definition set_down v f := MkForward (tun f) (up f) v (last f) (finished f) (received f) (outs f).
Definition set_finished f := MkForward (tun f) (up f) (down f) (last f) true (received f) (outs f).
Definition add_received from d f :=
  MkForward (tun f) (up f) (down f) (Some from) (finished f) (received f ++ [(from, d)]) (outs f).
Definition add_out v f :=
  MkForward (tun f) (up f) (down f) (last f) (finished f) (received f) (outs f ++ [v]).

(** ** Steps *)

Section forward.
(** Whether the socket is a UDP socket; a TCP connection has one peer, without a name. *)
Context (udp : bool).

Definition up_size : nat := if udp then Z.to_nat 65535 else Z.to_nat 32768.
Definition down_size : nat := if udp then Z.to_nat 65535 else Z.to_nat 32768.

Inductive flabel : Type :=
  | Recv (from : string) (data : list byte)  (* the socket's read returns data *)
  | RecvEnd                                  (* it returns an error, or the end of the stream *)
  | WriteRet                                 (* the call of Write returns *)
  | ReadStart                                (* the call of Read *)
  | ReadRet (failed : bool)                  (* it returns; whether writing to the socket fails *)
  | Finish                                   (* <-errCh, and the deferred Close of the tunnel *)
  | Inner (l : label).                       (* a step inside the tunnelConn *)

(** The calls of the tunnelConn are made by the forward only. *)
Definition inner (l : label) : bool :=
  match l with W (WriteCall _ _) | R (ReadCall _) | Close => false | _ => true end.

(** A read of the socket: io.Copy writes no empty chunk, and a UDP socket may return one. *)
Definition recv (from : string) (data : list byte) (f : forward) : option forward :=
  if bool_decide (length data <= up_size)%nat && (udp || negb (bool_decide (data = []))) then
    let id := length (received f) in
    t ← step (W (WriteCall id data)) (tun f);
    Some (set_up (UpWrite id) (set_tun t (add_received from data f)))
  else None.

(** The call of Write returns: the loop goes on, or ends with the error. *)
Definition write_ret (id : nat) (f : forward) : option forward :=
  match writers (wr (tun f)) !! id with
  | Some (WRet (Ok _)) => Some (set_up UpRead f)
  | Some (WRet _) => Some (set_up UpDone f)
  | _ => None
  end.

(** The call of Read returns.  The UDP loop ignores the errors of WriteToUDP and drops what
    arrives before the first datagram; io.Copy ends on an error of its writer. *)
Definition read_ret (k : nat) (failed : bool) (f : forward) : option forward :=
  match reads (rd (tun f)) !! k with
  | Some (Ok data) =>
      if udp then
        Some (set_down DownCall
                match data, last f with [], _ | _, None => f | _, Some dst => add_out (dst, data) f end)
      else Some (if failed then set_down DownDone f
                 else set_down DownCall (add_out (EmptyString, data) f))
  | Some _ => Some (set_down DownDone f)
  | None => None
  end.

Definition fwd_step (l : flabel) (f : forward) : option forward :=
  match l with
  | Recv from data => match up f with UpRead => recv from data f | _ => None end
  | RecvEnd => match up f with UpRead => Some (set_up UpDone f) | _ => None end
  | WriteRet => match up f with UpWrite id => write_ret id f | _ => None end
  | ReadStart =>
      match down f with
      | DownCall =>
          t ← step (R (ReadCall down_size)) (tun f);
          Some (set_down (DownRead (length (reads (rd (tun f))))) (set_tun t f))
      | _ => None
      end
  | ReadRet failed => match down f with DownRead k => read_ret k failed f | _ => None end
  | Finish =>
      match up f, down f, finished f with
      | UpDone, _, false | _, DownDone, false =>
          t ← step Close (tun f); Some (set_finished (set_tun t f))
      | _, _, _ => None
      end
  | Inner l => if inner l then t ← step l (tun f); Some (set_tun t f) else None
  end.

Fixpoint fwd_run (ls : list flabel) (f : forward) : option forward :=
  match ls with
  | [] => Some f
  | l :: ls => f ← fwd_step l f; fwd_run ls f
  end.
End forward.

(** ** The calls of Write: one request at a time *)

(** How far the request of the last call has come: not queued, in [writeCh], in the batch, sent,
    failed. *)
Inductive progress : Type := Unqueued | Queued | Held | Sent | Failed.

Definition clean (w : wside) : Prop := writeCh w = [] /\ batch w = [] /\ acks w = [].
Definition sending (w : wside) : Prop := match pumpW w with PSend _ => True | _ => False end.
Definition sent_data (w : wside) : list (list byte) := map snd (sent w).

Definition at_stage (rs : list (list byte)) (id : nat) (d : list byte) (p : progress) (w : wside) :
    Prop :=
  match p with
  | Unqueued => clean w /\ ~ sending w /\ sent_data w = rs /\ answers w !! id = None
  | Queued => writeCh w = [MkReq id d] /\ batch w = [] /\ acks w = [] /\ ~ sending w /\
              sent_data w = rs /\ answers w !! id = None
  | Held => writeCh w = [] /\ batch w = d /\ acks w = [id] /\ sent_data w = rs /\
            answers w !! id = None
  | Sent => clean w /\ ~ sending w /\ sent_data w = rs ++ [d] /\ answers w !! id = Some None
  | Failed => clean w /\ ~ sending w /\ sent_data w = rs /\ exists e, answers w !! id = Some (Some e)
  end.

Definition writer_ok (d : list byte) (v : option writer) (p : progress) : Prop :=
  match v with
  | Some (WEnqueue b) => b = d /\ p = Unqueued
  | Some (WWait _) => p <> Unqueued
  | Some (WRet (Ok _)) => p = Sent
  | Some (WRet (Err _)) => True
  | _ => False
  end.

Record pending (rs : list (list byte)) (id : nat) (d : list byte) (p : progress) (w : wside) :
    Prop := {
  pd_stage : at_stage rs id d p w;
  pd_writer : writer_ok d (writers w !! id) p;
  pd_others : forall i, i <> id -> returned (writers w !! i);
  pd_fresh : forall i, (id < i)%nat -> writers w !! i = None /\ answers w !! i = None
}.

(** A change of the writer of [id] only. *)
Lemma pending_writer rs id d p v w :
  pending rs id d p w -> writer_ok d (Some v) p -> pending rs id d p (set_writer id v w).
Proof.
  intros [Hs _ Ho Hf] Hv. split; simpl.
  - by destruct p.
  - by rewrite lookup_insert_eq.
  - intros i Hi. rewrite lookup_insert_ne by done. by apply Ho.
  - intros i Hi. rewrite lookup_insert_ne by lia. by apply Hf.
Qed.

(** A change of the rest of the writing side. *)
Lemma pending_stage rs id d p p' w w' :
  pending rs id d p w -> writers w' = writers w ->
  (forall i, (id < i)%nat -> answers w' !! i = answers w !! i) ->
  at_stage rs id d p' w' -> (forall v, writer_ok d v p -> writer_ok d v p') ->
  pending rs id d p' w'.
Proof.
  intros [Hs Hw Ho Hf] Ew Ea Hs' Hp. split; [done|rewrite Ew; auto..|].
  intros i Hi. rewrite Ew, Ea by done. by apply Hf.
Qed.

Lemma pending_write_call l c w c' w' rs id d p :
  match l with WriteQueue _ | WriteClosed _ | WriteAnswer _ => True | _ => False end ->
  write_step l c w = Some (c', w') -> pending rs id d p w ->
  exists p', pending rs id d p' w'.
Proof.
  intros Hl H Hp. pose proof Hp as [Hs Hw Ho Hf].
  destruct l as [|i|i|i| | | |e|]; try done; simpl in H;
    (destruct (decide (i = id)) as [->|Hne];
      [|by specialize (Ho i Hne); destruct (writers w !! i) as [[]|]]);
    destruct (writers w !! id) as [[b|n|r]|] eqn:Ew; simpl in Hw; try done.
  - case_bool_decide; [|done]. injection H as <- <-. destruct Hw as [-> ->].
    exists Queued. destruct Hs as ((H1 & H2 & H3) & H4 & H5 & H6). split; simpl.
    + by rewrite H1.
    + by rewrite lookup_insert_eq.
    + intros i Hi. rewrite lookup_insert_ne by done. by apply Ho.
    + intros i Hi. rewrite lookup_insert_ne by lia. by apply Hf.
  - destruct c; [|done]. injection H as <- <-. exists p. by apply pending_writer.
  - destruct c; [|done]. injection H as <- <-. exists p. by apply pending_writer.
  - assert (answers w !! id = Some None -> p = Sent) as Ep.
    { intros Ea. destruct p; simpl in Hs; destruct_and?; try (match goal with H : exists _, _ |- _ => destruct H end); congruence. }
    destruct (answers w !! id) as [[e|]|] eqn:Ea; [..|done]; injection H as <- <-; exists p; apply pending_writer; simpl; auto.
Qed.

(** A change of the pump and of its timer. *)
Lemma pending_pumpW rs id d p w w' :
  pending rs id d p w -> writers w' = writers w -> answers w' = answers w ->
  writeCh w' = writeCh w -> batch w' = batch w -> acks w' = acks w -> sent w' = sent w ->
  (sending w' -> p = Held) -> pending rs id d p w'.
Proof.
  intros Hp Ew Ea E1 E2 E3 E4 Hsend. apply (pending_stage _ _ _ p p w); auto; [by rewrite Ea|].
  destruct Hp as [Hs _ _ _]. unfold at_stage, clean, sent_data in *. rewrite Ea, E1, E2, E3, E4.
  assert (p <> Held -> ~ sending w') by tauto. destruct p; naive_solver.
Qed.

Lemma writer_ok_late d v p p' :
  p <> Unqueued -> p <> Sent -> p' <> Unqueued -> writer_ok d v p -> writer_ok d v p'.
Proof. destruct v as [[b|n|[| | |]]|]; simpl; try done. intros Hp _ _ [_ ?]. done. Qed.

Lemma pending_pump l c w c' w' rs id d p :
  match l with PumpTake | PumpTimer | PumpClosed | SendReturns _ | PumpClose => True | _ => False end ->
  write_step l c w = Some (c', w') -> pending rs id d p w ->
  exists p', pending rs id d p' w'.
Proof.
  intros Hl H Hp. pose proof Hp as [Hs _ _ _]. unfold at_stage, clean, sending in Hs.
  destruct l as [|i|i|i| | | |e|]; try done; simpl in H; destruct (pumpW w) as [|last| |] eqn:Epump; try done.
  - destruct (writeCh w) as [|r q] eqn:Eq; [done|]. injection H as <- <-.
    destruct p; destruct_and?; simplify_eq/=. exists Held. unfold pump_take. simpl.
    replace (batch w) with (@nil byte) by done. replace (acks w) with (@nil nat) by done. simpl.
    eapply (pending_stage _ _ _ Queued); [done|..]; (destruct (maxBatchBytes <=? len d); [|destruct (timer w)]); simpl; try done.
    all: by intros v; apply writer_ok_late.
  - destruct (timer w); [done| |done]. injection H as <- <-. exists p. unfold pump_timer. simpl.
    destruct (batch w) eqn:Eb; (eapply pending_pumpW; [exact Hp|done..|]);
      unfold sending; simpl; rewrite ?Epump; [done|]. intros _. destruct p; destruct_and?; congruence.
  - destruct c; [|done]. injection H as <- <-. exists p. unfold pump_closed.
    destruct (batch w) eqn:Eb; (eapply pending_pumpW; [exact Hp|done..|]); [done|].
    intros _. destruct p; destruct_and?; congruence.
  - destruct p; try tauto. destruct Hs as (H1 & H2 & H3 & H4 & H5).
    unfold send_returns in H. destruct e as [e|]; injection H as <- <-; [exists Failed|exists Sent];
      (eapply (pending_stage _ _ _ Held); [done|done|..]); simpl; rewrite ?H3.
    all: unfold clean, sending, sent_data; simpl; rewrite ?map_app, ?H3; simpl.
    all: try (intros i Hi; by rewrite lookup_insert_ne by lia).
    all: try (by intros v; apply writer_ok_late).
    + split_and!; try done; [tauto|]. exists e. by rewrite lookup_insert_eq.
    + split_and!; try done; [by destruct last; intros []|by rewrite H2, <- H4|by rewrite lookup_insert_eq].
  - injection H as <- <-. exists p. by eapply pending_pumpW; [exact Hp|..].
Qed.

(** Nothing is under way: everything that was received is sent. *)
Record idle_up (rs : list (list byte)) (w : wside) : Prop := {
  iu_clean : clean w;
  iu_pump : ~ sending w;
  iu_sent : sent_data w = rs;
  iu_writers : forall i, returned (writers w !! i);
  iu_fresh : forall i, (length rs <= i)%nat -> writers w !! i = None /\ answers w !! i = None
}.

Lemma idle_write l c w c' w' rs :
  no_call l -> write_step l c w = Some (c', w') -> idle_up rs w -> idle_up rs w'.
Proof.
  intros Hl H [(H1 & H2 & H3) Hp Hs Hw Hf].
  destruct l as [|i|i|i| | | |e|]; [done|..]; simpl in H.
  1-3: specialize (Hw i); by destruct (writers w !! i) as [[]|].
  all: unfold sending in Hp; destruct (pumpW w) as [|last| |] eqn:Epump; try done.
  - by rewrite H1 in H.
  - destruct (timer w); try done. injection H as <- <-. unfold pump_timer. simpl. rewrite H2.
    split; auto; try done. unfold sending. simpl. by rewrite Epump.
  - destruct c; [|done]. injection H as <- <-. unfold pump_closed. rewrite H2. split; auto; done.
  - injection H as <- <-. split; auto; done.
Qed.

Lemma pending_start rs d w :
  idle_up rs w -> pending rs (length rs) d Unqueued (set_writer (length rs) (WEnqueue d) w).
Proof.
  intros [Hc Hp Hs Hw Hf]. split; simpl.
  - split_and!; try done. by apply Hf.
  - by rewrite lookup_insert_eq.
  - intros i Hi. rewrite lookup_insert_ne by done. apply Hw.
  - intros i Hi. rewrite lookup_insert_ne by lia. apply Hf. lia.
Qed.

Lemma pending_end rs id d p n w :
  id = length rs -> pending rs id d p w -> writers w !! id = Some (WRet (Ok n)) -> idle_up (rs ++ [d]) w.
Proof.
  intros -> [Hs Hw Ho Hf] E. rewrite E in Hw. simpl in Hw. subst p. destruct Hs as (Hc & Hp & Hs & Ha).
  split; auto.
  - intros i. destruct (decide (i = length rs)) as [->|]; [by rewrite E|by apply Ho].
  - intros i. rewrite length_app. simpl. intros Hi. apply Hf. lia.
Qed.

Lemma returned_write l c w c' w' id :
  no_call l -> write_step l c w = Some (c', w') ->
  (exists r, writers w !! id = Some (WRet r)) -> exists r, writers w' !! id = Some (WRet r).
Proof.
  intros Hl H (r & Hr).
  destruct l as [|i|i|i| | | |e|]; [done|..]; simpl in H.
  1-3: destruct (decide (i = id)) as [->|Hne]; [by rewrite Hr in H|]; exists r; rewrite <- Hr;
    destruct (writers w !! i) as [[]|]; repeat case_match; simplify_eq/=;
    by rewrite lookup_insert_ne.
  all: exists r; rewrite <- Hr; repeat case_match; simplify_eq/=; unfold pump_take, pump_timer, pump_closed, send_returns;
    repeat (case_match; simpl); done.
Qed.

Definition up_inv (rs : list (list byte)) (u : up_loop) (w : wside) : Prop :=
  match u with
  | UpRead => idle_up rs w
  | UpWrite id => exists rs0 d p, rs = rs0 ++ [d] /\ id = length rs0 /\ pending rs0 id d p w
  | UpDone => idle_up rs w \/
      exists rs0 d p, rs = rs0 ++ [d] /\ pending rs0 (length rs0) d p w /\
        exists r, writers w !! length rs0 = Some (WRet r)
  end.

Lemma pending_write l c w c' w' rs id d p :
  no_call l -> write_step l c w = Some (c', w') -> pending rs id d p w ->
  exists p', pending rs id d p' w'.
Proof.
  intros Hl H Hp. destruct l; [done|..].
  1-3: by eapply pending_write_call; [|exact H|exact Hp].
  all: by eapply pending_pump; [|exact H|exact Hp].
Qed.

Lemma up_write l c w c' w' rs u :
  no_call l -> write_step l c w = Some (c', w') -> up_inv rs u w -> up_inv rs u w'.
Proof.
  intros Hl H. destruct u; simpl.
  - by eapply idle_write.
  - intros (rs0 & d & p & -> & -> & Hp). edestruct pending_write as (p' & Hp'); eauto 10.
  - intros [Hi|(rs0 & d & p & -> & Hp & Hr)]; [left; by eapply idle_write|right].
    edestruct pending_write as (p' & Hp'); eauto.
    exists rs0, d, p'. split; [done|]. split; [done|]. by eapply returned_write.
Qed.

(** What is lost is at most the last item. *)
Lemma up_inv_sent rs u w : up_inv rs u w ->
  exists lost, rs = sent_data w ++ lost /\ (length lost <= 1)%nat /\ (u = UpRead -> lost = []).
Proof.
  assert (forall rs0 d p, pending rs0 (length rs0) d p w ->
    exists lost, rs0 ++ [d] = sent_data w ++ lost /\ (length lost <= 1)%nat) as Hpend.
  { intros rs0 d p [Hs _ _ _]. destruct p; simpl in Hs; destruct_and?;
      try (exists [d]; split; [congruence|simpl; lia]).
    exists []. rewrite app_nil_r. split; [done|simpl; lia]. }
  destruct u; simpl.
  - intros [_ _ <- _ _]. exists []. rewrite app_nil_r. split; [done|]. split; [simpl; lia|done].
  - intros (rs0 & d & p & -> & -> & Hp). destruct (Hpend _ _ _ Hp) as (lost & ? & ?). by exists lost.
  - intros [[_ _ <- _ _]|(rs0 & d & p & -> & Hp & _)].
    + exists []. rewrite app_nil_r. split; [done|]. split; [simpl; lia|done].
    + destruct (Hpend _ _ _ Hp) as (lost & ? & ?). by exists lost.
Qed.

(** ** The calls of Read: whole chunks *)

Definition nonempty (l : list (list byte)) : list (list byte) := filter (fun d => d <> []) l.
Definition ok_chunks (l : list (result (list byte))) : list (list byte) :=
  omap (fun r => match r with Ok d => Some d | _ => None end) l.
Definition hand (p : read_pump) : list (list byte) := match p with RPutting d _ => [d] | _ => [] end.

(** The chunks of the stream are those the Reads have returned, then those on their way, then
    one that was dropped because the connection was closed. *)
Record whole_chunks (r : rside) (lost : list (list byte)) : Prop := {
  wc_chunks : nonempty (streamed r) = ok_chunks (reads r) ++ readCh r ++ hand (pumpR r) ++ lost;
  wc_buf : readBuf r = [];
  wc_size : Forall (fun d => (length d <= readBufSize)%nat) (readCh r ++ hand (pumpR r));
  wc_call : match reading r with Some n => (readBufSize <= n)%nat | None => True end;
  wc_lost : lost = [] \/ pumpR r = RDone
}.

Definition chunks_ok (r : rside) : Prop := exists lost, whole_chunks r lost.

Lemma ok_chunks_app a b : ok_chunks (a ++ b) = ok_chunks a ++ ok_chunks b.
Proof. apply omap_app. Qed.

Lemma nonempty_app a b : nonempty (a ++ b) = nonempty a ++ nonempty b.
Proof. apply filter_app. Qed.

(** A step of pumpRead: nothing was dropped before it. *)
Lemma chunks_pump r r' :
  pumpR r <> RDone -> chunks_ok r -> (whole_chunks r [] -> chunks_ok r') -> chunks_ok r'.
Proof.
  intros Hp (lost & H) Hr. apply Hr. assert (lost = []) as <-; [|done]. by destruct (wc_lost _ _ H).
Qed.

Lemma chunks_step l c r r' :
  match l with ReadCall n => (readBufSize <= n)%nat | _ => True end ->
  read_step l c r = Some r' -> chunks_ok r -> chunks_ok r'.
Proof.
  intros Hl H Hs.
  destruct l as [|chunk failed| | | |n| |]; simpl in H.
  1-5: destruct (pumpR r) eqn:Ep; try done; (apply (chunks_pump r); [congruence|done|]);
    intros [Hc Hb Hz Hn _]; rewrite Ep in *; simpl in *.
  - injection H as <-. exists []. by destruct c; split; simpl; auto.
  - case_bool_decide; [|done]. injection H as <-. exists []. split; simpl; auto.
    + rewrite nonempty_app, Hc, app_nil_r. destruct chunk as [|b chunk]; [destruct failed|]; simpl;
        rewrite ?app_nil_r; try done. by rewrite <- (assoc_L (++)).
    + rewrite app_nil_r in Hz. destruct chunk as [|b chunk]; [destruct failed|]; simpl;
        rewrite ?app_nil_r; try done. apply Forall_app. split; [done|by constructor].
  - case_bool_decide; [|done]. injection H as <-. exists []. split; simpl; auto.
    + rewrite Hc. destruct failed; simpl; by rewrite <- !(assoc_L (++)).
    + destruct failed; simpl; by rewrite app_nil_r.
  - destruct c; [|done]. injection H as <-. exists [data]. split; simpl; auto.
    apply Forall_app in Hz as [? _]. by rewrite app_nil_r.
  - injection H as <-. exists []. by destruct c; split; simpl; auto.
  - destruct Hs as (lost & [Hc Hb Hz Hn Hlost]). exists lost. unfold Read in H.
    destruct (reading r); [done|]. rewrite Hb in H. injection H as <-. by split.
  - destruct Hs as (lost & [Hc Hb Hz Hn Hlost]). exists lost.
    destruct (reading r) as [n|]; [|done]. destruct (readCh r) as [|d q]; [done|]. injection H as <-.
    apply Forall_cons in Hz as [Hd Hz].
    split; simpl; auto; [|by apply drop_ge; lia].
    rewrite Hc, ok_chunks_app, take_ge by lia. simpl. by rewrite <- (assoc_L (++)).
  - destruct Hs as (lost & [Hc Hb Hz Hn Hlost]). exists lost.
    destruct (reading r); [|done]. destruct (readCh r) eqn:Eq; [|done].
    destruct (readChClosed r); [|done]. injection H as <-. split; simpl; rewrite ?Eq; auto.
    rewrite ok_chunks_app. simpl. by rewrite app_nil_r.
Qed.

(** ** The forward *)

(** The results of Read that the loop has still to handle. *)
Definition unread (d : down_loop) (r : rside) : Prop :=
  match d with
  | DownCall => reading r = None
  | DownRead k => match reading r with
                  | Some _ => length (reads r) = k
                  | None => length (reads r) = S k
                  end
  | DownDone => True
  end.

Definition tail_of (d : down_loop) (r : rside) (tail : list (list byte)) : Prop :=
  match d with
  | DownCall => tail = []
  | DownRead k => tail = ok_chunks (drop k (reads r))
  | DownDone => True
  end.

Record fwd_inv (udp : bool) (f : forward) : Prop := {
  fi_up : up_inv (map snd (received f)) (up f) (wr (tun f));
  fi_chunks : chunks_ok (rd (tun f));
  fi_unread : unread (down f) (rd (tun f));
  fi_outs : exists dropped tail,
    ok_chunks (reads (rd (tun f))) = dropped ++ map snd (outs f) ++ tail /\
    tail_of (down f) (rd (tun f)) tail /\ (udp = false -> dropped = []);
  fi_last : match last f with Some a => a ∈ map fst (received f) | None => udp = true -> outs f = [] end;
  fi_dst : udp = true -> Forall (fun o => o.1 ∈ map fst (received f)) (outs f)
}.

(** A step inside the tunnelConn. *)
Lemma unread_step l c r r' d :
  match l with ReadCall _ => False | _ => True end -> read_step l c r = Some r' ->
  unread d r -> unread d r' /\ forall tail, tail_of d r tail ->
    exists tail', tail_of d r' tail' /\
      forall pre, ok_chunks (reads r) = pre ++ tail -> ok_chunks (reads r') = pre ++ tail'.
Proof.
  intros Hl H Hd.
  assert (reads r' = reads r /\ reading r' = reading r \/
    reading r <> None /\ reading r' = None /\ exists x, reads r' = reads r ++ [x]) as [[E1 E2]|(E1 & E2 & x & E3)].
  { destruct l; try done; simpl in H; repeat case_match; simplify_eq/=; eauto 10. }
  - split; [destruct d; simpl in *; by rewrite ?E1, ?E2|]. intros tail Ht. exists tail.
    split; [destruct d; simpl in *; by rewrite ?E1|]. intros pre. by rewrite E1.
  - destruct d as [|k|]; simpl in *.
    + congruence.
    + destruct (reading r); [|done]. rewrite E2, E3, length_app. simpl. split; [lia|].
      intros tail ->. exists (ok_chunks (drop k (reads r ++ [x]))). split; [done|]. intros pre.
      subst k. rewrite drop_all, drop_app_length, ok_chunks_app. simpl. intros ->. by rewrite app_nil_r.
    + split; [done|]. intros tail _. exists (tail ++ ok_chunks [x]). split; [done|].
      intros pre Hp. by rewrite E3, ok_chunks_app, Hp, (assoc_L (++)).
Qed.

Lemma fwd_inv_start udp : fwd_inv udp new_forward.
Proof.
  split; simpl; auto.
  - split; simpl; auto; [by split_and!|]. intros i. by rewrite lookup_empty.
  - exists []. by split; simpl; auto.
  - exists [], []. by split_and!.
Qed.

Lemma fwd_inner udp l f t :
  inner l = true -> step l (tun f) = Some t -> fwd_inv udp f -> fwd_inv udp (set_tun t f).
Proof.
  intros Hl H [H1 H2 H3 H4 H5 H6]. destruct l as [l|l|]; [..|done]; simpl in H.
  - destruct (write_step l _ _) as [[c w]|] eqn:E; [|done]. injection H as <-.
    split; simpl; auto. eapply up_write; [|exact E|done]. by destruct l.
  - destruct (read_step l _ _) as [r|] eqn:E; [|done]. injection H as <-.
    destruct (unread_step l _ _ _ (down f) ltac:(by destruct l) E H3) as [Hu Ht].
    destruct H4 as (dropped & tail & Hc & Htl & Hdr). destruct (Ht _ Htl) as (tail' & Htl' & Hc').
    split; simpl; auto.
    + eapply chunks_step; [|exact E|done]. by destruct l.
    + exists dropped, tail'. split_and!; auto. rewrite (assoc_L (++)). apply Hc'. by rewrite <- (assoc_L (++)).
Qed.

Lemma fwd_recv udp from d f f' :
  up f = UpRead -> recv udp from d f = Some f' -> fwd_inv udp f -> fwd_inv udp f'.
Proof.
  unfold recv. destruct (_ && _); [|done]. intros Hu H [H1 H2 H3 H4 H5 H6]. rewrite Hu in H1.
  pose proof (iu_fresh _ _ H1 (length (received f))) as [Hf _]; [by rewrite length_map|].
  simpl in H. rewrite Hf in H. simpl in H. injection H as <-. split; simpl; auto.
  - rewrite map_app. simpl. exists (map snd (received f)), d, Unqueued. rewrite length_map.
    split_and!; try done. rewrite <- (length_map snd). by apply pending_start.
  - rewrite map_app. apply elem_of_app. right. by apply list_elem_of_singleton.
  - intros Hudp. eapply Forall_impl; [by apply H6|]. intros o Ho. rewrite map_app. apply elem_of_app. by left.
Qed.

Lemma fwd_write_ret udp id f f' :
  up f = UpWrite id -> write_ret id f = Some f' -> fwd_inv udp f -> fwd_inv udp f'.
Proof.
  unfold write_ret. intros Hu H [H1 H2 H3 H4 H5 H6]. rewrite Hu in H1.
  destruct H1 as (rs0 & d & p & E & -> & Hp).
  destruct (writers (wr (tun f)) !! length rs0) as [[| |r]|] eqn:Ew; try done.
  assert (Hdone : up_inv (map snd (received f)) UpDone (wr (tun f))).
  { right. rewrite E. eauto 10. }
  destruct r; injection H as <-; split; simpl; auto.
  rewrite E. by eapply pending_end.
Qed.

(** What a Read returns is not empty. *)
Lemma read_nonempty r tail pre : chunks_ok r -> ok_chunks (reads r) = pre ++ tail -> [] ∉ tail.
Proof.
  intros (lost & [Hc _ _ _ _]) E Hi. assert ([] ∈ nonempty (streamed r)) as Hn.
  { rewrite Hc, E. apply elem_of_app. left. apply elem_of_app. by right. }
  apply list_elem_of_filter in Hn. by destruct Hn.
Qed.

Lemma fwd_read_ret udp k failed f f' :
  down f = DownRead k -> read_ret udp k failed f = Some f' -> fwd_inv udp f -> fwd_inv udp f'.
Proof.
  unfold read_ret. intros Hd H [H1 H2 H3 H4 H5 H6]. rewrite Hd in H3, H4. simpl in H3, H4.
  destruct (reads (rd (tun f)) !! k) as [r|] eqn:Ek; [|done].
  destruct (reading (rd (tun f))) eqn:Er.
  { apply lookup_lt_Some in Ek. lia. }
  destruct H4 as (dropped & tail & Hc & -> & Hdr).
  rewrite (drop_S _ r) in Hc by done. rewrite drop_ge in Hc by lia. simpl in Hc.
  destruct r as [d| | |].
  2-4: injection H as <-; split; simpl; auto; exists dropped, []; by split_and!.
  assert (d <> []) as Hne.
  { intros ->. eapply (read_nonempty _ [[]]); [exact H2|by rewrite Hc, (assoc_L (++))|].
    by apply list_elem_of_singleton. }
  destruct udp.
  - assert ((exists dst, last f = Some dst /\ f' = set_down DownCall (add_out (dst, d) f)) \/
            last f = None /\ f' = set_down DownCall f) as [(dst & El & ->)|(El & ->)].
    { destruct d; [done|]. destruct (last f) as [dst|]; injection H as <-; eauto. }
    all: split; simpl; auto; rewrite ?El in *.
    + exists dropped, []. rewrite map_app, app_nil_r. split_and!; try done.
    + exact H5.
    + intros _. apply Forall_app. split; [by apply H6|by constructor].
    + exists (dropped ++ [d]), []. rewrite (H5 eq_refl) in *. rewrite Hc. simpl.
      split_and!; try done. by rewrite app_nil_r.
  - destruct failed; injection H as <-; split; simpl; auto.
    + exists dropped, [d]. by split_and!.
    + exists dropped, []. rewrite map_app, app_nil_r. by split_and!.
    + by destruct (last f).
    + done.
Qed.

Lemma down_size_ok udp : (readBufSize <= down_size udp)%nat.
Proof. unfold readBufSize, down_size. destruct udp; lia. Qed.

Lemma fwd_step_inv udp l f f' : fwd_step udp l f = Some f' -> fwd_inv udp f -> fwd_inv udp f'.
Proof.
  destruct l as [from d| | | |failed| |l]; simpl; intros H Hf.
  - destruct (up f) eqn:E; try done. by eapply fwd_recv.
  - destruct (up f) eqn:E; try done. injection H as <-. destruct Hf as [H1 H2 H3 H4 H5 H6].
    rewrite E in H1. split; simpl; auto.
  - destruct (up f) eqn:E; try done. by eapply fwd_write_ret.
  - destruct (down f) eqn:E; try done. destruct Hf as [H1 H2 H3 H4 H5 H6]. rewrite E in *. simpl in *.
    rewrite H3 in H. simpl in H. injection H as <-.
    assert (chunks_ok (Read (down_size udp) (rd (tun f)))) as Hc.
    { eapply (chunks_step (ReadCall (down_size udp)) true); [by apply down_size_ok| |done].
      simpl. by rewrite H3. }
    destruct H2 as (lost & [_ Hb _ _ _]). unfold Read in *. rewrite Hb in *. split; simpl; auto.
    destruct H4 as (dropped & tail & Ho & -> & Hdr). exists dropped, []. split_and!; try done.
    by rewrite drop_all.
  - destruct (down f) eqn:E; try done. by eapply fwd_read_ret.
  - assert (f' = set_finished (set_tun (MkTunnel true (wr (tun f)) (rd (tun f))) f)) as ->
      by (destruct (up f), (down f), (finished f); simplify_eq/=; done).
    destruct Hf. by split.
  - destruct (inner l) eqn:El; [|done]. destruct (step l (tun f)) as [t|] eqn:E; [|done].
    injection H as <-. by eapply fwd_inner.
Qed.

Lemma fwd_run_inv udp ls f f' : fwd_run udp ls f = Some f' -> fwd_inv udp f -> fwd_inv udp f'.
Proof.
  revert f. induction ls as [|l ls IH]; intros f; simpl; [by intros [= ->]|].
  destruct (fwd_step udp l f) as [g|] eqn:E; simpl; [|done]. eauto using fwd_step_inv.
Qed.

(** C23: A forward keeps boundaries.  In every run of a forward over its tunnelConn, whatever the
    pumps, the timer and the transport do: every datagram (or chunk) that was read from the
    socket is handed to SendData as a batch of its own, in order, and while the loop reads, none
    is missing; when it has failed, at most the last is.  What is written to the socket are
    whole chunks of the download stream in order, without the empty ones; a UDP forward sends
    each to the source of a datagram it has received, and drops those that come before the
    first; a TCP forward drops none. *)
Theorem Forward_boundaries (udp : bool) (ls : list flabel) (f : forward) :
  fwd_run udp ls new_forward = Some f ->
  (exists lost, map snd (received f) = map snd (sent (wr (tun f))) ++ lost /\
     (length lost <= 1)%nat /\ (up f = UpRead -> lost = [])) /\
  (exists dropped rest, filter (fun d => d <> []) (streamed (rd (tun f))) =
     dropped ++ map snd (outs f) ++ rest /\ (udp = false -> dropped = []) /\
     (udp = true -> Forall (fun o => o.1 ∈ map fst (received f)) (outs f))).
Proof.
  intros H. destruct (fwd_run_inv _ _ _ _ H (fwd_inv_start udp)) as [H1 (lost & [H2 _ _ _ _]) _ H4 _ H6].
  split; [by eapply up_inv_sent|]. destruct H4 as (dropped & tail & Hc & _ & Hdr).
  unfold nonempty in H2. rewrite Hc in H2. rewrite <- !(assoc_L (++)) in H2. eauto 10.
Qed.

(** ** A concrete run *)

Module FwdWitness.
(** A datagram is sent; a second one, from another peer, is on its way when an answer comes. *)
Definition steps : list flabel :=
  [Recv "10.0.0.1:7" [x01]; Inner (W (WriteQueue 0)); Inner (W PumpTake); Inner (W PumpTimer);
   Inner (W (SendReturns None)); Inner (W (WriteAnswer 0)); WriteRet; Recv "10.0.0.2:8" [x02; x03];
   Inner (R ReadTop); Inner (R (StreamRead [x09] false)); Inner (R ReadPut); ReadStart;
   Inner (R ReadTake); ReadRet false]%string%byte.
Definition final : forward := default new_forward (fwd_run true steps new_forward).
End FwdWitness.

Lemma Forward_boundaries_witness :
  map snd (sent (wr (tun FwdWitness.final))) = [[x01]]%byte /\
  outs FwdWitness.final = [("10.0.0.2:8"%string, [x09])]%byte /\
  exists lost, map snd (received FwdWitness.final) = [[x01]]%byte ++ lost /\ (length lost <= 1)%nat.
Proof.
  split; [by vm_compute|]. split; [by vm_compute|].
  destruct (Forward_boundaries true FwdWitness.steps FwdWitness.final) as ((lost & H & Hl & _) & _);
    [by vm_compute|].
  exists lost. split; [|exact Hl]. rewrite H. by vm_compute.
Defined.
