(* ===== verification/DpiReverse.v ===== *)
(** Reverse listeners of the DPI tunnel: runReverse of dpi/server/handler.go, the loop of a
    reverse client in dpi/client/proxy.go, and the listening on both protocols of
    common/dualbind/dualbind.go.

    The handler keeps one listener for all clients.  Each request to bind starts a goroutine that
    closes the listener in place under the lock, listens without it, and stores its own under
    the lock again; the goroutines interleave between these steps. *)

From S2P Require Import Prelude.
From Stdlib Require Import ZArith Lia Strings.String.
From stdpp Require Import gmap list strings.

#[local] Open Scope Z_scope.
#[local] Open Scope list_scope.

(** ** dualbind *)

Section dualbind.
(** net.Listen, with the address it has bound, and whether the UDP address of a bound address
    resolves and can be bound. *)
Context (net_Listen : string -> result string) (ResolveUDPAddr ListenUDP : string -> bool).

(** The bound address, and whether there is a UDP socket: without one TCP still works. *)
Definition Listen (addr : string) : result (string * bool) :=
  bound ← net_Listen addr;
  if negb (ResolveUDPAddr bound) then Ok (bound, false)
  else if negb (ListenUDP bound) then Ok (bound, false)
  else Ok (bound, true).

(** muxpipe has a copy of it. *)
Definition listenDual := Listen.
End dualbind.

(** ** The server *)

(** A goroutine of runReverse: before it has the lock; between the closing of the old listener
    and the new one; with a listener that is not stored; in its accept loop; returned. *)
Inductive goroutine : Type :=
  | GStart (listen : string)
  | GListen (listen : string)
  | GStore (ln : nat)
  | GServe (ln : nat)
  | GDone.

(** The open listeners with their addresses and whether they have a UDP socket; [revLn] and
    [revUDP] are set together, to the sockets of one listener. *)
Record handler := MkHandler {
  revLn : option nat; listeners : gmap nat (string * bool); goroutines : gmap nat goroutine;
  nextLn : nat
}.

Definition new_handler : handler := MkHandler None ∅ ∅ 0.

Definition set_g (g : nat) (x : goroutine) (h : handler) : handler :=
  MkHandler (revLn h) (listeners h) (<[g := x]> (goroutines h)) (nextLn h).

(** The addresses in use. *)
Definition bound_addrs (h : handler) : gset string :=
  list_to_set ((fun p => p.2.1) <$> map_to_list (listeners h)).

Section server.
(** dualbind.Listen: the address it binds and whether there is a UDP socket, given the addresses
    in use. *)
Context (dual_Listen : string -> gset string -> option (string * bool)).

Inductive rlabel : Type :=
  | RevRequest (g : nat) (listen : string)   (* go h.runReverse(listen) *)
  | RevClose (g : nat)                       (* the first section under the lock *)
  | RevListen (g : nat)                      (* dualbind.Listen *)
  | RevStore (g : nat)                       (* the second section under the lock *)
  | RevEnd (g : nat).                        (* ln.Accept fails *)

Definition close_ln (h : handler) : handler :=
  match revLn h with
  | Some ln => MkHandler None (delete ln (listeners h)) (goroutines h) (nextLn h)
  | None => h
  end.

Definition rev_step (l : rlabel) (h : handler) : option handler :=
  match l with
  | RevRequest g listen =>
      match goroutines h !! g with None => Some (set_g g (GStart listen) h) | Some _ => None end
  | RevClose g =>
      match goroutines h !! g with
      | Some (GStart listen) => Some (set_g g (GListen listen) (close_ln h))
      | _ => None
      end
  | RevListen g =>
      match goroutines h !! g with
      | Some (GListen listen) =>
          match dual_Listen listen (bound_addrs h) with
          | Some s => Some (MkHandler (revLn h) (<[nextLn h := s]> (listeners h))
                              (<[g := GStore (nextLn h)]> (goroutines h)) (S (nextLn h)))
          | None => Some (set_g g GDone h)
          end
      | _ => None
      end
  | RevStore g =>
      match goroutines h !! g with
      | Some (GStore ln) =>
          Some (MkHandler (Some ln) (listeners h) (<[g := GServe ln]> (goroutines h)) (nextLn h))
      | _ => None
      end
  | RevEnd g =>
      match goroutines h !! g with
      | Some (GServe ln) =>
          match listeners h !! ln with None => Some (set_g g GDone h) | Some _ => None end
      | _ => None
      end
  end.

Fixpoint rev_run (ls : list rlabel) (h : handler) : option handler :=
  match ls with
  | [] => Some h
  | l :: ls => h ← rev_step l h; rev_run ls h
  end.

(** One request from its start to its accept loop, when nothing comes in between. *)
Definition request (g : nat) (listen : string) : list rlabel :=
  [RevRequest g listen; RevClose g; RevListen g; RevStore g].
End server.

(** ** The client *)

(** A turn of reverseMaintain: whether SendReverseBind succeeds, and then how often
    HasLiveSession finds a session.  What the loop does: requests and sleeps (in seconds). *)
Inductive turn : Type := BindFails | BindSent (polls : nat).
Inductive action : Type := Bind | Sleep (s : Z).

Definition turn_actions (t : turn) : list action :=
  match t with
  | BindFails => [Bind; Sleep 2]
  | BindSent polls => Bind :: replicate polls (Sleep 3) ++ [Sleep 1]
  end.

Definition reverseMaintain (ts : list turn) : list action := concat (map turn_actions ts).

(** ** Lemmas *)

Lemma bound_addrs_elem h a : a ∈ bound_addrs h <-> exists ln u, listeners h !! ln = Some (a, u).
Proof.
  unfold bound_addrs. rewrite elem_of_list_to_set, list_elem_of_fmap. split.
  - intros ([ln [a' u]] & -> & H%elem_of_map_to_list). eauto.
  - intros (ln & u & H). exists (ln, (a, u)). split; [done|]. by apply elem_of_map_to_list.
Qed.

(** Numbers of listeners are not used again. *)
Definition rev_inv (h : handler) : Prop :=
  (forall ln, nextLn h <= ln -> listeners h !! ln = None)%nat /\
  (forall ln, revLn h = Some ln -> ln < nextLn h)%nat /\
  (forall g ln, goroutines h !! g = Some (GStore ln) -> ln < nextLn h)%nat.

(** A listener that is open, is not the one in place, and that no goroutine is about to store. *)
Definition orphan (ln : nat) (a : string) (h : handler) : Prop :=
  (exists u, listeners h !! ln = Some (a, u)) /\ revLn h <> Some ln /\
  forall g, goroutines h !! g <> Some (GStore ln).

Section props.
Context (dual_Listen : string -> gset string -> option (string * bool)).

Lemma close_ln_inv h : rev_inv h -> rev_inv (close_ln h).
Proof.
  intros H. unfold close_ln. destruct (revLn h) as [ln|] eqn:E; [|done]. destruct H as (H1 & H2 & H3).
  split; [|split]; simpl; [|done|done]. intros l Hl. rewrite lookup_delete_ne; [by apply H1|].
  intros <-. specialize (H2 _ E). lia.
Qed.

Lemma set_g_inv g x h : (forall ln, x <> GStore ln) -> rev_inv h -> rev_inv (set_g g x h).
Proof.
  intros Hx (H1 & H2 & H3). split; [done|]. split; [done|]. simpl. intros g' ln.
  destruct (decide (g = g')) as [->|]; [rewrite lookup_insert_eq; intros [= ->]; by destruct (Hx ln)|].
  rewrite lookup_insert_ne by done. apply H3.
Qed.

Lemma rev_step_inv l h h' : rev_step dual_Listen l h = Some h' -> rev_inv h -> rev_inv h'.
Proof.
  destruct l as [g listen|g|g|g|g]; simpl; destruct (goroutines h !! g) as [[| |ln|ln|]|] eqn:Eg; try done.
  - intros [= <-]. by apply set_g_inv.
  - intros [= <-] H. apply set_g_inv; [done|]. by apply close_ln_inv.
  - destruct (dual_Listen _ _) as [s|]; intros [= <-]; [|by apply set_g_inv].
    intros (H1 & H2 & H3). split; [|split]; simpl.
    + intros l Hl. rewrite lookup_insert_ne by lia. apply H1. lia.
    + intros l Hl. specialize (H2 _ Hl). lia.
    + intros g' l. destruct (decide (g = g')) as [->|];
        [rewrite lookup_insert_eq; intros [= <-]; lia|rewrite lookup_insert_ne by done].
      intros Hl%H3. lia.
  - intros [= <-] (H1 & H2 & H3). split; [done|]. split; simpl; [intros ? [= <-]; by eapply H3|].
    intros g' l. destruct (decide (g = g')) as [->|]; [by rewrite lookup_insert_eq|].
    rewrite lookup_insert_ne by done. apply H3.
  - destruct (listeners h !! ln); [done|]. intros [= <-]. by apply set_g_inv.
Qed.

Lemma orphan_set_g ln a g x h :
  x <> GStore ln -> orphan ln a h -> orphan ln a (set_g g x h).
Proof.
  intros Hx (H1 & H2 & H3). split; [done|]. split; [done|]. simpl. intros g'.
  destruct (decide (g = g')) as [->|]; [rewrite lookup_insert_eq; congruence|by rewrite lookup_insert_ne].
Qed.

Lemma rev_orphan_step ln a l h h' :
  rev_step dual_Listen l h = Some h' -> rev_inv h -> orphan ln a h -> orphan ln a h'.
Proof.
  intros H Hi Ho. pose proof Ho as ((u & H1) & H2 & H3).
  destruct l as [g listen|g|g|g|g]; simpl in H;
    destruct (goroutines h !! g) as [[| |ln'|ln'|]|] eqn:Eg; try done.
  - injection H as <-. by apply orphan_set_g.
  - injection H as <-. apply orphan_set_g; [done|]. unfold close_ln.
    destruct (revLn h) as [ln'|] eqn:E; [|done]. split; [|done]. exists u. simpl.
    rewrite lookup_delete_ne by congruence. done.
  - destruct (dual_Listen _ _) as [s|]; injection H as <-; [|by apply orphan_set_g].
    destruct Hi as (Hf & _ & _).
    assert (nextLn h <> ln) by (intros <-; rewrite Hf in H1 by lia; done).
    split; [exists u; simpl; by rewrite lookup_insert_ne|]. split; [done|]. simpl. intros g'.
    destruct (decide (g = g')) as [->|]; [rewrite lookup_insert_eq; congruence|by rewrite lookup_insert_ne].
  - injection H as <-. split; [by exists u|]. split; simpl.
    + intros [= ->]. by destruct (H3 g).
    + intros g'. destruct (decide (g = g')) as [->|]; [by rewrite lookup_insert_eq|by rewrite lookup_insert_ne].
  - destruct (listeners h !! ln'); [done|]. injection H as <-. by apply orphan_set_g.
Qed.

Lemma rev_run_app ls ls' h :
  rev_run dual_Listen (ls ++ ls') h = h ← rev_run dual_Listen ls h; rev_run dual_Listen ls' h.
Proof.
  revert h. induction ls as [|l ls IH]; intros h; simpl; [done|].
  destruct (rev_step dual_Listen l h); simpl; auto.
Qed.

Lemma rev_run_inv ls h h' : rev_run dual_Listen ls h = Some h' -> rev_inv h -> rev_inv h'.
Proof.
  revert h. induction ls as [|l ls IH]; intros h; simpl; [by intros [= ->]|].
  destruct (rev_step dual_Listen l h) eqn:E; simpl; [|done]. eauto using rev_step_inv.
Qed.

Lemma orphan_run ln a ls h h' :
  rev_run dual_Listen ls h = Some h' -> rev_inv h -> orphan ln a h -> orphan ln a h'.
Proof.
  revert h. induction ls as [|l ls IH]; intros h; simpl; [by intros [= ->]|].
  destruct (rev_step dual_Listen l h) eqn:E; simpl; [|done]. eauto using rev_step_inv, rev_orphan_step.
Qed.

Lemma new_handler_inv : rev_inv new_handler.
Proof. by split_and!. Qed.

Lemma overlap_orphan a b ua ub :
  dual_Listen a ∅ = Some (a, ua) -> dual_Listen b {[a]} = Some (b, ub) ->
  exists ls h, rev_run dual_Listen ls new_handler = Some h /\ orphan 0 a h.
Proof.
  intros Ha Hb.
  set (h1 := MkHandler None {[0%nat := (a, ua)]} {[0%nat := GStore 0; 1%nat := GListen b]} 1).
  assert (bound_addrs h1 = {[a]}) as E1.
  { unfold bound_addrs. simpl. rewrite map_to_list_singleton. simpl. by rewrite (right_id_L _ _). }
  set (h0 := MkHandler None ∅ {[0%nat := GListen a; 1%nat := GListen b]} 0).
  exists ([RevRequest 0 a; RevRequest 1 b; RevClose 0; RevClose 1] ++
          [RevListen 0] ++ [RevListen 1] ++ [RevStore 0; RevStore 1]).
  exists (MkHandler (Some 1%nat) (<[1%nat := (b, ub)]> (listeners h1))
            {[0%nat := GServe 0; 1%nat := GServe 1]} 2).
  assert (rev_run dual_Listen [RevListen 0] h0 = Some h1) as S1.
  { cbn [rev_run rev_step]. change (goroutines h0 !! 0%nat) with (Some (GListen a)). cbv beta iota.
    change (bound_addrs h0) with (∅ : gset string). by rewrite Ha. }
  assert (rev_run dual_Listen [RevListen 1] h1 =
    Some (MkHandler None (<[1%nat := (b, ub)]> (listeners h1)) {[0%nat := GStore 0; 1%nat := GStore 1]} 2)) as S2.
  { cbn [rev_run rev_step]. change (goroutines h1 !! 1%nat) with (Some (GListen b)).
    cbv beta iota. by rewrite E1, Hb. }
  rewrite rev_run_app.
  change (rev_run dual_Listen [RevRequest 0 a; RevRequest 1 b; RevClose 0; RevClose 1] new_handler) with (Some h0).
  cbn [mbind option_bind]. rewrite rev_run_app, S1. cbn [mbind option_bind]. rewrite rev_run_app, S2. split; [done|].
  split; [by exists ua|]. split; [done|]. intros g. simpl.
  destruct g as [|[|g]]; [done|done|]. by rewrite lookup_insert_ne, lookup_singleton_ne.
Qed.

(** A state in which the listener in place is the only one. *)
Definition settled (h : handler) : Prop :=
  rev_inv h /\ forall ln, listeners h !! ln <> None -> revLn h = Some ln.

Lemma settled_close h : settled h -> listeners (close_ln h) = ∅ /\ revLn (close_ln h) = None.
Proof.
  intros [_ Hs]. unfold close_ln.
  assert (forall ln, revLn h <> Some ln -> listeners h !! ln = None) as Hn.
  { intros ln Hne. destruct (listeners h !! ln) eqn:E; [|done]. destruct Hne. apply Hs. by rewrite E. }
  destruct (revLn h) as [ln|] eqn:Er; simpl; (split; [|done]); apply map_empty; intros l.
  - destruct (decide (ln = l)) as [->|]; [by rewrite lookup_delete_eq|].
    rewrite lookup_delete_ne by done. apply Hn. congruence.
  - by apply Hn.
Qed.
End props.

(** A reverse bind replaces the listener.  In a state whose only listener is the one in place,
    a request that runs without another in between closes it and listens on its own address,
    also when that is the address of the listener it replaces; the new listener is then the
    only one.  When it cannot listen the old listener is gone all the same, whichever client had
    asked for it. *)
Theorem Reverse_rebind dual_Listen (h : handler) (g : nat) (listen : string) :
  settled h -> goroutines h !! g = None ->
  match dual_Listen listen ∅ with
  | Some s => exists h' ln, rev_run dual_Listen (request g listen) h = Some h' /\ settled h' /\
      listeners h' = {[ln := s]} /\ revLn h' = Some ln /\ goroutines h' !! g = Some (GServe ln)
  | None => exists h', rev_run dual_Listen (take 3 (request g listen)) h = Some h' /\ settled h' /\
      listeners h' = ∅ /\ goroutines h' !! g = Some GDone
  end.
Proof.
  intros Hs Hg. destruct (settled_close _ Hs) as [El Er]. destruct Hs as [Hi _].
  set (h2 := set_g g (GListen listen) (close_ln (set_g g (GStart listen) h))).
  assert (E2 : listeners h2 = ∅ /\ revLn h2 = None /\ goroutines h2 !! g = Some (GListen listen) /\ rev_inv h2).
  { split; [|split; [|split]].
    - revert El. unfold h2, close_ln. simpl. by destruct (revLn h).
    - revert Er. unfold h2, close_ln. simpl. by destruct (revLn h).
    - simpl. by rewrite lookup_insert_eq.
    - apply set_g_inv; [done|]. apply close_ln_inv. by apply set_g_inv. }
  assert (H2 : rev_run dual_Listen [RevRequest g listen; RevClose g] h = Some h2).
  { simpl. rewrite Hg. simpl. by rewrite lookup_insert_eq. }
  destruct E2 as (E2l & E2r & E2g & E2i). clearbody h2.
  assert (Eb : bound_addrs h2 = ∅) by (unfold bound_addrs; by rewrite E2l, map_to_list_empty).
  destruct (dual_Listen listen ∅) as [s|] eqn:Ed.
  - eexists _, (nextLn h2). split.
    + change (request g listen) with ([RevRequest g listen; RevClose g] ++ [RevListen g; RevStore g]).
      rewrite rev_run_app, H2. simpl. rewrite E2g, Eb, Ed. simpl. rewrite lookup_insert_eq. done.
    + simpl. rewrite E2l. split_and!; [|done..|by rewrite lookup_insert_eq]. split.
      * destruct E2i as (H1 & _ & H3). split; [|split]; simpl.
        -- intros l Hl. rewrite lookup_insert_ne by lia. done.
        -- intros ? [= <-]. lia.
        -- intros g' l. destruct (decide (g = g')) as [->|]; [by rewrite lookup_insert_eq|].
           rewrite !lookup_insert_ne by done. intros Hl%H3. lia.
      * simpl. intros l. destruct (decide (nextLn h2 = l)) as [->|]; [done|].
        by rewrite lookup_insert_ne.
  - eexists. split.
    + change (take 3 (request g listen)) with ([RevRequest g listen; RevClose g] ++ [RevListen g]).
      rewrite rev_run_app, H2. simpl. rewrite E2g, Eb, Ed. done.
    + simpl. split_and!; [|done|by rewrite lookup_insert_eq]. split; [by apply set_g_inv|].
      simpl. by rewrite E2l.
Qed.

(** Reverse listeners can be orphaned.  Two requests that overlap (two clients that reconnect
    together) both find nothing to close, both listen, and the second to store its listener
    replaces the first without closing it.  A listener that is open but not in place stays open
    for ever, whatever requests follow; when the network refuses an address in use, every later
    request for its address is refused, and the client that sends it is not told. *)
Theorem Reverse_orphan dual_Listen (a b : string) (ua ub : bool) :
  dual_Listen a ∅ = Some (a, ua) -> dual_Listen b {[a]} = Some (b, ub) ->
  (forall addr used, addr ∈ used -> dual_Listen addr used = None) ->
  (exists ls h, rev_run dual_Listen ls new_handler = Some h /\ orphan 0 a h) /\
  forall ls h ln addr, rev_run dual_Listen ls new_handler = Some h -> orphan ln addr h ->
    forall ls' h' g, rev_run dual_Listen ls' h = Some h' ->
      orphan ln addr h' /\
      (goroutines h' !! g = Some (GListen addr) ->
       rev_run dual_Listen [RevListen g] h' = Some (set_g g GDone h')).
Proof.
  intros Ha Hb Hused. split; [by eapply overlap_orphan|].
  intros ls h ln addr Hr Ho ls' h' g Hr'.
  pose proof (rev_run_inv _ _ _ _ Hr new_handler_inv) as Hi.
  pose proof (orphan_run _ _ _ _ _ _ Hr' Hi Ho) as Ho'. split; [done|]. intros Hg. simpl. rewrite Hg.
  destruct Ho' as ((u & H1) & _ & _). rewrite Hused; [done|]. apply bound_addrs_elem. eauto.
Qed.

(** ** Concrete runs *)

Module RevWitness.
(** A network that binds any address that is not in use. *)
Definition net (addr : string) (used : gset string) : option (string * bool) :=
  if decide (addr ∈ used) then None else Some (addr, true).
Definition served : handler := default new_handler (rev_run net (request 0 "0.0.0.0:80") new_handler).
End RevWitness.

Lemma Reverse_rebind_witness :
  revLn RevWitness.served = Some 0%nat /\
  exists h' ln, rev_run RevWitness.net (request 1 "0.0.0.0:80") RevWitness.served = Some h' /\
    listeners h' = {[ln := ("0.0.0.0:80"%string, true)]} /\ revLn h' = Some ln.
Proof.
  split; [by vm_compute|].
  destruct (Reverse_rebind RevWitness.net RevWitness.served 1 "0.0.0.0:80") as (h' & ln & H1 & _ & H2 & H3 & _).
  - split.
    + by apply (rev_run_inv RevWitness.net (request 0 "0.0.0.0:80") new_handler);
        [vm_compute|apply new_handler_inv].
    + intros ln. change (listeners RevWitness.served) with ({[0%nat := ("0.0.0.0:80"%string, true)]} : gmap _ _).
      destruct (decide (ln = 0%nat)) as [->|Hne]; [done|]. by rewrite lookup_singleton_ne.
  - by vm_compute.
  - exists h', ln. split; [exact H1|]. split; [exact H2|exact H3].
Defined.

Lemma Reverse_orphan_witness :
  exists ls h, rev_run RevWitness.net ls new_handler = Some h /\ orphan 0 "0.0.0.0:80" h.
Proof.
  apply (Reverse_orphan RevWitness.net "0.0.0.0:80" "0.0.0.0:81" true true);
    [by vm_compute|by vm_compute|]. intros addr used H. unfold RevWitness.net. by rewrite decide_True.
Defined.
