(* ===== verification/Proxies.v ===== *)
(** HTTP and SOCKS4 proxies: proxy/httpproxy/server.go, the HTTP front end of
    dpi/client/proxy.go, the connections of proxy/http/http.go, and proxy/socks4a/socks4.go.

    What a client sends arrives in segments, one per Read.  http.ReadRequest reads through a
    bufio.Reader, which takes whole segments; the parser of net/http is a parameter: on the bytes
    read so far it wants more, or ends with a request or an error and the number of bytes it has
    used. *)

From S2P Require Import Prelude GoLib GoNet MuxPipe Obfs.
From Stdlib Require Import ZArith Lia Strings.Byte Strings.Ascii Strings.String.
From stdpp Require Import gmap strings list.

#[local] Open Scope string_scope.
#[local] Open Scope Z_scope.
#[local] Open Scope list_scope.

(** ** HTTP *)

Record request := MkRequest { Method : string; Host : string; URL_Host : string }.

(** How a client is served: closed without an answer; 405; 502; the answer 200 and nothing after
    it; the answer 200 and copying, with the segments that are still to come from the client; the
    request sent on to a host. *)
Inductive served : Type :=
  | Dropped
  | MethodNotAllowed
  | BadGateway
  | NoTunnel
  | Tunnel (host : string) (uplink : list (list byte))
  | Forwarded (host : string) (req : request).

Section message.
Context {R : Type} (parse : list byte -> option (result R * nat)).

(** http.ReadRequest and http.ReadResponse on a bufio.Reader that holds [buf]: the message, what
    the reader still holds, and the segments it has not read. *)
Fixpoint ReadRequest (buf : list byte) (segs : list (list byte)) :
    result R * list byte * list (list byte) :=
  match parse buf with
  | Some (r, n) => (r, drop n buf, segs)
  | None => match segs with
            | [] => (Err ErrUnexpectedEOF, buf, [])
            | s :: segs => ReadRequest (buf ++ s) segs
            end
  end.

End message.

Section http.
Context (parse : list byte -> option (result request * nat)).

Definition or_else (a b : string) : string := if String.eqb a "" then b else a.
Definition with_port (host port : string) : string :=
  if ContainsByte host ":" then host else host +:+ ":" +:+ port.

(** handle of proxy/httpproxy; [dial]: whether net.DialTimeout succeeds. *)
Definition handle (dial : string -> bool) (segs : list (list byte)) : served :=
  match ReadRequest parse [] segs with
  | (Ok req, _, segs) =>
      if String.eqb (ToUpper (Method req)) "CONNECT" then
        let host := or_else (Host req) (URL_Host req) in
        if dial host then Tunnel host segs else BadGateway
      else
        let host := with_port (or_else (URL_Host req) (Host req)) "80" in
        if dial host then Forwarded host req else BadGateway
  | _ => Dropped
  end.

(** handleHTTPProxy of dpi/client; [connect] and [tunnel] are transport.Connect and
    newTunnelConn.  The flag says that a connection of the server is left without a CloseConn. *)
Definition handleHTTPProxy (connect tunnel : string -> bool) (written : bool)
    (segs : list (list byte)) : served * bool :=
  match ReadRequest parse [] segs with
  | (Ok req, _, segs) =>
      if negb (String.eqb (Method req) "CONNECT") then (MethodNotAllowed, false)
      else
        let host := with_port (Host req) "443" in
        if negb (connect host) then (BadGateway, false)
        else if negb written then (Dropped, true)
        else if tunnel host then (Tunnel host segs, false) else (NoTunnel, true)
  | _ => (Dropped, false)
  end.
End http.

(** The connection of the HTTP dialer: what the client connection of net/http had read ahead
    is read first.  An empty reader is forgotten, as [None]. *)
Record httpConn := MkHttpConn { staleReader : option (list byte); hijackedConn : conn }.

Definition http_Read (n k : nat) (c : httpConn) : result (list byte) * httpConn :=
  match staleReader c with
  | Some ((_ :: _) as p) => (Ok (take n p), MkHttpConn (Some (drop n p)) (hijackedConn c))
  | _ => let '(r, i) := conn_Read n k (hijackedConn c) in (r, MkHttpConn None i)
  end.

(** The credentials of a Proxy-Authorization header, written by the dialer and read by
    ParseProxyAuth. *)
Definition proxyAuth (username password : string) : string :=
  "Basic " +:+ EncodeToString (bytes_of (username +:+ ":" +:+ password)).

Definition ParseProxyAuth (auth : string) : string * string * bool :=
  if negb (HasPrefix auth "Basic ") then ("", "", false)
  else
    match DecodeString (drop_s 6 auth) with
    | Ok dec =>
        match SplitN2 (string_of dec) ":" with
        | [user; pass] => (user, pass, true)
        | _ => ("", "", false)
        end
    | _ => ("", "", false)
    end.

(** ** SOCKS4 *)

Definition socks4Version : byte := x04.
Definition socks4CommandConnect : byte := x01.
Definition socks4Null : byte := x00.
Definition socks4ReplyVersion : byte := x00.
Definition socks4Granted : byte := x5a.

(** The address a SOCKS4 request can carry. *)
Definition socks4_target (network addr : string) : result (list byte * Z) :=
  if negb (String.eqb network "tcp") && negb (String.eqb network "tcp4")
  then Err (Errorf "invalid network type")
  else
    '(ipStr, portStr) ← SplitHostPort addr;
    match ParseIP ipStr with
    | None => Err (Errorf "failed to parse destination IP")
    | Some ip =>
        match To4 ip with
        | None => Err (Errorf "destination address is not IPv4")
        | Some ip4 => port ← ParsePort portStr; Ok (ip4, port)
        end
    end.

Definition socks4_request (ip4 : list byte) (port : Z) (username : string) : list byte :=
  [socks4Version; socks4CommandConnect] ++ PutUint16 port ++ ip4 ++ bytes_of username ++ [socks4Null].

(** Dial after the connection to the proxy; every error closes it. *)
Definition socks4_handshake (ip4 : list byte) (port : Z) (username : string) : IO unit :=
  _ ← Write_ (socks4_request ip4 port username);
  resp ← ReadFull 8;
  match resp with
  | v :: code :: _ =>
      if negb (Byte.eqb v socks4ReplyVersion) then throw (Errorf "proxy returned invalid SOCKS4 version")
      else if negb (Byte.eqb code socks4Granted) then throw (Errorf "proxy error: %s")
      else mret tt
  | _ => throw (Errorf "proxy returned invalid SOCKS4 version")
  end.

Definition socks4_Dial (forward : result conn) (username network addr : string) : result conn :=
  '(ip4, port) ← socks4_target network addr;
  c ← forward;
  match socks4_handshake ip4 port username c with
  | (Ok _, c) => Ok c
  | (Err e, _) => Err e
  | (Panic m, _) => Panic m
  | (OutOfFuel, _) => OutOfFuel
  end.

(** ** Lemmas *)

(** What net/http documents of its parser: it ends where the request ends, whatever follows. *)
Definition parser_ok {R} (parse : list byte -> option (result R * nat)) : Prop :=
  forall a r n, parse a = Some (r, n) -> (n <= length a)%nat /\ forall b, parse (a ++ b) = Some (r, n).

Lemma ReadRequest_split {R} (parse : list byte -> option (result R * nat)) segs buf req ahead up :
  parser_ok parse -> ReadRequest parse buf segs = (Ok req, ahead, up) ->
  exists head, buf ++ concat segs = head ++ ahead ++ concat up /\
    parse (head ++ ahead) = Some (Ok req, length head).
Proof.
  intros Hp. revert buf. induction segs as [|s segs IH]; intros buf; simpl;
    destruct (parse buf) as [[r n]|] eqn:E; try done.
  1-2: intros [= -> <- <-]; exists (take n buf); destruct (Hp _ _ _ E) as [Hn _];
    rewrite length_take, Nat.min_l by done; simpl; by rewrite ?app_nil_r, ?(assoc_L (++)), !take_drop.
  intros H. apply IH in H as (head & H & Hh). exists head. by rewrite (assoc_L (++)), H.
Qed.

(** A client that waits after its request: the reader stops at the end of it. *)
Lemma ReadRequest_waits {R} (parse : list byte -> option (result R * nat)) s1 s2 buf req :
  parser_ok parse -> Forall (fun s => s <> []) s1 ->
  parse (buf ++ concat s1) = Some (Ok req, length (buf ++ concat s1)) ->
  ReadRequest parse buf (s1 ++ s2) = (Ok req, [], s2).
Proof.
  intros Hp Hs. revert buf. induction Hs as [|s s1 Hne _ IH]; intros buf; simpl.
  - rewrite app_nil_r. intros E. destruct s2; simpl; by rewrite E, drop_all.
  - rewrite (assoc_L (++)). intros E.
    destruct (parse buf) as [[r n]|] eqn:Eb; [|by apply IH].
    destruct (Hp _ _ _ Eb) as [Hn Ha]. rewrite <- (assoc_L (++)) in E. rewrite Ha in E.
    injection E as _ E. rewrite !length_app in E. destruct s; [done|]. simpl in E. lia.
Qed.

Lemma free_take_index s c : free c (take_s (Z.to_nat (IndexByte s c)) s).
Proof.
  induction s as [|d s IH]; simpl; [done|].
  destruct (Ascii.eqb_spec d c) as [->|Hne]; [done|].
  pose proof (IndexByte_range s c) as Hr. destruct (Z.ltb_spec (IndexByte s c) 0) as [Hi|Hi]; [done|].
  replace (Z.to_nat (IndexByte s c + 1)) with (S (Z.to_nat (IndexByte s c))) by lia. by split.
Qed.

(** ** The properties *)

(** C32: CONNECT and what comes with it.  After a CONNECT the proxy copies what it reads from the
    connection, not what its reader holds.  What the client has sent is the request, then the
    bytes that came in the same segment, then the rest; only the rest can reach the remote side,
    in any run of the copying.  A client that sends nothing between its request and the answer
    loses nothing; one that does not wait loses the bytes in between, and its stream arrives with
    its beginning cut off. *)
Theorem Http_connect parse (dial : string -> bool) (segs : list (list byte)) host up :
  parser_ok parse -> handle parse dial segs = Tunnel host up ->
  (exists head early req,
     concat segs = head ++ early ++ concat up /\ parse (head ++ early) = Some (Ok req, length head) /\
     forall sent sb c, sent `prefix_of` concat up -> copies sent sb c ->
       delivered (ab c) `prefix_of` drop (length head + length early) (concat segs)) /\
  (forall s1 s2 req, segs = s1 ++ s2 -> Forall (fun s => s <> []) s1 ->
     parse (concat s1) = Some (Ok req, length (concat s1)) -> up = s2).
Proof.
  intros Hp. unfold handle. destruct (ReadRequest parse [] segs) as [[[req| | |] ahead] rest] eqn:E; try done.
  intros H.
  assert (rest = up) as -> by (revert H; repeat case_match; congruence). clear H. split.
  - destruct (ReadRequest_split _ _ _ _ _ _ Hp E) as (head & H1 & H2). exists head, ahead, req.
    split; [done|]. split; [done|]. intros sent sb c Hs Hc%Copy_inv_run.
    simpl in H1. rewrite H1, (assoc_L (++)), <- length_app, drop_app_length.
    destruct Hc as [<- _ _ _]. destruct Hs as [k ->]. rewrite <- (assoc_L (++)). by eexists.
  - intros s1 s2 req' -> Hne Hs1. by rewrite (ReadRequest_waits _ _ _ _ req' Hp) in E by done; injection E.
Qed.

(** Credentials.  ParseProxyAuth reads back what the HTTP dialer writes exactly when the user name
    has no colon. *)
Theorem ProxyAuth_roundtrip user pass :
  ParseProxyAuth (proxyAuth user pass) = (user, pass, true) <-> free ":" user.
Proof.
  unfold ParseProxyAuth, proxyAuth. rewrite HasPrefix_app. cbn [negb]. rewrite drop_s_app by done.
  rewrite DecodeString_encode, string_of_bytes_of.
  change (":" +:+ pass) with (String ":" pass). unfold SplitN2. cbv zeta.
  destruct (Z.ltb_spec (IndexByte (user +:+ String ":" pass) ":") 0) as [Hi|Hi].
  { apply IndexByte_free, free_app in Hi as [_ [Hc _]]. done. }
  split.
  - intros [= H _]. rewrite <- H. by apply free_take_index.
  - intros Hf. rewrite IndexByte_app by done. unfold slen. rewrite Nat2Z.id.
    rewrite take_s_app by done. do 2 f_equal. replace (S (String.length user)) with (String.length (user +:+ ":"))
      by (rewrite length_sapp; simpl; lia).
    change (String ":" pass) with (":" +:+ pass). rewrite sapp_assoc. by apply drop_s_app.
Qed.

(** What a SOCKS4 server reads: port, address and user name up to the first zero byte. *)
Definition socks4_parse (l : list byte) : option (Z * list byte * list byte * list byte) :=
  match l with
  | v :: cmd :: l =>
      if Byte.eqb v socks4Version && Byte.eqb cmd socks4CommandConnect && (6 <=? len l) then
        match list_find (fun b => b = socks4Null) (drop 6 l) with
        | Some (i, _) => Some (be_get (take 2 l), take 4 (drop 2 l), take i (drop 6 l), drop (S i) (drop 6 l))
        | None => None
        end
      else None
  | _ => None
  end.

Lemma socks4_parse_request ip4 port username l :
  length ip4 = 4%nat -> 0 <= port < 65536 -> x00 ∉ bytes_of username ->
  socks4_parse (socks4_request ip4 port username ++ l) = Some (port, ip4, bytes_of username, l).
Proof.
  intros Hip Hport Hn. unfold socks4_request. set (u := bytes_of username) in *.
  assert (exists p, p = PutUint16 port) as [p Ep] by eauto. rewrite <- Ep.
  assert (Hp : length p = 2%nat) by (subst; apply length_be_put).
  assert (Hget : be_get p = port) by (subst; by rewrite be_get_put16, u16_small).
  replace (([socks4Version; socks4CommandConnect] ++ p ++ ip4 ++ u ++ [socks4Null]) ++ l)
    with (socks4Version :: socks4CommandConnect :: p ++ ip4 ++ u ++ [socks4Null] ++ l)
    by (simpl; by rewrite <- !(assoc_L (++))).
  unfold socks4_parse. change (Byte.eqb socks4Version socks4Version && Byte.eqb socks4CommandConnect socks4CommandConnect)
    with true. cbn [andb].
  assert (Hlen : (6 <=? len (p ++ ip4 ++ u ++ [socks4Null] ++ l)) = true).
  { apply Z.leb_le. rewrite !len_app. unfold len at 1 2. rewrite Hp, Hip. pose proof (len_nonneg u).
    pose proof (len_nonneg ([socks4Null] ++ l)). rewrite len_app in *. lia. }
  rewrite Hlen. rewrite (take_app_length' p _ 2) by done.
  rewrite (drop_app_length' p _ 2) by done. rewrite (take_app_length' ip4 _ 4) by done.
  rewrite (assoc_L (++) p), (drop_app_length' (p ++ ip4) _ 6) by (rewrite length_app; lia).
  assert (list_find (fun b => b = socks4Null) (u ++ [socks4Null] ++ l) = Some (length u, socks4Null)) as ->.
  { apply list_find_Some. split_and!; [|done|].
    - by rewrite lookup_app_r, Nat.sub_diag by lia.
    - intros j y Hj Hlt ->. rewrite lookup_app_l in Hj by done. apply Hn. by eapply list_elem_of_lookup_2. }
  rewrite take_app_length, Hget. do 2 f_equal. rewrite (assoc_L (++) u).
  by rewrite drop_app_length' by (rewrite length_app; simpl; lia).
Qed.

(** SOCKS4 requests.  A server reads the port, the address and the user name that Dial was given
    when the user name has no zero byte; the reply is read in full, and only a granted request
    gives a connection. *)
Theorem Socks4_handshake ip4 port username i rest e werr :
  length ip4 = 4%nat -> 0 <= port < 65536 -> length i = 8%nat ->
  let '(r, c) := socks4_handshake ip4 port username (Conn (i ++ rest) e [] None werr) in
  (r = Ok tt <-> take 2 i = [x00; x5a]%byte) /\ rx c = rest /\
  (x00 ∉ bytes_of username -> forall l,
     socks4_parse (tx c ++ l) = Some (port, ip4, bytes_of username, l)).
Proof.
  intros Hip Hport Hi. unfold socks4_handshake.
  erewrite bind_Ok by apply Write__Conn. cbn beta.
  erewrite bind_Ok by (by apply ReadFull_exact). cbn beta.
  destruct i as [|v [|code i]]; try done.
  destruct (Byte.eqb v socks4ReplyVersion) eqn:Ev; cbn [negb];
    [destruct (Byte.eqb code socks4Granted) eqn:Ec; cbn [negb]|];
    (split; [split; [|]|split; [done|intros Hn l; by apply socks4_parse_request]]); simpl; try done.
  - intros _. apply Byte.byte_dec_bl in Ev, Ec. by subst.
  - intros [= -> ->]. by rewrite (Byte.byte_dec_lb eq_refl) in Ec.
  - intros [= -> _]. by rewrite (Byte.byte_dec_lb eq_refl) in Ev.
Qed.

(** ** A concrete parser and runs *)

Module HttpWitness.
Definition blank : list byte := [x0d; x0a; x0d; x0a]%byte.
Fixpoint head_end (l : list byte) : option nat :=
  match l with
  | [] => None
  | _ :: k => if decide (take 4 l = blank) then Some 4%nat else S <$> head_end k
  end.
(** Every head is taken for a CONNECT to one host. *)
Definition parse (l : list byte) : option (result request * nat) :=
  n ← head_end l; Some (Ok (MkRequest "CONNECT" "example.org:443" ""), n).
Definition head : list byte := bytes_of "CONNECT example.org:443 HTTP/1.1" ++ blank.
(** A client that sends its first bytes together with its request. *)
Definition eager : list (list byte) := [take 9 head; drop 9 head ++ [x16; x03]; [x01; x02]]%byte.
End HttpWitness.

Lemma head_end_ok a n : HttpWitness.head_end a = Some n ->
  (4 <= n <= length a)%nat /\ forall b, HttpWitness.head_end (a ++ b) = Some n.
Proof.
  revert n. induction a as [|x a IH]; intros n; [done|].
  cbn [HttpWitness.head_end app]. destruct (decide (take 4 (x :: a) = _)) as [E|E].
  - intros [= <-]. assert (4 <= length (x :: a))%nat as Hl.
    { assert (length (take 4 (x :: a)) = 4%nat) as H by (by rewrite E). rewrite length_take in H. lia. }
    split; [lia|]. intros b. rewrite decide_True; [done|].
    change (x :: a ++ b) with ((x :: a) ++ b). by rewrite take_app_le.
  - destruct (HttpWitness.head_end a) as [m|]; [|done]. intros [= <-].
    destruct (IH m eq_refl) as [Hm Hb]. split; [simpl; lia|]. intros b.
    rewrite decide_False; [by rewrite Hb|].
    change (x :: a ++ b) with ((x :: a) ++ b). rewrite take_app_le; [done|simpl; lia].
Qed.

Lemma parse_ok : parser_ok HttpWitness.parse.
Proof.
  intros a r n. unfold HttpWitness.parse.
  destruct (HttpWitness.head_end a) as [m|] eqn:E; [|done]. intros [= <- <-].
  destruct (head_end_ok _ _ E) as [Hm Hb]. split; [lia|]. intros b. by rewrite Hb.
Qed.

Lemma Http_connect_witness :
  handle HttpWitness.parse (fun _ => true) HttpWitness.eager = Tunnel "example.org:443" [[x01; x02]]%byte /\
  exists head early req, concat HttpWitness.eager = head ++ early ++ [x01; x02]%byte /\
    HttpWitness.parse (head ++ early) = Some (Ok req, length head).
Proof.
  split; [by vm_compute|].
  destruct (Http_connect HttpWitness.parse (fun _ => true) HttpWitness.eager "example.org:443" [[x01; x02]]%byte)
    as [(head & early & req & H1 & H2 & _) _]; [exact parse_ok|by vm_compute|].
  exists head, early, req. split; [exact H1|exact H2].
Defined.

Lemma Socks4_handshake_witness :
  (socks4_handshake [x7f; x00; x00; x01]%byte 80 "me"
     (Conn ([x00; x5a; x00; x00; x00; x00; x00; x00]%byte ++ []) EOF [] None EOF)).1 = Ok tt.
Proof.
  pose proof (Socks4_handshake [x7f; x00; x00; x01]%byte 80 "me" [x00; x5a; x00; x00; x00; x00; x00; x00]%byte
    [] EOF EOF eq_refl ltac:(lia) eq_refl) as H.
  destruct (socks4_handshake _ _ _ _) as [r c]. apply (proj1 H). reflexivity.
Defined.
