(* ===== verification/Reconnect.v ===== *)
(** The clients that reconnect: obfs/client/client.go, the loops of main/snowflake.go, and
    RunForwardClient of common/muxpipe/muxpipe.go.

    Both kinds of client loop for ever: dial, open a mux session, serve it until it ends, close
    it and sleep.  A reverse client asks the server's hub (MuxPipe.v) to publish an address on
    each new session.  A forward client keeps its listener and its UDP socket over all its
    sessions, and each session starts a goroutine of its own that reads the UDP socket. *)

From S2P Require Import Prelude GoLib MuxPipe Startup.
From Stdlib Require Import ZArith Lia Strings.Byte Strings.String.
From stdpp Require Import gmap list strings.

#[local] Open Scope string_scope.
#[local] Open Scope Z_scope.
#[local] Open Scope list_scope.

(** ** Setting up an obfs client *)

(** How Client.Setup ends: the process, a reverse loop, or a forward loop on a bound address,
    which has a UDP socket or not. *)
Inductive client_setup : Type :=
  | CFatal (msg : string)
  | CReverse (listen : string)
  | CForward (bound : string) (udp : bool).

(** [factory], [args]: whether the library has the transport, makes its factory and takes the
    arguments; [dual_Listen] is dualbind.Listen. *)
Definition Client_Setup (transport factory args : bool) (dual_Listen : string -> result (string * bool))
    (ReverseAddr : string) (c : JsonClientConfigImpl) : client_setup :=
  if negb transport then CFatal "no such transport is supported"
  else if negb factory then CFatal "failed to get ClientFactory"
  else if negb args then CFatal "dial args:"
  else if negb (String.eqb ReverseAddr "") then CReverse (cListen c)
  else
    let listen := if String.eqb (TrimSpace (cListen c)) "" then "127.0.0.1:1080" else cListen c in
    match dual_Listen listen with
    | Ok (bound, udp) => CForward bound udp
    | _ => CFatal "listen"
    end.

(** ** Reverse clients *)

Section reverse.
Context (net_Listen : string -> gset string -> option string).

(** A turn of the loop: dialing or the session fails; the session fails during the request (whether
    the server has handled the request before); the request is answered, and what else happens
    at the hub until the session ends. *)
Inductive rev_turn : Type :=
  | DialFails
  | RequestFails (handled : bool)
  | Answered (meanwhile : list event).

(** The hub, the next session number, and for each turn the address that was published, if
    any. *)
Record rev_client := MkRev { rhub : hub; rnext : nat; published_as : list (option string) }.

(** A turn of runReverse and snowflakeRunReverse.  An empty answer is a refusal. *)
Definition reverse_turn (listen : string) (t : rev_turn) (r : rev_client) : rev_client :=
  let n := rnext r in
  let h := hub_step net_Listen (rhub r) (EOpen n) in
  match t with
  | DialFails => MkRev (rhub r) n (published_as r ++ [None])
  | RequestFails handled =>
      let h := if handled then (runReverse net_Listen n listen false h).2 else h in
      MkRev (hub_step net_Listen h (EClose n)) (S n) (published_as r ++ [None])
  | Answered es =>
      let '(bound, h) := runReverse net_Listen n listen true h in
      if String.eqb bound "" then
        MkRev (hub_step net_Listen h (EClose n)) (S n) (published_as r ++ [None])
      else
        MkRev (hub_step net_Listen (foldl (hub_step net_Listen) h es) (EClose n)) (S n)
          (published_as r ++ [Some bound])
  end.

Definition runReverseClient (listen : string) (ts : list rev_turn) (r : rev_client) : rev_client :=
  foldl (fun r t => reverse_turn listen t r) r ts.

(** The sleep after a turn, in seconds. *)
Definition turn_sleep (published : option string) : Z := if published then 1 else 2.
End reverse.

(** ** Forward clients *)

(** [cur]: the session whose accept loop runs; [dead]: sessions that have ended; [readers]: the
    sessions whose goroutine reads the UDP socket.  The last fields count the local connections
    and datagrams that were forwarded and lost. *)
Record fwd_client := MkFwdClient {
  cur : option nat; dead : gset nat; readers : gset nat; started : nat;
  conns_ok : nat; conns_lost : nat; dgrams_ok : nat; dgrams_lost : nat
}.

Definition new_client : fwd_client := MkFwdClient None ∅ ∅ 0 0 0 0 0.

Inductive fevent : Type :=
  | SessionOpens (udp : bool)   (* a turn of the loop gets a session, and its UDP stream or not *)
  | SessionDies (n : nat)       (* the connection under a session is lost, and smux knows *)
  | Accepts                     (* the listener accepts a connection *)
  | Datagram (n : nat).         (* the goroutine of session n reads a datagram *)

(** A connection for which no stream can be opened is closed, and RunForwardClient returns.  A
    datagram that cannot be written is lost, and its goroutine returns. *)
Definition fwd_event (e : fevent) (c : fwd_client) : option fwd_client :=
  match e with
  | SessionOpens udp =>
      match cur c with
      | None => Some (MkFwdClient (Some (started c)) (dead c)
                  (if udp then {[started c]} ∪ readers c else readers c) (S (started c))
                  (conns_ok c) (conns_lost c) (dgrams_ok c) (dgrams_lost c))
      | Some _ => None
      end
  | SessionDies n =>
      if decide (n < started c)%nat then
        Some (MkFwdClient (cur c) ({[n]} ∪ dead c) (readers c) (started c)
                (conns_ok c) (conns_lost c) (dgrams_ok c) (dgrams_lost c))
      else None
  | Accepts =>
      match cur c with
      | None => None
      | Some n =>
          if decide (n ∈ dead c) then
            Some (MkFwdClient None (dead c) (readers c) (started c)
                    (conns_ok c) (S (conns_lost c)) (dgrams_ok c) (dgrams_lost c))
          else
            Some (MkFwdClient (cur c) (dead c) (readers c) (started c)
                    (S (conns_ok c)) (conns_lost c) (dgrams_ok c) (dgrams_lost c))
      end
  | Datagram n =>
      if decide (n ∈ readers c) then
        if decide (n ∈ dead c) then
          Some (MkFwdClient (cur c) (dead c) (readers c ∖ {[n]}) (started c)
                  (conns_ok c) (conns_lost c) (dgrams_ok c) (S (dgrams_lost c)))
        else
          Some (MkFwdClient (cur c) (dead c) (readers c) (started c)
                  (conns_ok c) (conns_lost c) (S (dgrams_ok c)) (dgrams_lost c))
      else None
  end.

Fixpoint fwd_events (es : list fevent) (c : fwd_client) : option fwd_client :=
  match es with
  | [] => Some c
  | e :: es => c ← fwd_event e c; fwd_events es c
  end.

(** ** Lemmas *)

Lemma fwd_events_app es es' c : fwd_events (es ++ es') c = c ← fwd_events es c; fwd_events es' c.
Proof. revert c. induction es as [|e es IH]; intros c; simpl; [done|]. destruct (fwd_event e c); simpl; auto. Qed.

(** The session of the accept loop is the last one; those before it have ended and have cost a
    connection each.  The goroutines of ended sessions that still read, and those that have
    lost a datagram, belong to different sessions. *)
Record fwd_ok (c : fwd_client) : Prop := {
  fo_cur : match cur c with Some n => started c = S n /\ conns_lost c = n | None => conns_lost c = started c end;
  fo_gone : forall n, (n < started c)%nat -> cur c <> Some n -> n ∈ dead c;
  fo_dead : forall n, n ∈ dead c -> (n < started c)%nat;
  fo_readers : forall n, n ∈ readers c -> (n < started c)%nat;
  fo_lost : (dgrams_lost c + size (readers c ∩ dead c) <= size (dead c))%nat
}.

Lemma fwd_event_ok e c c' : fwd_event e c = Some c' -> fwd_ok c -> fwd_ok c'.
Proof.
  intros H [H1 H2 H3 H4 H5]. destruct e as [udp|n| |n]; simpl in H.
  - destruct (cur c); [done|]. injection H as <-. split; simpl.
    + by split.
    + intros n Hn Hne. apply H2; [|done]. assert (n <> started c) by congruence. lia.
    + intros n Hn%H3. lia.
    + intros n Hn. assert (n = started c \/ n ∈ readers c) as [->|Hr%H4] by (destruct udp; set_solver).
      * lia.
      * lia.
    + destruct udp; [|done]. assert (started c ∉ dead c) by (intros Hd%H3; lia).
      replace (({[started c]} ∪ readers c) ∩ dead c) with (readers c ∩ dead c) by set_solver. done.
  - destruct (decide (n < started c)%nat); [|done]. injection H as <-. split; simpl; auto.
    + intros m Hm Hne. apply elem_of_union. right. by apply H2.
    + intros m. rewrite elem_of_union, elem_of_singleton. by intros [->|Hm%H3].
    + destruct (decide (n ∈ dead c)) as [Hd|Hd].
      { replace ({[n]} ∪ dead c) with (dead c) by set_solver. done. }
      rewrite (size_union {[n]}), size_singleton by set_solver.
      assert (size (readers c ∩ ({[n]} ∪ dead c)) <= 1 + size (readers c ∩ dead c))%nat; [|lia].
      etrans; [apply (subseteq_size _ ({[n]} ∪ (readers c ∩ dead c))); set_solver|].
      rewrite size_union by set_solver. by rewrite size_singleton.
  - destruct (cur c) as [n|]; [|done]. destruct H1 as [E1 E2]. destruct (decide (n ∈ dead c)); injection H as <-.
    + split; simpl; auto; [lia|]. intros m Hm _. destruct (decide (m = n)) as [->|]; [done|]. apply H2; [done|congruence].
    + by split.
  - destruct (decide (n ∈ readers c)) as [Hr|]; [|done]. destruct (decide (n ∈ dead c)) as [Hd|]; injection H as <-.
    + split; simpl; auto; [set_solver|].
      assert (readers c ∩ dead c = {[n]} ∪ ((readers c ∖ {[n]}) ∩ dead c)) as E.
      { apply leibniz_equiv. intros m. destruct (decide (m = n)); set_solver. }
      rewrite E, size_union, size_singleton in H5 by set_solver. lia.
    + by split.
Qed.

Lemma fwd_events_ok es c c' : fwd_events es c = Some c' -> fwd_ok c -> fwd_ok c'.
Proof.
  revert c. induction es as [|e es IH]; intros c; simpl; [by intros [= ->]|].
  destruct (fwd_event e c) eqn:E; simpl; [|done]. eauto using fwd_event_ok.
Qed.

Lemma new_client_ok : fwd_ok new_client.
Proof. split; simpl; auto; [intros n Hn; lia|set_solver..]. Qed.

(** Sessions that end before any datagram comes. *)
Fixpoint barren (k : nat) : list fevent :=
  match k with O => [] | S k => barren k ++ [SessionOpens true; SessionDies k; Accepts] end.

Lemma barren_run k :
  fwd_events (barren k) new_client =
    Some (MkFwdClient None (list_to_set (seq 0 k)) (list_to_set (seq 0 k)) k 0 k 0 0).
Proof.
  induction k as [|k IH]; [done|]. cbn [barren]. rewrite fwd_events_app, IH.
  cbn [mbind option_bind fwd_events fwd_event cur dead readers started conns_ok conns_lost dgrams_ok dgrams_lost].
  rewrite decide_True by lia.
  cbn [mbind option_bind fwd_events fwd_event cur dead readers started conns_ok conns_lost dgrams_ok dgrams_lost].
  rewrite decide_True by set_solver. cbn [mbind option_bind].
  rewrite seq_S, list_to_set_app_L. cbn [list_to_set Nat.add]. rewrite (right_id_L ∅ (∪)).
  by rewrite !(comm_L (∪) {[k]}).
Qed.

(** Datagrams that the goroutines of ended sessions take. *)
Lemma stale_datagrams l c :
  NoDup l -> (forall n, n ∈ l -> n ∈ readers c /\ n ∈ dead c) ->
  exists c', fwd_events (map Datagram l) c = Some c' /\ cur c' = cur c /\ dead c' = dead c /\
    dgrams_lost c' = (dgrams_lost c + length l)%nat /\ dgrams_ok c' = dgrams_ok c.
Proof.
  intros Hl. revert c. induction Hl as [|n l Hn _ IH]; intros c Hc.
  { exists c. simpl. by rewrite Nat.add_0_r. }
  destruct (Hc n) as [Hr Hd]; [by left|]. cbn [map fwd_events fwd_event].
  rewrite !decide_True by done. cbn [mbind option_bind].
  destruct (IH (MkFwdClient (cur c) (dead c) (readers c ∖ {[n]}) (started c)
                  (conns_ok c) (conns_lost c) (dgrams_ok c) (S (dgrams_lost c)))) as (c' & H1 & H2 & H3 & H4 & H5).
  { simpl. intros m Hm. destruct (Hc m) as [? ?]; [by right|]. split; [|done].
    apply elem_of_difference. split; [done|]. rewrite elem_of_singleton. by intros ->. }
  exists c'. simpl in *. split_and!; try done. rewrite H4. lia.
Qed.

(** A published address stays published, and refuses the requests of the following turns. *)
Lemma reverse_turn_refused net_Listen a t r s :
  fixed net_Listen a -> (forall l bound b, net_Listen l bound = Some b -> b ∉ bound) ->
  published (rhub r) !! a = Some s ->
  published (rhub (reverse_turn net_Listen a t r)) !! a = Some s /\
  published_as (reverse_turn net_Listen a t r) = published_as r ++ [None].
Proof.
  intros Hf Hn Hs.
  assert (Hb : forall h w n, published h !! a = Some s -> runReverse net_Listen n a w h = ("", h)).
  { intros h w n Hp. unfold runReverse. rewrite Hf, decide_True; [done|]. apply elem_of_dom. by eexists. }
  destruct t as [|handled|es]; simpl.
  - done.
  - destruct handled; [rewrite Hb by done|]; by split.
  - rewrite Hb by done. by split.
Qed.

Lemma runReverse_refused net_Listen a ts r s :
  fixed net_Listen a -> (forall l bound b, net_Listen l bound = Some b -> b ∉ bound) ->
  published (rhub r) !! a = Some s ->
  published_as (runReverseClient net_Listen a ts r) = published_as r ++ replicate (length ts) None.
Proof.
  intros Hf Hn. revert r. induction ts as [|t ts IH]; intros r Hs; simpl; [by rewrite app_nil_r|].
  destruct (reverse_turn_refused net_Listen a t r s Hf Hn Hs) as [H1 H2].
  unfold runReverseClient in *. simpl. rewrite IH, H2, <- (assoc_L (++)) by done. done.
Qed.

(** A turn publishes the address it asked for, or nothing. *)
Lemma reverse_turn_published net_Listen a t r :
  fixed net_Listen a -> (forall l bound b, net_Listen l bound = Some b -> b ∉ bound) -> a <> "" ->
  published_as (reverse_turn net_Listen a t r) = published_as r ++ [None] \/
  published_as (reverse_turn net_Listen a t r) = published_as r ++ [Some a] /\
  exists s, published (rhub (reverse_turn net_Listen a t r)) !! a = Some s.
Proof.
  intros Hf Hn Ha. destruct t as [|handled|es]; simpl; [by left|by left|].
  unfold runReverse. rewrite Hf. simpl. destruct (decide (a ∈ dom (published (rhub r)))); [by left|].
  apply String.eqb_neq in Ha. rewrite Ha. right. split; [done|]. exists (rnext r).
  rewrite Hf, decide_False by done. rewrite Ha. simpl.
  apply hub_keeps; [done..|]. simpl. by rewrite lookup_insert_eq.
Qed.

(** ** The properties *)


(** What reconnecting costs.  A forward client notices the loss of a session only at the next
    local connection, which it closes: it loses one connection for each session it has left, and
     no other.  Each session leaves a goroutine behind that reads the UDP socket: at most one
    datagram is lost for each session that has ended, and any number of sessions can end without
    a datagram, after which as many datagrams in a row can be lost although the current session
    is alive.  (What is given to a session that is lost before smux notices is not counted.) *)
Theorem Reconnect_losses :
  (forall es c, fwd_events es new_client = Some c ->
     started c = (conns_lost c + if cur c then 1 else 0)%nat /\
     (conns_lost c <= size (dead c))%nat /\ (dgrams_lost c <= size (dead c))%nat) /\
  (forall k, exists es c, fwd_events (es ++ map Datagram (seq 0 k)) new_client = Some c /\
     Forall (fun e => match e with Datagram _ => False | _ => True end) es /\
     cur c = Some k /\ k ∉ dead c /\ dgrams_lost c = k /\ dgrams_ok c = 0%nat).
Proof.
  split.
  - intros es c Hc%fwd_events_ok; [|apply new_client_ok]. destruct Hc as [H1 H2 H3 _ H5].
    split; [|split; [|lia]].
    + destruct (cur c); destruct_and?; lia.
    + assert (list_to_set (seq 0 (conns_lost c)) ⊆ dead c) as Hsub.
      { intros n. rewrite elem_of_list_to_set, elem_of_seq. intros Hn.
        apply H2; destruct (cur c); destruct_and?; try done; try lia. intros [= E]. lia. }
      apply subseteq_size in Hsub. rewrite size_list_to_set, length_seq in Hsub by apply NoDup_seq. lia.
  - intros k. exists (barren k ++ [SessionOpens true]).
    destruct (stale_datagrams (seq 0 k)
      (MkFwdClient (Some k) (list_to_set (seq 0 k)) ({[k]} ∪ list_to_set (seq 0 k)) (S k) 0 k 0 0))
      as (c & Hr & H1 & H2 & H3 & H4); [apply NoDup_seq|simpl; set_solver|].
    exists c. rewrite <- (assoc_L (++)), fwd_events_app, barren_run. simpl in *.
    split; [done|]. split.
    + apply Forall_app. split; [|by repeat constructor]. clear. induction k as [|k IH]; [constructor|].
      simpl. apply Forall_app. split; [done|by repeat constructor].
    + rewrite H2, H3, H4, length_seq. split_and!; try done.
      rewrite elem_of_list_to_set, elem_of_seq. lia.
Qed.

(** ** A concrete run *)

