(* ===== verification/Termon.v ===== *)
(** Shutting down: common/termon/provider.go and termmon.go, and the certificates that
    src/main/ptproxy.go adds to its configuration before it starts.

    main ends in LaunchTermMonitorForListeners with the listeners of the obfs servers and
    clients.  The monitor waits on two channels without buffers: a signal that arrives while
    nobody waits is dropped by os/signal, so what matters is the sequence of the events that are
    received. *)

From S2P Require Import Prelude GoLib Startup Obfs.
From Stdlib Require Import ZArith Lia Strings.Byte Strings.String.
From stdpp Require Import list strings.

#[local] Open Scope string_scope.
#[local] Open Scope Z_scope.
#[local] Open Scope list_scope.

(** ** The monitor *)

Inductive signal : Type := SIGINT | SIGTERM.

(** What the select of Wait receives: a count from OnHandlerStart or OnHandlerFinish, a signal.
    The death of the parent process comes as a SIGTERM. *)
Inductive tevent : Type := HandlerChan (n : Z) | SigChan (s : signal).

Definition OnHandlerStart : tevent := HandlerChan 1.
Definition OnHandlerFinish : tevent := HandlerChan (-1).

(** Wait: the signal it returns, the number of handlers and the events that follow; [None] as
    long as it waits. *)
Fixpoint Wait (termOnNoHandlers : bool) (numHandlers : Z) (evs : list tevent) :
    option (signal * Z * list tevent) :=
  match evs with
  | [] => None
  | HandlerChan n :: evs =>
      let numHandlers := numHandlers + n in
      if termOnNoHandlers && (numHandlers =? 0) then Some (SIGTERM, numHandlers, evs)
      else Wait termOnNoHandlers numHandlers evs
  | SigChan s :: evs => Some (s, numHandlers, evs)
  end.

(** How far LaunchTermMonitorForListeners is: the listeners it has closed, and whether it has
    returned, which ends the process. *)
Inductive monitor : Type := Waiting (closed : list nat) | Exited (closed : list nat).

(** The loop over the listeners, which ends at the first Close that fails. *)
Fixpoint close_loop (i : nat) (closes : list bool) : list nat * bool :=
  match closes with
  | [] => ([], true)
  | ok :: closes =>
      if ok : bool then let '(l, all) := close_loop (S i) closes in (i :: l, all) else ([], false)
  end.

Definition LaunchTermMonitorForListeners (closes : list bool) (evs : list tevent) : monitor :=
  match Wait false 0 evs with
  | None => Waiting []
  | Some (SIGTERM, _, _) => Exited []
  | Some (SIGINT, n, evs) =>
      let '(l, all) := close_loop 0 closes in
      if all then match Wait true n evs with None => Waiting l | Some _ => Exited l end
      else Exited l
  end.

(** The variant for HTTP servers, whose Close ends their connections too, is the same text. *)
Definition LaunchTermMonitorForServers (closes : list bool) (evs : list tevent) : monitor :=
  LaunchTermMonitorForListeners closes evs.

(** ** Certificates at start-up *)

Definition set_identity (cert key : string) (s : JsonServerConfigImpl) : JsonServerConfigImpl :=
  MkServer (sType s) (sTag s) (sListen s) (sTarget s) cert key (sEncKey s) (sProtocol s)
    (sHttpAddr s) (sHttpsAddr s) (sTlsCertFile s) (sTlsKeyFile s) (sAcmeEmail s) (sAcmeDomain s)
    (sSelfSigned s) (sRedirect s) (sCertDir s) (sUser s) (sPass s) (sPasvIP s) (sUploadPorts s)
    (sDownloadPorts s) (sTLS s) (sServeDir s) (sBackend s).

(** The keys that are drawn for the servers one after the other: node id, public and private key. *)
Definition keys : Type := list byte * list byte * list byte.

(** ensureServerCerts: the servers, and whether the configuration is saved. *)
Fixpoint ensureServerCerts (draw : nat -> keys) (i : nat) (servers : list JsonServerConfigImpl) :
    list JsonServerConfigImpl * bool :=
  match servers with
  | [] => ([], false)
  | s :: servers =>
      if negb (String.eqb (sType s) "obfs4") || negb (String.eqb (sCert s) "") then
        let '(l, dirty) := ensureServerCerts draw i servers in (s :: l, dirty)
      else
        let '(id, public, private) := draw i in
        let '(cert, key) := GenerateIdentity id public private in
        let '(l, _) := ensureServerCerts draw (S i) servers in (set_identity cert key s :: l, true)
  end.

(** ** The properties *)

Lemma close_loop_all i closes :
  Forall (fun ok => ok = true) closes -> close_loop i closes = (seq i (length closes), true).
Proof.
  intros H. revert i. induction H as [|ok closes -> _ IH]; intros i; simpl; [done|]. by rewrite IH.
Qed.

Lemma close_loop_fails i k closes :
  closes !! k = Some false -> Forall (fun ok => ok = true) (take k closes) ->
  close_loop i closes = (seq i k, false).
Proof.
  revert i k. induction closes as [|ok closes IH]; intros i [|k]; simpl; try done; [by intros [= ->]|].
  intros Hk [-> H]%Forall_cons. by rewrite (IH (S i) k).
Qed.

(** Shutting down.  In this program nothing counts handlers, so that only signals are received.
    A first SIGTERM ends the process at once with no listener closed.  A first SIGINT closes the
    listeners in order: when all can be closed the process goes on, whatever its connections do,
    until a second signal of either kind; when one cannot (an obfs server that could not listen)
    the process ends there, and the listeners after it are not closed. *)
Theorem Shutdown (closes : list bool) (s : signal) (rest : list signal) :
  let m := LaunchTermMonitorForListeners closes (map SigChan (s :: rest)) in
  match s with
  | SIGTERM => m = Exited []
  | SIGINT =>
      (Forall (fun ok => ok = true) closes ->
         m = match rest with [] => Waiting (seq 0 (length closes)) | _ => Exited (seq 0 (length closes)) end) /\
      (forall i, closes !! i = Some false -> Forall (fun ok => ok = true) (take i closes) ->
         m = Exited (seq 0 i))
  end.
Proof.
  destruct s; [|done]. unfold LaunchTermMonitorForListeners. simpl. split.
  - intros Hall. rewrite close_loop_all by done. by destruct rest.
  - intros i Hi Hall. by rewrite (close_loop_fails 0 i).
Qed.

(** A server entry that needs an identity. *)
Definition needs_cert (s : JsonServerConfigImpl) : bool :=
  String.eqb (sType s) "obfs4" && String.eqb (sCert s) "".

Lemma needs_cert_skip s :
  negb (String.eqb (sType s) "obfs4") || negb (String.eqb (sCert s) "") = negb (needs_cert s).
Proof. unfold needs_cert. by rewrite negb_andb. Qed.

Lemma cert_nonempty id public :
  ((length id + length public) mod 3 = 1)%nat -> encodeObfs4Cert id public <> "".
Proof.
  intros Hmod E. pose proof (DecodeString_cert id public Hmod) as H. rewrite E in H. vm_compute in H.
  discriminate H.
Qed.

Lemma ensure_none draw i l : Forall (fun s => needs_cert s = false) l -> ensureServerCerts draw i l = (l, false).
Proof.
  intros H. revert i. induction H as [|s l Hs _ IH]; intros i; simpl; [done|].
  rewrite needs_cert_skip, Hs. cbn [negb]. by rewrite IH.
Qed.

(** The entry with a drawn identity. *)
Definition with_keys (k : keys) (s : JsonServerConfigImpl) : JsonServerConfigImpl :=
  let '(id, public, private) := k in set_identity (encodeObfs4Cert id public) (hex private) s.

Definition needing (l : list JsonServerConfigImpl) : list JsonServerConfigImpl :=
  filter (fun s => needs_cert s = true) l.

Definition key_lengths_ok (k : keys) : Prop := ((length k.1.1 + length k.1.2) mod 3 = 1)%nat.

Lemma with_keys_done k s : key_lengths_ok k -> needs_cert s = true -> needs_cert (with_keys k s) = false.
Proof.
  destruct k as [[id public] private]. intros Hk [Ht _]%andb_true_iff. unfold needs_cert. simpl.
  rewrite Ht. cbn [andb]. apply String.eqb_neq. by apply cert_nonempty.
Qed.

Lemma ensure_spec draw i servers :
  (forall i, key_lengths_ok (draw i)) ->
  let '(l, dirty) := ensureServerCerts draw i servers in
  length l = length servers /\ Forall (fun s => needs_cert s = false) l /\
  dirty = bool_decide (needing servers <> []) /\
  forall k s, servers !! k = Some s -> l !! k =
    Some (if needs_cert s then with_keys (draw (i + length (needing (take k servers)))%nat) s else s).
Proof.
  intros Hd. revert i. induction servers as [|s servers IH]; intros i; [by split_and!|].
  cbn [ensureServerCerts]. rewrite needs_cert_skip. unfold needing. destruct (needs_cert s) eqn:E; cbn [negb].
  - assert (Hw : forall id public private, draw i = (id, public, private) ->
      (let '(cert, key) := GenerateIdentity id public private in set_identity cert key s) = with_keys (draw i) s)
      by (by intros id public private ->).
    specialize (IH (S i)). destruct (draw i) as [[id public] private] eqn:Ei. rewrite <- Ei in Hw.
    unfold GenerateIdentity in *. destruct (ensureServerCerts draw (S i) servers) as [l dirty].
    destruct IH as (H1 & H2 & _ & H4). rewrite (Hw id public private) by done. split_and!.
    + simpl. by rewrite H1.
    + constructor; [|done]. by apply with_keys_done.
    + by rewrite filter_cons_True.
    + intros [|k] t; simpl.
      * intros [= <-]. by rewrite E, Nat.add_0_r.
      * intros Hk. rewrite filter_cons_True by done. rewrite (H4 _ _ Hk). simpl.
        by rewrite <- Nat.add_succ_comm.
  - specialize (IH i). destruct (ensureServerCerts draw i servers) as [l dirty].
    destruct IH as (H1 & H2 & H3 & H4). split_and!.
    + simpl. by rewrite H1.
    + by constructor.
    + rewrite filter_cons_False by congruence. done.
    + intros [|k] t; simpl; [intros [= <-]; by rewrite E|].
      rewrite filter_cons_False by congruence. apply H4.
Qed.

(** Certificates are generated once.  Exactly the obfs4 servers without a certificate are given
    one, each from keys of its own, with nothing else of their entry changed; the file is saved
    when there is such a server; and the next start, with whatever keys it would draw, finds
    nothing to generate: the certificates that clients have copied stay valid. *)
Theorem Certs_once (draw : nat -> keys) (servers : list JsonServerConfigImpl) :
  (forall i, key_lengths_ok (draw i)) ->
  let '(l, dirty) := ensureServerCerts draw 0 servers in
  length l = length servers /\
  (forall k s, servers !! k = Some s -> l !! k =
     Some (if needs_cert s then with_keys (draw (length (needing (take k servers)))) s else s)) /\
  (dirty = true <-> exists s, s ∈ servers /\ needs_cert s = true) /\
  forall draw' i, ensureServerCerts draw' i l = (l, false).
Proof.
  intros Hd. pose proof (ensure_spec draw 0 servers Hd) as H.
  destruct (ensureServerCerts draw 0 servers) as [l dirty]. destruct H as (H1 & H2 & -> & H4).
  split_and!; auto.
  - rewrite bool_decide_eq_true. split.
    + intros Hn. destruct (needing servers) as [|s r] eqn:E; [done|]. exists s.
      assert (s ∈ needing servers) as [? ?]%list_elem_of_filter by (rewrite E; by left). done.
    + intros (s & Hs & Hc) E. assert (s ∈ needing servers) as Hi by (by apply list_elem_of_filter).
      rewrite E in Hi. by apply elem_of_nil in Hi.
  - intros draw' i. by apply ensure_none.
Qed.

(** ** Witnesses *)

Module TermonWitness.
Definition draw (i : nat) : keys := (repeat (byte_of_Z (Z.of_nat i)) 20, repeat x2a 32, [x01; x02])%byte.
Definition servers : list JsonServerConfigImpl :=
  [Startup.Witness.server "obfs4" "a" "0.0.0.0:1" ""; Startup.Witness.server "ftp" "b" "0.0.0.0:2" "";
   Startup.Witness.server "obfs4" "c" "0.0.0.0:3" ""].
End TermonWitness.

Lemma Certs_once_witness :
  let '(l, dirty) := ensureServerCerts TermonWitness.draw 0 TermonWitness.servers in
  dirty = true /\ map sPrivateKey l = ["0102"; ""; "0102"] /\
  forall draw' i, ensureServerCerts draw' i l = (l, false).
Proof.
  assert (forall i, key_lengths_ok (TermonWitness.draw i)) as Hk by done.
  pose proof (Certs_once TermonWitness.draw TermonWitness.servers Hk) as H.
  assert ((ensureServerCerts TermonWitness.draw 0 TermonWitness.servers).2 = true) as E1 by (by vm_compute).
  assert (map sPrivateKey (ensureServerCerts TermonWitness.draw 0 TermonWitness.servers).1 = ["0102"; ""; "0102"])
    as E2 by (by vm_compute).
  destruct (ensureServerCerts TermonWitness.draw 0 TermonWitness.servers) as [l dirty].
  split; [exact E1|]. split; [exact E2|]. apply H.
Defined.
