(* ===== verification/DpiBoot.v ===== *)
(** How a DPI server and client come up: NewServer, Run, buildTLSConfig and Shutdown of
    dpi/server/server.go, the HTTP client of NewTransport (dpi/client/transport.go), and the
    listeners of dpi/client/proxy.go.

    The configurations are those of Startup.v.  Listening, certificates and the TLS handshake
    are the environment's; of a handshake only the choice of the application protocol matters. *)

From S2P Require Import Prelude GoLib DpiWire DpiServer DpiTransport Startup.
From Stdlib Require Import ZArith Lia Strings.Byte Strings.String.
From stdpp Require Import sets list strings.

#[local] Open Scope string_scope.
#[local] Open Scope Z_scope.
#[local] Open Scope list_scope.

(** ** The server *)

(** Where the certificates of the HTTPS listener come from. *)
Inductive tls_source : Type :=
  | ACME (email domain dir : string)
  | KeyPair (cert key : string)
  | Generated.

Record Env := MkEnv {
  exe_dir : string;
  LoadX509KeyPair : string -> string -> option goerr;
  generateSelfSigned : option goerr;
  net_Listen : string -> list string -> option goerr;
  parse_backend : string -> option goerr
}.

Section boot.
(** The name of the protocol of ACME challenges. *)
Context (acme : string) (env : Env).

(** NewServer: [encryptor] is the outcome of NewEncryptor. *)
Definition NewServer {A} (encryptor : result A) (cfg : DpiServerConfig) : result A :=
  match encryptor with
  | Ok e =>
      if String.eqb (Backend cfg) "" then Ok e
      else match parse_backend env (Backend cfg) with
           | Some _ => Err (Errorf "backend url: %w")
           | None => Ok e
           end
  | Err _ => Err (Errorf "encryptor: %w")
  | Panic m => Panic m
  | OutOfFuel => OutOfFuel
  end.

Definition buildTLSConfig (cfg : DpiServerConfig) : result (tls_source * list string) :=
  proto ← DpiServer.normalizeAppProtocol (Protocol cfg);
  if negb (String.eqb (ACMEEmail cfg) "") && negb (String.eqb (ACMEDomain cfg) "") then
    Ok (ACME (ACMEEmail cfg) (ACMEDomain cfg) (if String.eqb (CertDir cfg) "" then exe_dir env else CertDir cfg),
        tlsNextProtos acme proto true)
  else if negb (String.eqb (TLSCertFile cfg) "") && negb (String.eqb (TLSKeyFile cfg) "") then
    match LoadX509KeyPair env (TLSCertFile cfg) (TLSKeyFile cfg) with
    | Some e => Err e
    | None => Ok (KeyPair (TLSCertFile cfg) (TLSKeyFile cfg), tlsNextProtos acme proto false)
    end
  else if SelfSigned cfg then
    match generateSelfSigned env with
    | Some e => Err e
    | None => Ok (Generated, tlsNextProtos acme proto false)
    end
  else Err (Errorf "no TLS configuration (cert+key, ACME, or self-signed)").

(** A listener that serves the mux: its address, and its TLS configuration if it has one. *)
Definition listener : Type := string * option (tls_source * list string).

(** Run: the listeners that serve when it returns, and its error. *)
Definition Run (cfg : DpiServerConfig) : list listener * option goerr :=
  let http :=
    if String.eqb (HTTPAddr cfg) "" then inl []
    else match net_Listen env (HTTPAddr cfg) [] with
         | Some _ => inr (Errorf "http listen: %w")
         | None => inl [(HTTPAddr cfg, None)]
         end in
  match http with
  | inr e => ([], Some e)
  | inl ls =>
      if String.eqb (HTTPSAddr cfg) "" then (ls, None)
      else match buildTLSConfig cfg with
           | Ok tls =>
               match net_Listen env (HTTPSAddr cfg) (map fst ls) with
               | Some _ => (ls, Some (Errorf "https listen: %w"))
               | None => (ls ++ [(HTTPSAddr cfg, Some tls)], None)
               end
           | _ => (ls, Some (Errorf "tls config: %w"))
           end
  end.

(** Shutdown: closing stopCh a second time panics. *)
Definition Shutdown (stopped : bool) (ls : list listener) : result (list listener) :=
  if stopped then Panic "close of closed channel" else Ok [].

(** ** The client *)

(** The application protocols the HTTP client offers: with h1 its transport sends none. *)
Definition client_protos (proto : string) : option (list string) :=
  if String.eqb proto "h1" then None else Some ["h2"; "http/1.1"].

(** The handshake: the first of the server's protocols that the client offers. *)
Definition negotiate (server : list string) (client : option (list string)) : option string :=
  match client with
  | None => Some "http/1.1"
  | Some l => head (filter (fun p => p ∈ l) server)
  end.

(** ProxyServer.RunTCP: its error, or the bound address and whether UDP is forwarded. *)
Definition RunTCP (dual_Listen : string -> result (string * bool)) (socksAddr httpAddr : string)
    (skipUDP : bool) : result (string * bool) :=
  let addr := if String.eqb socksAddr "" then httpAddr else socksAddr in
  if String.eqb addr "" then Err (Errorf "no listen address")
  else '(bound, udp) ← dual_Listen addr; Ok (bound, udp && negb skipUDP).
End boot.

(** ** The properties *)

(** What a server that is launched needs for HTTPS. *)
Definition tls_configured (cfg : DpiServerConfig) : bool :=
  negb (String.eqb (ACMEEmail cfg) "") && negb (String.eqb (ACMEDomain cfg) "") ||
  negb (String.eqb (TLSCertFile cfg) "") && negb (String.eqb (TLSKeyFile cfg) "") || SelfSigned cfg.

Lemma normalize_cases p :
  (exists q, DpiServer.normalizeAppProtocol p = Ok q /\ (q = "auto" \/ q = "h1" \/ q = "h2")) \/
  exists e, DpiServer.normalizeAppProtocol p = Err e.
Proof.
  unfold DpiServer.normalizeAppProtocol.
  destruct (_ || _); [left; eauto|].
  destruct (String.eqb_spec p "h1") as [->|_]; [left; eauto|].
  destruct (String.eqb_spec p "h2") as [->|_]; [left; simpl; eauto 6|].
  simpl. destruct (String.eqb p "h3"); right; eauto.
Qed.

Lemma buildTLSConfig_none acme env cfg :
  tls_configured cfg = false -> exists e, buildTLSConfig acme env cfg = Err e.
Proof.
  unfold tls_configured, buildTLSConfig. intros [[H1 H2]%orb_false_iff H3]%orb_false_iff.
  destruct (normalize_cases (Protocol cfg)) as [(q & -> & _)|[e ->]]; cbn [mbind result_bind]; [|eauto].
  rewrite H1, H2, H3. eauto.
Qed.

(** Starting a DPI server.  When Run succeeds, exactly the configured addresses are served, HTTPS
    with the certificate source that is configured; without a source Run fails, and with one (a
    known protocol, and certificates that can be loaded) the TLS configuration is built.  But when it fails over HTTPS the HTTP listener
    it has started before goes on serving, although the launch is reported as failed. *)
Theorem Dpi_run acme env (cfg : DpiServerConfig) :
  let '(ls, err) := Run acme env cfg in
  (err = None ->
     map fst ls = filter (fun a => a <> "") [HTTPAddr cfg; HTTPSAddr cfg] /\
     (HTTPSAddr cfg <> "" -> exists tls, buildTLSConfig acme env cfg = Ok tls /\ last ls = Some (HTTPSAddr cfg, Some tls))) /\
  (err <> None -> HTTPAddr cfg <> "" -> net_Listen env (HTTPAddr cfg) [] = None -> ls = [(HTTPAddr cfg, None)]) /\
  (HTTPSAddr cfg <> "" -> tls_configured cfg = false -> err <> None) /\
  (tls_configured cfg = true -> forall proto, DpiServer.normalizeAppProtocol (Protocol cfg) = Ok proto ->
     (forall c k, LoadX509KeyPair env c k = None) -> generateSelfSigned env = None ->
     exists tls, buildTLSConfig acme env cfg = Ok tls).
Proof.
  assert (Htls : tls_configured cfg = true -> forall proto, DpiServer.normalizeAppProtocol (Protocol cfg) = Ok proto ->
     (forall c k, LoadX509KeyPair env c k = None) -> generateSelfSigned env = None ->
     exists tls, buildTLSConfig acme env cfg = Ok tls).
  { unfold tls_configured, buildTLSConfig. intros H proto -> Hload Hgen. cbn [mbind result_bind].
    rewrite Hload, Hgen. destruct (_ && _); [eauto|]. destruct (_ && _); [eauto|]. simpl in H. rewrite H. eauto. }
  pose proof (buildTLSConfig_none acme env cfg) as Hnone. unfold Run. cbv zeta.
  assert (Hb : HTTPAddr cfg = "" \/ HTTPAddr cfg <> "" /\ net_Listen env (HTTPAddr cfg) [] = None \/
               HTTPAddr cfg <> "" /\ exists e, net_Listen env (HTTPAddr cfg) [] = Some e).
  { destruct (decide (HTTPAddr cfg = "")); [by left|]. right.
    destruct (net_Listen env (HTTPAddr cfg) []); [right|left]; eauto. }
  assert (Hf : forall a b : string, filter (fun a => a <> "") [a; b] =
    (if String.eqb a "" then [] else [a]) ++ (if String.eqb b "" then [] else [b])).
  { intros a b. rewrite !filter_cons, filter_nil.
    destruct (String.eqb_spec a ""), (String.eqb_spec b ""); by repeat case_decide. }
  rewrite Hf. clear Hf.
  destruct Hb as [E1|[[E1 El]|[E1 [e El]]]]; [rewrite E1|rewrite (proj2 (String.eqb_neq _ _) E1), El..]; simpl.
  3: { split_and!; try done. }
  all: destruct (String.eqb_spec (HTTPSAddr cfg) "") as [E2|E2]; [by split_and!|];
    destruct (buildTLSConfig acme env cfg) as [tls|e| |] eqn:Eb;
      [destruct (net_Listen env (HTTPSAddr cfg) _) eqn:Els|..]; split_and!; try done;
      try (intros _ Ht; by destruct (Hnone Ht)); intros _; split; eauto.
Qed.

(** The checks of the launch are not enough.  A certificate file without its key passes
    launchDpiServer, and Run fails. *)
Theorem Launch_unchecked acme env c target skipUDP cfg :
  launchDpiServer c target skipUDP = Some (LaunchDpiServer cfg) ->
  sSelfSigned c = false -> sAcmeEmail c = "" -> sHttpsAddr c <> "" -> sTlsKeyFile c = "" ->
  sTlsCertFile c <> "" /\ (Run acme env cfg).2 <> None.
Proof.
  unfold launchDpiServer. cbv zeta. simpl. intros H Hs Ha Hh Hk. rewrite Hs, Ha in H. simpl in H.
  apply String.eqb_neq in Hh. rewrite Hh, andb_false_r in H. simpl in H.
  destruct (String.eqb_spec (sTlsCertFile c) "") as [E|E]; [done|]. split; [done|]. injection H as <-.
  match goal with |- (Run _ _ ?cfg).2 <> None =>
    assert (tls_configured cfg = false) as Ht
      by (unfold tls_configured; simpl; by rewrite ?Ha, ?Hs, ?Hk, !andb_false_r);
    destruct (buildTLSConfig_none acme env cfg Ht) as [e He]; unfold Run; rewrite He end.
  simpl. rewrite Hh. cbv zeta. repeat case_match; simplify_eq/=; done.
Qed.

(** Client and server agree on a protocol.  Whatever valid protocols the two are configured
    with, and with ACME or without, the handshake ends with a protocol: HTTP/2 when neither is
    pinned to h1, else HTTP/1.1, also for a client that is configured with h2; and a client with a
    stream uplink always speaks HTTP/1.1, as its long bodies need. *)
Theorem Alpn_agree acme withACME p sp url dialIP q uplink u proto :
  DpiServer.normalizeAppProtocol p = Ok sp -> check_config url dialIP q uplink = Ok (u, proto) ->
  negotiate (tlsNextProtos acme sp withACME) (client_protos proto) =
    Some (if negb (String.eqb sp "h1") && negb (String.eqb proto "h1") then "h2" else "http/1.1") /\
  (u = UplinkStream -> negotiate (tlsNextProtos acme sp withACME) (client_protos proto) = Some "http/1.1").
Proof.
  intros Hp Hc.
  assert (Hneg : negotiate (tlsNextProtos acme sp withACME) (client_protos proto) =
    Some (if negb (String.eqb sp "h1") && negb (String.eqb proto "h1") then "h2" else "http/1.1")).
  { unfold client_protos. destruct (String.eqb proto "h1"); [by rewrite andb_false_r|].
    destruct (normalize_cases p) as [(x & Hx & Hsp)|[e He]]; [|congruence].
    assert (x = sp) as -> by congruence. unfold tlsNextProtos, negotiate.
    destruct Hsp as [E|[E|E]]; subst sp; reflexivity. }
  split; [done|]. intros ->. rewrite Hneg.
  assert (proto = "h1") as ->; [|by rewrite andb_false_r].
  revert Hc. unfold check_config. destruct url as [[sch host]| | |]; try done.
  destruct (negb (String.eqb sch "http") && _); [done|].
  destruct (String.eqb dialIP ""); [done|]. destruct (DpiTransport.normalizeAppProtocol q); try done.
  cbn [mbind result_bind]. cbv zeta.
  set (v := if String.eqb (TrimSpace uplink) "" then UplinkPostAsync else TrimSpace uplink).
  destruct (negb (String.eqb v UplinkPostAsync) && _); [done|]. intros [= E <-]. by rewrite E.
Qed.

(** ** Witnesses *)

Module BootWitness.
Definition env : Env := MkEnv "/opt" (fun _ _ => Some EOF) None (fun _ _ => None) (fun _ => None).
Definition entry : JsonServerConfigImpl :=
  MkServer "dpi" "" "" "" "" "" "" "" "0.0.0.0:80" "0.0.0.0:443" "cert.pem" "" "" "" false "" "" "" "" "" "" "" false "" "".
End BootWitness.

Lemma Launch_unchecked_witness :
  exists cfg, launchDpiServer BootWitness.entry "" false = Some (LaunchDpiServer cfg) /\
    Run "acme-tls/1" BootWitness.env cfg = ([("0.0.0.0:80", None)], Some (Errorf "tls config: %w")) /\
    (Run "acme-tls/1" BootWitness.env cfg).2 <> None.
Proof.
  eexists. split; [by vm_compute|]. split; [by vm_compute|].
  by apply (Launch_unchecked "acme-tls/1" BootWitness.env BootWitness.entry "" false).
Defined.

Lemma Alpn_agree_witness :
  negotiate (tlsNextProtos "acme-tls/1" "auto" true) (client_protos "h1") = Some "http/1.1" /\
  ("stream" = UplinkStream -> negotiate (tlsNextProtos "acme-tls/1" "auto" true) (client_protos "h1") = Some "http/1.1").
Proof.
  apply (Alpn_agree "acme-tls/1" true "" "auto" (Ok ("https", "example.org")) "192.0.2.1" "h2" " stream" "stream" "h1");
    by vm_compute.
Defined.
