(* ===== verification/SfStreams.v ===== *)
(** The SOCKS mode of snowflake: snowflake/common/socks5/socks5.go and, under
    snowflake/common/standalone, stream.go, client.go and the stream handlers of session.go.

    A local SOCKS5 client is served by a handshake, after which its target is written to a new
    stream of the session; the server's side of the stream reads the target and dials it.  A
    stream is a [conn] at each of its ends.  KCP and smux are libraries: opening a stream is an
    argument.  Nothing in src/main starts this mode yet. *)

From S2P Require Import Prelude GoLib GoNet Socks5.
From Stdlib Require Import ZArith Lia Strings.Byte Strings.Ascii Strings.String.
From stdpp Require Import list strings.

#[local] Open Scope string_scope.
#[local] Open Scope Z_scope.
#[local] Open Scope list_scope.

(** ** socks5 *)

Definition version5 : byte := x05.
Definition cmdConnect : byte := x01.
Definition atypIPv4 : byte := x01.
Definition atypDomain : byte := x03.
Definition atypIPv6 : byte := x04.

Definition ErrUnsupportedVersion : goerr := Errorf "unsupported SOCKS version".
Definition ErrUnsupportedCommand : goerr := Errorf "unsupported SOCKS command".
Definition ErrUnsupportedAddr : goerr := Errorf "unsupported address type".

Record Target := MkTarget { Network : string; tHost : string; tPort : Z }.

Definition Target_Addr (t : Target) : string := JoinHostPort (tHost t) (Itoa (tPort t)).

(** A read of one byte. *)
Definition read_byte : IO byte := b ← ReadFull 1; mret (nth 0 b x00).

(** The host of a request, by its type. *)
Definition read_host (atyp : byte) : IO string :=
  if Byte.eqb atyp atypIPv4 then ip ← ReadFull 4; mret (IP_String ip)
  else if Byte.eqb atyp atypDomain then
    lenByte ← read_byte;
    name ← ReadFull (Z.to_nat (byte_to_Z lenByte)); mret (string_of name)
  else if Byte.eqb atyp atypIPv6 then ip ← ReadFull 16; mret (IP_String ip)
  else throw ErrUnsupportedAddr.

(** The destination of a request, read the same way by HandshakeServer and by ReadTarget. *)
Definition read_dest : IO (string * Z) :=
  atyp ← read_byte;
  host ← read_host atyp;
  portBytes ← ReadFull 2;
  mret (host, be_get portBytes).

Definition HandshakeServer : IO Target :=
  hdr ← ReadFull 2;
  if negb (Byte.eqb (nth 0 hdr x00) version5) then throw ErrUnsupportedVersion
  else
    _ ← ReadFull (Z.to_nat (byte_to_Z (nth 1 hdr x00)));
    _ ← Write_ [version5; x00];
    hdr ← ReadFull 2;
    if negb (Byte.eqb (nth 0 hdr x00) version5) then throw ErrUnsupportedVersion
    else if negb (Byte.eqb (nth 1 hdr x00) cmdConnect) then throw ErrUnsupportedCommand
    else
      _ ← read_byte;
      '(host, port) ← read_dest;
      mret (MkTarget "tcp" host port).

Definition ReplyConnectSuccess : IO unit :=
  Write_ [version5; x00; x00; atypIPv4; x00; x00; x00; x00; x00; x00].
Definition ReplyConnectFailed : IO unit :=
  Write_ [version5; x01; x00; atypIPv4; x00; x00; x00; x00; x00; x00].

(** The goroutine of ListenAndServe for a connection: whether [handle] has taken it over. *)
Definition serve_conn (handle : Target -> IO unit) : conn -> bool * conn := fun c =>
  match HandshakeServer c with
  | (Ok target, c) =>
      match handle target c with
      | (Ok _, c) => (true, c)
      | (_, c) => (false, (ignore ReplyConnectFailed c).2)
      end
  | (_, c) => (false, c)
  end.

(** ** Streams *)

Definition StreamClientDial : byte := x01.
Definition StreamServerDial : byte := x02.
Definition StreamForward : byte := x03.
Definition StreamCaps : byte := x04.

Record SessionConfig := MkSessionConfig { ServerForwardSocks : string; ExternalService : string }.

(** The type and the bytes of an address: an IP literal is sent as its bytes. *)
Definition target_addr (host : string) : byte * list byte :=
  match ParseIP host with
  | Some ip =>
      match To4 ip, To16 ip with
      | Some ip4, _ => (atypIPv4, ip4)
      | None, Some ip16 => (atypIPv6, ip16)
      | None, None => (atypDomain, bytes_of host)
      end
  | None => (atypDomain, bytes_of host)
  end.

(** A type without a target. *)
Definition bare (streamType : byte) : bool :=
  Byte.eqb streamType StreamForward || Byte.eqb streamType StreamCaps.

Definition WriteTarget (streamType : byte) (target : Target) : IO unit :=
  _ ← Write_ [streamType];
  if bare streamType then mret tt
  else
    let '(atyp, addr) := target_addr (tHost target) in
    _ ← Write_ [atyp];
    _ ← (if Byte.eqb atyp atypDomain then
           if 255 <? len addr then throw (Errorf "hostname too long")
           else _ ← Write_ [byte_of_Z (len addr)]; Write_ addr
         else Write_ addr);
    Write_ (PutUint16 (u16 (tPort target))).

Definition no_target : Target := MkTarget "" "" 0.

Definition ReadTarget : IO (byte * Target) :=
  streamType ← read_byte;
  if bare streamType then mret (streamType, no_target)
  else
    '(host, port) ← read_dest;
    mret (streamType, MkTarget "tcp" host port).

(** OpenClientDial and OpenForward: [open] is sess.OpenStream.  An error closes the stream. *)
Definition open_stream (open : result conn) (streamType : byte) (target : Target) : result conn :=
  stream ← open;
  match WriteTarget streamType target stream with
  | (Ok _, stream) => Ok stream
  | (Err e, _) => Err e
  | (Panic m, _) => Panic m
  | (OutOfFuel, _) => OutOfFuel
  end.

Definition OpenClientDial (open : result conn) : Target -> result conn := open_stream open StreamClientDial.
Definition OpenForward (open : result conn) : result conn := open_stream open StreamForward no_target.

(** ProbeCaps: [answer] is what comes back on the stream before the deadline. *)
Definition ProbeCaps (open : result conn) (answer : list byte) : bool :=
  match open_stream open StreamCaps no_target with
  | Ok stream =>
      match ReadFull 1 (Conn answer EOF (tx stream) (tx_room stream) (tx_err stream)) with
      | (Ok [mode], _) => byte_to_Z mode =? 1
      | _ => false
      end
  | _ => false
  end.

(** ** Handlers *)

(** How a local connection goes on: closed; closed after a failure reply; copied to a stream. *)
Inductive local_end : Type := LClosed | LFailed | LCopying (stream : conn).

Definition handleLocalSocks (open : result conn) : conn -> local_end * conn := fun c =>
  match HandshakeServer c with
  | (Ok target, c) =>
      match OpenClientDial open target with
      | Ok stream =>
          match ReplyConnectSuccess c with
          | (Ok _, c) => (LCopying stream, c)
          | (_, c) => (LClosed, c)
          end
      | _ => (LFailed, (ignore ReplyConnectFailed c).2)
      end
  | (_, c) => (LClosed, c)
  end.

Definition handleLocalTCP (open : result conn) : local_end :=
  match OpenClientDial open (MkTarget "tcp" "127.0.0.1" 0) with
  | Ok stream => LCopying stream
  | _ => LClosed
  end.

Definition handleForward (open : result conn) : local_end :=
  match OpenForward open with
  | Ok stream => LCopying stream
  | _ => LClosed
  end.

Definition PickListenAddr (host : string) : string :=
  (if String.eqb host "" then "127.0.0.1" else host) +:+ ":0".

(** What the server does with a stream: closes it; answers the probe; dials, and copies when
    that succeeds. *)
Inductive inbound : Type := Dropped | Caps | Dials (network addr : string) (copying : bool).

Definition handleInboundStream (cfg : SessionConfig) (dial : string -> string -> bool) :
    conn -> inbound * conn := fun c =>
  match ReadTarget c with
  | (Ok (streamType, target), c) =>
      if Byte.eqb streamType StreamCaps then
        let mode := if String.eqb (ExternalService cfg) "" then x00 else x01 in
        (Caps, (ignore (Write_ [mode]) c).2)
      else if Byte.eqb streamType StreamClientDial then
        let '(dialNet, dialAddr) :=
          if String.eqb (ExternalService cfg) "" then (Network target, Target_Addr target)
          else ("tcp", ExternalService cfg) in
        (Dials dialNet dialAddr (dial dialNet dialAddr), c)
      else if Byte.eqb streamType StreamServerDial then (Dropped, c)
      else if Byte.eqb streamType StreamForward then
        if String.eqb (ServerForwardSocks cfg) "" then (Dropped, c)
        else (Dials "tcp" (ServerForwardSocks cfg) (dial "tcp" (ServerForwardSocks cfg)), c)
      else (Dropped, c)
  | (_, c) => (Dropped, c)
  end.

(** ** Lemmas: reading *)

(** How a read on a stream in constructor form ends. *)
Lemma ReadFull_takes n l e t r w :
  (exists p q, l = p ++ q /\ length p = n /\ ReadFull n (Conn l e t r w) = (Ok p, Conn q e t r w)) \/
  exists er, ReadFull n (Conn l e t r w) = (Err er, Conn [] e t r w).
Proof.
  destruct (decide (n <= length l)%nat) as [Hn|Hn].
  - left. exists (take n l), (drop n l). assert (Hl : length (take n l) = n) by (rewrite length_take; lia).
    split; [by rewrite take_drop|]. split; [done|]. rewrite <- (take_drop n l) at 1. by apply ReadFull_exact.
  - right. eexists. apply ReadFull_short. lia.
Qed.

(** A reader on every input: it takes a prefix that is [ok] with its value, or fails. *)
Definition reads {A} (m : IO A) (ok : list byte -> A -> Prop) : Prop :=
  forall l e t w,
    (exists p q v, l = p ++ q /\ ok p v /\ m (Conn l e t None w) = (Ok v, Conn q e t None w)) \/
    exists er l', m (Conn l e t None w) = (Err er, Conn l' e t None w).

Lemma reads_full n : reads (ReadFull n) (fun p v => p = v /\ length v = n).
Proof.
  intros l e t w. destruct (ReadFull_takes n l e t None w) as [(p & q & -> & Hp & E)|[er E]]; [left|right; eauto].
  exists p, q, p. by rewrite E.
Qed.

Lemma reads_ret {A} (v : A) : reads (mret v) (fun p x => p = [] /\ x = v).
Proof. intros l e t w. left. by exists [], l, v. Qed.

Lemma reads_throw {A} er : reads (throw er : IO A) (fun _ _ => False).
Proof. intros l e t w. right. by exists er, l. Qed.

Lemma reads_bind {A B} (m : IO A) (f : A -> IO B) ok1 ok2 :
  reads m ok1 -> (forall a, reads (f a) (ok2 a)) ->
  reads (m ≫= f) (fun p v => exists a p1 p2, ok1 p1 a /\ p = p1 ++ p2 /\ ok2 a p2 v).
Proof.
  intros H1 H2 l e t w. destruct (H1 l e t w) as [(p1 & q & a & -> & Ha & E)|(er & l' & E)].
  - destruct (H2 a q e t w) as [(p2 & r & v & -> & Hv & E2)|(er & l' & E2)].
    + left. exists (p1 ++ p2), r, v. split; [by rewrite (assoc_L (++))|]. split; [by eauto 6|].
      by rewrite (bind_Ok _ _ _ _ _ E).
    + right. exists er, l'. by rewrite (bind_Ok _ _ _ _ _ E).
  - right. exists er, l'. by rewrite (bind_Err _ _ _ _ _ E).
Qed.

Lemma reads_weaken {A} (m : IO A) (ok ok' : list byte -> A -> Prop) :
  reads m ok -> (forall p v, ok p v -> ok' p v) -> reads m ok'.
Proof. intros H Hw l e t w. destruct (H l e t w) as [(p & q & v & ? & ? & ?)|?]; [left|by right]. eauto 8. Qed.

Lemma reads_byte : reads read_byte (fun p b => p = [b]).
Proof.
  eapply reads_weaken; [apply reads_bind; [apply reads_full|intros a; apply reads_ret]|].
  intros p b (a & p1 & p2 & [-> Ha] & -> & -> & ->). destruct a as [|x [|]]; done.
Qed.

Lemma reads_host atyp :
  reads (read_host atyp) (fun p h => exists a, addr_ok a /\ atyp :: p = addr_bytes a /\ h = addr_host a).
Proof.
  unfold read_host. destruct (Byte.eqb atyp atypIPv4) eqn:E4; [|destruct (Byte.eqb atyp atypDomain) eqn:Ed;
    [|destruct (Byte.eqb atyp atypIPv6) eqn:E6]].
  - apply byte_eqb_eq in E4 as ->.
    eapply reads_weaken; [apply reads_bind; [apply reads_full|intros a; apply reads_ret]|].
    intros p b (a & p1 & p2 & [-> Ha] & -> & -> & ->). exists (A4 a). by rewrite app_nil_r.
  - apply byte_eqb_eq in Ed as ->.
    eapply reads_weaken; [apply reads_bind; [apply reads_byte|intros lb];
      apply reads_bind; [apply reads_full|intros a; apply reads_ret]|].
    intros p b (lb & p1 & p2 & -> & -> & a & p3 & p4 & [-> Ha] & -> & -> & ->).
    pose proof (byte_to_Z_range lb). exists (ADomain a). split; [simpl; lia|]. split; [|done].
    rewrite app_nil_r. simpl. do 2 f_equal. rewrite <- (byte_of_to_Z lb). f_equal. unfold len. lia.
  - apply byte_eqb_eq in E6 as ->.
    eapply reads_weaken; [apply reads_bind; [apply reads_full|intros a; apply reads_ret]|].
    intros p b (a & p1 & p2 & [-> Ha] & -> & -> & ->). exists (A6 a). by rewrite app_nil_r.
  - eapply reads_weaken; [apply reads_throw|done].
Qed.

Lemma reads_dest : reads read_dest (fun p v => exists a port, addr_ok a /\ 0 <= port < 65536 /\
  p = dest_bytes a port /\ v = (addr_host a, port)).
Proof.
  eapply reads_weaken; [apply reads_bind; [apply reads_byte|intros atyp]; apply reads_bind; [apply reads_host|intros h];
    apply reads_bind; [apply reads_full|intros pb; apply reads_ret]|].
  intros p v (t & p1 & p2 & -> & -> & h & p3 & p4 & (a & Ha & Eb & ->) & -> & pb & p5 & p6 & [-> Hpb] & -> & -> & ->).
  exists a, (be_get pb). pose proof (be_get_range pb) as Hr. unfold len in Hr. rewrite Hpb in Hr.
  split; [done|]. split; [exact Hr|]. split; [|done]. unfold dest_bytes.
  rewrite be_put_get_n, app_nil_r, <- Eb by done. done.
Qed.

(** A successful reader reads what it takes also when more follows, and nothing else. *)
Lemma read_byte_ok b q e t w : read_byte (Conn (b :: q) e t None w) = (Ok b, Conn q e t None w).
Proof. unfold read_byte. by io_run. Qed.

Lemma read_dest_ok a port q e t w : addr_ok a -> 0 <= port < 65536 ->
  read_dest (Conn (dest_bytes a port ++ q) e t None w) = (Ok (addr_host a, port), Conn q e t None w).
Proof.
  intros Ha Hp. unfold dest_bytes. rewrite <- (assoc_L (++)).
  assert (Hport : forall h, (portBytes ← ReadFull 2; mret (h, be_get portBytes) : IO (string * Z))
    (Conn (PutUint16 port ++ q) e t None w) = (Ok (h, port), Conn q e t None w)).
  { intros h. erewrite bind_Ok by (apply ReadFull_exact, length_be_put). cbn beta. by rewrite be_get_put16, u16_small. }
  unfold read_dest. destruct a as [ip|name|ip]; cbn [addr_bytes app]; simpl in Ha;
    (erewrite bind_Ok by apply read_byte_ok); cbn beta; unfold read_host.
  - change (Byte.eqb x01 atypIPv4) with true. cbv iota.
    rewrite IO_bind_eq. erewrite bind_Ok by (by apply ReadFull_exact). apply Hport.
  - change (Byte.eqb x03 atypIPv4) with false. change (Byte.eqb x03 atypDomain) with true. cbv iota.
    rewrite IO_bind_eq. erewrite bind_Ok by apply read_byte_ok. cbn beta.
    erewrite bind_Ok; [apply Hport|]. apply ReadFull_exact.
    rewrite byte_to_of_Z_small by (unfold len; lia). unfold len. lia.
  - change (Byte.eqb x04 atypIPv4) with false. change (Byte.eqb x04 atypDomain) with false.
    change (Byte.eqb x04 atypIPv6) with true. cbv iota.
    rewrite IO_bind_eq. erewrite bind_Ok by (by apply ReadFull_exact). apply Hport.
Qed.

(** ** The handshake *)

Definition connect_request (rsv : byte) := tcp_request cmdConnect rsv.

Lemma HandshakeServer_ok methods rsv a port q e t w :
  (length methods < 256)%nat -> addr_ok a -> 0 <= port < 65536 ->
  HandshakeServer (Conn (greeting methods ++ connect_request rsv a port ++ q) e t None w) =
    (Ok (MkTarget "tcp" (addr_host a) port), Conn q e (t ++ [x05; x00]%byte) None w).
Proof.
  intros Hm Ha Hp. unfold HandshakeServer, greeting. rewrite <- (assoc_L (++)).
  erewrite bind_Ok by (by apply (ReadFull_app [_; _])). cbn [nth].
  change (negb (Byte.eqb x05 version5)) with false. cbv iota.
  erewrite bind_Ok by (apply ReadFull_exact; rewrite byte_to_of_Z_small by (unfold len; lia); unfold len; lia).
  erewrite bind_Ok by apply Write__Conn. unfold connect_request, tcp_request. rewrite <- (assoc_L (++)).
  change ([x05; cmdConnect; rsv]%byte ++ dest_bytes a port ++ q) with ([x05; x01]%byte ++ rsv :: dest_bytes a port ++ q).
  erewrite bind_Ok by (by apply (ReadFull_app [_; _])). cbn [nth].
  change (negb (Byte.eqb x05 version5)) with false. change (negb (Byte.eqb x01 cmdConnect)) with false. cbv iota.
  erewrite bind_Ok by apply read_byte_ok. by erewrite bind_Ok by (by apply read_dest_ok).
Qed.

Lemma reads_pair : reads (ReadFull 2) (fun p v => exists x y, p = [x; y] /\ v = [x; y]).
Proof.
  eapply reads_weaken; [apply reads_full|]. intros p [|x [|y [|]]] [-> Hl]; try done. by exists x, y.
Qed.

(** (The converse of [HandshakeServer_ok].) *)
Lemma HandshakeServer_inv l e t w :
  let '(r, c) := HandshakeServer (Conn l e t None w) in
  match r with
  | Ok tgt => exists methods rsv a port, (length methods < 256)%nat /\ addr_ok a /\ 0 <= port < 65536 /\
      l = greeting methods ++ connect_request rsv a port ++ rx c /\
      tgt = MkTarget "tcp" (addr_host a) port /\ tx c = t ++ [x05; x00]%byte
  | Err _ => tx c = t \/ tx c = t ++ [x05; x00]%byte
  | _ => False
  end.
Proof.
  unfold HandshakeServer.
  destruct (reads_pair l e t w) as [(p & q & v & -> & (x & n & -> & ->) & E)|(er & l' & E)];
    [rewrite (bind_Ok _ _ _ _ _ E)|rewrite (bind_Err _ _ _ _ _ E); by left].
  cbn [nth]. destruct (negb (Byte.eqb x version5)) eqn:Ex; [by left|]. apply nbyte_eqb in Ex as ->.
  destruct (reads_full (Z.to_nat (byte_to_Z n)) q e t w) as [(p & q' & m & -> & [-> Hm] & E2)|(er & l' & E2)];
    [rewrite (bind_Ok _ _ _ _ _ E2)|rewrite (bind_Err _ _ _ _ _ E2); by left].
  erewrite bind_Ok by apply Write__Conn. set (t' := t ++ [x05; x00]%byte) in *.
  change ([version5; x00%byte]) with ([x05; x00]%byte). fold t'.
  destruct (reads_pair q' e t' w) as [(p & q2 & v & -> & (x & cmd & -> & ->) & E3)|(er & l' & E3)];
    [rewrite (bind_Ok _ _ _ _ _ E3)|rewrite (bind_Err _ _ _ _ _ E3); by right].
  cbn [nth]. destruct (negb (Byte.eqb x version5)) eqn:Ex; [by right|]. apply nbyte_eqb in Ex as ->.
  destruct (negb (Byte.eqb cmd cmdConnect)) eqn:Ex; [by right|]. apply nbyte_eqb in Ex as ->.
  destruct (reads_byte q2 e t' w) as [(p & q3 & rsv & -> & -> & E4)|(er & l' & E4)];
    [rewrite (bind_Ok _ _ _ _ _ E4)|rewrite (bind_Err _ _ _ _ _ E4); by right].
  destruct (reads_dest q3 e t' w) as [(p & q4 & v & -> & (a & port & Ha & Hp & -> & ->) & E5)|(er & l' & E5)];
    [rewrite (bind_Ok _ _ _ _ _ E5)|rewrite (bind_Err _ _ _ _ _ E5); by right].
  exists m, rsv, a, port. pose proof (byte_to_Z_range n). split; [lia|]. split; [done|]. split; [done|].
  split; [|by split]. unfold greeting.
  replace (byte_of_Z (len m)) with n by (rewrite <- (byte_of_to_Z n); f_equal; unfold len; lia).
  unfold connect_request, tcp_request. cbn [app rx]. done.
Qed.

(** ** Targets *)

(** A host as the other side gets it: the text of an IP literal is made canonical. *)
Definition normal_host (h : string) : string := match ParseIP h with Some ip => IP_String ip | None => h end.
Definition host_fits (h : string) : bool := bool_decide (is_Some (ParseIP h)) || (slen h <? 256).

Lemma IP_String_4 ip : length ip = 4%nat -> IP_String ip = string4 ip.
Proof. intros H. apply IP_String_To4. unfold To4. by rewrite decide_True. Qed.

Lemma target_addr_spec h : host_fits h = true -> exists a, addr_ok a /\ addr_host a = normal_host h /\
  let '(atyp, addr) := target_addr h in
  addr_bytes a = atyp :: (if Byte.eqb atyp atypDomain then byte_of_Z (len addr) :: addr else addr) /\
  (Byte.eqb atyp atypDomain = true -> (255 <? len addr) = false).
Proof.
  unfold host_fits, normal_host, target_addr. intros Hf. destruct (ParseIP h) as [ip|] eqn:E.
  - apply ParseIP_length in E. destruct (To4 ip) as [ip4|] eqn:E4.
    + pose proof (To4_length _ _ E4) as H4. exists (A4 ip4). split; [done|]. split; [|by split].
      simpl. by rewrite IP_String_4, (IP_String_To4 _ _ E4).
    + exists (A6 ip). split; [done|]. split; [done|]. unfold To16.
      rewrite decide_False, decide_True by lia. by split.
  - rewrite bool_decide_eq_false_2 in Hf by (by intros [? ?]). apply Z.ltb_lt in Hf.
    assert (len (bytes_of h) = slen h) as Hl by apply len_bytes_of. unfold len in Hl.
    exists (ADomain (bytes_of h)). split; [simpl; lia|]. split; [apply string_of_bytes_of|]. split; [done|].
    intros _. apply Z.ltb_ge. unfold len. lia.
Qed.

Lemma WriteTarget_ok ty h net port l e t w :
  bare ty = false -> host_fits h = true -> exists a, addr_ok a /\ addr_host a = normal_host h /\
  WriteTarget ty (MkTarget net h port) (Conn l e t None w) =
    (Ok tt, Conn l e (t ++ ty :: dest_bytes a (u16 port)) None w).
Proof.
  intros Hb Hf. destruct (target_addr_spec h Hf) as (a & Ha & Hh & Ht). exists a. split; [done|]. split; [done|].
  unfold WriteTarget. erewrite bind_Ok by apply Write__Conn. rewrite Hb. cbn [tHost tPort].
  destruct (target_addr h) as [atyp addr]. destruct Ht as [Eb Hl].
  erewrite bind_Ok by apply Write__Conn. unfold dest_bytes. rewrite Eb. clear Eb.
  destruct (Byte.eqb atyp atypDomain).
  - rewrite Hl by done. rewrite IO_bind_eq. erewrite bind_Ok by apply Write__Conn. rewrite Write__Conn.
    cbv beta iota. rewrite Write__Conn. do 2 f_equal. by rewrite <- !(assoc_L (++)).
  - erewrite bind_Ok by apply Write__Conn. rewrite Write__Conn. do 2 f_equal. by rewrite <- !(assoc_L (++)).
Qed.

Lemma ReadTarget_ok ty a port q e t w :
  bare ty = false -> addr_ok a -> 0 <= port < 65536 ->
  ReadTarget (Conn (ty :: dest_bytes a port ++ q) e t None w) =
    (Ok (ty, MkTarget "tcp" (addr_host a) port), Conn q e t None w).
Proof.
  intros Hb Ha Hp. unfold ReadTarget. erewrite bind_Ok by apply read_byte_ok. rewrite Hb.
  by erewrite bind_Ok by (by apply read_dest_ok).
Qed.

(** Making a host canonical keeps the address it stands for. *)
Lemma normal_host_same h : ParseIP (normal_host h) = ParseIP h.
Proof.
  unfold normal_host. destruct (ParseIP h) as [ip|] eqn:E; [|done]. apply ParseIP_length in E.
  rewrite ParseIP_String by (by right). unfold To16. by rewrite decide_False, decide_True by lia.
Qed.

Lemma To16_length ip : length ip = 4%nat \/ length ip = 16%nat -> exists ip', To16 ip = Some ip' /\ length ip' = 16%nat.
Proof.
  intros [H|H]; unfold To16.
  - rewrite decide_True by done. eexists. split; [done|]. rewrite length_app, H. done.
  - rewrite decide_False, decide_True by lia. eauto.
Qed.

(** The addresses of requests. *)
Lemma addr_host_fits a : addr_ok a -> host_fits (addr_host a) = true.
Proof.
  unfold host_fits. intros Ha. destruct a as [ip|name|ip]; simpl in *.
  - rewrite ParseIP_String by auto. destruct (To16_length ip) as (ip' & -> & _); [auto|done].
  - apply orb_true_iff. right. apply Z.ltb_lt. rewrite <- len_bytes_of, bytes_of_string_of. unfold len. lia.
  - rewrite ParseIP_String by auto. destruct (To16_length ip) as (ip' & -> & _); [auto|done].
Qed.

Lemma IP_String_free c ip : length ip = 4%nat \/ length ip = 16%nat -> c = "["%char \/ c = "]"%char -> free c (IP_String ip).
Proof.
  intros Hip Hc. destruct (To4 ip) as [ip4|] eqn:E.
  - rewrite (IP_String_To4 _ _ E). apply string4_free; [by eapply To4_length|by destruct Hc as [->| ->]..].
  - assert (length ip = 16%nat) as H16 by (destruct Hip; [|done]; unfold To4 in E; by rewrite decide_True in E).
    unfold IP_String. rewrite E. destruct ip as [|b ip]; [done|]. rewrite decide_True by done.
    apply hex_text_free; [by apply string6_text|by destruct Hc as [->| ->]..].
Qed.

Lemma normal_host_free c h : c = "["%char \/ c = "]"%char -> free c h -> free c (normal_host h).
Proof.
  intros Hc Hf. unfold normal_host. destruct (ParseIP h) as [ip|] eqn:E; [|done].
  apply IP_String_free; [right; by eapply ParseIP_length|done].
Qed.

Lemma dial_addr_split h port :
  0 <= port -> free "[" h -> free "]" h ->
  SplitHostPort (JoinHostPort (normal_host h) (Itoa port)) = Ok (normal_host h, Itoa port).
Proof. intros Hp H1 H2. apply SplitHostPort_Join; try (by apply free_Itoa); apply normal_host_free; auto. Qed.

(** ** The properties *)

(** The handshake accepts exactly what RFC 1928 says.  It succeeds exactly when the input starts
    with a greeting of version 5, with any methods, and a CONNECT request for an IPv4 address, a
    name or an IPv6 address; the target is that of the request, the bytes after it are left for
    the copying, and the client has been sent the choice of no authentication.  Every other input
    ends in an error, without a panic, and with nothing else written: an unsupported command
    gets no reply. *)
Theorem Handshake_exact l e t w :
  let '(r, c) := HandshakeServer (Conn l e t None w) in
  (forall tgt, r = Ok tgt <-> exists methods rsv a port, (length methods < 256)%nat /\ addr_ok a /\
     0 <= port < 65536 /\ l = greeting methods ++ connect_request rsv a port ++ rx c /\
     tgt = MkTarget "tcp" (addr_host a) port) /\
  match r with
  | Ok _ => tx c = t ++ [x05; x00]%byte
  | Err _ => tx c = t \/ tx c = t ++ [x05; x00]%byte
  | _ => False
  end.
Proof.
  pose proof (HandshakeServer_inv l e t w) as H.
  destruct (HandshakeServer (Conn l e t None w)) as [r c] eqn:E. split; [|destruct r; try done; by destruct_and?; naive_solver].
  intros tgt. split.
  - intros ->. destruct H as (m & rsv & a & port & H1 & H2 & H3 & H4 & H5 & _). by exists m, rsv, a, port.
  - intros (m & rsv & a & port & Hm & Ha & Hp & El & ->). rewrite El, HandshakeServer_ok in E by done.
    by injection E as <- _.
Qed.

(** Targets survive the stream.  A target that fits (an IP literal, or a name of at most 255
    bytes) is read back with the same host and port and leaves what follows it; an IP literal
    comes back as the canonical text of the same address.  A name that is too long is refused,
    with two bytes of it written. *)
Theorem Target_roundtrip (net h : string) (port : Z) l e w :
  if host_fits h then
    exists sent, WriteTarget StreamClientDial (MkTarget net h port) (Conn l e [] None w) =
        (Ok tt, Conn l e sent None w) /\
      (forall q e' t' w', ReadTarget (Conn (sent ++ q) e' t' None w') =
        (Ok (StreamClientDial, MkTarget "tcp" (normal_host h) (u16 port)), Conn q e' t' None w')) /\
      ParseIP (normal_host h) = ParseIP h /\ (ParseIP h = None -> normal_host h = h)
  else
    WriteTarget StreamClientDial (MkTarget net h port) (Conn l e [] None w) =
      (Err (Errorf "hostname too long"), Conn l e [StreamClientDial; atypDomain] None w).
Proof.
  destruct (host_fits h) eqn:Hf.
  - destruct (WriteTarget_ok StreamClientDial h net port l e [] w eq_refl Hf) as (a & Ha & Hh & Hw).
    eexists. split; [exact Hw|]. split; [|split; [apply normal_host_same|unfold normal_host; by intros ->]].
    intros q e' t' w'. rewrite <- Hh. apply ReadTarget_ok; [done|done|apply u16_range].
  - unfold host_fits in Hf. apply orb_false_iff in Hf as [Hn Hl]. apply bool_decide_eq_false in Hn.
    apply eq_None_not_Some in Hn. apply Z.ltb_ge in Hl.
    unfold WriteTarget. erewrite bind_Ok by apply Write__Conn. change (bare StreamClientDial) with false. cbv iota.
    unfold target_addr. cbn [tHost]. rewrite Hn. erewrite bind_Ok by apply Write__Conn.
    change (Byte.eqb atypDomain atypDomain) with true. cbv iota.
    rewrite len_bytes_of. destruct (Z.ltb_spec 255 (slen h)); [|lia]. done.
Qed.

(** C20: A SOCKS request through a stream, end to end.  A client that sends a greeting, a CONNECT
    request and perhaps its first data is told of success, its data is still there to be copied,
    and the server dials the host and the port of the request and leaves what comes after it on
    the stream to be copied.  An address is dialed as the text of that address, a name as it is,
    and in both cases in a form that net.Dial splits into this host and this port.  (The client
    is told of success before the server has dialed.) *)
Theorem Socks_stream methods rsv a port early e w e2 w2 sock dial :
  (length methods < 256)%nat -> addr_ok a -> 0 <= port < 65536 ->
  let h := normal_host (addr_host a) in
  let addr := JoinHostPort h (Itoa port) in
  (exists stream,
    handleLocalSocks (Ok (Conn [] e2 [] None w2))
      (Conn (greeting methods ++ connect_request rsv a port ++ early) e [] None w) =
      (LCopying stream, Conn early e
         [x05; x00; x05; x00; x00; x01; x00; x00; x00; x00; x00; x00]%byte None w) /\
    forall d e3 t3 w3,
      handleInboundStream (MkSessionConfig sock "") dial (Conn (tx stream ++ d) e3 t3 None w3) =
        (Dials "tcp" addr (dial "tcp" addr), Conn d e3 t3 None w3)) /\
  match a with
  | A4 ip | A6 ip => ParseIP h = To16 ip
  | ADomain name => ParseIP (string_of name) = None -> h = string_of name
  end /\
  (free "[" (addr_host a) -> free "]" (addr_host a) -> SplitHostPort addr = Ok (h, Itoa port)).
Proof.
  intros Hm Ha Hp h addr. split; [|split].
  - destruct (WriteTarget_ok StreamClientDial (addr_host a) "tcp" port [] e2 [] w2 eq_refl (addr_host_fits a Ha))
      as (b & Hb & Hh & Hw).
    eexists. split.
    + unfold handleLocalSocks. rewrite HandshakeServer_ok by done. unfold OpenClientDial, open_stream.
      cbn [mbind result_bind]. rewrite Hw. unfold ReplyConnectSuccess. rewrite Write__Conn. done.
    + intros d e3 t3 w3. cbn [tx app]. unfold handleInboundStream.
      rewrite ReadTarget_ok by (done || apply u16_range). rewrite u16_small by done.
      cbn. unfold addr, h. by rewrite <- Hh.
  - destruct a as [ip|name|ip]; cbn [addr_host addr_ok] in *; unfold h.
    + rewrite normal_host_same, ParseIP_String; auto.
    + unfold normal_host. by intros ->.
    + rewrite normal_host_same, ParseIP_String; auto.
  - apply dial_addr_split. lia.
Qed.

(** The probe.  A client that probes a server learns whether it has an external service, and with
    one every stream that asks for a target reaches that service. *)
Theorem Caps_agree (cfg : SessionConfig) dial e w e3 w3 :
  (exists stream, open_stream (Ok (Conn [] e [] None w)) StreamCaps no_target = Ok stream /\
     forall d, let '(r, c) := handleInboundStream cfg dial (Conn (tx stream ++ d) e3 [] None w3) in
       r = Caps /\ rx c = d /\
       ProbeCaps (Ok (Conn [] e [] None w)) (tx c) = negb (String.eqb (ExternalService cfg) "")) /\
  (ExternalService cfg <> "" -> forall net h port l, host_fits h = true ->
     forall c c', WriteTarget StreamClientDial (MkTarget net h port) (Conn l e [] None w) = (Ok tt, c) ->
     handleInboundStream cfg dial (Conn (tx c) e3 [] None w3) = c' ->
     c'.1 = Dials "tcp" (ExternalService cfg) (dial "tcp" (ExternalService cfg))).
Proof.
  split.
  - eexists. split; [done|]. intros d. cbn [tx app]. unfold handleInboundStream, ReadTarget.
    erewrite bind_Ok by apply read_byte_ok. change (bare StreamCaps) with true. cbv iota.
    unfold mret, RS_ret. cbv beta iota. change (Byte.eqb StreamCaps StreamCaps) with true. cbv iota.
    unfold ignore. cbv zeta. rewrite Write__Conn. cbn. destruct (String.eqb (ExternalService cfg) ""); by split_and!.
  - intros Hx net h port l Hf c c' Hw <-.
    destruct (WriteTarget_ok StreamClientDial h net port l e [] w eq_refl Hf) as (a & Ha & Hh & Hw').
    rewrite Hw' in Hw. injection Hw as <-. cbn [tx app]. unfold handleInboundStream.
    rewrite <- (app_nil_r (dest_bytes a (u16 port))).
    rewrite ReadTarget_ok by (done || apply u16_range). cbn.
    apply String.eqb_neq in Hx. by rewrite Hx.
Qed.

(** ** A concrete run *)

(** A client that asks for an IPv6 address and sends its first bytes at once. *)
Lemma Socks_stream_witness :
  let a := A6 (repeat x00 15 ++ [x01])%byte in
  addr_ok a /\
  exists stream, (handleLocalSocks (Ok (Conn [] EOF [] None EOF))
    (Conn (greeting [x00; x02]%byte ++ connect_request x00 a 443 ++ [x16; x03]%byte) EOF [] None EOF)).1 = LCopying stream /\
    (handleInboundStream (MkSessionConfig "" "") (fun _ _ => true) (Conn (tx stream ++ [x16]%byte) EOF [] None EOF)).1 =
      Dials "tcp" "[::1]:443" true.
Proof.
  intros a. split; [done|].
  destruct (Socks_stream [x00; x02]%byte x00 a 443 [x16; x03]%byte EOF EOF EOF EOF "" (fun _ _ => true))
    as [(stream & H1 & H2) _]; [by apply Nat.ltb_lt|done|done|].
  exists stream. rewrite H1, H2. split; [done|]. by vm_compute.
Defined.
