(* ===== verification/FtpSocks.v ===== *)
(** The SOCKS5 front end of the FTP client: ftp/client/client.go, lines 741 to 993.

    handleSocks5 negotiates with a local program over a [conn], often without looking at the
    errors of its reads: a read that is cut short then leaves zeros in the buffer.  What comes
    of it is a pipe of FtpClient.v or a UDP session.  Run serves plain TCP and does not start
    this front end. *)

From S2P Require Import Prelude GoLib GoNet Socks5 FtpProtocol FtpServer FtpClient.
From Stdlib Require Import ZArith Lia Strings.Byte Strings.Ascii Strings.String.
From stdpp Require Import gmap list strings.

#[local] Open Scope string_scope.
#[local] Open Scope Z_scope.
#[local] Open Scope list_scope.

(** ** Reads *)

(** [_, _ = io.ReadFull(conn, buf)]: what was read, and zeros. *)
Definition read_into (n : nat) : IO (list byte) := fun c =>
  match ReadFull n c with
  | (Ok p, c') => (Ok p, c')
  | (_, c') => (Ok (rx c ++ repeat x00%byte (n - length (rx c))), c')
  end.

(** io.ReadFull with its error looked at. *)
Definition try_read (n : nat) : IO (option (list byte)) := fun c =>
  match ReadFull n c with
  | (Ok p, c') => (Ok (Some p), c')
  | (_, c') => (Ok None, c')
  end.

(** [_, _ = conn.Write(p)]. *)
Definition put (p : list byte) : IO unit := ignore (Write_ p).

Definition byte_at (i : nat) (p : list byte) : byte := nth i p x00%byte.
Definition size_of (b : byte) : nat := Z.to_nat (byte_to_Z b).

(** ** handleSocks5 *)

Inductive socks_end : Type := Closed | Connect (target : string) | Associate.

(** The methods: a password is asked for exactly when a user is configured, whatever the client
    offers. *)
Definition authenticate (user pass : string) : IO bool :=
  if String.eqb user "" then _ ← put [x05; x00]; mret true
  else
    _ ← put [x05; x02];
    ab ← try_read 2;
    match ab with
    | Some ab =>
        if Byte.eqb (byte_at 0 ab) x01 then
          ub ← read_into (size_of (byte_at 1 ab));
          pb ← read_into 1;
          pw ← read_into (size_of (byte_at 0 pb));
          if negb (String.eqb (string_of ub) user) || negb (String.eqb (string_of pw) pass)
          then _ ← put [x01; x01]; mret false
          else _ ← put [x01; x00]; mret true
        else _ ← put [x01; x01]; mret false
    | None => _ ← put [x01; x01]; mret false
    end.

Definition request_host (atyp : byte) : IO (option string) :=
  if Byte.eqb atyp x01 then b ← read_into 4; mret (Some (IP_String b))
  else if Byte.eqb atyp x03 then
    lb ← read_into 1; d ← read_into (size_of (byte_at 0 lb)); mret (Some (string_of d))
  else if Byte.eqb atyp x04 then b ← read_into 16; mret (Some (IP_String b))
  else mret None.

Definition failure (code : byte) : list byte := [x05; code; x00; x01; x00; x00; x00; x00; x00; x00]%byte.

(** After the methods: the request. *)
Definition read_request : IO socks_end :=
  hdr ← try_read 4;
  match hdr with
  | Some hdr =>
      if negb (Byte.eqb (byte_at 0 hdr) x05) then mret Closed
      else
        host ← request_host (byte_at 3 hdr);
        match host with
        | None => _ ← put (failure x08); mret Closed
        | Some host =>
            portB ← read_into 2;
            let target := host +:+ ":" +:+ Itoa (be_get portB) in
            if Byte.eqb (byte_at 1 hdr) x01 then mret (Connect target)
            else if Byte.eqb (byte_at 1 hdr) x03 then mret Associate
            else _ ← put (failure x07); mret Closed
        end
  | None => mret Closed
  end.

Definition handleSocks5 (user pass : string) : IO socks_end :=
  buf2 ← try_read 2;
  match buf2 with
  | Some buf2 =>
      if negb (Byte.eqb (byte_at 0 buf2) x05) then mret Closed
      else
        _ ← read_into (size_of (byte_at 1 buf2));
        ok ← authenticate user pass;
        if ok : bool then read_request else mret Closed
  | None => mret Closed
  end.

(** ** What follows *)

Definition parseSocksUDPRequest (buf : list byte) : result (string * list byte) :=
  if len buf <? 10 then Err (Errorf "short")
  else
    atyp ← Socks5.index buf 3;
    if byte_to_Z atyp =? 1 then
      ip ← slice_bytes buf 4 8;
      port ← slice_bytes buf 8 10;
      payload ← slice_bytes buf 10 (len buf);
      Ok (IP_String ip +:+ ":" +:+ Itoa (be_get port), payload)
    else if byte_to_Z atyp =? 3 then
      dl ← Socks5.index buf 4;
      let dl := byte_to_Z dl in
      if len buf <? 5 + dl + 2 then Err (Errorf "domain short")
      else
        h ← slice_bytes buf 5 (5 + dl);
        port ← slice_bytes buf (5 + dl) (7 + dl);
        payload ← slice_bytes buf (7 + dl) (len buf);
        Ok (string_of h +:+ ":" +:+ Itoa (be_get port), payload)
    else if byte_to_Z atyp =? 4 then
      if len buf <? 22 then Err (Errorf "ipv6 short")
      else
        ip ← slice_bytes buf 4 20;
        port ← slice_bytes buf 20 22;
        payload ← slice_bytes buf 22 (len buf);
        Ok ("[" +:+ IP_String ip +:+ "]:" +:+ Itoa (be_get port), payload)
    else Err (Errorf "unknown ATYP %d").

Definition buildSocksUDPHeader (src : UDPAddr) : list byte :=
  match To4 (uIP src) with
  | Some ip4 => [x00; x00; x00; x01]%byte ++ copy_into 4 (Some ip4) ++ PutUint16 (u16 (uPort src))
  | None => [x00; x00; x00; x04]%byte ++ copy_into 16 (To16 (uIP src)) ++ PutUint16 (u16 (uPort src))
  end.

Section Associate.
Context {C : Type} `{ChannelOps C}.

#[local] Abbreviation ST_ := (ST (World C)).

Definition handleTCPConnect (conn : nat) (target : string) : ST_ nat := pipeTCP conn target true.

(** handleUDPAssociate up to its copying: [sock] is the socket it listens on at 127.0.0.1 and
    [port] that of it, [None] when it cannot listen. *)
Definition handleUDPAssociate (conn : nat) (udpLn : option (nat * Z)) : ST_ (option nat) :=
  match udpLn with
  | None => _ ← write_conn conn (failure x01); mret None
  | Some (sock, port) =>
      connID ← next_id;
      t ← gets now;
      u ← new_udp (MkUdpSession connID (Some sock) None false None t);
      _ ← modify (registerUDP u connID);
      _ ← write_conn conn ([x05; x00; x00; x01; x7f; x00; x00; x01]%byte ++ PutUint16 (u16 port));
      _ ← modify (sendNow (MkFrame connID TypeOpen 0 (bytes_of "udp://")));
      mret (Some u)
  end.

(** A datagram on the socket, and the end of its reads; the panic of a header would end the
    program. *)
Definition associate_datagram (u : nat) (buf : list byte) (w : World C) : World C :=
  match uss w !! u with
  | Some s =>
      let w := seen u None w in
      match parseSocksUDPRequest buf with
      | Ok (dst, payload) =>
          sendNow (MkFrame (us_id s) TypeUDPData 0 (EncodeUDPData dst payload))
            (count (MkMetrics (len payload) 0 0 0 0 0 0) w)
      | _ => w
      end
  | None => w
  end.
Definition associate_end (u : nat) (w : World C) : World C :=
  match uss w !! u with Some s => unregisterUDP (us_id s) w | None => w end.

(** The local program closes its TCP connection: io.Copy returns. *)
Definition associate_closed (u : nat) (w : World C) : World C :=
  match uss w !! u with Some s => sendNow (MkFrame (us_id s) TypeClose 0 []) w | None => w end.
End Associate.

(** ** Lemmas *)

(** A write that is not looked at always goes on, and reads nothing. *)
Lemma put_spec p c : exists c', put p c = (Ok tt, c') /\ rx c' = rx c.
Proof.
  unfold put, ignore, Write_. rewrite IO_bind_eq. unfold Write.
  destruct (tx_room c) as [k|]; [case_decide|]; simpl; eauto.
Qed.

Lemma put_Conn p l e t w : put p (Conn l e t None w) = (Ok tt, Conn l e (t ++ p) None w).
Proof. unfold put, ignore. by rewrite Write__Conn. Qed.

(** A read takes its bytes, or is cut short by the end of the input. *)
Lemma read_into_spec n c : exists p c', read_into n c = (Ok p, c') /\
  (rx c = p ++ rx c' /\ length p = n \/ rx c' = []).
Proof.
  unfold read_into. destruct (ReadFull n c) as [[p|er|m|] c'] eqn:E.
  - apply ReadFull_Ok_inv in E as (? & ? & ?). do 2 eexists. split; [done|]. by left.
  - do 2 eexists. split; [done|]. right. revert E. unfold ReadFull. by case_decide; intros [= _ <-].
  - revert E. unfold ReadFull. by case_decide.
  - revert E. unfold ReadFull. by case_decide.
Qed.

Lemma try_read_spec n c : (0 < n)%nat ->
  exists r c', try_read n c = (Ok r, c') /\
    match r with Some p => rx c = p ++ rx c' /\ length p = n | None => rx c' = [] end.
Proof.
  intros Hn. unfold try_read. destruct (ReadFull n c) as [[p|er|m|] c'] eqn:E.
  - apply ReadFull_Ok_inv in E as (? & ? & ?). by do 2 eexists.
  - do 2 eexists. split; [done|]. revert E. unfold ReadFull. by case_decide; intros [= _ <-].
  - revert E. unfold ReadFull. by case_decide.
  - revert E. unfold ReadFull. by case_decide.
Qed.

Lemma read_into_Conn n p q e t w : length p = n -> read_into n (Conn (p ++ q) e t None w) = (Ok p, Conn q e t None w).
Proof. intros H. unfold read_into. by rewrite ReadFull_exact. Qed.

Lemma try_read_Conn n p q e t w : length p = n -> try_read n (Conn (p ++ q) e t None w) = (Ok (Some p), Conn q e t None w).
Proof. intros H. unfold try_read. by rewrite ReadFull_exact. Qed.

Lemma size_of_len n : (n < 256)%nat -> size_of (byte_of_Z (Z.of_nat n)) = n.
Proof. intros H. unfold size_of. rewrite byte_to_of_Z_small by lia. by rewrite Nat2Z.id. Qed.

Lemma size_of_lt b : (size_of b < 256)%nat.
Proof. unfold size_of. pose proof (byte_to_Z_range b). lia. Qed.

Lemma byte_of_size b : byte_of_Z (Z.of_nat (size_of b)) = b.
Proof. unfold size_of. pose proof (byte_to_Z_range b). rewrite Z2Nat.id by lia. apply byte_of_to_Z. Qed.

(** What a client sends for a password. *)
Definition login (user pass : string) : list byte :=
  [x01; byte_of_Z (slen user)]%byte ++ bytes_of user ++ [byte_of_Z (slen pass)] ++ bytes_of pass.

(** With a user configured the negotiation succeeds only for the user and the password; without
    input no request is read. *)
Lemma authenticate_spec user pass c : user <> "" -> exists ok c', authenticate user pass c = (Ok ok, c') /\
  (ok = true -> rx c' = [] \/ slen user < 256 /\ slen pass < 256 /\ rx c = login user pass ++ rx c').
Proof.
  intros Hu. unfold authenticate. apply String.eqb_neq in Hu. rewrite Hu.
  destruct (put_spec [x05; x02]%byte c) as (c1 & E1 & R1). rewrite (bind_Ok _ _ _ _ _ E1).
  destruct (try_read_spec 2 c1) as (r & c2 & E2 & R2); [lia|]. rewrite (bind_Ok _ _ _ _ _ E2).
  assert (Hfail : forall c, exists ok c', (_ ← put [x01; x01]; mret false : IO bool) c = (Ok ok, c') /\ ok = false).
  { intros c0. destruct (put_spec [x01; x01]%byte c0) as (c' & E & _). exists false, c'. by rewrite (bind_Ok _ _ _ _ _ E). }
  destruct r as [[|v [|n [|]]]|]; destruct_and?; try done.
  2:{ destruct (Hfail c2) as (ok & c' & E & ->). exists false, c'. split; [exact E|done]. }
  cbn [byte_at nth]. destruct (Byte.eqb v x01) eqn:Ev.
  2:{ destruct (Hfail c2) as (ok & c' & E & ->). exists false, c'. split; [exact E|done]. }
  apply byte_eqb_eq in Ev as ->.
  destruct (read_into_spec (size_of n) c2) as (ub & c3 & E3 & R3). rewrite (bind_Ok _ _ _ _ _ E3).
  destruct (read_into_spec 1 c3) as (pb & c4 & E4 & R4). rewrite (bind_Ok _ _ _ _ _ E4).
  destruct (read_into_spec (size_of (byte_at 0 pb)) c4) as (pw & c5 & E5 & R5). rewrite (bind_Ok _ _ _ _ _ E5).
  destruct (negb (String.eqb (string_of ub) user) || negb (String.eqb (string_of pw) pass)) eqn:Eq.
  { destruct (Hfail c5) as (ok & c' & E & ->). exists false, c'. split; [exact E|done]. }
  apply orb_false_iff in Eq as [Eu Ep]. apply negb_false_iff, String.eqb_eq in Eu, Ep.
  destruct (put_spec [x01; x00]%byte c5) as (c6 & E6 & R6). rewrite (bind_Ok _ _ _ _ _ E6).
  exists true, c6. split; [done|]. intros _. rewrite R6.
  destruct R5 as [[R5 L5]|R5]; [|by left].
  destruct R4 as [[R4 L4]|R4]; [|left; rewrite R4 in R5; by destruct pw, (rx c5)].
  destruct R3 as [[R3 L3]|R3]; [|left; rewrite R3 in R4; destruct pb; [done|done]].
  right. destruct pb as [|pl [|]]; try done. cbn [byte_at nth] in L5.
  assert (Hub : bytes_of user = ub) by (by rewrite <- Eu, bytes_of_string_of).
  assert (Hpw : bytes_of pass = pw) by (by rewrite <- Ep, bytes_of_string_of).
  rewrite <- !len_bytes_of, Hub, Hpw. unfold len. pose proof (size_of_lt n). pose proof (size_of_lt pl).
  split; [lia|]. split; [lia|]. rewrite <- R1. unfold login.
  rewrite <- !len_bytes_of, Hub, Hpw. unfold len. rewrite L3, L5, !byte_of_size.
  match goal with H : rx c1 = _ |- _ => rewrite H end. rewrite R3, R4, R5. cbn [app]. by rewrite <- !(assoc_L (++)).
Qed.

(** A request is always answered with an outcome, and read from the input. *)
Lemma read_request_spec c : exists o c', read_request c = (Ok o, c') /\ (rx c = [] -> o = Closed).
Proof.
  unfold read_request. destruct (try_read_spec 4 c) as (r & c1 & E1 & R1); [lia|]. rewrite (bind_Ok _ _ _ _ _ E1).
  destruct r as [hdr|]; [|by do 2 eexists]. destruct R1 as [R1 L1].
  assert (Hne : rx c = [] -> False) by (intros E; rewrite E in R1; by destruct hdr).
  assert (Hh : forall atyp c, exists h c', request_host atyp c = (Ok h, c')).
  { intros atyp c0. unfold request_host.
    destruct (Byte.eqb atyp x01); [|destruct (Byte.eqb atyp x03); [|destruct (Byte.eqb atyp x04); [|by do 2 eexists]]].
    - destruct (read_into_spec 4 c0) as (p & c' & E & _). rewrite (bind_Ok _ _ _ _ _ E). by do 2 eexists.
    - destruct (read_into_spec 1 c0) as (p & c' & E & _). rewrite (bind_Ok _ _ _ _ _ E).
      destruct (read_into_spec (size_of (byte_at 0 p)) c') as (p' & c'' & E' & _). rewrite (bind_Ok _ _ _ _ _ E').
      by do 2 eexists.
    - destruct (read_into_spec 16 c0) as (p & c' & E & _). rewrite (bind_Ok _ _ _ _ _ E). by do 2 eexists. }
  destruct (negb _); [by do 2 eexists|].
  destruct (Hh (byte_at 3 hdr) c1) as (h & c2 & E2). rewrite (bind_Ok _ _ _ _ _ E2).
  destruct h as [host|].
  - destruct (read_into_spec 2 c2) as (pb & c3 & E3 & _). rewrite (bind_Ok _ _ _ _ _ E3). cbv zeta.
    destruct (Byte.eqb _ x01); [by do 2 eexists|]. destruct (Byte.eqb _ x03); [by do 2 eexists|].
    destruct (put_spec (failure x07) c3) as (c4 & E4 & _). rewrite (bind_Ok _ _ _ _ _ E4). by do 2 eexists.
  - destruct (put_spec (failure x08) c2) as (c4 & E4 & _). rewrite (bind_Ok _ _ _ _ _ E4). by do 2 eexists.
Qed.

(** The answers of the server to the methods and to the password. *)
Definition granted (user : string) : list byte :=
  if String.eqb user "" then [x05; x00]%byte else [x05; x02; x01; x00]%byte.
Definition credentials (user pass : string) : list byte := if String.eqb user "" then [] else login user pass.

Lemma authenticate_ok user pass q e t w : slen user < 256 -> slen pass < 256 ->
  authenticate user pass (Conn (credentials user pass ++ q) e t None w) =
    (Ok true, Conn q e (t ++ granted user) None w).
Proof.
  intros Hu Hp. unfold authenticate, credentials, granted. destruct (String.eqb user "").
  { by rewrite (bind_Ok _ _ _ _ _ (put_Conn _ _ _ _ _)). }
  rewrite (bind_Ok _ _ _ _ _ (put_Conn _ _ _ _ _)).
  pose proof (len_bytes_of user) as Lu. pose proof (len_bytes_of pass) as Lp. unfold len in Lu, Lp.
  unfold login. rewrite <- !(assoc_L (++)).
  erewrite bind_Ok by (by apply (try_read_Conn 2 [_; _])). cbn [byte_at nth].
  change (Byte.eqb x01 x01) with true. cbv iota. rewrite <- Lu, <- Lp.
  erewrite bind_Ok by (apply read_into_Conn; by rewrite size_of_len by lia).
  erewrite bind_Ok by (by apply (read_into_Conn 1 [_])). cbn [byte_at nth].
  erewrite bind_Ok by (apply read_into_Conn; by rewrite size_of_len by lia).
  rewrite !string_of_bytes_of, !String.eqb_refl. cbn [negb orb].
  rewrite (bind_Ok _ _ _ _ _ (put_Conn _ _ _ _ _)). by rewrite <- (assoc_L (++)).
Qed.

(** What a request leads to. *)
Definition target_of (a : socks_addr) (port : Z) : string := addr_host a +:+ ":" +:+ Itoa port.
Definition outcome_of (cmd : byte) (a : socks_addr) (port : Z) : socks_end :=
  if Byte.eqb cmd x01 then Connect (target_of a port) else if Byte.eqb cmd x03 then Associate else Closed.

Lemma read_request_ok cmd rsv a port q e t w : addr_ok a -> 0 <= port < 65536 ->
  exists t', read_request (Conn (tcp_request cmd rsv a port ++ q) e t None w) =
    (Ok (outcome_of cmd a port), Conn q e t' None w) /\
    (outcome_of cmd a port <> Closed -> t' = t).
Proof.
  intros Ha Hp. unfold read_request, tcp_request, dest_bytes.
  assert (Hend : forall h, h = addr_host a -> exists t', (portB ← read_into 2;
      let target := h +:+ ":" +:+ Itoa (be_get portB) in
      if Byte.eqb cmd x01 then mret (Connect target)
      else if Byte.eqb cmd x03 then mret Associate else _ ← put (failure x07); mret Closed : IO socks_end)
      (Conn (PutUint16 port ++ q) e t None w) = (Ok (outcome_of cmd a port), Conn q e t' None w) /\
    (outcome_of cmd a port <> Closed -> t' = t)).
  { intros h ->. erewrite bind_Ok by (apply read_into_Conn, length_be_put). cbv zeta.
    rewrite be_get_put16, u16_small by done. unfold outcome_of, target_of.
    destruct (Byte.eqb cmd x01); [by eexists|]. destruct (Byte.eqb cmd x03); [by eexists|].
    eexists. by rewrite (bind_Ok _ _ _ _ _ (put_Conn _ _ _ _ _)). }
  rewrite <- !(assoc_L (++)). destruct a as [ip|name|ip]; cbn [addr_bytes]; simpl in Ha.
  - change ([x05; cmd; rsv]%byte ++ (x01 :: ip)%byte ++ PutUint16 port ++ q)
      with ([x05; cmd; rsv; x01]%byte ++ ip ++ PutUint16 port ++ q).
    erewrite bind_Ok by (by apply try_read_Conn). cbn [byte_at nth].
    change (negb (Byte.eqb x05 x05)) with false. cbv iota. unfold request_host. change (Byte.eqb x01 x01) with true.
    cbv iota. rewrite IO_bind_eq. erewrite bind_Ok by (by apply read_into_Conn). by apply Hend.
  - change ([x05; cmd; rsv]%byte ++ (x03 :: byte_of_Z (len name) :: name)%byte ++ PutUint16 port ++ q)
      with ([x05; cmd; rsv; x03]%byte ++ [byte_of_Z (len name)] ++ name ++ PutUint16 port ++ q).
    erewrite bind_Ok by (by apply try_read_Conn). cbn [byte_at nth].
    change (negb (Byte.eqb x05 x05)) with false. cbv iota. unfold request_host. change (Byte.eqb x03 x01) with false.
    change (Byte.eqb x03 x03) with true. cbv iota. rewrite IO_bind_eq.
    erewrite bind_Ok by (by apply read_into_Conn). cbn [byte_at nth].
    erewrite bind_Ok by (apply read_into_Conn; unfold len; by rewrite size_of_len). by apply Hend.
  - change ([x05; cmd; rsv]%byte ++ (x04 :: ip)%byte ++ PutUint16 port ++ q)
      with ([x05; cmd; rsv; x04]%byte ++ ip ++ PutUint16 port ++ q).
    erewrite bind_Ok by (by apply try_read_Conn). cbn [byte_at nth].
    change (negb (Byte.eqb x05 x05)) with false. cbv iota. unfold request_host. change (Byte.eqb x04 x01) with false.
    change (Byte.eqb x04 x03) with false. change (Byte.eqb x04 x04) with true. cbv iota.
    rewrite IO_bind_eq. erewrite bind_Ok by (by apply read_into_Conn). by apply Hend.
Qed.

(** ** The properties *)

(** The password.  When a user is configured, nothing is connected and no UDP session is opened
    for a client that has not sent exactly the user and the password, whatever it sends, however
    its input is cut, and whatever happens to what is written to it; every input ends in an
    outcome, without a panic. *)
Theorem Ftp_socks_login (user pass : string) (c : conn) :
  user <> "" -> exists o c', handleSocks5 user pass c = (Ok o, c') /\
  (o <> Closed -> slen user < 256 /\ slen pass < 256 /\ exists methods rest, (length methods < 256)%nat /\
     rx c = greeting methods ++ login user pass ++ rest).
Proof.
  intros Hu. unfold handleSocks5. destruct (try_read_spec 2 c) as (r & c1 & E1 & R1); [lia|].
  rewrite (bind_Ok _ _ _ _ _ E1). destruct r as [[|v [|n [|]]]|]; destruct_and?; try done; [|by do 2 eexists].
  cbn [byte_at nth]. destruct (negb (Byte.eqb v x05)) eqn:Ev; [by do 2 eexists|]. apply nbyte_eqb in Ev as ->.
  destruct (read_into_spec (size_of n) c1) as (m & c2 & E2 & R2). rewrite (bind_Ok _ _ _ _ _ E2).
  destruct (authenticate_spec user pass c2 Hu) as (ok & c3 & E3 & R3). rewrite (bind_Ok _ _ _ _ _ E3).
  destruct ok; [|by do 2 eexists]. destruct (read_request_spec c3) as (o & c4 & E4 & R4).
  exists o, c4. split; [exact E4|]. intros Ho.
  destruct (R3 eq_refl) as [R|(Lu & Lp & R)]; [by destruct Ho; apply R4|]. split; [done|]. split; [done|].
  destruct R2 as [[R2 L2]|R2]; [|rewrite R2 in R; by destruct (rx c3)].
  exists m, (rx c3). pose proof (size_of_lt n). split; [lia|].
  match goal with H : rx c = _ |- _ => rewrite H end. rewrite R2, R. unfold greeting, len. rewrite L2, byte_of_size.
  done.
Qed.

(** Requests.  A client that sends a greeting, its credentials if there are any, and a request
    gets what it asked for, with the bytes after the request left on the connection; other
    commands are refused.  The target of a CONNECT splits again into the host and the port of
    the request when the host is an IPv4 address or a name without colons and brackets; for an
    IPv6 address it does not split, so that the server cannot dial it. *)
Theorem Ftp_socks_request user pass methods cmd rsv a port rest e w :
  slen user < 256 -> slen pass < 256 -> (length methods < 256)%nat -> addr_ok a -> 0 <= port < 65536 ->
  (exists t, handleSocks5 user pass
     (Conn (greeting methods ++ credentials user pass ++ tcp_request cmd rsv a port ++ rest) e [] None w) =
     (Ok (outcome_of cmd a port), Conn rest e t None w) /\
     (outcome_of cmd a port <> Closed -> t = granted user)) /\
  match a with
  | A4 _ => SplitHostPort (target_of a port) = Ok (addr_host a, Itoa port)
  | ADomain name => free ":" (string_of name) -> free "[" (string_of name) -> free "]" (string_of name) ->
      SplitHostPort (target_of a port) = Ok (addr_host a, Itoa port)
  | A6 ip => To4 ip = None -> SplitHostPort (target_of a port) = Err tooManyColons
  end.
Proof.
  intros Hu Hpw Hm Ha Hp. split.
  - unfold handleSocks5, greeting. rewrite <- (assoc_L (++)).
    erewrite bind_Ok by (by apply (try_read_Conn 2 [_; _])). cbn [byte_at nth].
    change (negb (Byte.eqb x05 x05)) with false. cbv iota.
    erewrite bind_Ok by (apply read_into_Conn; unfold len; by rewrite size_of_len).
    erewrite bind_Ok by (by apply authenticate_ok). cbn [app]. by apply read_request_ok.
  - assert (Hj : forall h, free ":" h -> free "[" h -> free "]" h ->
      SplitHostPort (h +:+ ":" +:+ Itoa port) = Ok (h, Itoa port)).
    { intros h Hc H1 H2. rewrite <- (SplitHostPort_Join h (Itoa port)) by (done || by apply free_Itoa).
      unfold JoinHostPort. by rewrite (proj2 (ContainsByte_free _ _)). }
    unfold target_of. destruct a as [ip|name|ip]; simpl in Ha; cbn [addr_host].
    + assert (IP_String ip = string4 ip) as -> by (apply IP_String_To4; unfold To4; by rewrite decide_True).
      apply Hj; by apply string4_free.
    + apply Hj.
    + intros H4. unfold IP_String. rewrite H4. destruct ip as [|b ip]; [done|]. rewrite decide_True by done.
      destruct (string6_text (b :: ip) Ha) as [Ht Hc].
      apply (SplitHostPort_colons _ (Itoa port)); [by apply hex_text_free|done|by apply free_Itoa].
Qed.

(** A datagram is a request of RFC 1928, of which the fragment number is not looked at, or is
    refused. *)
Definition datagram (h : list byte) (a : socks_addr) (port : Z) (payload : list byte) : list byte :=
  h ++ addr_bytes a ++ PutUint16 port ++ payload.
Definition datagram_target (a : socks_addr) (port : Z) : string :=
  match a with A6 ip => "[" +:+ IP_String ip +:+ "]:" +:+ Itoa port | _ => target_of a port end.

Lemma parse_datagram h a port payload :
  length h = 3%nat -> addr_ok a -> 0 <= port < 65536 -> 10 <= len (datagram h a port payload) ->
  parseSocksUDPRequest (datagram h a port payload) = Ok (datagram_target a port, payload).
Proof.
  intros Hh Ha Hp Hl. unfold parseSocksUDPRequest. rewrite (proj2 (Z.ltb_ge _ _)) by done. unfold datagram in *.
  assert (Hpl : 0 <= len payload) by apply len_nonneg.
  destruct h as [|h0 [|h1 [|h2 [|]]]]; try done. destruct a as [ip|name|ip]; simpl in Ha; cbn [addr_bytes] in *.
  - change (Socks5.index ([h0; h1; h2] ++ (x01 :: ip)%byte ++ PutUint16 port ++ payload) 3) with (Ok x01%byte).
    cbn [mbind result_bind]. change (byte_to_Z x01 =? 1) with true. cbv iota.
    assert (Hi : len ip = 4) by (unfold len; lia).
    change ([h0; h1; h2] ++ (x01 :: ip)%byte ++ PutUint16 port ++ payload)
      with ([h0; h1; h2; x01]%byte ++ ip ++ PutUint16 port ++ payload).
    rewrite (slice_app [h0; h1; h2; x01]%byte ip _ 4) by (done || (rewrite Hi; done)). cbn [mbind result_bind].
    rewrite (app_assoc _ ip), (slice_app ([h0; h1; h2; x01]%byte ++ ip) (PutUint16 port) _ 8)
      by (rewrite ?len_app, ?len_put16, ?Hi; done). cbn [mbind result_bind].
    rewrite (app_assoc _ (PutUint16 port)), slice_tail by (rewrite !len_app, len_put16, Hi; done).
    cbn [mbind result_bind]. by rewrite be_get_put16, u16_small.
  - change (Socks5.index ([h0; h1; h2] ++ (x03 :: byte_of_Z (len name) :: name)%byte ++ PutUint16 port ++ payload) 3)
      with (Ok x03%byte).
    cbn [mbind result_bind]. change (byte_to_Z x03 =? 1) with false. change (byte_to_Z x03 =? 3) with true. cbv iota.
    assert (Hn : 0 <= len name < 256) by (unfold len; lia).
    assert (Hb : byte_to_Z (byte_of_Z (len name)) = len name) by (by apply byte_to_of_Z_small).
    change (Socks5.index ([h0; h1; h2] ++ (x03 :: byte_of_Z (len name) :: name)%byte ++ PutUint16 port ++ payload) 4)
      with (Ok (byte_of_Z (len name))).
    cbn [mbind result_bind]. rewrite Hb, (proj2 (Z.ltb_ge _ _)).
    2:{ rewrite !len_app, len_put16, !len_cons. change (len (@nil byte)) with 0. lia. }
    change ([h0; h1; h2] ++ (x03 :: byte_of_Z (len name) :: name)%byte ++ PutUint16 port ++ payload)
      with ([h0; h1; h2; x03; byte_of_Z (len name)]%byte ++ name ++ PutUint16 port ++ payload).
    rewrite (slice_app [h0; h1; h2; x03; byte_of_Z (len name)]%byte name _ 5) by done. cbn [mbind result_bind].
    rewrite (app_assoc _ name), (slice_app ([h0; h1; h2; x03; byte_of_Z (len name)]%byte ++ name) (PutUint16 port) _ (5 + len name))
      by (rewrite ?len_app, ?len_put16, ?len_cons; change (len (@nil byte)) with 0; lia). cbn [mbind result_bind].
    rewrite (app_assoc _ (PutUint16 port)), slice_tail by (rewrite !len_app, len_put16, !len_cons; change (len (@nil byte)) with 0; lia).
    cbn [mbind result_bind]. by rewrite be_get_put16, u16_small.
  - change (Socks5.index ([h0; h1; h2] ++ (x04 :: ip)%byte ++ PutUint16 port ++ payload) 3) with (Ok x04%byte).
    cbn [mbind result_bind]. change (byte_to_Z x04 =? 1) with false. change (byte_to_Z x04 =? 3) with false.
    change (byte_to_Z x04 =? 4) with true. cbv iota.
    assert (Hi : len ip = 16) by (unfold len; lia).
    rewrite (proj2 (Z.ltb_ge _ _)) by (rewrite !len_app, len_put16, !len_cons, Hi; change (len (@nil byte)) with 0; lia).
    change ([h0; h1; h2] ++ (x04 :: ip)%byte ++ PutUint16 port ++ payload)
      with ([h0; h1; h2; x04]%byte ++ ip ++ PutUint16 port ++ payload).
    rewrite (slice_app [h0; h1; h2; x04]%byte ip _ 4) by (done || (rewrite Hi; done)). cbn [mbind result_bind].
    rewrite (app_assoc _ ip), (slice_app ([h0; h1; h2; x04]%byte ++ ip) (PutUint16 port) _ 20)
      by (rewrite ?len_app, ?len_put16, ?Hi; done). cbn [mbind result_bind].
    rewrite (app_assoc _ (PutUint16 port)), slice_tail by (rewrite !len_app, len_put16, Hi; done).
    cbn [mbind result_bind]. by rewrite be_get_put16, u16_small.
Qed.

Lemma parse_request_total buf :
  match parseSocksUDPRequest buf with Panic _ | OutOfFuel => False | _ => True end.
Proof.
  assert (Hidx : forall i, 0 <= i < len buf -> exists b, Socks5.index buf i = Ok b).
  { intros i Hi. unfold Socks5.index. rewrite (proj2 (Z.ltb_ge _ _)) by lia.
    destruct (lookup_lt_is_Some_2 buf (Z.to_nat i)) as [b ->]; [unfold len in Hi; lia|eauto]. }
  assert (Hsl : forall i j, 0 <= i <= j -> j <= len buf -> exists l, slice_bytes buf i j = Ok l).
  { intros i j H1 H2. unfold slice_bytes. rewrite decide_True by done. eauto. }
  unfold parseSocksUDPRequest. destruct (Z.ltb_spec (len buf) 10); [done|].
  destruct (Hidx 3) as [atyp ->]; [lia|]. cbn [mbind result_bind]. destruct (byte_to_Z atyp =? 1).
  { destruct (Hsl 4 8) as [? ->]; [lia..|]. destruct (Hsl 8 10) as [? ->]; [lia..|].
    by destruct (Hsl 10 (len buf)) as [? ->]; [lia..|]. }
  destruct (byte_to_Z atyp =? 3).
  { destruct (Hidx 4) as [dl ->]; [lia|]. cbn [mbind result_bind]. pose proof (byte_to_Z_range dl).
    destruct (Z.ltb_spec (len buf) (5 + byte_to_Z dl + 2)); [done|].
    destruct (Hsl 5 (5 + byte_to_Z dl)) as [? ->]; [lia..|].
    destruct (Hsl (5 + byte_to_Z dl) (7 + byte_to_Z dl)) as [? ->]; [lia..|].
    by destruct (Hsl (7 + byte_to_Z dl) (len buf)) as [? ->]; [lia..|]. }
  destruct (byte_to_Z atyp =? 4); [|done]. destruct (Z.ltb_spec (len buf) 22); [done|].
  destruct (Hsl 4 20) as [? ->]; [lia..|]. destruct (Hsl 20 22) as [? ->]; [lia..|].
  by destruct (Hsl 22 (len buf)) as [? ->]; [lia..|].
Qed.

(** Datagrams.  A request of RFC 1928 that has ten bytes is read with its target and its payload,
    whatever its fragment number; no input panics.  What is built for an answer is read back
    with the address it was built from. *)
Theorem Ftp_socks_udp :
  (forall h a port payload, length h = 3%nat -> addr_ok a -> 0 <= port < 65536 ->
     10 <= len (datagram h a port payload) ->
     parseSocksUDPRequest (datagram h a port payload) = Ok (datagram_target a port, payload)) /\
  (forall buf, match parseSocksUDPRequest buf with Panic _ | OutOfFuel => False | _ => True end) /\
  (forall src payload, length (uIP src) = 4%nat \/ length (uIP src) = 16%nat -> 0 <= uPort src < 65536 ->
     parseSocksUDPRequest (buildSocksUDPHeader src ++ payload) = Ok (UDPAddr_String src, payload)).
Proof.
  split; [exact parse_datagram|]. split; [exact parse_request_total|]. intros src payload Hip Hp.
  assert (Hl : forall h a pl, length h = 3%nat -> addr_ok a -> (exists ip, a = A4 ip \/ a = A6 ip) ->
    10 <= len (datagram h a (uPort src) pl)).
  { intros h a pl Hh Ha [ip Hv]. unfold datagram. rewrite !len_app, len_put16. unfold len at 1. rewrite Hh.
    pose proof (len_nonneg pl). destruct Hv as [->| ->]; simpl in Ha; cbn [addr_bytes];
      rewrite len_cons; unfold len at 1; rewrite Ha; lia. }
  unfold buildSocksUDPHeader. destruct (To4 (uIP src)) as [ip4|] eqn:E4.
  - pose proof (To4_length _ _ E4) as L4. unfold copy_into. simpl default.
    rewrite take_ge, L4, Nat.sub_diag, app_nil_r by lia. rewrite u16_small by done.
    replace (([x00; x00; x00; x01]%byte ++ ip4 ++ PutUint16 (uPort src)) ++ payload)
      with (datagram [x00; x00; x00]%byte (A4 ip4) (uPort src) payload)
      by (unfold datagram; cbn [addr_bytes]; by rewrite <- !(assoc_L (++))).
    rewrite parse_datagram by first [done | by apply Hl; eauto].
    unfold datagram_target, target_of, UDPAddr_String. cbn [addr_host].
    destruct (uIP src) as [|b ip] eqn:Ei; [by destruct Hip|]. rewrite (IP_String_To4 _ _ E4).
    assert (IP_String ip4 = string4 ip4) as -> by (apply IP_String_To4; unfold To4; by rewrite decide_True).
    unfold JoinHostPort. by rewrite (proj2 (ContainsByte_free _ _)) by (by apply string4_free).
  - assert (L6 : length (uIP src) = 16%nat) by (destruct Hip; [|done]; unfold To4 in E4; by rewrite decide_True in E4).
    unfold To16. rewrite decide_False, decide_True by lia. unfold copy_into. simpl default.
    rewrite take_ge, L6, Nat.sub_diag, app_nil_r by lia. rewrite u16_small by done.
    replace (([x00; x00; x00; x04]%byte ++ uIP src ++ PutUint16 (uPort src)) ++ payload)
      with (datagram [x00; x00; x00]%byte (A6 (uIP src)) (uPort src) payload)
      by (unfold datagram; cbn [addr_bytes]; by rewrite <- !(assoc_L (++))).
    rewrite parse_datagram by first [done | by apply Hl; eauto].
    unfold datagram_target, UDPAddr_String. destruct (uIP src) as [|b ip] eqn:Ei; [done|].
    unfold IP_String. rewrite E4, decide_True by done. unfold JoinHostPort.
    by rewrite (proj2 (ContainsByte_not_free _ _)) by (by apply string6_text).
Qed.

(** ** Concrete runs *)

Lemma Ftp_socks_login_witness :
  let i := greeting [x00; x02]%byte ++ login "me" "pw" ++ tcp_request x01 x00 (A4 [x7f; x00; x00; x01]%byte) 80 in
  exists o c', handleSocks5 "me" "pw" (conn_of i) = (Ok o, c') /\ o = Connect "127.0.0.1:80" /\
    slen "me" < 256 /\ exists methods rest, i = greeting methods ++ login "me" "pw" ++ rest.
Proof.
  intros i. destruct (Ftp_socks_login "me" "pw" (conn_of i)) as (o & c' & H & Ho); [done|].
  exists o, c'. split; [exact H|].
  assert (o = Connect "127.0.0.1:80") as E
    by (assert (fst (handleSocks5 "me" "pw" (conn_of i)) = Ok (Connect "127.0.0.1:80")) as E by (by vm_compute);
        rewrite H in E; by injection E).
  split; [exact E|]. destruct Ho as (H1 & _ & m & r & _ & H2); [by rewrite E|]. split; [exact H1|]. by exists m, r.
Defined.

Lemma Ftp_socks_request_witness :
  exists t, handleSocks5 "" ""
    (Conn (greeting [x00]%byte ++ credentials "" "" ++ tcp_request x01 x00 (A6 (repeat x00 15 ++ [x01])%byte) 80 ++ [x16]%byte)
       EOF [] None EOF) = (Ok (Connect "::1:80"), Conn [x16]%byte EOF t None EOF).
Proof.
  destruct (Ftp_socks_request "" "" [x00]%byte x01 x00 (A6 (repeat x00 15 ++ [x01])%byte) 80 [x16]%byte EOF EOF)
    as [(t & H & _) _]; [done|done|by apply Nat.ltb_lt|done|done|]. exists t. exact H.
Defined.
