(* ===== verification/FtpRun.v ===== *)
(** The life of the FTP client: Run and serveTCPForward of ftp/client/client.go.

    Run checks its addresses, connects (FtpDial.v), starts the goroutines of FtpClient.v, serves
    local connections until its listener fails or its context is done, and then shuts down.
    Here is the goroutine of Run; the others take their steps in between. *)

From S2P Require Import Prelude GoLib Aead FtpProtocol FtpChannel FtpConn FtpServer FtpLink FtpServerThms FtpDial FtpClient FtpClientThms.
From Stdlib Require Import ZArith Lia Strings.Byte Strings.String.
From stdpp Require Import gmap list strings.

#[local] Open Scope string_scope.
#[local] Open Scope Z_scope.
#[local] Open Scope list_scope.

(** What Accept returns; with an error, whether the context is done. *)
Inductive accept : Type := Accepted | AcceptFails (e : goerr) (over : bool).

(** Run waits, or has returned. *)
Inductive run_end : Type := Waiting | Returned (err : option goerr).

Section Run.
Context {C : Type} `{ChannelOps C}.

#[local] Abbreviation ST_ := (ST (World C)).

(** The loop of serveTCPForward: [None] while it waits, then its error. *)
Fixpoint accept_loop (accepts : list accept) : ST_ (option (option goerr)) :=
  match accepts with
  | [] => mret None
  | Accepted :: accepts => _ ← handleTCPForward; accept_loop accepts
  | AcceptFails e over :: _ => mret (Some (if over : bool then None else Some e))
  end.

(** [listen] is dualbind.Listen, [pc] its UDP socket. *)
Definition serveTCPForward (skipUDP : bool) (listen : result (string * bool)) (pc : nat)
    (accepts : list accept) : ST_ (option (option goerr)) :=
  match listen with
  | Ok (_, udp) =>
      _ ← (if udp && negb skipUDP then _ ← handleUDPRaw pc; mret tt else mret tt);
      accept_loop accepts
  | _ => mret (Some (Some (Errorf "listen: %w")))
  end.

(** The end of Run: the batcher is flushed and every channel closed. *)
Definition close_all (chs : list (option nat)) (w : World C) : World C :=
  fold_left (fun w ch => match ch with Some ch => close_chan ch w | None => w end) chs w.

Definition shutdown (w : World C) : World C :=
  let w := flush w in close_all (downloads w) (close_all (uploads w) w).

(** Run after its configuration; [connect] is how connectWithRetry ends, [cancelled] whether the
    context is done while nothing else happens. *)
Definition Run (g : Globals) (connect : option goerr) (listen : result (string * bool)) (pc : nat)
    (accepts : list accept) (cancelled : bool) : ST_ run_end :=
  match check_addrs g with
  | Ok _ =>
      match connect with
      | Some _ => mret (Returned (Some (Errorf "connect aborted: %w")))
      | None =>
          r ← (if negb (String.eqb (cfgReverse g) "")
               then _ ← modify (announce (cfgReverse g) (cfgListen g)); mret None
               else serveTCPForward (cfgSkipUDP g) listen pc accepts);
          match r with
          | Some (Some e) => mret (Returned (Some e))
          | Some None => _ ← modify shutdown; mret (Returned (Some ctx_canceled))
          | None => if cancelled then _ ← modify shutdown; mret (Returned (Some ctx_canceled))
                    else mret Waiting
          end
      end
  | Err e => mret (Returned (Some e))
  | _ => mret (Returned (Some (Errorf "invalid ftp address: %w")))
  end.

(** ** Lemmas *)

(** The local side of the client does not touch its channels. *)
Definition same_channels (w w' : World C) : Prop :=
  chans w' = chans w /\ uploads w' = uploads w /\ downloads w' = downloads w.

Lemma same_refl w : same_channels w w.
Proof. done. Qed.

Lemma same_trans w1 w2 w3 : same_channels w1 w2 -> same_channels w2 w3 -> same_channels w1 w3.
Proof. unfold same_channels. intuition congruence. Qed.

Lemma write_conn_channels n d w : same_channels w (write_conn n d w).2.
Proof. unfold write_conn. by repeat case_match. Qed.

Lemma handleTCPForward_channels w : same_channels w (handleTCPForward w).2.
Proof. by repeat split. Qed.

Lemma accept_loop_channels accepts w : same_channels w (accept_loop accepts w).2.
Proof.
  revert w. induction accepts as [|[|e over] accepts IH]; intros w; [done| |done].
  cbn [accept_loop]. unfold mbind, ST_bind. pose proof (handleTCPForward_channels w) as H1.
  destruct (handleTCPForward w) as [x w1]. by eapply same_trans; [exact H1|].
Qed.

Lemma serveTCPForward_channels skip listen pc accepts w :
  same_channels w (serveTCPForward skip listen pc accepts w).2.
Proof.
  unfold serveTCPForward. destruct listen as [[b udp]| | |]; try done. unfold mbind, ST_bind.
  destruct (udp && negb skip); [|apply accept_loop_channels].
  eapply same_trans; [|apply accept_loop_channels]. by repeat split.
Qed.

Lemma announce_channels a b (w : World C) : same_channels w (announce a b w).
Proof. unfold announce. by destruct (String.eqb a ""). Qed.

(** When a loop ends with an error: at the first Accept that fails while the context lives. *)
Lemma accept_loop_end accepts w :
  Forall (fun a => match a with AcceptFails _ true => False | _ => True end) accepts ->
  match (accept_loop accepts w).1 with
  | None => accepts = replicate (length accepts) Accepted
  | Some (Some e) => exists n rest, accepts = replicate n Accepted ++ AcceptFails e false :: rest
  | Some None => False
  end.
Proof.
  intros Ha. revert w. induction Ha as [|a accepts Ha _ IH]; intros w; [done|].
  destruct a as [|e [|]]; [|done|by exists 0%nat, accepts].
  cbn [accept_loop]. unfold mbind, ST_bind. destruct (handleTCPForward w) as [x w1].
  specialize (IH w1). destruct (accept_loop accepts w1) as [[[e|]|] w2]; simpl in *; [|done|by rewrite <- IH].
  destruct IH as (n & rest & ->). by exists (S n), rest.
Qed.

(** ** Closing *)

Context `{HL : !ChannelLaws C}.

Definition all_closed (w : World C) : Prop :=
  forall ch c, (Some ch ∈ uploads w \/ Some ch ∈ downloads w) -> chans w !! ch = Some c -> ch_open c = false.

Lemma close_chan_lookup ch ch' (w : World C) :
  chans (close_chan ch w) !! ch' = (if decide (ch = ch') then ch_close <$> chans w !! ch' else chans w !! ch').
Proof.
  unfold close_chan. simpl. destruct (decide (ch = ch')) as [->|Hne].
  - apply lookup_alter_eq.
  - by apply lookup_alter_ne.
Qed.

(** A channel after a sequence of closes: closed when it is listed, and otherwise as it was;
    what its other end sees does not grow. *)
Lemma close_all_spec chs (w : World C) :
  let w' := close_all chs w in
  uploads w' = uploads w /\ downloads w' = downloads w /\ sends w' = sends w /\ reconns w' = reconns w /\
  (forall ch, chans w' !! ch = None <-> chans w !! ch = None) /\
  (forall ch c', chans w' !! ch = Some c' ->
     (Some ch ∈ chs \/ exists c, chans w !! ch = Some c /\ ch_open c = false) -> ch_open c' = false).
Proof.
  revert w. induction chs as [|x chs IH]; intros w; simpl.
  { split_and!; try done. intros ch c' Hc [Hin|(c & Hc2 & Ho)]; [by apply not_elem_of_nil in Hin|congruence]. }
  set (w1 := match x with Some ch => close_chan ch w | None => w end).
  assert (E : uploads w1 = uploads w /\ downloads w1 = downloads w /\ sends w1 = sends w /\ reconns w1 = reconns w)
    by (by destruct x).
  destruct E as (E1 & E2 & E3 & E4). destruct (IH w1) as (H1 & H2 & H3 & H4 & H5 & H6).
  unfold close_all in *. rewrite H1, H2, H3, H4, E1, E2, E3, E4. split_and!; try done.
  - intros ch. rewrite H5. destruct x as [y|]; [|done]. unfold w1. rewrite close_chan_lookup.
    case_decide; [|done]. by destruct (chans w !! ch).
  - intros ch c' Hc' Hor. apply (H6 ch c' Hc').
    destruct (chans w1 !! ch) as [c1|] eqn:E; [|by rewrite (proj2 (H5 ch)) in Hc'].
    destruct Hor as [[<-|Hin]%elem_of_cons|(c & Hc & Ho)]; [|by left|].
    + right. exists c1. split; [done|]. unfold w1 in E. rewrite close_chan_lookup, decide_True in E by done.
      destruct (chans w !! ch); [|done]. injection E as <-. apply ch_close_open.
    + right. exists c1. split; [done|]. unfold w1 in E. destruct x as [y|]; [|congruence].
      rewrite close_chan_lookup, Hc in E. case_decide; simpl in E; injection E as <-; [apply ch_close_open|done].
Qed.

Lemma flush_fields (w : World C) :
  chans (flush w) = chans w /\ uploads (flush w) = uploads w /\ downloads (flush w) = downloads w /\
  sends (flush w) = sends w ++ match b_q (bat w) with [] => [] | q => [q] end.
Proof. unfold flush. destruct (b_q (bat w)) eqn:E; simpl; rewrite ?app_nil_r; by split_and!. Qed.

Lemma shutdown_closed (w : World C) : all_closed (shutdown w) /\
  uploads (shutdown w) = uploads w /\ downloads (shutdown w) = downloads w /\
  sends (shutdown w) = sends w ++ match b_q (bat w) with [] => [] | q => [q] end /\
  (forall ch, chans (shutdown w) !! ch = None <-> chans w !! ch = None).
Proof.
  destruct (flush_fields w) as (F1 & F2 & F3 & F4). unfold shutdown. cbv zeta.
  destruct (close_all_spec (uploads (flush w)) (flush w)) as (H1 & H2 & H3 & _ & H5 & H6).
  destruct (close_all_spec (downloads (flush w)) (close_all (uploads (flush w)) (flush w))) as (K1 & K2 & K3 & _ & K5 & K6).
  cbv zeta in *. rewrite K1, K2, K3, H1, H2, H3, F4. split; [|split_and!; try congruence].
  - intros ch c Hin Hc. rewrite K1, K2, H1, H2 in Hin. apply (K6 ch c Hc). destruct Hin as [Hin|Hin]; [|by left].
    right. destruct (chans (close_all (uploads (flush w)) (flush w)) !! ch) as [c1|] eqn:E;
      [|by rewrite (proj2 (K5 ch)) in Hc]. exists c1. split; [done|]. apply (H6 ch c1 E). by left.
  - intros ch. by rewrite K5, H5, F1.
Qed.

(** A batch for a closed channel is not written; its goroutine asks for another channel. *)
Lemma send_closed fs (w : World C) :
  all_closed w -> chans (sendFrames fs w).2 = chans w /\
  (fs <> [] -> (exists ch c, uploadChannel (batch_conn fs) w = Some ch /\ chans w !! ch = Some c) ->
   exists idx, reconns (sendFrames fs w).2 = reconns w ++ [idx]).
Proof.
  intros Hc. unfold sendFrames. destruct fs as [|f fs]; [done|]. unfold mbind, ST_bind.
  destruct (write_up (f :: fs) w) as [r w1] eqn:E. unfold write_up in E.
  destruct (uploadChannel (batch_conn (f :: fs)) w) as [ch|] eqn:Eu;
    [|injection E as <- <-; split; [done|intros _ (? & ? & ? & ?); congruence]].
  destruct (chans w !! ch) as [c|] eqn:Ec;
    [|injection E as <- <-; split; [done|intros _ (? & ? & [= <-] & ?); congruence]].
  assert (Ho : ch_open c = false).
  { apply (Hc ch c); [|done]. left. revert Eu. unfold uploadChannel. destruct (uploads w) as [|u l] eqn:El; [done|].
    rewrite <- El. destruct (uploads w !! _) as [[x|]|] eqn:Ex; simpl; try done. intros [= ->].
    by eapply list_elem_of_lookup_2. }
  rewrite ch_write_closed in E by done. injection E as <- <-.
  unfold modify, gets, mret, ST_ret. simpl. rewrite insert_id by done. split; [done|]. intros _ _. by eexists.
Qed.

Lemma send_closed_keeps fs (w : World C) : all_closed w -> all_closed (sendFrames fs w).2.
Proof.
  intros Hc. destruct (send_closed fs w Hc) as [E _]. unfold all_closed in *. rewrite E.
  assert (uploads (sendFrames fs w).2 = uploads w /\ downloads (sendFrames fs w).2 = downloads w) as [-> ->]; [|done].
  unfold sendFrames. destruct fs as [|f fs]; [done|]. unfold mbind, ST_bind, write_up.
  destruct (uploadChannel _ w) as [ch|]; [|done]. destruct (chans w !! ch) as [c|]; [|done].
  destruct (ch_write _ c) as [[e|] c']; done.
Qed.

Lemma sends_closed l (w : World C) : all_closed w -> chans (for_each l sendFrames w).2 = chans w.
Proof.
  revert w. induction l as [|fs l IH]; intros w Hc; [done|]. cbn [for_each]. unfold mbind, ST_bind.
  pose proof (send_closed fs w Hc) as [E _]. pose proof (send_closed_keeps fs w Hc) as K.
  destruct (sendFrames fs w) as [x w1]. simpl in *. by rewrite IH, E.
Qed.
End Run.

(** ** The properties *)


(** ** A concrete run *)

(** A client with a batched frame that accepts a connection, and then runs out of files. *)
Module RunWitness.
Definition client : World link := sendBatched (MkFrame 5 TypeData 2 [Byte.x61]) demo_client.
Definition accepts : list accept := [Accepted; AcceptFails (Errorf "too many open files") false].
End RunWitness.

