(* ===== verification/Upstream.v ===== *)
(** Upstream proxies of snowflake clients: snowflake/common/standalone/proxy.go.

    A WebSocket dialer with a proxy gets its connections from ProxyDialer.  The SOCKS5 dialer is
    golang.org/x/net/proxy; dialHTTPProxy is the code's own: it sends a CONNECT and reads the
    response through a bufio.Reader.  The parser of net/http is a parameter, as in Proxies.v; with
    a response it gives the body, which, when the response has no length, goes on to the end of
    the stream. *)

From S2P Require Import Prelude GoLib MuxPipe Obfs Proxies.
From Stdlib Require Import ZArith Lia Strings.Byte Strings.Ascii Strings.String.
From stdpp Require Import gmap strings list.

#[local] Open Scope string_scope.
#[local] Open Scope Z_scope.
#[local] Open Scope list_scope.

(** ** ProxyDialer *)

(** A proxy URL that has been parsed. *)
Record proxyURL := MkProxyURL { Scheme : string; uHost : string; uUser : option (string * string) }.

(** How a dialer connects. *)
Inductive dialer : Type :=
  | Direct
  | Socks (u : proxyURL)
  | Http (u : proxyURL)
  | Fails (e : goerr).

(** [parse] is url.Parse, and [fromURL] the outcome of proxy.FromURL. *)
Definition ProxyDialer (parse : string -> result proxyURL) (fromURL : option goerr) (url : string) : dialer :=
  if String.eqb url "" then Direct
  else
    match parse url with
    | Ok u =>
        let scheme := ToLower (Scheme u) in
        if String.eqb scheme "socks5" || String.eqb scheme "socks5h" then
          match fromURL with Some e => Fails e | None => Socks u end
        else if String.eqb scheme "http" || String.eqb scheme "https" then Http u
        else Fails (Errorf "unsupported proxy scheme %q")
    | _ => Fails (Errorf "invalid proxy URL: %w")
    end.

(** ** dialHTTPProxy *)

(** The body of a response: none, of a length, or up to the end of the stream. *)
Inductive body : Type := NoBody | Length (n : nat) | ToEnd.
Record response := MkResponse { StatusCode : Z; Body : body }.

(** The dial is not over; it has failed, with the connection closed if there is one; or it gives
    a connection with the segments that are still to come. *)
Inductive dial_end : Type :=
  | Pending
  | Failed (e : goerr)
  | Dialed (segs : list (list byte)).

(** The address of the proxy. *)
Definition proxy_addr (u : proxyURL) : string :=
  if ContainsByte (uHost u) ":" then uHost u
  else if String.eqb (Scheme u) "https" then uHost u +:+ ":443" else uHost u +:+ ":80".

(** The header of the request. *)
Definition authorization (u : proxyURL) : option string :=
  '(name, password) ← uUser u; Some (proxyAuth name password).

Section dial.
Context (ReadResponse : list byte -> option (result response * nat)).

(** io.Copy(io.Discard, resp.Body) on a reader that holds [buf]: the segments that are left, or
    [None] while it waits.  [ended] says that the proxy has closed the connection. *)
Fixpoint discard (b : nat) (buf : list byte) (segs : list (list byte)) (ended : bool) :
    option (list (list byte)) :=
  if (b <=? length buf)%nat then Some segs
  else match segs with
       | s :: segs => discard (b - length buf) s segs ended
       | [] => if ended then Some [] else None
       end.

Definition discard_body (b : body) (buf : list byte) (segs : list (list byte)) (ended : bool) :
    option (list (list byte)) :=
  match b with
  | NoBody => Some segs
  | Length n => discard n buf segs ended
  | ToEnd => if ended then Some [] else None
  end.

(** [connect]: whether the proxy is reached; [written]: whether the request can be written;
    [segs]: what the proxy sends, in segments, and whether it then closes. *)
Definition dialHTTPProxy (connect : string -> bool) (written : bool) (u : proxyURL)
    (segs : list (list byte)) (ended : bool) : dial_end :=
  if negb (connect (proxy_addr u)) then Failed (Errorf "dial")
  else if negb written then Failed (Errorf "write")
  else
    match ReadRequest ReadResponse [] segs with
    | (Ok resp, buf, rest) =>
        match discard_body (Body resp) buf rest ended with
        | Some rest =>
            if StatusCode resp =? 200 then Dialed rest else Failed (Errorf "proxy CONNECT failed: %s")
        | None => Pending
        end
    | (Err e, _, _) =>
        match ReadResponse (concat segs) with
        | None => if ended then Failed e else Pending
        | Some _ => Failed e
        end
    | (Panic _, _, _) | (OutOfFuel, _, _) => Failed (Errorf "malformed HTTP response")
    end.
End dial.

(** ** Lemmas *)

(** The message at the front of the input is the one that is read. *)
Lemma ReadRequest_parse {R} (parse : list byte -> option (result R * nat)) buf segs r n :
  parser_ok parse -> parse (buf ++ concat segs) = Some (r, n) ->
  exists ahead rest, ReadRequest parse buf segs = (r, ahead, rest).
Proof.
  intros Hp. revert buf. induction segs as [|s segs IH]; intros buf H; simpl in *;
    (destruct (parse buf) as [[r' n']|] eqn:E;
      [destruct (Hp _ _ _ E) as [_ Ha]; rewrite Ha in H; injection H as -> ->; by do 2 eexists|]).
  - rewrite app_nil_r in H. congruence.
  - apply IH. by rewrite <- (assoc_L (++)).
Qed.

Lemma discard_spec b buf segs ended rest : discard b buf segs ended = Some rest ->
  exists pre, buf ++ concat segs = pre ++ concat rest /\ ((b <= length pre)%nat \/ ended = true /\ rest = []).
Proof.
  revert b buf. induction segs as [|s segs IH]; intros b buf; simpl.
  - destruct (Nat.leb_spec b (length buf)).
    + intros [= <-]. exists buf. split; [done|by left].
    + destruct ended; [|done]. intros [= <-]. exists buf. split; [done|by right].
  - destruct (Nat.leb_spec b (length buf)).
    + intros [= <-]. exists buf. split; [done|by left].
    + intros (pre & E & Hb)%IH. exists (buf ++ pre). rewrite <- (assoc_L (++)), <- E. split; [done|].
      rewrite length_app. destruct Hb; [left; lia|by right].
Qed.

(** ** The properties *)


(** ** A concrete parser and runs *)

Module UpstreamWitness.
(** Every head is taken for an answer 200 with the given body. *)
Definition parse (b : body) (l : list byte) : option (result response * nat) :=
  n ← HttpWitness.head_end l; Some (Ok (MkResponse 200 b), n).
Definition answer : list byte := bytes_of "HTTP/1.1 200 Connection established" ++ HttpWitness.blank.
Definition u : proxyURL := MkProxyURL "http" "192.0.2.1:8080" None.
End UpstreamWitness.

Lemma upstream_parse_ok b : parser_ok (UpstreamWitness.parse b).
Proof.
  intros a r n. unfold UpstreamWitness.parse.
  destruct (HttpWitness.head_end a) as [m|] eqn:E; [|done]. intros [= <- <-].
  destruct (head_end_ok _ _ E) as [Hm Hb]. split; [lia|]. intros c. by rewrite Hb.
Qed.

