(* ===== verification/FtpPool.v ===== *)
(** Other users of FTP control connections: the session pool of ftp/common/ftpclient.go (lines
    416 to 595), and the decoy loop of ftp/client/client.go.

    A pool keeps a fixed number of slots.  Goroutines that reconnect fill them, a watchdog
    empties those whose connection is dead and starts such a goroutine for each, and pick goes
    round the live ones.  Connections are numbers, in the order in which they were dialed.
    Nothing in the program makes a pool. *)

From S2P Require Import Prelude GoLib FtpConn FtpDial.
From Stdlib Require Import ZArith Lia Strings.Byte Strings.String.
From stdpp Require Import sets gmap list strings.

#[local] Open Scope string_scope.
#[local] Open Scope Z_scope.
#[local] Open Scope list_scope.

(** ** The pool *)

(** [downs] are the connections that are dead, [dialed] the number of those that were dialed,
    and [recons] the goroutines in reconnect, each with its slot and its backoff in
    nanoseconds. *)
Record subPool := MkPool {
  slots : list (option nat); rr : nat; downs : gset nat; dialed : nat; recons : list (nat * Z)
}.

Definition second : Z := 1000000000.

(** newSubPool: [login] is the outcome of the first dialOne.  Without slots the first one is out
    of range. *)
Definition newSubPool (size : Z) (login : option goerr) : result subPool :=
  if size <? 0 then Panic "makeslice: len out of range"
  else match login with
       | Some e => Err e
       | None =>
           if size =? 0 then Panic "index out of range"
           else
             let n := Z.to_nat size in
             Ok (MkPool (Some 0%nat :: replicate (n - 1) None) 0 ∅ 1 (map (fun i => (i, second)) (seq 1 (n - 1))))
       end.

Definition NewSessionPool (uploadConns pollConns : Z) (login : option goerr) : result subPool :=
  let totalConns := uploadConns + pollConns in
  match newSubPool (if totalConns =? 0 then 4 else totalConns) login with
  | Err _ => Err (Errorf "shared pool: %w")
  | r => r
  end.

Definition alive (p : subPool) (c : option nat) : bool :=
  match c with Some c => bool_decide (c ∉ downs p) | None => false end.

(** The next backoff of a goroutine. *)
Definition next_wait (backoff : Z) : Z := if backoff <? 60 * second then backoff * 2 else backoff.

Inductive pevent : Type :=
  | Reconnected (k : nat) (ok : bool)   (* the dial of a goroutine in reconnect ends *)
  | Check                               (* a tick of the watchdog *)
  | Down (c : nat).                     (* a connection fails *)

(** The loop of the watchdog over the slots. *)
Definition check_slots (p : subPool) : subPool :=
  let gone := filter (fun i => alive p (mjoin (slots p !! i)) = false) (seq 0 (length (slots p))) in
  MkPool (map (fun c => if alive p c then c else None) (slots p)) (rr p) (downs p) (dialed p)
    (recons p ++ map (fun i => (i, second)) gone).

Definition pstep (e : pevent) (p : subPool) : subPool :=
  match e with
  | Reconnected k ok =>
      match recons p !! k with
      | Some (idx, backoff) =>
          if ok : bool then
            MkPool (<[idx := Some (dialed p)]> (slots p)) (rr p) (downs p) (S (dialed p)) (delete k (recons p))
          else MkPool (slots p) (rr p) (downs p) (dialed p) (<[k := (idx, next_wait backoff)]> (recons p))
      | None => p
      end
  | Check => check_slots p
  | Down c => MkPool (slots p) (rr p) ({[c]} ∪ downs p) (dialed p) (recons p)
  end.

Definition psteps (es : list pevent) (p : subPool) : subPool := fold_left (fun p e => pstep e p) es p.

(** An attempt of pick: the first live slot from [rr] on. *)
Fixpoint pick_from (i k : nat) (p : subPool) : option nat * subPool :=
  match k with
  | O => (None, p)
  | S k =>
      let n := length (slots p) in
      let idx := ((rr p + i) mod n)%nat in
      let c := mjoin (slots p !! idx) in
      if alive p c then (c, MkPool (slots p) ((idx + 1) mod n) (downs p) (dialed p) (recons p))
      else pick_from (S i) k p
  end.
Definition pick_once (p : subPool) : option nat * subPool := pick_from 0 (length (slots p)) p.

(** pick, for what happens during each of its sleeps; the code sleeps sixty times. *)
Fixpoint pick (sleeps : list (list pevent)) (p : subPool) : option nat * subPool :=
  match sleeps with
  | [] => (None, p)
  | es :: sleeps =>
      match pick_once p with
      | (Some c, p) => (Some c, p)
      | (None, p) => pick sleeps (psteps es p)
      end
  end.

(** upload: for each try, the sleeps of its pick, what happens during the transfer, and how it
    ends. *)
Fixpoint upload (tries : list (list (list pevent) * list pevent * option goerr)) (p : subPool) :
    option goerr * subPool :=
  match tries with
  | [] => (Some (Errorf "upload failed after %d attempts: %w"), p)
  | (sleeps, es, r) :: tries =>
      match pick sleeps p with
      | (None, p) => (Some (Errorf "no live connection in %s pool"), p)
      | (Some c, p) =>
          let p := psteps es p in
          match r with None => (None, p) | Some _ => upload tries p end
      end
  end.

(** list and download: one pick and one call on the connection. *)
Definition on_pick {A} (sleeps : list (list pevent)) (call : nat -> result A) (p : subPool) : result A * subPool :=
  match pick sleeps p with
  | (Some c, p) => (call c, p)
  | (None, p) => (Err (Errorf "no live connection in %s pool"), p)
  end.

(** delete does nothing without a connection. *)
Definition pool_delete (sleeps : list (list pevent)) (p : subPool) : option nat * subPool := pick sleeps p.

(** ** The decoy loop *)

(** A turn of decoyLoop; [choose n] is rng.Intn(n).  The connection it leaves, if it could log
    in. *)
Definition decoy_turn (g : Globals) (e : dial_env) (l d : data_env) (choose : nat -> nat) : option FTPConn :=
  match dialOne (cfgFTP g) (cfgUser g) (cfgPass g) (cfgTLS g) (cfgTLS g) e with
  | (Ok c, _) =>
      let c := SetPasvAddrOverrides [cfgUpAddr g; cfgDownAddr g] c in
      let c := (Cmd 215 "SYST" c).2 in
      let c := (Cmd 211 "FEAT" c).2 in
      let c := (Cmd 200 "TYPE I" c).2 in
      let c := (Cmd 257 "PWD" c).2 in
      let c := (CWD "/" c).2 in
      let c := (Cmd 200 "NOOP" c).2 in
      match List_ "*" l c with
      | (Ok names, c) =>
          let c := match names with
                   | [] => c
                   | _ => let name := nth (choose (length names)) names "" in
                          (Download name d (Cmd 213 ("SIZE " +:+ name) c).2).2
                   end in
          Some (Close None (Cmd 221 "QUIT" c).2).2
      | (_, c) => Some (Close None c).2
      end
  | _ => None
  end.

(** ** Lemmas *)

Definition pool_ok (p : subPool) : Prop := (rr p < length (slots p))%nat.

Lemma pick_from_spec k i p : slots p <> [] ->
  let '(r, p') := pick_from i k p in
  slots p' = slots p /\ downs p' = downs p /\ dialed p' = dialed p /\ recons p' = recons p /\
  match r with
  | Some c => exists j, (i <= j < i + k)%nat /\ slots p !! ((rr p + j) mod length (slots p))%nat = Some (Some c) /\
      c ∉ downs p /\ rr p' = (((rr p + j) mod length (slots p) + 1) mod length (slots p))%nat /\
      forall j', (i <= j' < j)%nat -> alive p (mjoin (slots p !! ((rr p + j') mod length (slots p))%nat)) = false
  | None => p' = p /\ forall j, (i <= j < i + k)%nat ->
      alive p (mjoin (slots p !! ((rr p + j) mod length (slots p))%nat)) = false
  end.
Proof.
  intros Hne. revert i. induction k as [|k IH]; intros i; cbn [pick_from]; [split_and!; try done; lia|].
  cbv zeta. set (idx := ((rr p + i) mod length (slots p))%nat).
  destruct (alive p (mjoin (slots p !! idx))) eqn:Ea.
  - destruct (slots p !! idx) as [[c|]|] eqn:Es; simpl in Ea; try done. apply bool_decide_eq_true in Ea. simpl.
    split_and!; try done. exists i. split; [lia|]. split_and!; try done. lia.
  - specialize (IH (S i)). destruct (pick_from (S i) k p) as [[c|] p'].
    + destruct IH as (H1 & H2 & H3 & H4 & j & Hj & Hs & Hd & Hr & Hb). split_and!; try done.
      exists j. split; [lia|]. split_and!; try done. intros j' Hj'.
      destruct (decide (j' = i)) as [->|]; [exact Ea|]. apply Hb. lia.
    + destruct IH as (H1 & H2 & H3 & H4 & -> & Hb). split_and!; try done. intros j Hj.
      destruct (decide (j = i)) as [->|]; [exact Ea|]. apply Hb. lia.
Qed.

Lemma mod_reach r n m : (m < n)%nat -> exists j, (j < n)%nat /\ ((r + j) mod n = m)%nat.
Proof.
  intros Hm. assert (Hr : (r mod n < n)%nat) by (apply Nat.mod_upper_bound; lia).
  assert (E : forall j, ((r + j) mod n = (r mod n + j) mod n)%nat) by (intros j; by rewrite Nat.Div0.add_mod_idemp_l).
  destruct (decide (r mod n <= m)%nat).
  - exists (m - r mod n)%nat. split; [lia|]. rewrite E. replace (r mod n + (m - r mod n))%nat with m by lia.
    by apply Nat.mod_small.
  - exists (n - (r mod n - m))%nat. split; [lia|]. rewrite E.
    replace (r mod n + (n - (r mod n - m)))%nat with (m + 1 * n)%nat by lia.
    rewrite Nat.Div0.mod_add. by apply Nat.mod_small.
Qed.

(** pick finds a connection exactly when there is a live one. *)
Lemma pick_once_live p : slots p <> [] ->
  (exists c, (pick_once p).1 = Some c /\ Some c ∈ slots p /\ c ∉ downs p) \/
  (pick_once p).1 = None /\ forall c, Some c ∈ slots p -> c ∈ downs p.
Proof.
  intros Hne. unfold pick_once. pose proof (pick_from_spec (length (slots p)) 0 p Hne) as H.
  destruct (pick_from 0 (length (slots p)) p) as [[c|] p']; destruct H as (_ & _ & _ & _ & H).
  - left. exists c. destruct H as (j & _ & Hs & Hd & _). split; [done|]. split; [|done].
    by eapply list_elem_of_lookup_2.
  - right. split; [done|]. destruct H as [_ H]. intros c Hc. apply list_elem_of_lookup in Hc as [m Hm].
    pose proof (lookup_lt_Some _ _ _ Hm) as Hlt. destruct (mod_reach (rr p) _ m Hlt) as (j & Hj & Ej).
    specialize (H j ltac:(lia)). rewrite Ej, Hm in H. simpl in H. apply bool_decide_eq_false in H. by apply dec_stable.
Qed.

(** Picks of a pool in which nothing changes. *)
Fixpoint picks (n : nat) (p : subPool) : list (option nat) :=
  match n with O => [] | S n => let '(c, p) := pick_once p in c :: picks n p end.

Definition all_live (p : subPool) : Prop := Forall (fun c => alive p c = true) (slots p).

Lemma pick_once_next p : pool_ok p -> all_live p ->
  exists c, slots p !! rr p = Some (Some c) /\ pick_once p =
    (Some c, MkPool (slots p) ((rr p + 1) mod length (slots p)) (downs p) (dialed p) (recons p)).
Proof.
  intros Hok Hl. destruct (lookup_lt_is_Some_2 _ _ Hok) as [c Hc].
  pose proof (Forall_lookup_1 _ _ _ _ Hl Hc) as Ha. simpl in Ha. destruct c as [c|]; [|done]. exists c. split; [done|].
  unfold pick_once. destruct (length (slots p)) as [|n] eqn:El; [unfold pool_ok in Hok; lia|]. cbn [pick_from]. cbv zeta.
  rewrite El. unfold pool_ok in Hok. rewrite Nat.add_0_r, (Nat.mod_small (rr p)) by lia. rewrite Hc. cbn [mjoin option_join].
  by rewrite Ha.
Qed.

Lemma pstep_length e p : length (slots (pstep e p)) = length (slots p) /\ rr (pstep e p) = rr p.
Proof.
  destruct e as [k ok| |c]; simpl; [|by rewrite length_map|done].
  destruct (recons p !! k) as [[idx b]|]; [|done]. destruct ok; simpl; by rewrite ?length_insert.
Qed.

Lemma psteps_ok es p : pool_ok p -> pool_ok (psteps es p).
Proof.
  unfold psteps. revert p. induction es as [|e es IH]; intros p Hp; [done|]. simpl. apply IH.
  unfold pool_ok in *. destruct (pstep_length e p) as [-> ->]. done.
Qed.

Lemma pick_once_ok p : pool_ok p -> pool_ok (pick_once p).2.
Proof.
  intros Hp. unfold pool_ok in *. unfold pick_once.
  assert (Hne : slots p <> []) by (intros E; rewrite E in Hp; simpl in Hp; lia).
  pose proof (pick_from_spec (length (slots p)) 0 p Hne) as H.
  destruct (pick_from 0 (length (slots p)) p) as [[c|] p']; destruct H as (H1 & _ & _ & _ & H); simpl.
  - destruct H as (j & _ & _ & _ & -> & _). rewrite H1. apply Nat.mod_upper_bound. lia.
  - by destruct H as [-> _].
Qed.

Lemma picks_lookup n p i : pool_ok p -> all_live p -> (i < n)%nat ->
  picks n p !! i = slots p !! ((rr p + i) mod length (slots p))%nat.
Proof.
  revert p i. induction n as [|n IH]; intros p i Hok Hl Hi; [lia|]. cbn [picks].
  destruct (pick_once_next p Hok Hl) as (c & Hc & ->). unfold pool_ok in Hok. destruct i as [|i].
  - by rewrite Nat.add_0_r, (Nat.mod_small (rr p)), Hc by lia.
  - simpl. rewrite IH; [| |done|lia].
    + simpl. rewrite Nat.Div0.add_mod_idemp_l. do 2 f_equal. lia.
    + unfold pool_ok. simpl. apply Nat.mod_upper_bound. lia.
Qed.

(** A pool of one slot whose connection is down, with [k] goroutines for it. *)
Definition starved (k d : nat) (q : list nat) : subPool := MkPool [None] 0 (list_to_set q) d (replicate k (0%nat, second)).

Lemma checks_run n k d q : psteps (replicate n Check) (starved k d q) = starved (k + n) d q.
Proof.
  revert k. induction n as [|n IH]; intros k; [by rewrite Nat.add_0_r|]. cbn [replicate]. unfold psteps in *. cbn [fold_left].
  assert (pstep Check (starved k d q) = starved (S k) d q) as ->; [|rewrite IH; f_equal; lia].
  simpl. unfold check_slots, starved. simpl. f_equal. symmetry. apply replicate_S_end.
Qed.

Lemma dials_run n x d q : psteps (replicate n (Reconnected 0 true)) (MkPool [x] 0 q d (replicate n (0%nat, second))) =
  MkPool [match n with O => x | S m => Some (d + m)%nat end] 0 q (d + n) [].
Proof.
  revert x d. induction n as [|n IH]; intros x d; [by rewrite Nat.add_0_r|]. cbn [replicate]. unfold psteps in *. cbn [fold_left].
  change (pstep (Reconnected 0 true) _) with (MkPool [Some d] 0 q (S d) (replicate n (0%nat, second))).
  rewrite IH. f_equal; [|lia]. destruct n; do 2 f_equal; lia.
Qed.

(** ** The properties *)

(** Picking.  The next slot stays in range whatever happens; an attempt finds a connection exactly
    when a slot holds one that is not dead, and gives such a one; and as long as all slots are
    live and nothing changes, the picks go round the slots. *)
Theorem Pool_pick (p : subPool) :
  pool_ok p ->
  (forall es, pool_ok (psteps es p)) /\ pool_ok (pick_once p).2 /\
  ((exists c, (pick_once p).1 = Some c /\ Some c ∈ slots p /\ c ∉ downs p) \/
   (pick_once p).1 = None /\ forall c, Some c ∈ slots p -> c ∈ downs p) /\
  (all_live p -> forall n i, (i < n)%nat -> picks n p !! i = slots p !! ((rr p + i) mod length (slots p))%nat).
Proof.
  intros Hp. split; [intros es; by apply psteps_ok|]. split; [by apply pick_once_ok|]. split.
  - apply pick_once_live. intros E. unfold pool_ok in Hp. rewrite E in Hp. simpl in Hp. lia.
  - intros Hl n i. by apply picks_lookup.
Qed.

(** Duplicates.  The watchdog starts a goroutine for a dead slot at every tick, also when there is
    one already: after an outage of [k] ticks a pool of one slot dials [k] connections, of which
    all but the last stay open with nothing that refers to them. *)
Theorem Pool_duplicates (k : nat) (p0 : subPool) :
  newSubPool 1 None = Ok p0 -> (0 < k)%nat ->
  let p := psteps (Down 0 :: replicate k Check ++ replicate k (Reconnected 0 true)) p0 in
  slots p = [Some k] /\ dialed p = S k /\ recons p = [] /\
  forall c, (0 < c < k)%nat -> c ∉ downs p /\ Some c ∉ slots p.
Proof.
  intros [= <-] Hk p. subst p. destruct k as [|m]; [lia|].
  assert (E : psteps (Down 0 :: replicate (S m) Check ++ replicate (S m) (Reconnected 0 true))
    (MkPool [Some 0%nat] 0 ∅ 1 []) = MkPool [Some (S m)] 0 {[0%nat]} (S (S m)) []).
  { unfold psteps. cbn [replicate app fold_left].
    change (fold_left (fun p e => pstep e p) ?l ?p) with (psteps l p).
    assert (pstep Check (pstep (Down 0) (MkPool [Some 0%nat] 0 ∅ 1 [])) = starved 1 1 [0%nat]) as ->.
    { by vm_compute. }
    unfold psteps. rewrite fold_left_app. change (fold_left (fun p e => pstep e p) ?l ?p) with (psteps l p).
    rewrite checks_run. unfold starved.
    change (Reconnected 0 true :: replicate m (Reconnected 0 true)) with (replicate (S m) (Reconnected 0 true)).
    change (1 + m)%nat with (S m). rewrite dials_run. by f_equal. }
  change (map (fun i => (i, second)) (seq 1 (Z.to_nat 1 - 1))) with (@nil (nat * Z)).
  change (Some 0%nat :: replicate (Z.to_nat 1 - 1) None) with [Some 0%nat]. rewrite E. simpl.
  split_and!; try done. intros c Hc. split; [set_solver by lia|].
  intros H. apply list_elem_of_singleton in H. injection H as H. lia.
Qed.

(** Every turn of the decoy loop that logs in leaves its connection closed. *)
Theorem Decoy_closes g e l d choose c :
  decoy_turn g e l d choose = Some c -> raw_open c = false /\ dead c = true.
Proof.
  unfold decoy_turn. destruct (dialOne _ _ _ _ _ _) as [[x| | |] closed]; try done. cbv zeta.
  destruct (List_ _ _ _) as [[names| | |] c1]; by intros [= <-].
Qed.

(** ** A concrete run *)

Lemma Pool_duplicates_witness :
  exists p0, newSubPool 1 None = Ok p0 /\
    slots (psteps (Down 0 :: replicate 3 Check ++ replicate 3 (Reconnected 0 true)) p0) = [Some 3%nat].
Proof. eexists. split; [reflexivity|]. apply (Pool_duplicates 3); [done|lia]. Defined.
