(* ===== verification/DpiOpen.v ===== *)
(** How a stream session of the DPI client comes up and ends: the goroutines of startSession
    (dpi/client/session.go, lines 101 to 204), around the operations of DpiSession.v.

    The caller waits for the download goroutine to report the status of its request, then makes
    the pipe of the upload and starts the goroutine that posts it.  Each of the three, and
    whoever closes the session from outside, is a sequence of steps that interleave. *)

From S2P Require Import Prelude GoLib DpiWire DpiSession.
From Stdlib Require Import ZArith Lia Strings.Byte Strings.String.
From stdpp Require Import gmap strings list.

#[local] Open Scope string_scope.
#[local] Open Scope Z_scope.
#[local] Open Scope list_scope.

(** ** State *)

(** The outcome of a request: building it, sending it, and the status of its answer. *)
Inductive response : Type := NoRequest (e : goerr) | NoAnswer (e : goerr) | Status (code : Z).

Inductive down_pc : Type := DownRequest | DownLoop | DownEnded.
Inductive caller_pc : Type := CallerWaits | CallerReturned (r : result nat).
Inductive up_pc : Type := UpNone | UpPosting | UpEnded.

(** [downReady] is the channel of capacity 1; [pw_open] tells, once the caller has made the
    pipe, whether its writer is open.  [sid] is the session's number. *)
Record opening := MkOpening {
  world : World; sid : nat; downReady : option (option goerr); dpc : down_pc; cpc : caller_pc;
  upc : up_pc; pw_open : option bool
}.

(** startSession up to the goroutine: a session in the store, without an upload. *)
Definition new_opening (id : string) (w : World) : opening :=
  let s := fresh_id (sess w) in
  MkOpening (set_sess (<[s := MkSess id None None ∅ ∅ false]> (sess w)) w) s None DownRequest CallerWaits UpNone None.

(** close also closes the pipe that it finds in an open session. *)
Definition closes_pipe (s : nat) (w : World) : bool :=
  match sess w !! s with
  | Some x => negb (s_closed x) && match s_uplinkW x with Some _ => true | None => false end
  | None => false
  end.
Definition shut (b : bool) (pw : option bool) : option bool := if b then (fun _ => false) <$> pw else pw.

Definition close_session (o : opening) : opening :=
  MkOpening (close (sid o) (world o)) (sid o) (downReady o) (dpc o) (cpc o) (upc o)
    (shut (closes_pipe (sid o) (world o)) (pw_open o)).
Definition fail_session (e : goerr) (o : opening) : opening :=
  MkOpening (fail (sid o) e (world o)) (sid o) (downReady o) (dpc o) (cpc o) (upc o)
    (shut (closes_pipe (sid o) (world o)) (pw_open o)).

Definition set_dpc v o := MkOpening (world o) (sid o) (downReady o) v (cpc o) (upc o) (pw_open o).
Definition set_upc v o := MkOpening (world o) (sid o) (downReady o) (dpc o) (cpc o) v (pw_open o).

(** What else runs on the session: the operations of its connections and of its download. *)
Inductive session_op : Type :=
  | OpPin (connID : Z)
  | OpUnpin (connID : Z)
  | OpOpenReader (connID : Z)
  | OpDeliver (connID : Z) (data : list byte)
  | OpWrite (encrypted : list byte).

Definition apply_op (op : session_op) (s : nat) (w : World) : World :=
  match op with
  | OpPin c => (pin s c w).2
  | OpUnpin c => unpin s c w
  | OpOpenReader c => (openConnReader s c w).2
  | OpDeliver c d => match deliver s c d w with Ok w => w | _ => w end
  | OpWrite e => (writeEncrypted s e w).2
  end.

(** ** Steps *)

(** The download request ends. *)
Definition down_answer (r : response) (o : opening) : opening :=
  let '(ready, pc) := match r with
                      | NoRequest e | NoAnswer e => (Some e, DownEnded)
                      | Status code => if code =? 200 then (None, DownLoop)
                                       else (Some (Errorf "session download status %d"), DownEnded)
                      end in
  MkOpening (world o) (sid o) (Some ready) pc (cpc o) (upc o) (pw_open o).

(** The body of its answer ends. *)
Definition down_end (o : opening) : opening := set_dpc DownEnded (close_session o).

(** The caller receives from downReady, and on success sets the upload and starts its goroutine. *)
Definition caller_return (ready : option goerr) (o : opening) : opening :=
  match ready with
  | Some e => MkOpening (world o) (sid o) None (dpc o) (CallerReturned (Err e)) (upc o) (pw_open o)
  | None => MkOpening (put_sess (sid o) (set_uplink (Some (conn_of []))) (world o)) (sid o) None (dpc o)
              (CallerReturned (Ok (sid o))) UpPosting (Some true)
  end.

(** The upload request ends. *)
Definition up_end (r : response) (o : opening) : opening :=
  set_upc UpEnded
    match r with
    | NoRequest e | NoAnswer e => fail_session e o
    | Status code => if code =? 200 then close_session o else fail_session (Errorf "stream uplink status %d") o
    end.

Inductive olabel : Type :=
  | DownAnswer (r : response)
  | DownEnd
  | CallerReady
  | UpEnd (r : response)
  | CloseSession                       (* a shrinking of the sessions, or a second session *)
  | Operation (op : session_op).

Definition ostep (l : olabel) (o : opening) : option opening :=
  match l with
  | DownAnswer r => match dpc o with DownRequest => Some (down_answer r o) | _ => None end
  | DownEnd => match dpc o with DownLoop => Some (down_end o) | _ => None end
  | CallerReady =>
      match cpc o, downReady o with
      | CallerWaits, Some ready => Some (caller_return ready o)
      | _, _ => None
      end
  | UpEnd r => match upc o with UpPosting => Some (up_end r o) | _ => None end
  | CloseSession => match cpc o with CallerReturned (Ok _) => Some (close_session o) | _ => None end
  | Operation op =>
      Some (MkOpening (apply_op op (sid o) (world o)) (sid o) (downReady o) (dpc o) (cpc o) (upc o) (pw_open o))
  end.

Fixpoint orun (ls : list olabel) (o : opening) : option opening :=
  match ls with
  | [] => Some o
  | l :: ls => ostep l o ≫= orun ls
  end.

(** ** Lemmas *)

Record state_of (s : nat) (w : World) (closed : bool) (err : option goerr) (up : bool) : Prop := {
  so_sess : exists x, sess w !! s = Some x /\ s_closed x = closed /\ s_uplinkErr x = err /\
    bool_decide (is_Some (s_uplinkW x)) = up
}.

Lemma sess_close_pipe p w : sess (close_pipe p w) = sess w.
Proof. done. Qed.

Lemma state_put s w f closed err up closed' err' up' :
  state_of s w closed err up ->
  (forall x, s_closed x = closed -> s_uplinkErr x = err -> bool_decide (is_Some (s_uplinkW x)) = up ->
     s_closed (f x) = closed' /\ s_uplinkErr (f x) = err' /\ bool_decide (is_Some (s_uplinkW (f x))) = up') ->
  state_of s (put_sess s f w) closed' err' up'.
Proof.
  intros [(x & Hx & H1 & H2 & H3)] Hf. split. exists (f x).
  split; [|by apply Hf]. unfold put_sess, set_sess. cbn [sess]. by rewrite lookup_alter_eq, Hx.
Qed.

Lemma state_same s w w' closed err up : sess w' = sess w -> state_of s w closed err up -> state_of s w' closed err up.
Proof. intros E [(x & Hx & H)]. split. exists x. by rewrite E. Qed.

Lemma state_maps s w pin rd closed err up :
  state_of s w closed err up -> state_of s (put_sess s (set_maps pin rd) w) closed err up.
Proof. intros H. by eapply state_put. Qed.

Lemma new_pipe_sess w : sess (new_connPipe w).2 = sess w.
Proof. done. Qed.

Lemma state_op op s w closed err up : state_of s w closed err up -> state_of s (apply_op op s w) closed err up.
Proof.
  intros H. destruct op as [c|c|c|c d|e]; cbn [apply_op]; unfold pin, unpin, openConnReader, deliver, deliver_lookup, writeEncrypted;
    destruct (sess w !! s) as [x|] eqn:Hx; try done.
  - destruct (s_readers x !! c); [by apply state_maps|]. cbn. apply state_maps. by eapply state_same; [|exact H].
  - apply state_maps. destruct (s_readers x !! c); [|done]. by eapply state_same; [|exact H].
  - destruct (s_readers x !! c); [done|]. cbn. apply state_maps. by eapply state_same; [|exact H].
  - simpl. destruct (s_readers x !! c); [|done]. unfold deliver_send. destruct (pipes w !! n) as [p|]; [|done].
    destruct (p_closed p); [done|]. destruct (decide _); [|done]. by eapply state_same; [|exact H].
  - destruct (s_uplinkErr x) eqn:Ee, (s_closed x) eqn:Ec, (s_uplinkW x) as [u|] eqn:Eu; try done.
    destruct (WriteLengthPrefixed e u) as [r u']. cbn [snd]. eapply state_put; [exact H|]. intros y Hc' He' _. split_and!; [done|done|].
    destruct H as [(x' & Hx' & _ & _ & <-)]. assert (x' = x) as -> by congruence. by rewrite Eu.
Qed.

Lemma state_fold s w ps closed err up :
  state_of s w closed err up -> state_of s (foldr close_pipe w ps) closed err up.
Proof. intros H. induction ps as [|p ps IH]; [done|]. cbn [foldr]. by eapply state_same; [apply sess_close_pipe|]. Qed.

Lemma state_close s w closed err up : state_of s w closed err up ->
  state_of s (close s w) true err (if closed then up else false) /\
  closes_pipe s w = negb closed && up.
Proof.
  intros H. pose proof H as [(x & Hx & Hc & He & Hu)]. unfold close, closes_pipe. rewrite Hx, Hc. split.
  - destruct closed; [done|]. eapply state_put; [by apply state_fold|]. by intros y _ ? _.
  - rewrite <- Hu. by destruct (s_uplinkW x).
Qed.

Lemma state_fail s w e closed err up : state_of s w closed err up ->
  state_of s (fail s e w) true (Some e) (if closed then up else false) /\
  closes_pipe s w = negb closed && up.
Proof.
  intros H. split; [|by eapply state_close]. unfold fail.
  apply (state_close s _ closed (Some e) up). eapply state_put; [exact H|]. by intros y ? _ ?.
Qed.

Lemma state_isClosed s w closed err up : state_of s w closed err up -> isClosed s w = closed.
Proof. intros [(x & Hx & <- & _)]. unfold isClosed. by rewrite Hx. Qed.

Lemma state_write s w err up e : state_of s w true err up ->
  (writeEncrypted s e w).1 = Some (default ErrClosedPipe err).
Proof. intros [(x & Hx & Hc & <- & _)]. unfold writeEncrypted. rewrite Hx, Hc. by destruct (s_uplinkErr x). Qed.

(** The invariant of a start. *)
Record opening_ok (o : opening) : Prop := MkOpeningOk {
  ok_before : upc o = UpNone -> pw_open o = None;
  ok_waits : cpc o = CallerWaits -> upc o = UpNone;
  ok_state : exists closed err up, state_of (sid o) (world o) closed err up /\
    (upc o = UpEnded -> closed = true) /\ (upc o <> UpEnded -> err = None) /\
    (pw_open o = Some true -> closed = false -> up = true) /\
    (pw_open o = Some false -> closed = true) /\ (pw_open o = None -> upc o = UpNone /\ up = false)
}.

Lemma new_opening_ok id w : opening_ok (new_opening id w).
Proof.
  split; [done|done|]. exists false, None, false. split_and!; try done. split. eexists.
  split; [by apply lookup_insert_eq|]. done.
Qed.

Lemma ostep_ok l o o' : opening_ok o -> ostep l o = Some o' -> opening_ok o' /\ sid o' = sid o.
Proof.
  intros [Hb Hw (closed & err & up & S & H1 & H2 & H3 & H4 & H5)] E.
  pose proof (state_close _ _ _ _ _ S) as [Sc Ec].
  pose proof (fun e => proj1 (state_fail _ _ e _ _ _ S)) as Sf.
  destruct l as [r| | |r| |op]; cbn [ostep] in E.
  - destruct (dpc o); try done. injection E as <-. unfold down_answer.
    destruct r as [e|e|code]; [| |destruct (code =? 200)]; (split; [|done]); (split; cbn; [done|done|]);
      exists closed, err, up; done.
  - destruct (dpc o); try done. injection E as <-. split; [|done]. split; cbn; [|done|].
    + intros Hn. by rewrite (Hb Hn), Ec; destruct (_ && _).
    + exists true, err, (if closed then up else false). split; [done|]. split; [done|]. split; [done|].
      split; [done|]. split; [done|]. rewrite Ec. intros Hp. destruct (pw_open o) as [b|]; [by destruct (_ && _)|].
      destruct (H5 eq_refl) as [? ->]. by destruct closed.
  - destruct (cpc o) eqn:Ecpc; try done. destruct (downReady o) as [ready|]; try done. injection E as <-.
    pose proof (Hw eq_refl) as Hup. pose proof (Hb Hup) as Hp. rewrite Hp, Hup in *.
    destruct ready as [e|]; (split; [|done]); (split; cbn; [done|done|]).
    + exists closed, err, up. rewrite ?Hp, ?Hup. done.
    + exists closed, err, true. split; [eapply state_put; [exact S|done]|]. split; [done|].
      split; [intros _; by apply H2|]. done.
  - destruct (upc o) eqn:Eup; try done. injection E as <-. split; [|destruct r as [| |code]; [done|done|unfold up_end; by destruct (code =? 200)]].
    assert (Hpn : pw_open o <> None) by (intros Hn; destruct (H5 Hn); done).
    assert (Hq : shut (closes_pipe (sid o) (world o)) (pw_open o) = None -> False).
    { destruct (pw_open o); [|done]. by destruct (closes_pipe _ _). }
    unfold up_end; destruct r as [e|e|code]; [| |destruct (code =? 200)]; (split; cbn; [done|intros Hc; discriminate (Hw Hc)|]);
      [exists true, (Some e), (if closed then up else false)|exists true, (Some e), (if closed then up else false)
      |exists true, err, (if closed then up else false)|exists true, (Some (Errorf "stream uplink status %d")), (if closed then up else false)];
      (split; [done|]); (split; [done|]); (split; [done|]); (split; [done|]); (split; [done|]); intros ?%Hq; done.
  - destruct (cpc o) as [|[s| | |]] eqn:Ecpc; try done. injection E as <-. split; [|done]. split; cbn; [|congruence|].
    + intros Hn. by rewrite (Hb Hn), Ec; destruct (_ && _).
    + exists true, err, (if closed then up else false). split; [done|]. split; [done|]. split; [done|].
      split; [done|]. split; [done|]. rewrite Ec. intros Hp. destruct (pw_open o) as [b|]; [by destruct (_ && _)|].
      destruct (H5 eq_refl) as [? ->]. by destruct closed.
  - injection E as <-. split; [|done]. split; cbn; [done|done|]. exists closed, err, up. split; [by apply state_op|done].
Qed.

Lemma orun_ok ls o o' : opening_ok o -> orun ls o = Some o' -> opening_ok o' /\ sid o' = sid o.
Proof.
  revert o. induction ls as [|l ls IH]; intros o Ho E; [by injection E as <-|]. cbn [orun] in E.
  destruct (ostep l o) as [o1|] eqn:El; [|done]. destruct (ostep_ok l o o1 Ho El) as [Ho1 <-]. by apply IH.
Qed.

(** After startSession has returned, a step leaves the session and its pipe as they are, or closes
    them; and once the upload has ended, its error stays. *)
Lemma ostep_after l o o' closed err up :
  cpc o <> CallerWaits -> state_of (sid o) (world o) closed err up -> ostep l o = Some o' ->
  sid o' = sid o /\ cpc o' = cpc o /\ exists err', (upc o = UpEnded -> err' = err /\ upc o' = UpEnded) /\
  (state_of (sid o') (world o') closed err' up /\ pw_open o' = pw_open o \/
   state_of (sid o') (world o') true err' (if closed then up else false) /\
     pw_open o' = shut (negb closed && up) (pw_open o)).
Proof.
  intros Hc S E. pose proof (state_close _ _ _ _ _ S) as [Sc Ec].
  pose proof (fun e => proj1 (state_fail _ _ e _ _ _ S)) as Sf. rewrite <- Ec.
  destruct l as [r| | |r| |op]; cbn [ostep] in E.
  - destruct (dpc o); try done. injection E as <-. unfold down_answer.
    destruct r as [e|e|code]; [| |destruct (code =? 200)]; (split; [done|]); (split; [done|]); exists err; auto.
  - destruct (dpc o); try done. injection E as <-. split; [done|]. split; [done|]. exists err; auto.
  - by destruct (cpc o).
  - destruct (upc o) eqn:Eup; try done. injection E as <-. unfold up_end.
    destruct r as [e|e|code]; [| |destruct (code =? 200)]; (split; [done|]); (split; [done|]);
      [exists (Some e)|exists (Some e)|exists err|exists (Some (Errorf "stream uplink status %d"))]; (split; [done|]); right; split; try done; apply Sf.
  - assert (o' = close_session o) as -> by (destruct (cpc o) as [|[s| | |]]; congruence).
    split; [done|]. split; [done|]. exists err; auto.
  - injection E as <-. split; [done|]. split; [done|]. exists err. split; [auto|]. left. split; [by apply state_op|done].
Qed.

(** Properties that hold of a session and its pipe after each step hold after a run. *)
Lemma orun_after (P : bool -> option goerr -> bool -> option bool -> Prop) ls o o' closed err up :
  (forall closed err err' up pw, P closed err up pw ->
     P closed err' up pw /\ P true err' (if closed then up else false) (shut (negb closed && up) pw)) ->
  cpc o <> CallerWaits -> state_of (sid o) (world o) closed err up -> P closed err up (pw_open o) ->
  orun ls o = Some o' ->
  sid o' = sid o /\ exists closed' err' up', state_of (sid o) (world o') closed' err' up' /\ P closed' err' up' (pw_open o').
Proof.
  intros HP. revert o closed err up. induction ls as [|l ls IH]; intros o closed err up Hc S Hp E.
  { injection E as <-. split; [done|]. by exists closed, err, up. }
  cbn [orun] in E. destruct (ostep l o) as [o1|] eqn:El; [|done]. cbn in E.
  destruct (ostep_after _ _ _ _ _ _ Hc S El) as (Es & Ec & err' & _ & H). rewrite <- Es.
  destruct (HP closed err err' up _ Hp) as [P1 P2].
  destruct H as [[S1 Ep]|[S1 Ep]]; (eapply IH; [by rewrite Ec|exact S1|by rewrite Ep|done]).
Qed.

Lemma orun_ended ls o o' err up :
  cpc o <> CallerWaits -> upc o = UpEnded -> state_of (sid o) (world o) true err up -> orun ls o = Some o' ->
  sid o' = sid o /\ exists up', state_of (sid o) (world o') true err up'.
Proof.
  revert o up. induction ls as [|l ls IH]; intros o up Hc Hu S E.
  { injection E as <-. split; [done|]. by exists up. }
  cbn [orun] in E. destruct (ostep l o) as [o1|] eqn:El; [|done]. cbn in E.
  destruct (ostep_after _ _ _ _ _ _ Hc S El) as (Es & Ec & err' & He & H). rewrite <- Es.
  destruct (He Hu) as [-> Hu1]. destruct H as [[S1 _]|[S1 _]]; (eapply IH; [by rewrite Ec|done|exact S1|done]).
Qed.

(** ** The properties *)

(** The error of a session whose upload request has ended. *)
Definition upload_error (r : response) : goerr :=
  match r with
  | NoRequest e | NoAnswer e => e
  | Status code => if code =? 200 then ErrClosedPipe else Errorf "stream uplink status %d"
  end.

(** The end of the upload.  However the interleaving was, when the upload request ends, the session
    is closed, and stays so; and from then on every write fails, with the error of the request
    if it had one. *)
Theorem Upload_end (id : string) (w : World) (ls ls' : list olabel) (o o1 o2 : opening) (r : response)
    (encrypted : list byte) :
  orun ls (new_opening id w) = Some o -> ostep (UpEnd r) o = Some o1 -> orun ls' o1 = Some o2 ->
  isClosed (sid o2) (world o2) = true /\
  (writeEncrypted (sid o2) encrypted (world o2)).1 = Some (upload_error r).
Proof.
  intros E E1 E2. destruct (orun_ok _ _ _ (new_opening_ok id w) E) as [[_ Hw (closed & err & up & S & _ & He & _)] _].
  cbn [ostep] in E1. destruct (upc o) eqn:Eup; try done. injection E1 as <-. rewrite (He ltac:(done)) in S.
  assert (exists up', state_of (sid (up_end r o)) (world (up_end r o)) true
    match r with NoRequest e | NoAnswer e => Some e
    | Status code => if code =? 200 then None else Some (Errorf "stream uplink status %d") end up') as [up1 S1].
  { unfold up_end. destruct r as [e|e|code]; [| |destruct (code =? 200)];
      (eexists; first [by apply state_close|by eapply state_fail]). }
  assert (Hc : cpc (up_end r o) <> CallerWaits).
  { intros Hc. discriminate Hw. unfold up_end in Hc. by destruct r as [| |code]; [| |destruct (code =? 200)]. }
  destruct (orun_ended ls' (up_end r o) o2 _ up1 Hc ltac:(done) S1 E2) as [-> (up2 & S2)].
  split; [by eapply state_isClosed|]. rewrite (state_write _ _ _ _ encrypted S2). unfold upload_error.
  destruct r as [| |code]; [done|done|by destruct (code =? 200)].
Qed.

(** The pipe of the upload.  If the session is still open when startSession makes the pipe, then
    from then on the pipe is closed as soon as the session is.  But the download may have ended
    before: then startSession returns a session that is closed, and nothing ever closes its pipe,
    so that the upload request is never told to end. *)
Theorem Upload_pipe (id : string) (w : World) :
  (forall ls o o1 ls' o2, orun ls (new_opening id w) = Some o -> isClosed (sid o) (world o) = false ->
     ostep CallerReady o = Some o1 -> cpc o1 = CallerReturned (Ok (sid o)) -> orun ls' o1 = Some o2 ->
     pw_open o2 = Some (negb (isClosed (sid o2) (world o2)))) /\
  exists o, orun [DownAnswer (Status 200); DownEnd; CallerReady] (new_opening id w) = Some o /\
    cpc o = CallerReturned (Ok (sid o)) /\
    forall ls' o2, orun ls' o = Some o2 ->
      isClosed (sid o2) (world o2) = true /\ pw_open o2 = Some true.
Proof.
  split.
  - intros ls o o1 ls' o2 E Hopen E1 Er E2.
    destruct (orun_ok _ _ _ (new_opening_ok id w) E) as [[_ _ (closed & err & up & S & _)] _].
    rewrite (state_isClosed _ _ _ _ _ S) in Hopen. subst closed. cbn [ostep] in E1.
    destruct (cpc o), (downReady o) as [[e|]|]; try done; injection E1 as <-; [done|].
    destruct (orun_after (fun closed _ up pw => pw = Some (negb closed) /\ up = negb closed) ls' (caller_return None o) o2 false err true
      ltac:(by intros [] ? ? ? ? [-> ->]) ltac:(done) ltac:(by eapply state_put; [exact S|]) ltac:(done) E2)
      as [-> (closed & err' & up' & S2 & Hp & _)]. by rewrite (state_isClosed _ _ _ _ _ S2).
  - eexists. split; [reflexivity|]. split; [reflexivity|]. intros ls' o2 E2.
    set (o1 := caller_return None _) in E2 |- *.
    destruct (orun_ok [DownAnswer (Status 200); DownEnd; CallerReady] _ o1 (new_opening_ok id w) eq_refl) as [_ Hs].
    destruct (orun_after (fun closed _ up pw => pw = Some true /\ closed = true) ls' o1 o2 true None true
      ltac:(by intros ? ? ? ? ? [-> ->]) ltac:(done)) as [-> (closed & err' & up' & S2 & Hp & ->)]; try done.
    + eapply state_put; [apply (state_close _ _ false None false)|done]. split. eexists.
      split; [apply lookup_insert_eq|done].
    + by rewrite (state_isClosed _ _ _ _ _ S2).
Qed.
