(* ===== verification/Relays.v ===== *)
(** The other copying loops: copyLoop of obfs/server/server.go and CopyLoop of
    snowflake/common/standalone/stream.go.

    Each has two goroutines in io.Copy, one per direction.  copyLoop closes both connections when
    one of them ends, waits for both, and returns the first error; CopyLoop closes only the
    destination, and returns with the first of the two.  As in MuxPipe.v, peers send and finish
    at any time, and a connection does not fail by itself. *)

From S2P Require Import Prelude MuxPipe.
From Stdlib Require Import Lia Strings.Byte Strings.String.
From stdpp Require Import list strings.

#[local] Open Scope string_scope.
#[local] Open Scope list_scope.

(** A relay between connections a and b: the two directions, which ends are closed, and what the
    goroutines have reported, in order ([None] for a nil error). *)
Record relay := MkRelay { rab : flow; rba : flow; closedA : bool; closedB : bool; errs : list (option goerr) }.

Definition ErrClosed : goerr := Errorf "use of closed network connection".

(** A turn of io.Copy from a source to a destination that may be closed: some of the bytes that are
    there, or its end with an error or nil. *)
Inductive dir_step (src dst : bool) (f : flow) : flow -> option (option goerr) -> Prop :=
  | d_bytes p q : src = false -> dst = false -> returned f = false -> pending f = p ++ q -> p <> [] ->
      dir_step src dst f (MkFlow q (finished f) (delivered f ++ p) false) None
  | d_eof : src = false -> returned f = false -> pending f = [] -> finished f = true ->
      dir_step src dst f (MkFlow [] true (delivered f) true) (Some None)
  | d_src : src = true -> returned f = false ->
      dir_step src dst f (MkFlow (pending f) (finished f) (delivered f) true) (Some (Some ErrClosed))
  | d_dst p q : src = false -> dst = true -> returned f = false -> pending f = p ++ q -> p <> [] ->
      dir_step src dst f (MkFlow q (finished f) (delivered f) true) (Some (Some ErrClosed)).

Definition report (e : option (option goerr)) (l : list (option goerr)) : list (option goerr) :=
  l ++ option_list e.
Definition ended (e : option (option goerr)) : bool := match e with Some _ => true | None => false end.

(** [both]: the end of a goroutine closes both connections. *)
Section Relay.
Context (both : bool).

Definition after_ab (r : relay) (f : flow) (e : option (option goerr)) : relay :=
  MkRelay f (rba r) (closedA r || both && ended e) (closedB r || ended e) (report e (errs r)).
Definition after_ba (r : relay) (f : flow) (e : option (option goerr)) : relay :=
  MkRelay (rab r) f (closedA r || ended e) (closedB r || both && ended e) (report e (errs r)).

Definition set_rab f r := MkRelay f (rba r) (closedA r) (closedB r) (errs r).
Definition set_rba f r := MkRelay (rab r) f (closedA r) (closedB r) (errs r).
Definition sends (p : list byte) (f : flow) := MkFlow (pending f ++ p) false (delivered f) (returned f).
Definition finishes (f : flow) := MkFlow (pending f) true (delivered f) (returned f).

Definition new_flow : flow := MkFlow [] false [] false.
Definition new_relay : relay := MkRelay new_flow new_flow false false [].

Inductive relays : list byte -> list byte -> relay -> Prop :=
  | r_start : relays [] [] new_relay
  | r_ab sa sb r f e : relays sa sb r -> dir_step (closedA r) (closedB r) (rab r) f e ->
      relays sa sb (after_ab r f e)
  | r_ba sa sb r f e : relays sa sb r -> dir_step (closedB r) (closedA r) (rba r) f e ->
      relays sa sb (after_ba r f e)
  | r_send_a sa sb r p : relays sa sb r -> finished (rab r) = false ->
      relays (sa ++ p) sb (set_rab (sends p (rab r)) r)
  | r_send_b sa sb r p : relays sa sb r -> finished (rba r) = false ->
      relays sa (sb ++ p) (set_rba (sends p (rba r)) r)
  | r_end_a sa sb r : relays sa sb r -> relays sa sb (set_rab (finishes (rab r)) r)
  | r_end_b sa sb r : relays sa sb r -> relays sa sb (set_rba (finishes (rba r)) r).
End Relay.

(** copyLoop returns when both have reported, with the first of the reports; CopyLoop at the
    first of them. *)
Definition copyLoop (r : relay) : option (option goerr) :=
  if returned (rab r) && returned (rba r) then Some (mjoin (head (errs r))) else None.
Definition CopyLoop_returns (r : relay) : bool := negb (bool_decide (errs r = [])).

(** ** Lemmas *)

(** A direction has delivered a prefix. *)
Definition dir_ok (s : list byte) (f : flow) : Prop :=
  exists lost, delivered f ++ lost ++ pending f = s /\ (returned f = false -> lost = []).

Record relay_ok (sa sb : list byte) (r : relay) : Prop := MkRelayOk {
  rk_ab : dir_ok sa (rab r);
  rk_ba : dir_ok sb (rba r);
  rk_fresh : errs r = [] -> closedA r = false /\ closedB r = false /\ returned (rab r) = false /\ returned (rba r) = false;
  rk_first : errs r <> [] -> head (errs r) = Some None /\
    (finished (rab r) = true /\ pending (rab r) = [] /\ delivered (rab r) = sa \/
     finished (rba r) = true /\ pending (rba r) = [] /\ delivered (rba r) = sb);
  rk_closed : (returned (rab r) = true -> closedB r = true) /\ (returned (rba r) = true -> closedA r = true)
}.

Lemma dir_step_ok src dst s f f' e : dir_ok s f -> dir_step src dst f f' e ->
  dir_ok s f' /\ returned f' = ended e /\ (finished f = true -> pending f = [] -> finished f' = true /\ pending f' = [] /\ delivered f' = delivered f) /\
  (src = false -> dst = false -> ended e = true -> e = Some None /\ finished f' = true /\ pending f' = [] /\ delivered f' = s).
Proof.
  intros (lost & <- & Hl) S. destruct S as [p q H1 H2 Hr Hp Hn|H1 Hr Hp Hf|H1 Hr|p q H1 H2 Hr Hp Hn]; rewrite (Hl Hr) in *; cbn.
  - split; [exists []; split; [|done]; cbn; by rewrite Hp, <- (assoc_L (++))|]. split; [done|].
    split; [|done]. intros _ E. rewrite E in Hp. by destruct p.
  - rewrite Hp. split; [by exists []|]. split; [done|]. split; [done|]. intros _ _ _. by rewrite app_nil_r.
  - split; [by exists []|]. split; [done|]. split; [done|]. intros E. congruence.
  - split; [exists p; split; [by rewrite Hp|done]|]. split; [done|]. split; [|congruence].
    intros _ E. rewrite E in Hp. by destruct p.
Qed.

Lemma dir_ok_sends s p f : finished f = false -> dir_ok s f -> dir_ok (s ++ p) (sends p f).
Proof. intros _ (lost & <- & H). exists lost. split; [|exact H]. cbn. by rewrite !(assoc_L (++)). Qed.

Lemma dir_ok_finishes s f : dir_ok s f -> dir_ok s (finishes f).
Proof. done. Qed.

(** The first of the reports, after one more. *)
Lemma first_report (l : list (option goerr)) e (P P' : Prop) :
  (l <> [] -> head l = Some None /\ P) -> (P -> P') -> (l = [] -> ended e = true -> e = Some None /\ P') ->
  report e l <> [] -> head (report e l) = Some None /\ P'.
Proof.
  unfold report. intros Hl HP He Hn. destruct l as [|x l].
  - destruct e as [e|]; [|done]. destruct (He eq_refl eq_refl) as [[= ->] ?]. done.
  - destruct (Hl ltac:(done)) as [Hx ?]. split; [exact Hx|by apply HP].
Qed.

Lemma relays_ok both sa sb r : relays both sa sb r -> relay_ok sa sb r.
Proof.
  induction 1 as [|sa sb r f e _ [H1 H2 H3 H4 [H5 H6]] S|sa sb r f e _ [H1 H2 H3 H4 [H5 H6]] S
    |sa sb r p _ [H1 H2 H3 H4 [H5 H6]] Hf|sa sb r p _ [H1 H2 H3 H4 [H5 H6]] Hf
    |sa sb r _ [H1 H2 H3 H4 [H5 H6]]|sa sb r _ [H1 H2 H3 H4 [H5 H6]]].
  - split; try done; by exists [].
  - destruct (dir_step_ok _ _ _ _ _ _ H1 S) as (D & Hr & Hs & Hc). split; cbn; [done|done| | |].
    + intros [E1 E2]%app_nil. destruct e; [done|]. rewrite Hr. destruct (H3 E1) as (-> & -> & _ & ->). by rewrite andb_false_r.
    + apply (first_report _ e _ _ H4).
      * intros [(? & ? & <-)|?]; [left|by right]. by apply Hs.
      * intros E He. destruct (H3 E) as (HA & HB & _). destruct (Hc HA HB He) as (-> & ?). auto.
    + rewrite Hr. split; [by intros ->; rewrite orb_true_r|]. intros ?%H6. by rewrite H.
  - destruct (dir_step_ok _ _ _ _ _ _ H2 S) as (D & Hr & Hs & Hc). split; cbn; [done|done| | |].
    + intros [E1 E2]%app_nil. destruct e; [done|]. rewrite Hr. destruct (H3 E1) as (-> & -> & -> & _). by rewrite andb_false_r.
    + apply (first_report _ e _ _ H4).
      * intros [?|(? & ? & <-)]; [by left|right]. by apply Hs.
      * intros E He. destruct (H3 E) as (HA & HB & _). destruct (Hc HB HA He) as (-> & ?). auto.
    + rewrite Hr. split; [|by intros ->; rewrite orb_true_r]. intros ?%H5. by rewrite H.
  - split; cbn; [by apply dir_ok_sends|done|done| |done]. intros E. destruct (H4 E) as [? [(? & ?)|?]]; [congruence|auto].
  - split; cbn; [done|by apply dir_ok_sends|done| |done]. intros E. destruct (H4 E) as [? [?|(? & ?)]]; [auto|congruence].
  - split; cbn; [done|done|done| |done]. intros E. destruct (H4 E) as [? [(? & ?)|?]]; auto.
  - split; cbn; [done|done|done| |done]. intros E. destruct (H4 E) as [? [?|(? & ?)]]; auto.
Qed.

(** ** The property *)

(** Both loops, in every run: each peer gets a prefix of what the other has sent; when one of the
    goroutines has ended, one direction was delivered in full; the loops leave no goroutine and
    no open connection, since as soon as one has ended the other can only end, and when both have
    ended both connections are closed.  copyLoop returns no error unless a connection fails by
    itself.  But the other direction may be cut: whatever was sent, there is a run in which
    everything from a and nothing from b is delivered. *)
Theorem Relay_exact (both : bool) (sa sb : list byte) :
  (forall r, relays both sa sb r ->
     delivered (rab r) `prefix_of` sa /\ delivered (rba r) `prefix_of` sb /\
     (CopyLoop_returns r = true -> delivered (rab r) = sa \/ delivered (rba r) = sb) /\
     (returned (rab r) = true -> forall f e, dir_step (closedB r) (closedA r) (rba r) f e -> returned f = true) /\
     (returned (rba r) = true -> forall f e, dir_step (closedA r) (closedB r) (rab r) f e -> returned f = true) /\
     (returned (rab r) = true -> returned (rba r) = true -> closedA r = true /\ closedB r = true) /\
     (forall e, copyLoop r = Some e -> e = None)) /\
  exists r, relays both sa sb r /\ copyLoop r = Some None /\ delivered (rab r) = sa /\ delivered (rba r) = [].
Proof.
  split.
  - intros r Hr. destruct (relays_ok _ _ _ _ Hr) as [(l1 & E1 & _) (l2 & E2 & _) H3 H4 [H5 H6]].
    split; [by eexists|]. split; [by eexists|]. split.
    { unfold CopyLoop_returns. intros Hn%negb_true_iff%bool_decide_eq_false. destruct (H4 Hn) as [_ [(_ & _ & ?)|(_ & _ & ?)]]; auto. }
    split; [intros HB%H5 f e S; destruct S; [congruence..|done|congruence]|].
    split; [intros HA%H6 f e S; destruct S; [congruence..|done|congruence]|].
    split; [auto|]. unfold copyLoop. intros e E. destruct (returned (rab r) && _); [|done]. injection E as <-.
    destruct (errs r) as [|x l] eqn:El; [done|]. destruct (H4 ltac:(done)) as [[= ->] _]. done.
  - assert (Hsent : relays both sa sb (set_rba (sends sb new_flow) (set_rab (sends sa new_flow) new_relay))).
    { apply (r_send_b both sa [] (set_rab (sends sa new_flow) new_relay) sb); [|done].
      by apply (r_send_a both [] [] new_relay sa); [constructor|]. }
    assert (Hall : relays both sa sb (MkRelay (MkFlow [] true sa false) (MkFlow sb false [] false) false false [])).
    { apply (r_end_a both _ _ (MkRelay (MkFlow [] false sa false) (MkFlow sb false [] false) false false [])).
      destruct sa as [|b sa]; [exact Hsent|].
      replace false with (false || both && ended None) at 5 by (by destruct both).
      apply (r_ab both _ _ _ (MkFlow [] false (b :: sa) false) None Hsent).
      apply (d_bytes false false (sends (b :: sa) new_flow) (b :: sa) []); try done. by rewrite app_nil_r. }
    eexists. split; [eapply (r_ba both); [eapply (r_ab both); [exact Hall|by apply (d_eof false false (MkFlow [] true sa false))]|]|].
    + cbn. by apply (d_src true _ (MkFlow sb false [] false)).
    + done.
Qed.
