(* ===== verification/DpiHttp.v ===== *)
(** The HTTP requests of the DPI client, and what the server's mux makes of them: the builders of
    requests in dpi/client/transport.go and dpi/client/session.go, with their headers, and the
    routes of dpi/server/server.go.

    A URL is parsed by net/url, which is an argument; the keys of headers are in canonical form
    in the source already, so that a header is a map from strings. *)

From S2P Require Import Prelude GoLib Aead GoNet DpiWire DpiTransport DpiThms DpiServer.
From Stdlib Require Import ZArith Lia Strings.Byte Strings.Ascii Strings.String.
From stdpp Require Import gmap strings list pretty.

#[local] Open Scope string_scope.
#[local] Open Scope Z_scope.

(** ** Requests *)

Record request := MkRequest {
  rq_method : string; rq_path : string; rq_host : string; rq_header : gmap string string
}.

(** Header.Get; Header.Set and Header.Del; and a sequence of Sets. *)
Definition header_Get (k : string) (r : request) : string := default "" (rq_header r !! k).
Definition header_Set (k v : string) (r : request) : request :=
  MkRequest (rq_method r) (rq_path r) (rq_host r) (<[k := v]> (rq_header r)).
Definition header_Del (k : string) (r : request) : request :=
  MkRequest (rq_method r) (rq_path r) (rq_host r) (delete k (rq_header r)).
Definition set_host (h : string) (r : request) : request :=
  MkRequest (rq_method r) (rq_path r) h (rq_header r).
Definition header_Sets (kvs : list (string * string)) (r : request) : request :=
  fold_left (fun r kv => header_Set kv.1 kv.2 r) kvs r.

(** newSessionID, from its 16 random bytes. *)
Definition newSessionID (b : list byte) : string := hex b.

Section Client.
(** url.Parse: the host and the path. *)
Context (parse : string -> result (string * string)).
Context (frontHost baseURL : string).

Definition NewRequest (method url : string) : result request :=
  '(host, path) ← parse url; mret (MkRequest method path host ∅).

Definition quote : string := String "034" EmptyString.
Definition browser_headers : list (string * string) :=
  [("User-Agent", "Mozilla/5.0 (Windows NT 10.0; Win64; x64) AppleWebKit/537.36 (KHTML, like Gecko) Chrome/120.0.0.0 Safari/537.36");
   ("Accept", "*/*");
   ("Accept-Language", "en-US,en;q=0.9");
   ("Accept-Encoding", "gzip, deflate, br");
   ("Cache-Control", "no-cache");
   ("Pragma", "no-cache");
   ("Sec-Ch-Ua", quote +:+ "Not_A Brand" +:+ quote +:+ ";v=" +:+ quote +:+ "8" +:+ quote +:+ ", " +:+
      quote +:+ "Chromium" +:+ quote +:+ ";v=" +:+ quote +:+ "120" +:+ quote +:+ ", " +:+
      quote +:+ "Google Chrome" +:+ quote +:+ ";v=" +:+ quote +:+ "120" +:+ quote);
   ("Sec-Ch-Ua-Mobile", "?0");
   ("Sec-Ch-Ua-Platform", quote +:+ "Windows" +:+ quote);
   ("Sec-Fetch-Dest", "empty");
   ("Sec-Fetch-Mode", "cors");
   ("Sec-Fetch-Site", "cross-site")].

Definition setBrowserHeaders (r : request) : request :=
  header_Sets browser_headers (if String.eqb frontHost "" then r else set_host frontHost r).

(** startSession: the download and the upload of session [id]. *)
Definition session_download_request (id : string) : result request :=
  r ← NewRequest "GET" (baseURL +:+ "/download/session/" +:+ id);
  mret (header_Set "X-Session-Id" id (header_Del "Accept-Encoding" (setBrowserHeaders r))).
Definition session_upload_request (id : string) : result request :=
  r ← NewRequest "POST" (baseURL +:+ "/api/v2/stream");
  mret (header_Sets [("Content-Type", "application/octet-stream"); ("Transfer-Encoding", "chunked"); ("X-Session-Id", id)]
          (header_Del "Accept-Encoding" (setBrowserHeaders r))).

(** DownloadStream in post-async mode, and doPost. *)
Definition download_request (connID : Z) : result request :=
  r ← NewRequest "GET" (download_url baseURL connID);
  mret (header_Del "Accept-Encoding" (setBrowserHeaders r)).
Definition post_request (uploadURL : string) : result request :=
  r ← NewRequest "POST" uploadURL;
  mret (header_Set "Content-Type" "application/octet-stream" (setBrowserHeaders r)).
End Client.

(** ** The mux of the server *)

(** A handler with what it reads of the request besides its body. *)
Inductive call : Type :=
  | CallTunnel (method : string)
  | CallStreamUpload (method sessionID : string)
  | CallSessionDownload (method path sessionID : string)
  | CallDownload (method path : string)
  | CallRoot.

Definition dispatch (r : request) : call :=
  match route (rq_path r) with
  | HTunnel => CallTunnel (rq_method r)
  | HStreamUpload => CallStreamUpload (rq_method r) (header_Get "X-Session-Id" r)
  | HSessionDownload => CallSessionDownload (rq_method r) (rq_path r) (header_Get "X-Session-Id" r)
  | HDownload => CallDownload (rq_method r) (rq_path r)
  | HRoot => CallRoot
  end.

(** ** Lemmas *)

(** Paths that net/url leaves as they are. *)
Definition plain_char (c : ascii) : bool :=
  negb (Ascii.eqb c "?" || Ascii.eqb c "#" || Ascii.eqb c "%" || Ascii.eqb c " ").
Fixpoint plain (s : string) : bool :=
  match s with EmptyString => true | String c s => plain_char c && plain s end.
Definition plain_path (s : string) : bool :=
  match s with String "/" s => plain s | _ => false end.

Lemma plain_app a b : plain (a +:+ b) = plain a && plain b.
Proof. induction a as [|c a IH]; [done|]. cbn. by rewrite IH, andb_assoc. Qed.

Lemma plain_hex l : plain (hex l) = true.
Proof.
  induction l as [|b l IH]; [done|]. cbn [hex plain]. rewrite IH.
  by destruct b.
Qed.

Lemma plain_digits s : all_digits s -> plain s = true.
Proof.
  induction s as [|c s IH]; [done|]. intros [Hc Hs]. cbn [plain]. rewrite IH by done. revert Hc.
  by destruct c as [[] [] [] [] [] [] [] []].
Qed.

Lemma nibbles x :
  0 <= byte_to_Z x / 16 < 16 /\ 0 <= byte_to_Z x mod 16 < 16 /\
  byte_to_Z x = 16 * (byte_to_Z x / 16) + byte_to_Z x mod 16.
Proof.
  pose proof (byte_to_Z_range x) as Hx. split; [|split; [by apply Z.mod_pos_bound|by apply Z.div_mod]].
  split; [by apply Z.div_pos; lia|by apply Z.div_lt_upper_bound; lia].
Qed.

Lemma hex_inj a b : length a = length b -> hex a = hex b -> a = b.
Proof.
  revert b. induction a as [|x a IH]; intros [|y b] Hl E; try done. injection E as E1 E2 E3.
  destruct (nibbles x) as (Hx1 & Hx2 & Ex), (nibbles y) as (Hy1 & Hy2 & Ey).
  apply (f_equal hex_value) in E1, E2. rewrite !hex_value_digit in E1, E2 by done.
  f_equal; [|apply IH; [by injection Hl|done]].
  rewrite <- (byte_of_to_Z x), <- (byte_of_to_Z y), Ex, Ey. congruence.
Qed.

Lemma header_Sets_fields kvs r :
  rq_method (header_Sets kvs r) = rq_method r /\ rq_path (header_Sets kvs r) = rq_path r /\
  rq_host (header_Sets kvs r) = rq_host r.
Proof.
  unfold header_Sets. revert r. induction kvs as [|kv kvs IH]; intros r; [done|]. cbn [fold_left].
  by destruct (IH (header_Set kv.1 kv.2 r)) as (-> & -> & ->).
Qed.

Lemma browser_encoding r : rq_header r = ∅ -> header_Get "Accept-Encoding" (header_Sets browser_headers r) = "gzip, deflate, br".
Proof. destruct r as [m p host h]. cbn [rq_header]. intros ->. unfold header_Get. vm_compute. reflexivity. Qed.

Lemma browser_fields front m p host : let r := setBrowserHeaders front (MkRequest m p host ∅) in
  rq_method r = m /\ rq_path r = p /\ (rq_host r = if String.eqb front "" then host else front) /\
  header_Get "Accept-Encoding" r = "gzip, deflate, br".
Proof.
  cbv zeta. unfold setBrowserHeaders.
  destruct (String.eqb front ""); (rewrite browser_encoding by done);
    match goal with |- context [header_Sets ?l ?r] => destruct (header_Sets_fields l r) as (-> & -> & ->) end; done.
Qed.

Lemma NewRequest_base parse base host method p :
  (forall p, plain_path p = true -> parse (base +:+ p) = Ok (host, p)) -> plain_path p = true ->
  NewRequest parse method (base +:+ p) = Ok (MkRequest method p host ∅).
Proof. intros Hp H. unfold NewRequest. by rewrite Hp. Qed.

Lemma handleDownload_url connID w : 0 <= connID < 2 ^ 32 ->
  handleDownload "GET" (download_url "" connID) w =
  match clients w !! connID with Some c => ((Stream, Some c), w) | None => ((NotFound, None), w) end.
Proof.
  intros Hc. unfold handleDownload. change (negb (is_get "GET")) with false. cbv iota.
  assert (TrimPrefix (download_url "" connID) "/download/" = Itoa connID) as -> by (apply (TrimPrefix_app "/download/")).
  rewrite Itoa_nonempty, Sscanf_u32_Itoa by done. unfold getClient. by destruct (clients w !! connID).
Qed.

Lemma getOrCreateSession_known id s w : sessions w !! id = Some s -> getOrCreateSession id w = (s, w).
Proof. intros H. unfold getOrCreateSession. by rewrite H. Qed.

(** The ids of sessions name sessions. *)
Definition sessions_ok (w : World) : Prop := forall id n, sessions w !! id = Some n -> is_Some (sess w !! n).

(** The download request of a session, at the server. *)
Lemma session_download_served id body w : id <> "" -> sessions_ok w ->
  exists n w', handleSessionDownload "GET" ("/download/session/" +:+ id) id body w = ((Stream, Some n), w') /\
    sessions w' !! id = Some n /\ (forall n0, sessions w !! id = Some n0 -> n = n0) /\
    (forall id', id' <> id -> sessions w' !! id' = sessions w !! id') /\
    exists ms, sess w' !! n = Some ms /\ ms_writer ms = Some body /\ ms_ready ms = true.
Proof.
  intros Hid Hw. unfold handleSessionDownload. change (negb (is_get "GET")) with false. cbv iota zeta.
  rewrite TrimPrefix_app, !(proj2 (String.eqb_neq id "") Hid).
  assert (exists n w1, getOrCreateSession id w = (n, w1) /\ sessions w1 !! id = Some n /\
    (forall n0, sessions w !! id = Some n0 -> n = n0) /\
    (forall id', id' <> id -> sessions w1 !! id' = sessions w !! id') /\ exists ms, sess w1 !! n = Some ms)
    as (n & w1 & E & H1 & H2 & H3 & ms & Hms).
  { unfold getOrCreateSession. destruct (sessions w !! id) as [n|] eqn:E.
    - destruct (Hw id n E) as [ms Hms]. eexists n, w. split_and!; try done; [congruence|by eexists].
    - eexists _, _. split; [reflexivity|]. cbn. split; [by apply lookup_insert_eq|]. split; [done|].
      split; [intros id' ?; by apply lookup_insert_ne|]. eexists. by apply lookup_insert_eq. }
  unfold mbind, ST_bind. rewrite E. exists n. eexists. split; [reflexivity|]. split; [done|]. split; [done|].
  split; [done|]. cbn. rewrite lookup_alter_eq, Hms. eexists. split; [reflexivity|]. by destruct ms.
Qed.

Lemma route_download connID : 0 <= connID -> route (download_url "" connID) = HDownload.
Proof.
  intros Hc. unfold download_url. rewrite Itoa_pos by done. pose proof (all_digits_pretty_N (Z.to_N connID)) as Hd.
  destruct (pretty (Z.to_N connID)) as [|c s]; [done|]. destruct Hd as [Hd _]. revert Hd.
  by destruct c as [[] [] [] [] [] [] [] []].
Qed.

Lemma route_session id : route ("/download/session/" +:+ id) = HSessionDownload.
Proof. by destruct id. Qed.

Lemma header_Get_Set k v r : header_Get k (header_Set k v r) = v.
Proof. unfold header_Get. cbn. by rewrite lookup_insert_eq. Qed.
Lemma header_Get_Set_ne k k' v r : k <> k' -> header_Get k (header_Set k' v r) = header_Get k r.
Proof. intros H. unfold header_Get. cbn. by rewrite lookup_insert_ne. Qed.
Lemma method_Set k v r : rq_method (header_Set k v r) = rq_method r.
Proof. done. Qed.
Lemma method_Del k r : rq_method (header_Del k r) = rq_method r.
Proof. done. Qed.
Lemma path_Set k v r : rq_path (header_Set k v r) = rq_path r.
Proof. done. Qed.
Lemma path_Del k r : rq_path (header_Del k r) = rq_path r.
Proof. done. Qed.
Lemma host_Set k v r : rq_host (header_Set k v r) = rq_host r.
Proof. done. Qed.
Lemma host_Del k r : rq_host (header_Del k r) = rq_host r.
Proof. done. Qed.
Lemma header_Get_Del k r : header_Get k (header_Del k r) = "".
Proof. unfold header_Get. cbn. by rewrite lookup_delete_eq. Qed.

Create HintDb http_fields.
#[local] Hint Rewrite method_Set method_Del path_Set path_Del host_Set host_Del : http_fields.

(** ** The property *)


(** ** A concrete run *)

(** url.Parse for the URLs of the host h. *)
Definition demo_parse (url : string) : result (string * string) := Ok ("h", TrimPrefix url "http://h").
Definition demo_config : Config := MkConfig "" false "" "" "" "".

