(* ===== verification/Listeners.v ===== *)
(** The loops that accept connections, all over the program: what each does with an error of
    Accept, and what it leaves behind when it returns.

    An Accept yields a connection, or an error: whether it is a net.Error, whether it is
    temporary (too many open files, a connection aborted while it was queued), and whether the
    context was done when it came.  The handlers run in goroutines of their own, so that a loop
    is described by the connections it starts handlers for. *)

From S2P Require Import Prelude.
From Stdlib Require Import Lia Strings.String.
From stdpp Require Import list strings.

#[local] Open Scope string_scope.
#[local] Open Scope list_scope.

(** ** Accept *)

Record accept_error := MkAcceptError { is_net : bool; temporary : bool; cancelled : bool; text : string }.
Inductive accepted : Type := Conn_ (c : nat) | Fails (e : accept_error).

(** What a loop does after an error: it goes on, or it returns, with an error or with nil. *)
Inductive verdict : Type := Continue | Return (e : option goerr).
Definition policy : Type := accept_error -> verdict.

Definition err_of (e : accept_error) : goerr := Errorf (text e).

(** A loop over what its listener yields: the connections it started handlers for, and how it
    returned, [None] if it still waits; with the rest. *)
Fixpoint accept_loop (p : policy) (evs : list accepted) : list nat * option (option goerr) * list accepted :=
  match evs with
  | [] => ([], None, [])
  | Conn_ c :: evs => let '(cs, r, rest) := accept_loop p evs in (c :: cs, r, rest)
  | Fails e :: evs => match p e with Continue => accept_loop p evs | Return r => ([], Some r, evs) end
  end.

(** A loop of the program: its policy, and whether it closes its listener when it returns. *)
Record server_loop := MkLoop { on_error : policy; closes : bool }.

(** ** The loops *)

(** obfs/server: serverAcceptLoop. *)
Definition serverAcceptLoop : server_loop :=
  MkLoop (fun e => if is_net e && negb (temporary e) then Return (Some (err_of e)) else Continue) true.

(** snowflake: ServeLocalSOCKS, ServeLocalTCP and ServeTunnelForward, acceptKCP, and
    RunStreamAcceptor; and ListenAndServe of socks5, which returns the error. *)
Definition sf_policy (r : accept_error -> option goerr) : policy :=
  fun e => if is_net e && temporary e then Continue else Return (r e).
Definition ServeLocalSOCKS : server_loop := MkLoop (sf_policy (fun _ => None)) false.
Definition ServeLocalTCP : server_loop := MkLoop (sf_policy (fun _ => None)) false.
Definition ServeTunnelForward : server_loop := MkLoop (sf_policy (fun _ => None)) false.
Definition acceptKCP : server_loop := MkLoop (sf_policy (fun _ => None)) false.
Definition RunStreamAcceptor : server_loop := MkLoop (sf_policy (fun _ => None)) false.
Definition ListenAndServe : server_loop := MkLoop (sf_policy (fun e => Some (err_of e))) false.

(** The FTP server: the loop of Run, and that of a data pool; and the SOCKS5 loop of the client. *)
Definition ErrCanceled : goerr := Errorf "context canceled".
Definition until_done (r : option goerr) : policy := fun e => if cancelled e then Return r else Continue.
Definition ftp_Run : server_loop := MkLoop (until_done (Some ErrCanceled)) true.
Definition pool_acceptLoop : server_loop := MkLoop (until_done None) true.
Definition serveSocks5 : server_loop := MkLoop (until_done None) true.

(** dpi/client: RunTCP and serveHTTP; proxy/httpproxy: Serve; dpi/server: runReverse;
    common/muxpipe: runReverse, which closes. *)
Definition return_on_error : policy := fun _ => Return None.
Definition RunTCP : server_loop := MkLoop return_on_error false.
Definition serveHTTP : server_loop := MkLoop return_on_error false.
Definition httpproxy_Serve : server_loop := MkLoop return_on_error false.
Definition dpi_runReverse : server_loop := MkLoop return_on_error false.
Definition mux_runReverse : server_loop := MkLoop return_on_error true.

(** What has become of the listener: whether its address is bound although nobody accepts. *)
Definition orphaned (l : server_loop) (evs : list accepted) : bool :=
  match (accept_loop (on_error l) evs).1.2 with Some _ => negb (closes l) | None => false end.

(** ** Lemmas *)

Definition conns (evs : list accepted) : list nat :=
  omap (fun ev => match ev with Conn_ c => Some c | Fails _ => None end) evs.
Definition tolerates (p : policy) (ev : accepted) : Prop :=
  match ev with Conn_ _ => True | Fails e => p e = Continue end.

(** A loop starts a handler for each connection before the first error that ends it, in order. *)
Lemma accept_loop_spec p evs :
  let '(cs, r, rest) := accept_loop p evs in
  exists seen, Forall (tolerates p) seen /\ cs = conns seen /\
    match r with
    | None => evs = seen /\ rest = []
    | Some r => exists e, evs = seen ++ Fails e :: rest /\ p e = Return r
    end.
Proof.
  induction evs as [|[c|e] evs IH]; cbn [accept_loop]; [by exists []| |].
  - destruct (accept_loop p evs) as [[cs r] rest]. destruct IH as (seen & Hs & -> & Hr). exists (Conn_ c :: seen).
    split; [by constructor|]. split; [done|]. destruct r as [r|]; [|by destruct Hr as [-> ->]].
    destruct Hr as (e & -> & He). by exists e.
  - destruct (p e) as [|r] eqn:Ep.
    + destruct (accept_loop p evs) as [[cs r] rest]. destruct IH as (seen & Hs & -> & Hr). exists (Fails e :: seen).
      split; [by constructor|]. split; [done|]. destruct r as [r|]; [|by destruct Hr as [-> ->]].
      destruct Hr as (e' & -> & He). by exists e'.
    + exists []. split; [constructor|]. split; [done|]. by exists e.
Qed.

Lemma accept_loop_tolerant p evs : Forall (tolerates p) evs -> accept_loop p evs = (conns evs, None, []).
Proof.
  induction 1 as [|[c|e] evs He _ IH]; cbn [accept_loop]; [done| |]; [by rewrite IH|].
  cbn in He. by rewrite He.
Qed.

(** An error that passes: temporary, with the context not done. *)
Definition transient (e : accept_error) : Prop := is_net e = true /\ temporary e = true /\ cancelled e = false.
Definition only_transient (evs : list accepted) : Prop :=
  Forall (fun ev => match ev with Conn_ _ => True | Fails e => transient e end) evs.

Definition patient : list server_loop :=
  [serverAcceptLoop; ServeLocalSOCKS; ServeLocalTCP; ServeTunnelForward; acceptKCP; RunStreamAcceptor; ListenAndServe;
   ftp_Run; pool_acceptLoop; serveSocks5].
Definition impatient : list server_loop := [RunTCP; serveHTTP; httpproxy_Serve; dpi_runReverse].

Lemma patient_tolerates l evs : In l patient -> only_transient evs -> Forall (tolerates (on_error l)) evs.
Proof.
  intros Hl He. eapply Forall_impl; [exact He|]. intros [c|e]; [done|]. intros (H1 & H2 & H3).
  repeat destruct Hl as [<-|Hl]; try done; cbn; unfold sf_policy, until_done; by rewrite ?H1, ?H2, ?H3.
Qed.

(** ** The property *)


(** ** A concrete run *)

Definition too_many_files : accept_error := MkAcceptError true true false "accept: too many open files".
Definition some_events : list accepted := [Conn_ 1; Fails too_many_files; Conn_ 2].

