(* ===== verification/Support.v ===== *)
(** Small parts of the program: the size formatter of the FTP metrics (ftp/common/metrics.go), the
    loader of ini files (common/ini), the port tool (common/utils), the TLS dialer of the DPI
    client (dpi/client/utls_dial.go), the self-signed certificates of the DPI server
    (dpi/server/certs.go), and the set-up of a snowflake client session
    (snowflake/common/standalone/session.go, lines 16 to 54). *)

From S2P Require Import Prelude GoLib.
From Stdlib Require Import ZArith Lia Strings.Byte Strings.Ascii Strings.String.
From stdpp Require Import gmap sets strings list.

#[local] Open Scope string_scope.
#[local] Open Scope Z_scope.
#[local] Open Scope list_scope.

(** ** Sizes *)

(** [int64(z)] *)
Definition i64 (z : Z) : Z := (z + 2 ^ 63) mod 2 ^ 64 - 2 ^ 63.

Definition units : string := "KMGTPE".

(** The loop of humanBytes: [div] and [exp] when [n] has become less than a unit. *)
Fixpoint unit_loop (fuel : nat) (n div exp : Z) : option (Z * Z) :=
  match fuel with
  | O => None
  | S fuel => if n >=? 1024 then unit_loop fuel (n ÷ 1024) (i64 (div * 1024)) (exp + 1) else Some (div, exp)
  end.

(** What humanBytes prints: a number of bytes, or a quotient (with one decimal) and a unit. *)
Inductive size : Type := Plain (b : Z) | Scaled (b div : Z) (unit : ascii).

Definition humanBytes (b : Z) : result size :=
  if b <? 1024 then Ok (Plain b)
  else
    match unit_loop 64 (b ÷ 1024) 1024 0 with
    | None => OutOfFuel
    | Some (div, exp) =>
        match String.get (Z.to_nat exp) units with
        | Some u => Ok (Scaled b div u)
        | None => Panic "index out of range"
        end
    end.

(** ** Ini files *)

(** The map of the lines, a later line for a key replacing an earlier one.  A line is split at
    every equals sign and only its first two parts are used. *)
Fixpoint ini_lines (lines : list string) (m : gmap string string) : result (gmap string string) :=
  match lines with
  | [] => Ok m
  | line :: lines =>
      let line := TrimSpace line in
      if HasPrefix line "#" || (slen line =? 0) then ini_lines lines m
      else
        match Split line "=" with
        | k :: v :: _ => ini_lines lines (<[k := v]> m)
        | _ => Panic "index out of range [1] with length 1"
        end
  end.

(** LoadIniFile, for what os.ReadFile gives; a file that cannot be read is a nil map. *)
Definition LoadIniFile (file : option string) : result (option (gmap string string)) :=
  match file with
  | None => Ok None
  | Some config => m ← ini_lines (Split config "010") ∅; Ok (Some m)
  end.

(** ** Ports *)

(** IsTcpOpen: [dials] tells whether an address can be dialed within a second. *)
Definition IsTcpOpen (dials : string -> bool) (port host : string) : bool := dials (JoinHostPort host port).

(** GetRandomPort, from rand.Intn. *)
Definition GetRandomPort (Intn : Z -> Z) : Z := Intn (35000 - 1025) + 1025.

(** ** TLS dialing *)

(** The part of a tls.Config that the dialer looks at. *)
Record tls_config := MkTlsConfig { ServerName : string; InsecureSkipVerify : bool }.

Definition newUTLSDialer (config : option tls_config) : tls_config := default (MkTlsConfig "" false) config.

(** DialContext: the address that is dialed and the configuration of the handshake, on a copy. *)
Definition utls_DialContext (d : tls_config) (addr : string) : string * tls_config :=
  let host := match SplitHostPort addr with Ok (host, _) => host | _ => addr end in
  (addr, if String.eqb (ServerName d) "" then MkTlsConfig host (InsecureSkipVerify d) else d).

(** ** Self-signed certificates *)

(** The template of the certificate; times are in nanoseconds. *)
Record Certificate := MkCertificate {
  SerialNumber : Z; Organization : list string; CommonName : string; NotBefore : Z; NotAfter : Z;
  KeyUsage : list string; ExtKeyUsage : list string; BasicConstraintsValid : bool
}.

Section Certs.
(** ecdsa.GenerateKey on P-256, rand.Int below a bound, x509.CreateCertificate (of a template, signed
    by its own key), x509.MarshalECPrivateKey, and the PEM encoding of a block of a type. *)
Context {key : Type} (GenerateKey : result key) (Int : Z -> result Z)
  (CreateCertificate : Certificate -> key -> result (list byte)) (MarshalECPrivateKey : key -> result (list byte))
  (EncodeToMemory : string -> list byte -> list byte).

Definition wrap {A} (msg : string) (r : result A) : result A :=
  match r with Err _ => Err (Errorf msg) | r => r end.

Definition year : Z := 365 * 24 * 3600 * 1000000000.
Definition template (serial now : Z) : Certificate :=
  MkCertificate serial ["CDN Service"] "localhost" now (now + year)
    ["DigitalSignature"; "KeyEncipherment"] ["ServerAuth"] true.

(** generateSelfSigned at time [now]: the certificate and the key. *)
Definition generateSelfSigned (now : Z) : result (list byte * list byte) :=
  k ← wrap "generate key: %w" GenerateKey;
  serial ← Int (Z.shiftl 1 128);
  certDER ← wrap "create cert: %w" (CreateCertificate (template serial now) k);
  keyDER ← MarshalECPrivateKey k;
  Ok (EncodeToMemory "CERTIFICATE" certDER, EncodeToMemory "EC PRIVATE KEY" keyDER).
End Certs.

(** ** A snowflake client session *)

(** NewClientSession, on the set of what is open: the packet connection and the KCP session on it,
    for the outcomes of kcp.NewConn2 and smux.Client.  Its result is the closers. *)
Definition open_ (r : string) : ST (gset string) unit := modify (fun o => {[r]} ∪ o).
Definition close_ (r : string) : ST (gset string) unit := modify (fun o => o ∖ {[r]}).

Definition NewClientSession (kcp smux : option goerr) : ST (gset string) (result (list string)) :=
  _ ← open_ "pconn";
  match kcp with
  | Some err => _ ← close_ "pconn"; mret (Err err)
  | None =>
      _ ← open_ "conn";
      match smux with
      | Some err => _ ← close_ "conn"; _ ← close_ "pconn"; mret (Err err)
      | None => mret (Ok ["conn"; "pconn"])
      end
  end.

(** The Close of a sessionCloser: every closer is closed, in order; the first error is returned. *)
Fixpoint sessionCloser_Close (closers : list (string * option goerr)) (first : option goerr) :
    ST (gset string) (option goerr) :=
  match closers with
  | [] => mret first
  | (c, err) :: closers =>
      _ ← close_ c;
      sessionCloser_Close closers (match first with None => err | _ => first end)
  end.

(** configureKCP: stream mode, the windows, and the four settings of SetNoDelay. *)
Record kcp_config := MkKcp { stream_mode : bool; snd_wnd : Z; rcv_wnd : Z; no_delay : Z * Z * Z * Z }.
Definition configureKCP : kcp_config := MkKcp true 65535 65535 (0, 0, 0, 1).

(** ** Lemmas: sizes *)

Lemma unit_loop_spec b fuel e : 0 <= e -> 1024 ^ (e + 1) <= b < 2 ^ 63 -> (6 <= Z.of_nat fuel + e) ->
  exists e', unit_loop fuel (b / 1024 ^ (e + 1)) (1024 ^ (e + 1)) e = Some (1024 ^ (e' + 1), e') /\
    e <= e' <= 5 /\ 1024 ^ (e' + 1) <= b < 1024 ^ (e' + 2).
Proof.
  revert e. induction fuel as [|fuel IH]; intros e He Hb Hf.
  - exfalso. assert (1024 ^ 7 <= 1024 ^ (e + 1)) by (apply Z.pow_le_mono_r; lia). lia.
  - assert (Hpos : 0 < 1024 ^ (e + 1)) by (apply Z.pow_pos_nonneg; lia).
    assert (Hs : 1024 ^ (e + 2) = 1024 ^ (e + 1) * 1024).
    { replace (e + 2) with ((e + 1) + 1) by lia. by rewrite Z.pow_add_r by lia. }
    cbn [unit_loop]. rewrite Z.geb_leb. destruct (Z.leb_spec 1024 (b / 1024 ^ (e + 1))) as [Hge|Hlt].
    + assert (Hn : 1024 ^ (e + 2) <= b).
      { rewrite Hs. pose proof (Z.mul_div_le b (1024 ^ (e + 1)) Hpos). nia. }
      rewrite Z.quot_div_nonneg by (apply Z.div_pos || done; lia).
      rewrite Z.div_div by lia. rewrite <- Hs. unfold i64. rewrite Z.mod_small by lia.
      replace (1024 ^ (e + 2) + 2 ^ 63 - 2 ^ 63) with (1024 ^ (e + 1 + 1)) by (replace (e + 1 + 1) with (e + 2) by lia; lia).
      replace (e + 2) with (e + 1 + 1) in * by lia.
      destruct (IH (e + 1)) as (e' & E & ? & ?); [lia|lia|lia|]. exists e'. split; [exact E|]. lia.
    + assert (b < 1024 ^ (e + 2)).
      { rewrite Hs. pose proof (Z.mod_pos_bound b (1024 ^ (e + 1)) Hpos).
        pose proof (Z.div_mod b (1024 ^ (e + 1)) ltac:(lia)). nia. }
      exists e. split; [done|]. split; [|lia]. split; [lia|].
      destruct (Z.le_gt_cases e 5) as [|Hgt]; [done|].
      assert (1024 ^ 7 <= 1024 ^ (e + 1)) by (apply Z.pow_le_mono_r; lia). lia.
Qed.

(** Sizes.  For every 64-bit count the loop ends without overflow, the unit exists, and the number
    that is printed with a unit is at least one and less than 1024. *)
Theorem humanBytes_exact (b : Z) : - 2 ^ 63 <= b < 2 ^ 63 ->
  (b < 1024 -> humanBytes b = Ok (Plain b)) /\
  (1024 <= b -> exists e u, 0 <= e <= 5 /\ String.get (Z.to_nat e) units = Some u /\
     humanBytes b = Ok (Scaled b (1024 ^ (e + 1)) u) /\ 1024 ^ (e + 1) <= b < 1024 ^ (e + 2)).
Proof.
  intros Hb. unfold humanBytes. destruct (Z.ltb_spec b 1024) as [Hlt|Hge]; (split; [|]); intros H; try lia; [done|].
  destruct (unit_loop_spec b 64 0) as (e & E & He & Hr); [lia|lia|lia|].
  change (0 + 1) with 1 in E. rewrite Z.quot_div_nonneg by lia. change (1024 ^ 1) with 1024 in E. rewrite E.
  assert (exists u, String.get (Z.to_nat e) units = Some u) as [u Hu].
  { assert (e = 0 \/ e = 1 \/ e = 2 \/ e = 3 \/ e = 4 \/ e = 5) as H6 by lia.
    destruct H6 as [->|[->|[->|[->|[->| ->]]]]]; by eexists. }
  exists e, u. rewrite Hu. split; [lia|done].
Qed.

(** ** Lemmas: ini files *)

(** A line that LoadIniFile looks at, and one on which it panics. *)
Definition skipped (line : string) : bool := HasPrefix (TrimSpace line) "#" || (slen (TrimSpace line) =? 0).
Definition bad_line (line : string) : Prop := skipped line = false /\ free "=" (TrimSpace line).

Lemma not_free_split c s : ~ free c s -> exists a b, s = a +:+ String c b /\ free c a.
Proof.
  induction s as [|d s IH]; [by intros []|]. intros H. destruct (decide (d = c)) as [->|Hd]; [by exists "", s|].
  destruct IH as (a & b & -> & Ha); [intros Hs; by apply H|]. by exists (String d a), b.
Qed.

Lemma Split_cases s sep : (free sep s /\ Split s sep = [s]) \/ (~ free sep s /\ exists k v r, Split s sep = k :: v :: r).
Proof.
  destruct (decide (free sep s)) as [Hf|Hf]; [left; by rewrite Split_cons_free|]. right. split; [done|].
  destruct (not_free_split _ _ Hf) as (a & b & -> & Ha). rewrite Split_app by done. exists a.
  destruct (decide (free sep b)) as [Hb|Hb]; [rewrite Split_cons_free by done; by exists b, []|].
  destruct (not_free_split _ _ Hb) as (c & d & -> & Hc). rewrite Split_app by done. by exists c, (Split d sep).
Qed.

Lemma ini_lines_total lines m :
  (Forall (fun l => ~ bad_line l) lines -> exists m', ini_lines lines m = Ok m') /\
  (Exists bad_line lines -> exists msg, ini_lines lines m = Panic msg).
Proof.
  revert m. induction lines as [|l lines IH]; intros m; (split; [|]).
  - intros _. by exists m.
  - intros H. inversion H.
  - intros [Hl H]%Forall_cons. cbn [ini_lines]. fold (skipped l). destruct (skipped l) eqn:Es; [by apply IH|].
    destruct (Split_cases (TrimSpace l) "=") as [[Hf _]|[_ (k & v & r & ->)]]; [by destruct Hl|by apply IH].
  - cbn [ini_lines]. fold (skipped l). intros [[Hs Hf]|H]%Exists_cons.
    + rewrite Hs. destruct (Split_cases (TrimSpace l) "=") as [[_ ->]|[Hn _]]; [by eexists|done].
    + destruct (skipped l); [by apply IH|]. destruct (Split (TrimSpace l) "=") as [|k [|v r]]; try by eexists. by apply IH.
Qed.

(** An entry that LoadIniFile gives back as it was written. *)
Definition entry_ok (kv : string * string) : Prop :=
  Forall solid (bytes_of (kv.1 +:+ String "=" kv.2)) /\ free "=" kv.1 /\ free "=" kv.2 /\
  free "010" kv.1 /\ free "010" kv.2 /\ HasPrefix (kv.1 +:+ String "=" kv.2) "#" = false.
Definition ini_entry (kv : string * string) : string := kv.1 +:+ String "=" kv.2.

Lemma ini_lines_entries kvs rest m : Forall entry_ok kvs ->
  ini_lines (map ini_entry kvs ++ rest) m = ini_lines rest (fold_left (fun m kv => <[kv.1 := kv.2]> m) kvs m).
Proof.
  intros H. revert m. induction H as [|[k v] kvs (Hs & Hk & Hv & _ & _ & Hh) _ IH]; intros m; [done|].
  cbn [map app ini_lines fold_left]. change (ini_entry (k, v)) with (k +:+ String "=" v). cbn [fst snd] in *. rewrite !(TrimSpace_solid _ Hs).
  rewrite Hh. cbn [orb]. assert (slen (k +:+ String "=" v) =? 0 = false) as ->.
  { apply Z.eqb_neq. rewrite slen_app, slen_cons. pose proof (slen_nonneg k). pose proof (slen_nonneg v). lia. }
  rewrite Split_app, Split_cons_free by done. by rewrite IH.
Qed.

(** Ini files.  The loader gives back the entries of a file as they were written, the last one of a
    key; and it ends in a panic exactly for the files with a line that is neither empty nor a
    comment and has no equals sign. *)
Theorem LoadIniFile_exact :
  (forall kvs, kvs <> [] -> Forall entry_ok kvs ->
     LoadIniFile (Some (strings_Join (map ini_entry kvs) (String "010" ""))) =
       Ok (Some (fold_left (fun m kv => <[kv.1 := kv.2]> m) kvs ∅))) /\
  (forall s, (Forall (fun l => ~ bad_line l) (Split s "010") -> exists m, LoadIniFile (Some s) = Ok (Some m)) /\
     (Exists bad_line (Split s "010") -> exists msg, LoadIniFile (Some s) = Panic msg)).
Proof.
  split.
  - intros kvs Hne H. cbn [LoadIniFile]. rewrite Split_Join; [| by destruct kvs |].
    + pose proof (ini_lines_entries kvs [] ∅ H) as E. rewrite app_nil_r in E. by rewrite E.
    + apply Forall_map. eapply Forall_impl; [exact H|]. intros [k v] (_ & _ & _ & H1 & H2 & _). cbn in *.
      unfold ini_entry. apply free_app. by split.
  - intros s. destruct (ini_lines_total (Split s "010") ∅) as [H1 H2]. cbn [LoadIniFile]. split.
    + intros H. destruct (H1 H) as [m E]. exists m. by rewrite E.
    + intros H. destruct (H2 H) as [msg E]. exists msg. by rewrite E.
Qed.

(** ** Snowflake sessions *)

Lemma closer_first (l : list (string * option goerr)) first o :
  (sessionCloser_Close l first o).1 = match first with Some e => Some e | None => head (omap snd l) end /\
  (sessionCloser_Close l first o).2 = o ∖ list_to_set (map fst l).
Proof.
  revert first o. induction l as [|[c err] l IH]; intros first o; cbn [sessionCloser_Close map].
  - split; [by destruct first|]. set_solver.
  - unfold mbind, ST_bind. cbn [close_ modify]. destruct (IH (match first with None => err | _ => first end) (o ∖ {[c]})) as [H1 H2].
    split; [rewrite H1; by destruct first, err|]. unfold close_, modify. cbn. rewrite H2. cbn. set_solver.
Qed.

(** A client session.  When it cannot be made, everything that was opened for it is closed, and the
    error is the one that was met; when it can, its closer closes what it has opened, all of it
    whatever errors there are, and returns the first of them. *)
Theorem NewClientSession_closes (kcp smux : option goerr) (o : gset string) : "pconn" ∉ o -> "conn" ∉ o ->
  let '(r, o') := NewClientSession kcp smux o in
  match r with
  | Ok closers => kcp = None /\ smux = None /\ o' = {["conn"; "pconn"]} ∪ o /\
      forall errs, map fst errs = closers ->
        sessionCloser_Close errs None o' = (head (omap snd errs), o)
  | Err e => o' = o /\ (kcp = Some e \/ kcp = None /\ smux = Some e)
  | _ => False
  end.
Proof.
  intros Hp Hc. unfold NewClientSession, mbind, ST_bind, open_, close_, modify, mret, ST_ret.
  destruct kcp as [e|]; [split; [set_solver|by left]|]. destruct smux as [e|]; [split; [set_solver|by right]|].
  split; [done|]. split; [done|]. split; [set_solver|]. intros errs He.
  destruct (closer_first errs None ({["conn"]} ∪ ({["pconn"]} ∪ o))) as [H1 H2].
  destruct (sessionCloser_Close errs None _) as [r o']. cbn [fst snd] in *. rewrite H1, H2, He. f_equal. set_solver.
Qed.

(** ** Certificates *)

(** The pair that generateSelfSigned gives is a certificate made from, and signed with, the key
    that is returned with it; it is valid from now for a year; and it is given exactly when
    every step succeeds. *)
Theorem generateSelfSigned_pair {key} (gen : result key) Int create marshal encode now c k :
  generateSelfSigned gen Int create marshal encode now = Ok (c, k) <->
  exists secret serial der kder, gen = Ok secret /\ Int (2 ^ 128) = Ok serial /\
    create (template serial now) secret = Ok der /\ marshal secret = Ok kder /\
    c = encode "CERTIFICATE" der /\ k = encode "EC PRIVATE KEY" kder /\
    NotAfter (template serial now) - NotBefore (template serial now) = 31536000 * 1000000000.
Proof.
  unfold generateSelfSigned. change (Z.shiftl 1 128) with (2 ^ 128).
  split.
  - destruct gen as [secret| | |]; cbn; try done. destruct (Int _) as [serial| | |]; cbn; try done.
    destruct (create _ _) as [der| | |] eqn:E1; cbn; try done. destruct (marshal secret) as [kder| | |] eqn:E2; cbn; try done.
    intros [= <- <-]. exists secret, serial, der, kder. split_and!; try done. unfold year. lia.
  - intros (secret & serial & der & kder & -> & -> & E1 & E2 & -> & -> & _). cbn. rewrite E1. cbn. by rewrite E2.
Qed.
