(* ===== verification/HttpDialer.v ===== *)
(** The HTTP dialer of proxy/http/http.go: connecting to an address through an HTTP proxy.  The
    reads of the connection it gives are in Proxies.v.  net/http/httputil, net/url and the
    resolver are arguments. *)

From S2P Require Import Prelude GoLib Proxies.
From Stdlib Require Import ZArith Lia Strings.Byte Strings.String.
From stdpp Require Import list strings.

#[local] Open Scope string_scope.
#[local] Open Scope Z_scope.

Record httpProxy := MkHttpProxy { hostPort : string; haveAuth : bool; username : string; password : string }.

(** newHTTP, from the host and the user of its URL. *)
Definition newHTTP (uriHost : string) (user : option (string * option string)) : httpProxy :=
  match user with
  | None => MkHttpProxy uriHost false "" ""
  | Some (name, pass) => MkHttpProxy uriHost true name (default "" pass)
  end.

(** ErrPersistEOF of httputil: the proxy asks to close after its answer. *)
Definition ErrPersistEOF : goerr := Errorf "persistent connection closed".

(** The request that is sent: CONNECT to [target], with the credentials if there are any. *)
Record connect_request := MkConnect { target : string; proxy_authorization : option string }.

Section Dial.
(** Dialing the proxy; net.ResolveTCPAddr; the text of the request's URL, from url.Parse and
    http.NewRequest; and the answer to the request: an error and a status. *)
Context (forward_Dial : string -> result unit) (ResolveTCPAddr : string -> result string)
  (connect_url : string -> result string) (Do : connect_request -> option goerr * Z).

(** Dial: the remote address of the connection, and whether the connection to the proxy is open at
    the end, [None] if there was none. *)
Definition Dial (s : httpProxy) (addr : string) : result string * option bool :=
  match forward_Dial (hostPort s) with
  | Err err => (Err err, None)
  | Panic m => (Panic m, None)
  | OutOfFuel => (OutOfFuel, None)
  | Ok _ =>
      match (remoteAddr ← ResolveTCPAddr addr; url ← connect_url addr; Ok (remoteAddr, url)) with
      | Ok (remoteAddr, url) =>
          let req := MkConnect url (if haveAuth s then Some (proxyAuth (username s) (password s)) else None) in
          let '(err, StatusCode) := Do req in
          match (match err with Some e => if decide (e = ErrPersistEOF) then None else Some e | None => None end) with
          | Some e => (Err e, Some false)
          | None =>
              if StatusCode =? 200 then (Ok remoteAddr, Some true)
              else (Err (Errorf "proxy error: %s"), Some false)
          end
      | Err err => (Err err, Some false)
      | Panic m => (Panic m, Some false)
      | OutOfFuel => (OutOfFuel, Some false)
      end
  end.

(** The branches of Dial that fail, and those that succeed. *)
Ltac refuse :=
  split; [intros ra'; split; [done|intros (u' & url' & err' & ? & ? & ? & He & Hd);
      simplify_eq; destruct He; simplify_eq; congruence]
    |split; [done|by intros [? ?]]].
Ltac accept url err :=
  split; [intros ra'; split; [intros [= <-]; eexists _, url, err; split_and!; try done; auto
      |intros (u' & url' & err' & ? & ? & ? & He & Hd); by simplify_eq]
    |split; [by eexists|done]].

(** Dialing.  A dial succeeds exactly when the proxy can be reached, the address can be resolved
    here, and the proxy answers 200 to a CONNECT that carries the credentials of the proxy's URL;
    the connection to the proxy is left open in this case alone.  So a name that only the proxy
    can resolve cannot be reached, and every name is looked up outside of the proxy. *)
Theorem Http_dialer (s : httpProxy) (addr : string) :
  (forall remoteAddr, (Dial s addr).1 = Ok remoteAddr <->
     exists u url err, forward_Dial (hostPort s) = Ok u /\ ResolveTCPAddr addr = Ok remoteAddr /\
       connect_url addr = Ok url /\ (err = None \/ err = Some ErrPersistEOF) /\
       Do (MkConnect url (if haveAuth s then Some (proxyAuth (username s) (password s)) else None)) = (err, 200)) /\
  ((Dial s addr).2 = Some true <-> exists remoteAddr, (Dial s addr).1 = Ok remoteAddr).
Proof.
  unfold Dial. destruct (forward_Dial (hostPort s)) as [u|e|m|]; [|refuse..].
  destruct (ResolveTCPAddr addr) as [ra|e|m|]; cbn [mbind result_bind]; [|refuse..].
  destruct (connect_url addr) as [url|e|m|]; cbn [mbind result_bind]; [|refuse..].
  set (req := MkConnect url _). destruct (Do req) as [err code] eqn:Ed. unfold req in Ed.
  destruct err as [e|]; [destruct (decide (e = ErrPersistEOF)) as [->|Hne]|];
    [destruct (Z.eqb_spec code 200) as [->|]| |destruct (Z.eqb_spec code 200) as [->|]]; try refuse.
  - accept url (Some ErrPersistEOF).
  - accept url (@None goerr).
Qed.
End Dial.
